(** * UE Builder: configuration, build and debug managers

    A shallow embedding of [src/managers/configManager.ts],
    [src/managers/buildManager.ts] and [src/managers/debugManager.ts].

    - JavaScript strings are [string]s; [!s] on a string is emptiness.
    - Progress values are JavaScript numbers, that is doubles; a finite
      double is held as the rational [Q] it stands for, and the arithmetic
      of the listeners ([10 + progress * 0.4], the time-based estimate)
      rounds to the nearest double after each operation ([Module Double]).
    - An [async] method is a computation in a resumption monad: it runs
      atomically up to its next [await], where it hands back a continuation.
      The event loop ([step]) resumes continuations when the awaited promise
      settles and runs the stream listeners of child processes.
    - Everything a method does to the outside (webview messages, notifications,
      output-channel text, console, file removals, spawned processes) is
      appended, in program order, to the [log] of the [World]. *)

From Stdlib Require Import String Ascii List ZArith QArith Qround Qpower Bool Arith Lia
  Sorted.
Import ListNotations.
Local Close Scope Q_scope.
Local Open Scope string_scope.

(** ** JavaScript string helpers *)

Definition dquote : string := String (ascii_of_nat 34) EmptyString.
Definition newline : string := String (ascii_of_nat 10) EmptyString.

Definition chars (s : string) : list ascii := list_ascii_of_string s.
Definition str (cs : list ascii) : string := string_of_list_ascii cs.

(** [!s] for a string [s]. *)
Definition falsy (s : string) : bool :=
  match s with EmptyString => true | String _ _ => false end.

(** [s.slice(a, b)] for [0 <= a] and [0 <= b]. *)
Definition slice (a b : nat) (cs : list ascii) : list ascii :=
  firstn (b - a) (skipn a cs).

(** [hay.includes(needle)]. *)
Fixpoint includes (needle hay : string) : bool :=
  String.prefix needle hay ||
  match hay with
  | EmptyString => false
  | String _ rest => includes needle rest
  end.

(** [s.endsWith(suffix)]. *)
Definition endsWith (suffix s : string) : bool :=
  String.prefix (str (rev (chars suffix))) (str (rev (chars s))).

(** [arr.join(sep)]. *)
Fixpoint join_with (sep : string) (l : list string) : string :=
  match l with
  | [] => EmptyString
  | [x] => x
  | x :: rest => x ++ sep ++ join_with sep rest
  end.

Definition is_digit (c : ascii) : bool :=
  let n := nat_of_ascii c in (48 <=? n)%nat && (n <=? 57)%nat.

Definition digit_value (c : ascii) : Z := Z.of_nat (nat_of_ascii c - 48).

(** [String(n)] for a non-negative integer. *)
Definition digit_char (n : nat) : ascii := ascii_of_nat (48 + n).

Fixpoint nat_digits (fuel n : nat) (acc : list ascii) : list ascii :=
  match fuel with
  | O => acc
  | S fuel' =>
      let acc' := digit_char (n mod 10) :: acc in
      if (n / 10 =? 0)%nat then acc' else nat_digits fuel' (n / 10) acc'
  end.

Definition string_of_nat (n : nat) : string := str (nat_digits (S n) n []).

Definition string_of_Z (z : Z) : string :=
  if (z <? 0)%Z then "-" ++ string_of_nat (Z.to_nat (- z))
  else string_of_nat (Z.to_nat z).

(** ** Node's [path] module, Windows flavour

    The managers run on Windows only ([taskkill], [Build.bat], [cmd /c]), where
    [path] is [path.win32].  The module is part of Node, not of the
    repository; this is a model of the three functions the managers call,
    following the library's algorithms index by index. *)

Module Path.

Local Open Scope list_scope.

Definition isPathSeparator (c : ascii) : bool :=
  (c =? "/")%char || (c =? "\")%char.

Definition isWindowsDeviceRoot (c : ascii) : bool :=
  let n := nat_of_ascii c in
  ((65 <=? n)%nat && (n <=? 90)%nat) || ((97 <=? n)%nat && (n <=? 122)%nat).

(** [p(path.charCodeAt(i))], false past the end. *)
Definition at_ (cs : list ascii) (i : nat) (p : ascii -> bool) : bool :=
  match nth_error cs i with Some c => p c | None => false end.

Definition is_colon (c : ascii) : bool := (c =? ":")%char.
Definition is_dot (c : ascii) : bool := (c =? ".")%char.

Fixpoint take_while (p : ascii -> bool) (cs : list ascii) : list ascii :=
  match cs with
  | c :: rest => if p c then c :: take_while p rest else []
  | [] => []
  end.

(** [while (j < len && p(path[j])) j++]. *)
Definition scan (p : ascii -> bool) (cs : list ascii) (j : nat) : nat :=
  j + length (take_while p (skipn j cs)).

Definition nonsep (c : ascii) : bool := negb (isPathSeparator c).

(** The root found at the start of a path by [dirname]. *)
Variant Root := RootWhole | RootNone | RootAt (rootEnd : nat).

Definition dirname_root (cs : list ascii) : Root :=
  let len := length cs in
  if at_ cs 0 isPathSeparator then
    if at_ cs 1 isPathSeparator then
      let j := scan nonsep cs 2 in
      if (j <? len)%nat && negb (j =? 2)%nat then
        let last := j in
        let j := scan isPathSeparator cs j in
        if (j <? len)%nat && negb (j =? last)%nat then
          let last := j in
          let j := scan nonsep cs j in
          if (j =? len)%nat then RootWhole
          else if negb (j =? last)%nat then RootAt (j + 1)
          else RootAt 1
        else RootAt 1
      else RootAt 1
    else RootAt 1
  else if at_ cs 0 isWindowsDeviceRoot && at_ cs 1 is_colon then
    RootAt (if (2 <? len)%nat && at_ cs 2 isPathSeparator then 3 else 2)
  else RootNone.

(** [for (let i = len - 1; i >= offset; --i)] of [dirname]; [n] iterations
    remain and [i = offset + n - 1]. *)
Fixpoint dirname_loop (cs : list ascii) (offset n : nat) (matchedSlash : bool)
  : option nat :=
  match n with
  | O => None
  | S n' =>
      let i := offset + n' in
      if at_ cs i isPathSeparator then
        if matchedSlash then dirname_loop cs offset n' true else Some i
      else dirname_loop cs offset n' false
  end.

Definition dirname (path : string) : string :=
  let cs := chars path in
  let len := length cs in
  match cs with
  | [] => "."
  | [c] => if isPathSeparator c then path else "."
  | _ =>
      match dirname_root cs with
      | RootWhole => path
      | r =>
          let offset := match r with RootAt e => e | _ => 0 end in
          match dirname_loop cs offset (len - offset) true with
          | Some e => str (slice 0 e cs)
          | None =>
              match r with
              | RootAt e => str (slice 0 e cs)
              | _ => "."
              end
          end
      end
  end.

(** Loop state of [basename(path, suffix)]. *)
Record BaseState := {
  b_start : nat;
  b_end : option nat;
  b_matchedSlash : bool;
  b_extIdx : option nat;
  b_firstNonSlashEnd : option nat
}.

Fixpoint basename_ext_loop (cs suf : list ascii) (start0 n : nat) (st : BaseState)
  : BaseState :=
  match n with
  | O => st
  | S n' =>
      let i := start0 + n' in
      if at_ cs i isPathSeparator then
        if negb (b_matchedSlash st) then
          {| b_start := i + 1; b_end := b_end st;
             b_matchedSlash := b_matchedSlash st; b_extIdx := b_extIdx st;
             b_firstNonSlashEnd := b_firstNonSlashEnd st |}
        else basename_ext_loop cs suf start0 n' st
      else
        let st1 :=
          match b_firstNonSlashEnd st with
          | None =>
              {| b_start := b_start st; b_end := b_end st;
                 b_matchedSlash := false; b_extIdx := b_extIdx st;
                 b_firstNonSlashEnd := Some (i + 1) |}
          | Some _ => st
          end in
        let st2 :=
          match b_extIdx st1 with
          | Some k =>
              if at_ cs i (fun c => at_ suf k (Ascii.eqb c)) then
                match k with
                | O =>
                    {| b_start := b_start st1; b_end := Some i;
                       b_matchedSlash := b_matchedSlash st1; b_extIdx := None;
                       b_firstNonSlashEnd := b_firstNonSlashEnd st1 |}
                | S k' =>
                    {| b_start := b_start st1; b_end := b_end st1;
                       b_matchedSlash := b_matchedSlash st1; b_extIdx := Some k';
                       b_firstNonSlashEnd := b_firstNonSlashEnd st1 |}
                end
              else
                {| b_start := b_start st1; b_end := b_firstNonSlashEnd st1;
                   b_matchedSlash := b_matchedSlash st1; b_extIdx := None;
                   b_firstNonSlashEnd := b_firstNonSlashEnd st1 |}
          | None => st1
          end in
        basename_ext_loop cs suf start0 n' st2
  end.

(** The loop of [basename(path)] when no suffix applies: the pair
    [(start, end)]. *)
Fixpoint basename_loop (cs : list ascii) (start0 n : nat) (matchedSlash : bool)
  (endp : option nat) : nat * option nat :=
  match n with
  | O => (start0, endp)
  | S n' =>
      let i := start0 + n' in
      if at_ cs i isPathSeparator then
        if negb matchedSlash then (i + 1, endp)
        else basename_loop cs start0 n' matchedSlash endp
      else
        match endp with
        | None => basename_loop cs start0 n' false (Some (i + 1))
        | Some _ => basename_loop cs start0 n' matchedSlash endp
        end
  end.

Definition basename (path suffix : string) : string :=
  let cs := chars path in
  let suf := chars suffix in
  let len := length cs in
  let start :=
    if (2 <=? len)%nat && at_ cs 0 isWindowsDeviceRoot && at_ cs 1 is_colon
    then 2 else 0 in
  if (0 <? length suf)%nat && (length suf <=? len)%nat then
    if String.eqb suffix path then EmptyString
    else
      let st := basename_ext_loop cs suf start (len - start)
                  {| b_start := start; b_end := None; b_matchedSlash := true;
                     b_extIdx := Some (length suf - 1);
                     b_firstNonSlashEnd := None |} in
      let e :=
        match b_end st with
        | Some e =>
            if (b_start st =? e)%nat
            then match b_firstNonSlashEnd st with Some f => f | None => e end
            else e
        | None => len
        end in
      str (slice (b_start st) e cs)
  else
    match basename_loop cs start (len - start) true None with
    | (_, None) => EmptyString
    | (s, Some e) => str (slice s e cs)
    end.

(** [res.lastIndexOf('\\')]. *)
Fixpoint lastIndexOf_from (cs : list ascii) (i : nat) (found : option nat)
  : option nat :=
  match cs with
  | [] => found
  | c :: rest =>
      lastIndexOf_from rest (S i) (if (c =? "\")%char then Some i else found)
  end.

Definition lastIndexOf (cs : list ascii) : option nat := lastIndexOf_from cs 0 None.

(** Loop state of [normalizeString]. *)
Record NormState := {
  n_res : list ascii;
  n_lastSegmentLength : nat;
  n_lastSlash : Z;
  n_dots : Z;
  n_code : ascii
}.

Definition norm_sep (path : list ascii) (allowAboveRoot : bool) (i : nat)
  (code : ascii) (st : NormState) : NormState :=
  let res := n_res st in
  let restart r l :=
    {| n_res := r; n_lastSegmentLength := l; n_lastSlash := Z.of_nat i;
       n_dots := 0; n_code := code |} in
  if (n_lastSlash st =? Z.of_nat i - 1)%Z || (n_dots st =? 1)%Z then
    restart res (n_lastSegmentLength st)
  else if (n_dots st =? 2)%Z then
    let ends_dotdot :=
      (2 <=? length res)%nat && (n_lastSegmentLength st =? 2)%nat &&
      at_ res (length res - 1) is_dot && at_ res (length res - 2) is_dot in
    let above :=
      if allowAboveRoot then
        restart (res ++ (if (0 <? length res)%nat then chars "\.." else chars ".."))
                2%nat
      else restart res (n_lastSegmentLength st) in
    if negb ends_dotdot then
      if (2 <? length res)%nat then
        match lastIndexOf res with
        | None => restart [] 0%nat
        | Some k =>
            let r := slice 0 k res in
            restart r
              (match lastIndexOf r with
               | None => length r
               | Some k' => length r - 1 - k'
               end)
        end
      else if negb (length res =? 0)%nat then restart [] 0%nat
      else above
    else above
  else
    let seg := slice (Z.to_nat (n_lastSlash st + 1)) i path in
    restart (if (0 <? length res)%nat then res ++ chars "\" ++ seg else seg)
            (Z.to_nat (Z.of_nat i - n_lastSlash st - 1)).

(** [for (let i = 0; i <= path.length; ++i)]; [n] iterations remain and
    [i = length path + 1 - n]. *)
Fixpoint normalizeString_loop (path : list ascii) (allowAboveRoot : bool)
  (n : nat) (st : NormState) : NormState :=
  match n with
  | O => st
  | S n' =>
      let i := length path - n' in
      let next (code : ascii) :=
        let st' :=
          if isPathSeparator code then norm_sep path allowAboveRoot i code st
          else if is_dot code && negb (n_dots st =? -1)%Z then
            {| n_res := n_res st; n_lastSegmentLength := n_lastSegmentLength st;
               n_lastSlash := n_lastSlash st; n_dots := n_dots st + 1;
               n_code := code |}
          else
            {| n_res := n_res st; n_lastSegmentLength := n_lastSegmentLength st;
               n_lastSlash := n_lastSlash st; n_dots := -1; n_code := code |} in
        normalizeString_loop path allowAboveRoot n' st' in
      match nth_error path i with
      | Some c => next c
      | None => if isPathSeparator (n_code st) then st else next "/"%char
      end
  end.

Definition normalizeString (path : list ascii) (allowAboveRoot : bool) : list ascii :=
  n_res (normalizeString_loop path allowAboveRoot (S (length path))
           {| n_res := []; n_lastSegmentLength := 0; n_lastSlash := -1;
              n_dots := 0; n_code := zero |}).

(** What [normalize] finds at the start of a path: the whole answer for a
    bare UNC root, or [(device, rootEnd, isAbsolute)]. *)
Variant NormRoot :=
| NormDone (result : list ascii)
| NormRootAt (device : option (list ascii)) (rootEnd : nat) (isAbsolute : bool).

Definition normalize_root (cs : list ascii) : NormRoot :=
  let len := length cs in
  if at_ cs 0 isPathSeparator then
    if at_ cs 1 isPathSeparator then
      let j := scan nonsep cs 2 in
      if (j <? len)%nat && negb (j =? 2)%nat then
        let firstPart := slice 2 j cs in
        let last := j in
        let j := scan isPathSeparator cs j in
        if (j <? len)%nat && negb (j =? last)%nat then
          let last := j in
          let j := scan nonsep cs j in
          if (j =? len)%nat then
            NormDone (chars "\\" ++ firstPart ++ chars "\" ++ slice last len cs
                        ++ chars "\")
          else if negb (j =? last)%nat then
            NormRootAt (Some (chars "\\" ++ firstPart ++ chars "\" ++ slice last j cs))
                       j true
          else NormRootAt None 0 true
        else NormRootAt None 0 true
      else NormRootAt None 0 true
    else NormRootAt None 1 true
  else if at_ cs 0 isWindowsDeviceRoot && at_ cs 1 is_colon then
    if (2 <? len)%nat && at_ cs 2 isPathSeparator
    then NormRootAt (Some (slice 0 2 cs)) 3 true
    else NormRootAt (Some (slice 0 2 cs)) 2 false
  else NormRootAt None 0 false.

Definition normalize (cs : list ascii) : list ascii :=
  let len := length cs in
  match cs with
  | [] => chars "."
  | [c] => if (c =? "/")%char then chars "\" else cs
  | _ =>
      match normalize_root cs with
      | NormDone r => r
      | NormRootAt device rootEnd isAbsolute =>
          let tail :=
            if (rootEnd <? len)%nat
            then normalizeString (slice rootEnd len cs) (negb isAbsolute)
            else [] in
          let tail :=
            if (length tail =? 0)%nat && negb isAbsolute then chars "." else tail in
          let tail :=
            if (0 <? length tail)%nat && at_ cs (len - 1) isPathSeparator
            then tail ++ chars "\" else tail in
          match device with
          | None => if isAbsolute then chars "\" ++ tail else tail
          | Some d => if isAbsolute then d ++ chars "\" ++ tail else d ++ tail
          end
      end
  end.

(** [path.join(...args)]. *)
Definition join (args : list string) : string :=
  match filter (fun a => negb (falsy a)) args with
  | [] => "."
  | (firstPart :: _) as parts =>
      let joined := chars (join_with "\" parts) in
      let fp := chars firstPart in
      let '(slashCount, needsReplace) :=
        if at_ fp 0 isPathSeparator then
          if (1 <? length fp)%nat && at_ fp 1 isPathSeparator then
            if (2 <? length fp)%nat then
              if at_ fp 2 isPathSeparator then (3, true) else (2, false)
            else (2, true)
          else (1, true)
        else (0, true) in
      let joined :=
        if needsReplace : bool then
          let slashCount := scan isPathSeparator joined slashCount in
          if (2 <=? slashCount)%nat
          then chars "\" ++ slice slashCount (length joined) joined
          else joined
        else joined in
      str (normalize joined)
  end.

End Path.

(** ** configManager.ts *)

Record BuildConfig := {
  uePath : string;
  projectPath : string;
  buildConfiguration : string
}.

(** [Partial<BuildConfig>]. *)
Record PartialConfig := {
  p_uePath : option string;
  p_projectPath : option string;
  p_buildConfiguration : option string
}.

Definition initialConfig : BuildConfig :=
  {| uePath := EmptyString; projectPath := EmptyString;
     buildConfiguration := "Development" |}.

(** [{ ...config, ...partial }]. *)
Definition mergeConfig (c : BuildConfig) (p : PartialConfig) : BuildConfig :=
  {| uePath := match p_uePath p with Some v => v | None => uePath c end;
     projectPath := match p_projectPath p with Some v => v | None => projectPath c end;
     buildConfiguration :=
       match p_buildConfiguration p with Some v => v | None => buildConfiguration c end |}.

(** The result object [{ valid, error? }]. *)
Record Validation := { valid : bool; error : option string }.

Definition err_uePath_unset : string := "UE5 编辑器路径未设置".
Definition err_uePath_missing : string := "UE5 编辑器路径不存在".
Definition err_projectPath_unset : string := "UE 项目路径未设置".
Definition err_projectPath_missing : string := "UE 项目路径不存在".

(** [validateConfig], reading the file system through [existsSync]. *)
Definition validateConfig (existsSync : string -> bool) (c : BuildConfig) : Validation :=
  if falsy (uePath c) then
    {| valid := false; error := Some err_uePath_unset |}
  else if negb (existsSync (uePath c)) then
    {| valid := false; error := Some err_uePath_missing |}
  else if falsy (projectPath c) then
    {| valid := false; error := Some err_projectPath_unset |}
  else if negb (existsSync (projectPath c)) then
    {| valid := false; error := Some err_projectPath_missing |}
  else
    {| valid := true; error := None |}.

Definition getProjectDir (c : BuildConfig) : string := Path.dirname (projectPath c).

Definition getProjectName (c : BuildConfig) : string :=
  Path.basename (projectPath c) ".uproject".

Definition getSolutionPath (c : BuildConfig) : string :=
  let projectDir := getProjectDir c in
  let projectName := getProjectName c in
  Path.join [projectDir; projectName ++ ".sln"].

Definition getUEEngineDir (c : BuildConfig) : string := Path.dirname (uePath c).

(** [dirname] four times over the editor path: the engine root. *)
Definition engineRootDir (ueEnginePath : string) : string :=
  Path.dirname (Path.dirname (Path.dirname (Path.dirname ueEnginePath))).

Definition getUBTPath (c : BuildConfig) : string :=
  Path.join [engineRootDir (uePath c); "Engine"; "Build"; "BatchFiles"; "Build.bat"].

(** ** The outside world *)

(** Payloads of [webview.postMessage]. *)
Variant Message :=
| MUpdate (c : BuildConfig)
| MBuildStarted
| MBuildProgress (progress : Q) (message : string)
| MBuildSuccess
| MBuildFailed (error : string)
| MBuildCancelled
| MDebugStarted
| MDebugSuccess
| MDebugFailed (error : string)
| MDebugCancelled.

(** Calls that leave the extension, in the order they are made.  [FsRm] is
    [fs.promises.rm(path, { recursive: true, force: true, maxRetries: 3 })],
    [Exec] is [child_process.exec] and [Spawn] is [child_process.spawn]; the
    numbers identify the promise or the child process created. *)
Variant Effect :=
| PostMessage (m : Message)
| ShowWarningMessage (s : string)
| ShowErrorMessage (s : string)
| ShowInformationMessage (s : string)
| CreateOutputChannel
| OutputShow
| OutputAppendLine (s : string)
| OutputAppend (s : string)
| ConsoleLog (s : string)
| FsRm (id : nat) (path : string)
| FsUnlink (path : string)
| Exec (pid : nat) (command cwd : string)
| Spawn (pid : nat) (executable : string) (args : list string) (cwd : string)
        (detached : bool)
| Unref (pid : nat).

Variant Owner := OwnerBuild | OwnerDebug.

(** The variables closed over by the listeners that one call of
    [_executeProcess] installs on its child process. *)
Record ProcCtx := {
  owner : Owner;
  stdout : string;
  stderr : string;
  currentProgress : Q
}.

(** The fields of the three managers, what [fs] answers, the listener
    closures of the child processes, and the log of effects. *)
Record World := {
  config : BuildConfig;            (* ConfigManager._config *)
  configView : bool;               (* ConfigManager._view is set *)
  buildView : bool;                (* BuildManager._view is set *)
  isBuilding : bool;               (* BuildManager._isBuilding *)
  buildProcess : option nat;       (* BuildManager._buildProcess *)
  debugView : bool;                (* DebugManager._view is set *)
  isDebugging : bool;              (* DebugManager._isDebugging *)
  debugProcess : option nat;       (* DebugManager._debugProcess *)
  existsSync : string -> bool;     (* fs.existsSync *)
  unlinkError : string -> option string; (* what fs.unlinkSync would throw *)
  procs : list (nat * ProcCtx);
  nextId : nat;
  log : list Effect
}.

Definition set_config (v : BuildConfig) (w : World) : World :=
  {| config := v; configView := configView w; buildView := buildView w;
     isBuilding := isBuilding w; buildProcess := buildProcess w;
     debugView := debugView w; isDebugging := isDebugging w;
     debugProcess := debugProcess w; existsSync := existsSync w;
     unlinkError := unlinkError w; procs := procs w; nextId := nextId w;
     log := log w |}.

Definition set_views (v : bool) (w : World) : World :=
  {| config := config w; configView := v; buildView := v;
     isBuilding := isBuilding w; buildProcess := buildProcess w;
     debugView := v; isDebugging := isDebugging w;
     debugProcess := debugProcess w; existsSync := existsSync w;
     unlinkError := unlinkError w; procs := procs w; nextId := nextId w;
     log := log w |}.

Definition set_isBuilding (v : bool) (w : World) : World :=
  {| config := config w; configView := configView w; buildView := buildView w;
     isBuilding := v; buildProcess := buildProcess w;
     debugView := debugView w; isDebugging := isDebugging w;
     debugProcess := debugProcess w; existsSync := existsSync w;
     unlinkError := unlinkError w; procs := procs w; nextId := nextId w;
     log := log w |}.

Definition set_buildProcess (v : option nat) (w : World) : World :=
  {| config := config w; configView := configView w; buildView := buildView w;
     isBuilding := isBuilding w; buildProcess := v;
     debugView := debugView w; isDebugging := isDebugging w;
     debugProcess := debugProcess w; existsSync := existsSync w;
     unlinkError := unlinkError w; procs := procs w; nextId := nextId w;
     log := log w |}.

Definition set_isDebugging (v : bool) (w : World) : World :=
  {| config := config w; configView := configView w; buildView := buildView w;
     isBuilding := isBuilding w; buildProcess := buildProcess w;
     debugView := debugView w; isDebugging := v;
     debugProcess := debugProcess w; existsSync := existsSync w;
     unlinkError := unlinkError w; procs := procs w; nextId := nextId w;
     log := log w |}.

Definition set_debugProcess (v : option nat) (w : World) : World :=
  {| config := config w; configView := configView w; buildView := buildView w;
     isBuilding := isBuilding w; buildProcess := buildProcess w;
     debugView := debugView w; isDebugging := isDebugging w;
     debugProcess := v; existsSync := existsSync w;
     unlinkError := unlinkError w; procs := procs w; nextId := nextId w;
     log := log w |}.

Definition set_fs (ex : string -> bool) (ue : string -> option string) (w : World)
  : World :=
  {| config := config w; configView := configView w; buildView := buildView w;
     isBuilding := isBuilding w; buildProcess := buildProcess w;
     debugView := debugView w; isDebugging := isDebugging w;
     debugProcess := debugProcess w; existsSync := ex;
     unlinkError := ue; procs := procs w; nextId := nextId w;
     log := log w |}.

Definition set_procs (v : list (nat * ProcCtx)) (w : World) : World :=
  {| config := config w; configView := configView w; buildView := buildView w;
     isBuilding := isBuilding w; buildProcess := buildProcess w;
     debugView := debugView w; isDebugging := isDebugging w;
     debugProcess := debugProcess w; existsSync := existsSync w;
     unlinkError := unlinkError w; procs := v; nextId := nextId w;
     log := log w |}.

Definition set_nextId (v : nat) (w : World) : World :=
  {| config := config w; configView := configView w; buildView := buildView w;
     isBuilding := isBuilding w; buildProcess := buildProcess w;
     debugView := debugView w; isDebugging := isDebugging w;
     debugProcess := debugProcess w; existsSync := existsSync w;
     unlinkError := unlinkError w; procs := procs w; nextId := v;
     log := log w |}.

Definition add_log (e : Effect) (w : World) : World :=
  {| config := config w; configView := configView w; buildView := buildView w;
     isBuilding := isBuilding w; buildProcess := buildProcess w;
     debugView := debugView w; isDebugging := isDebugging w;
     debugProcess := debugProcess w; existsSync := existsSync w;
     unlinkError := unlinkError w; procs := procs w; nextId := nextId w;
     log := (log w ++ [e])%list |}.

(** A path that was removed no longer exists. *)
Definition removed (path : string) (ex : string -> bool) : string -> bool :=
  fun p => if String.eqb p path then false else ex p.

Fixpoint lookup_proc (pid : nat) (l : list (nat * ProcCtx)) : option ProcCtx :=
  match l with
  | [] => None
  | (p, c) :: rest => if (p =? pid)%nat then Some c else lookup_proc pid rest
  end.

Fixpoint update_proc (pid : nat) (c : ProcCtx) (l : list (nat * ProcCtx))
  : list (nat * ProcCtx) :=
  match l with
  | [] => []
  | (p, c0) :: rest =>
      if (p =? pid)%nat then (p, c) :: rest else (p, c0) :: update_proc pid c rest
  end.

(** ** Asynchronous methods

    What a promise-returning computation has done when control comes back to
    the event loop: returned, thrown, or stopped at an [await] with the rest
    of the method as a continuation of the awaited promise's outcome ([None]
    when it is fulfilled, [Some e] when it is rejected with message [e]). *)

Variant Wait :=
| WaitRm (id : nat) (path : string)
| WaitProcess (pid : nat).

Inductive Res (A : Type) : Type :=
| Val (a : A) (w : World)
| Exn (e : string) (w : World)
| Susp (q : Wait) (k : option string -> World -> Res A) (w : World).

Arguments Val {A} a w.
Arguments Exn {A} e w.
Arguments Susp {A} q k w.

Definition Async (A : Type) : Type := World -> Res A.

Definition ret {A} (a : A) : Async A := fun w => Val a w.

Definition throw {A} (e : string) : Async A := fun w => Exn e w.

Fixpoint bindRes {A B} (r : Res A) (f : A -> Async B) : Res B :=
  match r with
  | Val a w => f a w
  | Exn e w => Exn e w
  | Susp q k w => Susp q (fun o w' => bindRes (k o w') f) w
  end.

Definition bind {A B} (m : Async A) (f : A -> Async B) : Async B :=
  fun w => bindRes (m w) f.

(** [try { body } catch (error) { handler }]. *)
Fixpoint catchRes {A} (r : Res A) (handler : string -> Async A) : Res A :=
  match r with
  | Val a w => Val a w
  | Exn e w => handler e w
  | Susp q k w => Susp q (fun o w' => catchRes (k o w') handler) w
  end.

Definition try_catch {A} (body : Async A) (handler : string -> Async A) : Async A :=
  fun w => catchRes (body w) handler.

(** [await] of the promise [q]. *)
Definition await (q : Wait) : Async unit :=
  fun w => Susp q (fun o w' => match o with
                               | None => Val tt w'
                               | Some e => Exn e w'
                               end) w.

Notation "x <- m ;; k" := (bind m (fun x => k))
  (at level 61, m at next level, right associativity).
Notation "m ;; k" := (bind m (fun _ => k))
  (at level 61, right associativity).

Definition gets {A} (f : World -> A) : Async A := fun w => Val (f w) w.
Definition modify (f : World -> World) : Async unit := fun w => Val tt (f w).
Definition emit (e : Effect) : Async unit := modify (add_log e).
Definition when (b : bool) (m : Async unit) : Async unit := if b then m else ret tt.

(** The next unused promise or process number. *)
Definition fresh : Async nat :=
  fun w => Val (nextId w) (set_nextId (S (nextId w)) w).

(** [error.message || String(error)] for an [Error] with the given message. *)
Definition errorMessage (message : string) : string :=
  if falsy message then "Error" else message.

(** [s || fallback] for an optional string. *)
Definition or_else (s : option string) (fallback : string) : string :=
  match s with
  | Some v => if falsy v then fallback else v
  | None => fallback
  end.

Definition showWarningMessage (s : string) : Async unit := emit (ShowWarningMessage s).
Definition showErrorMessage (s : string) : Async unit := emit (ShowErrorMessage s).
Definition showInformationMessage (s : string) : Async unit :=
  emit (ShowInformationMessage s).

(** [vscode.window.createOutputChannel('UE Builder')] and [show()]. *)
Definition createOutputChannel : Async unit :=
  emit CreateOutputChannel ;; emit OutputShow.
Definition appendLine (s : string) : Async unit := emit (OutputAppendLine s).
Definition append (s : string) : Async unit := emit (OutputAppend s).

Definition fs_existsSync (path : string) : Async bool :=
  gets (fun w => existsSync w path).

Definition fs_unlinkSync (path : string) : Async unit :=
  emit (FsUnlink path) ;;
  oe <- gets (fun w => unlinkError w path) ;;
  match oe with
  | Some e => throw e
  | None => modify (fun w => set_fs (removed path (existsSync w)) (unlinkError w) w)
  end.

(** [await fs.promises.rm(path, { recursive: true, force: true, maxRetries: 3 })]. *)
Definition fs_rm (path : string) : Async unit :=
  id <- fresh ;;
  emit (FsRm id path) ;;
  await (WaitRm id path).

(** ConfigManager's methods, on the shared instance. *)
Definition getConfig : Async BuildConfig := gets config.
Definition validateConfigM : Async Validation :=
  gets (fun w => validateConfig (existsSync w) (config w)).
Definition getProjectDirM : Async string := gets (fun w => getProjectDir (config w)).
Definition getProjectNameM : Async string := gets (fun w => getProjectName (config w)).
Definition getSolutionPathM : Async string := gets (fun w => getSolutionPath (config w)).

Definition _sendConfigToWebview : Async unit :=
  v <- gets configView ;;
  c <- gets config ;;
  when v (emit (PostMessage (MUpdate c))).

Definition updateConfig (p : PartialConfig) : Async unit :=
  modify (fun w => set_config (mergeConfig (config w) p) w) ;;
  _sendConfigToWebview.

Definition setUEPath (v : string) : Async unit :=
  modify (fun w => set_config {| uePath := v; projectPath := projectPath (config w);
                                 buildConfiguration := buildConfiguration (config w) |} w) ;;
  _sendConfigToWebview.

Definition setProjectPath (v : string) : Async unit :=
  modify (fun w => set_config {| uePath := uePath (config w); projectPath := v;
                                 buildConfiguration := buildConfiguration (config w) |} w) ;;
  _sendConfigToWebview.

Definition setBuildConfiguration (v : string) : Async unit :=
  modify (fun w => set_config {| uePath := uePath (config w);
                                 projectPath := projectPath (config w);
                                 buildConfiguration := v |} w) ;;
  _sendConfigToWebview.

Definition msg_busy : string := "已有操作正在进行中".
Definition msg_validation_fallback : string := "配置验证失败".

(** ** JavaScript numbers

    A Number is an IEEE 754 double.  A finite double is a rational: the model
    holds it as that rational, and an arithmetic operation of JavaScript is
    the exact operation followed by rounding to the nearest double (53
    significant bits), a tie going to the even mantissa.  Overflow to
    [Infinity] (above 1.8e308) and the subnormal numbers (below 2.3e-308) are
    outside the model. *)

Module Double.

Local Open Scope Q_scope.

(** [floor (log2 q)] for a positive [q]. *)
Definition exponent (q : Q) : Z :=
  let l := (Z.log2 (Qnum q) - Z.log2 (Zpos (Qden q)))%Z in
  if Qle_bool (2 ^ l) q then l else (l - 1)%Z.

(** The integer nearest to [m], the even one of two that are equally near. *)
Definition nearest_even (m : Q) : Z :=
  let f := Qfloor m in
  let rest := m - inject_Z f in
  if Qle_bool rest (1 # 2) then
    if Qle_bool (1 # 2) rest then (if Z.even f then f else f + 1)%Z else f
  else (f + 1)%Z.

(** The double nearest to [q]: a mantissa of 53 bits times the unit in the
    last place. *)
Definition round (q : Q) : Q :=
  match Qnum q with
  | Z0 => 0
  | Zpos _ =>
      let ulp := 2 ^ (exponent q - 52) in
      inject_Z (nearest_even (q / ulp)) * ulp
  | Zneg _ =>
      let ulp := 2 ^ (exponent (- q) - 52) in
      - (inject_Z (nearest_even (- q / ulp)) * ulp)
  end.

(** [a + b], [a * b] and [a / b] on doubles. *)
Definition add (a b : Q) : Q := round (a + b).
Definition mul (a b : Q) : Q := round (a * b).
Definition div (a b : Q) : Q := round (a / b).

End Double.

Arguments Double.round q : simpl never.
Arguments Double.add a b : simpl never.
Arguments Double.mul a b : simpl never.
Arguments Double.div a b : simpl never.

(** ** Progress scraping (shared text of both managers) *)

(** [text.match(/(\d+)%/)]: the first run of digits that a percent sign
    follows, read by [parseInt(_, 10)]; [run] is the value of the digits of the
    run being read.  [parseInt] returns that value as a Number: it is the
    value itself up to 2^53, and the nearest double above. *)
Fixpoint match_percent (cs : list ascii) (run : option Z) : option Z :=
  match cs with
  | [] => None
  | c :: rest =>
      if is_digit c then
        match_percent rest
          (Some (10 * match run with Some v => v | None => 0 end + digit_value c)%Z)
      else if (c =? "%")%char then
        match run with
        | Some v => Some v
        | None => match_percent rest None
        end
      else match_percent rest None
  end.

Definition _parseProgress (text : string) : Z :=
  match match_percent (chars text) None with
  | Some v => v
  | None => 0%Z
  end.

Definition _getProgressMessage (text : string) (progress : Q) : string :=
  if includes "Compiling" text then "正在编译..."
  else if includes "Linking" text then "正在链接..."
  else if includes "Generating" text then "正在生成..."
  else "正在处理...".

Definition Qltb (a b : Q) : bool := negb (Qle_bool b a).
Definition Qmin_js (a b : Q) : Q := if Qle_bool a b then a else b.

(** Access to the closure variables of the listeners of process [pid]. *)
Definition with_ctx (pid : nat) (f : ProcCtx -> Async unit) : Async unit :=
  oc <- gets (fun w => lookup_proc pid (procs w)) ;;
  match oc with
  | Some c => f c
  | None => ret tt
  end.

Definition set_ctx (pid : nat) (c : ProcCtx) : Async unit :=
  modify (fun w => set_procs (update_proc pid c (procs w)) w).

Definition new_ctx (pid : nat) (o : Owner) : Async unit :=
  modify (fun w =>
    set_procs ((pid, {| owner := o; stdout := EmptyString; stderr := EmptyString;
                        currentProgress := 0%Q |}) :: procs w) w).

(** [`进程退出，代码: ${code}\n${stderr}`]; a process killed by a signal
    closes with [code = null]. *)
Definition exit_message (code : option Z) (stderr_text : string) : string :=
  "进程退出，代码: " ++
  match code with Some c => string_of_Z c | None => "null" end ++
  newline ++ stderr_text.

(** The command line [exec] receives for a batch file. *)
Definition bat_command (executable : string) (args : list string) : string :=
  let quotedExecutable := dquote ++ executable ++ dquote in
  let quotedArgs :=
    map (fun arg => if includes " " arg then dquote ++ arg ++ dquote else arg) args in
  quotedExecutable ++ " " ++ join_with " " quotedArgs.

(** ** buildManager.ts *)

Module BuildManager.

Definition postMessage (m : Message) : Async unit :=
  v <- gets buildView ;;
  when v (emit (PostMessage m)).

Definition progress (p : Q) (message : string) : Async unit :=
  postMessage (MBuildProgress p message).

Definition cancelBuild : Async unit :=
  p <- gets buildProcess ;;
  match p with
  | Some pid =>
      emit (ConsoleLog "[BuildManager] Cancelling build process...") ;;
      try_catch
        (k <- fresh ;;
         emit (Spawn k "taskkill" ["/F"; "/T"; "/PID"; string_of_nat pid]
                 EmptyString false) ;;
         emit (ConsoleLog "[BuildManager] Build process cancelled") ;;
         modify (set_isBuilding false) ;;
         modify (set_buildProcess None) ;;
         postMessage MBuildCancelled ;;
         showInformationMessage "操作已取消")
        (fun error =>
           emit (ConsoleLog ("[BuildManager] Error cancelling build: " ++ error)))
  | None => ret tt
  end.

(** The [stdout] listener of [_executeProcess]; [elapsed] is
    [Date.now() - startTime] when the chunk arrives. *)
Definition onStdout (pid : nat) (text : string) (elapsed : Z) : Async unit :=
  with_ctx pid (fun c =>
    let c := {| owner := owner c; stdout := stdout c ++ text; stderr := stderr c;
                currentProgress := currentProgress c |} in
    set_ctx pid c ;;
    append text ;;
    let parsed := inject_Z (_parseProgress text) in
    if Qltb (currentProgress c) parsed then
      set_ctx pid {| owner := owner c; stdout := stdout c; stderr := stderr c;
                     currentProgress := parsed |} ;;
      progress parsed (_getProgressMessage text parsed)
    else if Qltb 0 (currentProgress c) && Qltb (currentProgress c) 100 then
      let estimatedDuration := 300000%Q in
      let estimatedProgress :=
        Qmin_js 95
          (Double.add 40 (Double.mul (Double.div (inject_Z elapsed) estimatedDuration) 55)) in
      if Qltb (currentProgress c) estimatedProgress then
        set_ctx pid {| owner := owner c; stdout := stdout c; stderr := stderr c;
                       currentProgress := estimatedProgress |} ;;
        progress estimatedProgress (_getProgressMessage text estimatedProgress)
      else ret tt
    else ret tt).

Definition onStderr (pid : nat) (text : string) : Async unit :=
  with_ctx pid (fun c =>
    set_ctx pid {| owner := owner c; stdout := stdout c; stderr := stderr c ++ text;
                   currentProgress := currentProgress c |} ;;
    append text).

(** The [close] listener: what it does to the manager, and how it settles
    the promise of [_executeProcess]. *)
Definition onClose (pid : nat) (code : option Z) : Async (option string) :=
  oc <- gets (fun w => lookup_proc pid (procs w)) ;;
  modify (set_buildProcess None) ;;
  match code with
  | Some 0%Z => ret None
  | _ =>
      ret (Some (exit_message code
                   match oc with Some c => stderr c | None => EmptyString end))
  end.

(** The [error] listener. *)
Definition onError (pid : nat) (message : string) : Async (option string) :=
  modify (set_buildProcess None) ;;
  ret (Some message).

Definition _executeProcess (executable : string) (args : list string) (cwd : string)
  : Async unit :=
  pid <- fresh ;;
  (if endsWith ".bat" executable then
     let command := bat_command executable args in
     appendLine ("执行命令: " ++ command) ;;
     emit (Exec pid command cwd)
   else emit (Spawn pid executable args cwd false)) ;;
  modify (set_buildProcess (Some pid)) ;;
  new_ctx pid OwnerBuild ;;
  await (WaitProcess pid).

Definition buildBatPath (ueEnginePath : string) : string :=
  Path.join [engineRootDir ueEnginePath; "Engine"; "Build"; "BatchFiles"; "Build.bat"].

Definition generateArgs (projectName projectPath : string) : list string :=
  [projectName ++ "Editor"; "Win64"; "Development";
   "-Project=" ++ dquote ++ projectPath ++ dquote;
   "-WaitMutex"; "-FromMsBuild"; "-architecture=x64"; "-GenerateProjectFiles"].

Definition buildArgs (projectName buildConfiguration projectPath : string)
  : list string :=
  [projectName ++ "Editor"; "Win64"; buildConfiguration;
   "-Project=" ++ dquote ++ projectPath ++ dquote;
   "-WaitMutex"; "-FromMsBuild"; "-architecture=x64"].

Definition _cleanSolutionInternal (projectDir : string) : Async unit :=
  progress 10 "正在清理..." ;;
  appendLine "--- 清理中间文件 ---" ;;
  let intermediateDir := Path.join [projectDir; "Intermediate"] in
  ex <- fs_existsSync intermediateDir ;;
  when ex
    (appendLine ("删除: " ++ intermediateDir) ;;
     progress 15 "正在删除 Intermediate..." ;;
     fs_rm intermediateDir) ;;
  progress 20 "正在清理..." ;;
  let binariesDir := Path.join [projectDir; "Binaries"] in
  ex <- fs_existsSync binariesDir ;;
  when ex
    (appendLine ("删除: " ++ binariesDir) ;;
     progress 25 "正在删除 Binaries..." ;;
     fs_rm binariesDir) ;;
  progress 28 "正在清理..." ;;
  let savedStagingDir := Path.join [projectDir; "Saved"; "StagedBuilds"] in
  ex <- fs_existsSync savedStagingDir ;;
  when ex
    (appendLine ("删除: " ++ savedStagingDir) ;;
     fs_rm savedStagingDir) ;;
  progress 30 "正在清理...".

Definition _generateProjectFiles (config : BuildConfig) : Async unit :=
  let projectPath := projectPath config in
  projectDir <- getProjectDirM ;;
  projectName <- getProjectNameM ;;
  let ueEnginePath := uePath config in
  let ubtPath := buildBatPath ueEnginePath in
  progress 35 "正在生成项目文件..." ;;
  ex <- fs_existsSync ubtPath ;;
  if negb ex then throw ("Build.bat not found at: " ++ ubtPath)
  else
    appendLine ("执行: " ++ ubtPath) ;;
    appendLine ("参数: " ++ projectName ++ "Editor Win64 Development -Project=" ++
                dquote ++ projectPath ++ dquote ++
                " -WaitMutex -FromMsBuild -architecture=x64 -GenerateProjectFiles") ;;
    _executeProcess ubtPath (generateArgs projectName projectPath) projectDir ;;
    progress 60 "正在生成项目文件...".

Definition _buildProject (config : BuildConfig) : Async unit :=
  let projectPath := projectPath config in
  projectDir <- getProjectDirM ;;
  projectName <- getProjectNameM ;;
  let buildConfiguration := buildConfiguration config in
  progress 65 "正在编译..." ;;
  let ueEnginePath := uePath config in
  let buildBatPath := buildBatPath ueEnginePath in
  ex <- fs_existsSync buildBatPath ;;
  if negb ex then throw ("Build.bat not found at: " ++ buildBatPath)
  else
    appendLine ("执行: " ++ buildBatPath) ;;
    appendLine ("参数: " ++ projectName ++ "Editor Win64 " ++ buildConfiguration ++
                " -Project=" ++ dquote ++ projectPath ++ dquote ++
                " -WaitMutex -FromMsBuild -architecture=x64") ;;
    _executeProcess buildBatPath (buildArgs projectName buildConfiguration projectPath)
      projectDir ;;
    progress 100 "正在编译...".

(** The [catch] block shared in shape by the three operations. *)
Definition failed (outputPrefix notification : string) (error : string) : Async unit :=
  modify (set_isBuilding false) ;;
  modify (set_buildProcess None) ;;
  let errorMessage := errorMessage error in
  appendLine (outputPrefix ++ errorMessage) ;;
  showErrorMessage notification ;;
  postMessage (MBuildFailed errorMessage).

(** The lines that end a successful [try] block. *)
Definition succeeded (line notification : string) : Async unit :=
  appendLine line ;;
  showInformationMessage notification ;;
  modify (set_isBuilding false) ;;
  modify (set_buildProcess None) ;;
  postMessage MBuildSuccess.

(** [if (fs.existsSync(solutionPath)) fs.unlinkSync(solutionPath)]. *)
Definition deleteSolutionFile (solutionPath : string) : Async unit :=
  appendLine "--- 删除现有解决方案文件 ---" ;;
  ex <- fs_existsSync solutionPath ;;
  if ex then
    appendLine ("删除: " ++ solutionPath) ;;
    fs_unlinkSync solutionPath
  else appendLine "解决方案文件不存在".

Definition cleanSolution : Async unit :=
  busy <- gets isBuilding ;;
  if busy then showWarningMessage msg_busy
  else
    config <- getConfig ;;
    validation <- validateConfigM ;;
    if negb (valid validation) then
      showErrorMessage (or_else (error validation) msg_validation_fallback)
    else
      let projectPath := projectPath config in
      projectDir <- getProjectDirM ;;
      projectName <- getProjectNameM ;;
      modify (set_isBuilding true) ;;
      postMessage MBuildStarted ;;
      createOutputChannel ;;
      appendLine "=== 清理解决方案 ===" ;;
      appendLine ("项目: " ++ projectName) ;;
      appendLine ("路径: " ++ projectPath) ;;
      try_catch
        (progress 10 "正在清理..." ;;
         appendLine "--- 删除 Intermediate 目录 ---" ;;
         let intermediateDir := Path.join [projectDir; "Intermediate"] in
         ex <- fs_existsSync intermediateDir ;;
         (if ex then
            appendLine ("删除: " ++ intermediateDir) ;;
            progress 20 "正在删除 Intermediate..." ;;
            fs_rm intermediateDir
          else appendLine "Intermediate 目录不存在") ;;
         progress 40 "正在清理..." ;;
         appendLine "--- 删除 Binaries 目录 ---" ;;
         let binariesDir := Path.join [projectDir; "Binaries"] in
         ex <- fs_existsSync binariesDir ;;
         (if ex then
            appendLine ("删除: " ++ binariesDir) ;;
            progress 60 "正在删除 Binaries..." ;;
            fs_rm binariesDir
          else appendLine "Binaries 目录不存在") ;;
         progress 70 "正在清理..." ;;
         appendLine "--- 删除 Saved/StagedBuilds 目录 ---" ;;
         let savedStagingDir := Path.join [projectDir; "Saved"; "StagedBuilds"] in
         ex <- fs_existsSync savedStagingDir ;;
         (if ex then
            appendLine ("删除: " ++ savedStagingDir) ;;
            progress 85 "正在删除 StagedBuilds..." ;;
            fs_rm savedStagingDir
          else appendLine "Saved/StagedBuilds 目录不存在") ;;
         progress 100 "正在清理..." ;;
         succeeded "=== 清理完成 ===" "清理完成")
        (failed "清理失败: " "清理失败! 查看输出面板了解详情").

Definition regenerateSolution : Async unit :=
  busy <- gets isBuilding ;;
  if busy then showWarningMessage msg_busy
  else
    config <- getConfig ;;
    validation <- validateConfigM ;;
    if negb (valid validation) then
      showErrorMessage (or_else (error validation) msg_validation_fallback)
    else
      projectDir <- getProjectDirM ;;
      projectName <- getProjectNameM ;;
      solutionPath <- getSolutionPathM ;;
      let buildConfiguration := buildConfiguration config in
      modify (set_isBuilding true) ;;
      postMessage MBuildStarted ;;
      createOutputChannel ;;
      appendLine "=== 重新生成解决方案 ===" ;;
      appendLine ("项目: " ++ projectName) ;;
      appendLine ("配置: " ++ buildConfiguration) ;;
      try_catch
        (_cleanSolutionInternal projectDir ;;
         deleteSolutionFile solutionPath ;;
         appendLine "--- 生成项目文件 ---" ;;
         _generateProjectFiles config ;;
         appendLine "--- 编译项目 ---" ;;
         _buildProject config ;;
         succeeded "=== 重新生成解决方案完成 ===" "重新生成解决方案完成")
        (failed "操作失败: " "操作失败! 查看输出面板了解详情").

Definition generateSolution : Async unit :=
  busy <- gets isBuilding ;;
  if busy then showWarningMessage msg_busy
  else
    config <- getConfig ;;
    validation <- validateConfigM ;;
    if negb (valid validation) then
      showErrorMessage (or_else (error validation) msg_validation_fallback)
    else
      projectName <- getProjectNameM ;;
      solutionPath <- getSolutionPathM ;;
      modify (set_isBuilding true) ;;
      postMessage MBuildStarted ;;
      createOutputChannel ;;
      appendLine "=== 生成解决方案 ===" ;;
      appendLine ("项目: " ++ projectName) ;;
      try_catch
        (deleteSolutionFile solutionPath ;;
         appendLine "--- 生成项目文件 ---" ;;
         _generateProjectFiles config ;;
         succeeded "=== 生成解决方案完成 ===" "生成解决方案完成")
        (failed "操作失败: " "操作失败! 查看输出面板了解详情").

End BuildManager.

(** ** debugManager.ts *)

Module DebugManager.

Definition postMessage (m : Message) : Async unit :=
  v <- gets debugView ;;
  when v (emit (PostMessage m)).

Definition progress (p : Q) (message : string) : Async unit :=
  postMessage (MBuildProgress p message).

Definition cancelDebug : Async unit :=
  p <- gets debugProcess ;;
  match p with
  | Some pid =>
      emit (ConsoleLog "[DebugManager] Cancelling debug process...") ;;
      try_catch
        (k <- fresh ;;
         emit (Spawn k "taskkill" ["/F"; "/T"; "/PID"; string_of_nat pid]
                 EmptyString false) ;;
         emit (ConsoleLog "[DebugManager] Debug process cancelled") ;;
         modify (set_isDebugging false) ;;
         modify (set_debugProcess None) ;;
         postMessage MDebugCancelled ;;
         showInformationMessage "操作已取消")
        (fun error =>
           emit (ConsoleLog ("[DebugManager] Error cancelling debug: " ++ error)))
  | None => ret tt
  end.

Definition onStdout (pid : nat) (text : string) : Async unit :=
  with_ctx pid (fun c =>
    let c := {| owner := owner c; stdout := stdout c ++ text; stderr := stderr c;
                currentProgress := currentProgress c |} in
    set_ctx pid c ;;
    append text ;;
    let parsed := inject_Z (_parseProgress text) in
    if Qltb (currentProgress c) parsed then
      set_ctx pid {| owner := owner c; stdout := stdout c; stderr := stderr c;
                     currentProgress := parsed |} ;;
      progress (Double.add 10 (Double.mul parsed (Double.round (4 # 10))))
        (_getProgressMessage text parsed)
    else ret tt).

Definition onStderr (pid : nat) (text : string) : Async unit :=
  with_ctx pid (fun c =>
    set_ctx pid {| owner := owner c; stdout := stdout c; stderr := stderr c ++ text;
                   currentProgress := currentProgress c |} ;;
    append text).

Definition onClose (pid : nat) (code : option Z) : Async (option string) :=
  oc <- gets (fun w => lookup_proc pid (procs w)) ;;
  modify (set_debugProcess None) ;;
  match code with
  | Some 0%Z => ret None
  | _ =>
      ret (Some (exit_message code
                   match oc with Some c => stderr c | None => EmptyString end))
  end.

Definition onError (pid : nat) (message : string) : Async (option string) :=
  modify (set_debugProcess None) ;;
  ret (Some message).

Definition _executeProcess (executable : string) (args : list string) (cwd : string)
  : Async unit :=
  pid <- fresh ;;
  (if endsWith ".bat" executable then
     let command := bat_command executable args in
     appendLine ("执行命令: " ++ command) ;;
     emit (Exec pid command cwd)
   else emit (Spawn pid executable args cwd false)) ;;
  modify (set_debugProcess (Some pid)) ;;
  new_ctx pid OwnerDebug ;;
  await (WaitProcess pid).

Definition _buildProject (config : BuildConfig) : Async unit :=
  let projectPath := projectPath config in
  projectDir <- getProjectDirM ;;
  projectName <- getProjectNameM ;;
  let buildConfiguration := buildConfiguration config in
  let ueEnginePath := uePath config in
  let buildBatPath := BuildManager.buildBatPath ueEnginePath in
  ex <- fs_existsSync buildBatPath ;;
  if negb ex then throw ("Build.bat not found at: " ++ buildBatPath)
  else
    appendLine ("执行: " ++ buildBatPath) ;;
    appendLine ("参数: " ++ projectName ++ "Editor Win64 " ++ buildConfiguration ++
                " -Project=" ++ dquote ++ projectPath ++ dquote ++
                " -WaitMutex -FromMsBuild -architecture=x64") ;;
    _executeProcess buildBatPath
      (BuildManager.buildArgs projectName buildConfiguration projectPath) projectDir.

Definition failed (error : string) : Async unit :=
  modify (set_isDebugging false) ;;
  modify (set_debugProcess None) ;;
  let errorMessage := errorMessage error in
  appendLine ("启动失败: " ++ errorMessage) ;;
  showErrorMessage "启动失败! 查看输出面板了解详情" ;;
  postMessage (MDebugFailed errorMessage).

Definition msg_uePath : string := "UE5 编辑器路径未设置或不存在".

Definition startDebug : Async unit :=
  busy <- gets isDebugging ;;
  if busy then showWarningMessage msg_busy
  else
    config <- getConfig ;;
    validation <- validateConfigM ;;
    if negb (valid validation) then
      showErrorMessage (or_else (error validation) msg_validation_fallback)
    else
      let projectPath := projectPath config in
      projectDir <- getProjectDirM ;;
      projectName <- getProjectNameM ;;
      let buildConfiguration := buildConfiguration config in
      modify (set_isDebugging true) ;;
      postMessage MDebugStarted ;;
      createOutputChannel ;;
      appendLine "=== 开始调试 ===" ;;
      appendLine ("项目: " ++ projectName) ;;
      appendLine ("配置: " ++ buildConfiguration) ;;
      try_catch
        (progress 10 "正在编译..." ;;
         appendLine "--- 编译项目 ---" ;;
         _buildProject config ;;
         progress 50 "正在启动调试..." ;;
         appendLine "--- 启动调试 ---" ;;
         let uePath := uePath config in
         ex <- fs_existsSync uePath ;;
         if falsy uePath || negb ex then throw msg_uePath
         else
           let debugCommand :=
             dquote ++ uePath ++ dquote ++ " " ++ dquote ++ projectPath ++ dquote
             ++ " -debug" in
           appendLine ("执行命令: " ++ debugCommand) ;;
           pid <- fresh ;;
           emit (Spawn pid "cmd" ["/c"; debugCommand] projectDir true) ;;
           modify (set_debugProcess (Some pid)) ;;
           emit (Unref pid) ;;
           modify (set_debugProcess None) ;;
           modify (set_isDebugging false) ;;
           progress 100 "调试已启动" ;;
           appendLine "=== 调试已启动 ===" ;;
           showInformationMessage "调试已启动" ;;
           postMessage MDebugSuccess)
        failed.

(** The callback of [exec] only appends a warning line to the output
    channel when the editor could not be started; it is not modelled. *)
Definition startWithoutDebug : Async unit :=
  busy <- gets isDebugging ;;
  if busy then showWarningMessage msg_busy
  else
    config <- getConfig ;;
    validation <- validateConfigM ;;
    if negb (valid validation) then
      showErrorMessage (or_else (error validation) msg_validation_fallback)
    else
      let projectPath := projectPath config in
      projectDir <- getProjectDirM ;;
      projectName <- getProjectNameM ;;
      let buildConfiguration := buildConfiguration config in
      modify (set_isDebugging true) ;;
      postMessage MDebugStarted ;;
      createOutputChannel ;;
      appendLine "=== 开始执行(不调试) ===" ;;
      appendLine ("项目: " ++ projectName) ;;
      appendLine ("配置: " ++ buildConfiguration) ;;
      try_catch
        (progress 10 "正在编译..." ;;
         appendLine "--- 编译项目 ---" ;;
         _buildProject config ;;
         progress 50 "正在启动项目..." ;;
         appendLine "--- 启动项目 ---" ;;
         let uePath := uePath config in
         ex <- fs_existsSync uePath ;;
         if falsy uePath || negb ex then throw msg_uePath
         else
           let runCommand :=
             dquote ++ uePath ++ dquote ++ " " ++ dquote ++ projectPath ++ dquote in
           appendLine ("执行命令: " ++ runCommand) ;;
           pid <- fresh ;;
           emit (Exec pid runCommand projectDir) ;;
           modify (set_debugProcess None) ;;
           modify (set_isDebugging false) ;;
           progress 100 "项目已启动" ;;
           appendLine "=== 项目已启动 ===" ;;
           showInformationMessage "项目已启动" ;;
           postMessage MDebugSuccess)
        failed.

Definition launchProject : Async unit :=
  config <- getConfig ;;
  let projectPath := projectPath config in
  let uePath := uePath config in
  exP <- fs_existsSync projectPath ;;
  if falsy projectPath || negb exP then showErrorMessage "项目路径未设置或不存在"
  else
    exU <- fs_existsSync uePath ;;
    if falsy uePath || negb exU then showErrorMessage msg_uePath
    else
      createOutputChannel ;;
      appendLine "=== 启动项目 ===" ;;
      appendLine ("项目: " ++ projectPath) ;;
      try_catch
        (projectDir <- getProjectDirM ;;
         let runCommand :=
           dquote ++ uePath ++ dquote ++ " " ++ dquote ++ projectPath ++ dquote in
         appendLine ("执行命令: " ++ runCommand) ;;
         pid <- fresh ;;
         emit (Exec pid runCommand projectDir) ;;
         appendLine "=== 项目已启动 ===" ;;
         showInformationMessage "项目已启动")
        (fun error =>
           let errorMessage := errorMessage error in
           appendLine ("启动失败: " ++ errorMessage) ;;
           showErrorMessage "启动失败! 查看输出面板了解详情").

End DebugManager.

(** ** The event loop

    The extension host runs one listener at a time.  A listener is a message
    from the webview, the settling of an awaited promise, or an event of a
    child process; each runs to completion (up to the next [await] of the
    method it resumes) before the next one starts. *)

Record Pending := {
  waiting : Wait;
  resume : option string -> World -> Res unit
}.

Record State := {
  world : World;
  pending : list Pending
}.

(** Messages of the webview that reach a manager. *)
Variant Command :=
| CleanSolution
| RegenerateSolution
| GenerateSolution
| StartDebug
| StartWithoutDebug
| LaunchProject
| CancelBuild
| CancelDebug.

Variant Event :=
| Receive (c : Command)
| SetView
| UpdateConfig (p : PartialConfig)
| FileSystem (ex : string -> bool) (ue : string -> option string)
| RmSettled (id : nat) (outcome : option string)
| StdoutData (pid : nat) (text : string) (elapsed : Z)
| StderrData (pid : nat) (text : string)
| Close (pid : nat) (code : option Z)
| ProcessError (pid : nat) (message : string).

Definition method (c : Command) : Async unit :=
  match c with
  | CleanSolution => BuildManager.cleanSolution
  | RegenerateSolution => BuildManager.regenerateSolution
  | GenerateSolution => BuildManager.generateSolution
  | StartDebug => DebugManager.startDebug
  | StartWithoutDebug => DebugManager.startWithoutDebug
  | LaunchProject => DebugManager.launchProject
  | CancelBuild => BuildManager.cancelBuild
  | CancelDebug => DebugManager.cancelDebug
  end.

(** Control returns to the event loop: a method that stopped at an [await]
    is kept until its promise settles. *)
Definition park (r : Res unit) (ps : list Pending) : State :=
  match r with
  | Val _ w => {| world := w; pending := ps |}
  | Exn _ w => {| world := w; pending := ps |}
  | Susp q k w => {| world := w; pending := (ps ++ [{| waiting := q; resume := k |}])%list |}
  end.

Definition waits_rm (id : nat) (p : Pending) : bool :=
  match waiting p with
  | WaitRm i _ => (i =? id)%nat
  | WaitProcess _ => false
  end.

Definition waits_process (pid : nat) (p : Pending) : bool :=
  match waiting p with
  | WaitRm _ _ => false
  | WaitProcess i => (i =? pid)%nat
  end.

(** The promise recognised by [sel] settles with [outcome]. *)
Definition settle (sel : Pending -> bool) (outcome : option string) (w : World)
  (ps : list Pending) : State :=
  match find sel ps with
  | Some p => park (resume p outcome w) (filter (fun q => negb (sel q)) ps)
  | None => {| world := w; pending := ps |}
  end.

(** A listener that does not await. *)
Definition run_listener {A} (m : Async A) (w : World) : World :=
  match m w with
  | Val _ w' => w'
  | Exn _ w' => w'
  | Susp _ _ w' => w'
  end.

Definition result_of (m : Async (option string)) (w : World) : option string :=
  match m w with
  | Val o _ => o
  | _ => None
  end.

Definition rm_path (id : nat) (ps : list Pending) : option string :=
  match find (waits_rm id) ps with
  | Some p => match waiting p with WaitRm _ path => Some path | _ => None end
  | None => None
  end.

Definition step (s : State) (e : Event) : State :=
  let w := world s in
  let ps := pending s in
  match e with
  | Receive c => park (method c w) ps
  | SetView => {| world := set_views true w; pending := ps |}
  | UpdateConfig p => park (updateConfig p w) ps
  | FileSystem ex ue => {| world := set_fs ex ue w; pending := ps |}
  | RmSettled id outcome =>
      match rm_path id ps, outcome with
      | Some path, None =>
          settle (waits_rm id) None
            (set_fs (removed path (existsSync w)) (unlinkError w) w) ps
      | _, _ => settle (waits_rm id) outcome w ps
      end
  | StdoutData pid text elapsed =>
      match lookup_proc pid (procs w) with
      | Some c =>
          {| world :=
               match owner c with
               | OwnerBuild => run_listener (BuildManager.onStdout pid text elapsed) w
               | OwnerDebug => run_listener (DebugManager.onStdout pid text) w
               end;
             pending := ps |}
      | None => s
      end
  | StderrData pid text =>
      match lookup_proc pid (procs w) with
      | Some c =>
          {| world :=
               match owner c with
               | OwnerBuild => run_listener (BuildManager.onStderr pid text) w
               | OwnerDebug => run_listener (DebugManager.onStderr pid text) w
               end;
             pending := ps |}
      | None => s
      end
  | Close pid code =>
      match lookup_proc pid (procs w) with
      | Some c =>
          let l := match owner c with
                   | OwnerBuild => BuildManager.onClose pid code
                   | OwnerDebug => DebugManager.onClose pid code
                   end in
          settle (waits_process pid) (result_of l w) (run_listener l w) ps
      | None => s
      end
  | ProcessError pid message =>
      match lookup_proc pid (procs w) with
      | Some c =>
          let l := match owner c with
                   | OwnerBuild => BuildManager.onError pid message
                   | OwnerDebug => DebugManager.onError pid message
                   end in
          settle (waits_process pid) (result_of l w) (run_listener l w) ps
      | None => s
      end
  end.

Definition run (s : State) (es : list Event) : State := fold_left step es s.

(** The extension right after activation: default configuration, no view,
    nothing running. *)
Definition initialWorld (ex : string -> bool) (ue : string -> option string) : World :=
  {| config := initialConfig; configView := false; buildView := false;
     isBuilding := false; buildProcess := None;
     debugView := false; isDebugging := false; debugProcess := None;
     existsSync := ex; unlinkError := ue; procs := []; nextId := 1; log := [] |}.

Definition initialState (ex : string -> bool) (ue : string -> option string) : State :=
  {| world := initialWorld ex ue; pending := [] |}.

(** ** Observations on the log *)

(** The progress values of the [buildProgress] messages, in order. *)
Fixpoint progress_values (l : list Effect) : list Q :=
  match l with
  | [] => []
  | PostMessage (MBuildProgress p _) :: rest => p :: progress_values rest
  | _ :: rest => progress_values rest
  end.

(** Deletions and child processes. *)
Definition is_side_effect (e : Effect) : bool :=
  match e with
  | FsRm _ _ | FsUnlink _ | Exec _ _ _ | Spawn _ _ _ _ _ => true
  | _ => false
  end.

Definition side_effects (l : list Effect) : list Effect := filter is_side_effect l.

(** ** A concrete installation, for the examples *)

Module Sample.

Definition editor : string := "C:\UE\Engine\Binaries\Win64\UnrealEditor.exe".
Definition project : string := "C:\Proj\Game.uproject".
Definition buildBat : string := "C:\UE\Engine\Build\BatchFiles\Build.bat".

Definition files : list string :=
  [editor; project; buildBat; "C:\Proj\Binaries"; "C:\Proj\Game.sln"].

Definition ex (p : string) : bool := existsb (String.eqb p) files.
Definition ue (p : string) : option string := None.

Definition settings (flavor : string) : PartialConfig :=
  {| p_uePath := Some editor; p_projectPath := Some project;
     p_buildConfiguration := Some flavor |}.

(** The panel is resolved and the settings are read: ready for commands. *)
Definition ready (flavor : string) : State :=
  run (initialState ex ue) [SetView; UpdateConfig (settings flavor)].

End Sample.

(** * extension.ts: the panel provider *)

(** ** More JavaScript string helpers

    A JavaScript string is held as the bytes of its UTF-8 encoding. *)

(** The number of bytes of the white-space character or line terminator
    that starts the byte codes [ns]; 0 when there is none.  These are
    U+0009 to U+000D, U+0020, U+00A0, U+1680, U+2000 to U+200A, U+2028,
    U+2029, U+202F, U+205F, U+3000 and U+FEFF. *)
Definition ws_width (ns : list nat) : nat :=
  match ns with
  | c :: r =>
      if ((9 <=? c) && (c <=? 13)) || (c =? 32) then 1
      else
        match r with
        | d :: r' =>
            if (c =? 194) && (d =? 160) then 2
            else
              match r' with
              | e :: _ =>
                  if ((c =? 225) && (d =? 154) && (e =? 128))
                     || ((c =? 226) && (d =? 128) &&
                         (((128 <=? e) && (e <=? 138)) || (e =? 168) || (e =? 169)
                          || (e =? 175)))
                     || ((c =? 226) && (d =? 129) && (e =? 159))
                     || ((c =? 227) && (d =? 128) && (e =? 128))
                     || ((c =? 239) && (d =? 187) && (e =? 191))
                  then 3 else 0
              | [] => 0
              end
        | [] => 0
        end
  | [] => 0
  end%nat.

(** The same for the character that ends a text, on the reversed bytes. *)
Definition ws_width_rev (ns : list nat) : nat :=
  match ns with
  | e :: r =>
      if ((9 <=? e) && (e <=? 13)) || (e =? 32) then 1
      else
        match r with
        | d :: r' =>
            if (d =? 194) && (e =? 160) then 2
            else
              match r' with
              | c :: _ =>
                  if ((c =? 225) && (d =? 154) && (e =? 128))
                     || ((c =? 226) && (d =? 128) &&
                         (((128 <=? e) && (e <=? 138)) || (e =? 168) || (e =? 169)
                          || (e =? 175)))
                     || ((c =? 226) && (d =? 129) && (e =? 159))
                     || ((c =? 227) && (d =? 128) && (e =? 128))
                     || ((c =? 239) && (d =? 187) && (e =? 191))
                  then 3 else 0
              | [] => 0
              end
        | [] => 0
        end
  | [] => 0
  end%nat.

(** Drops white space from the front, as long as [width] finds some. *)
Fixpoint drop_ws (width : list nat -> nat) (fuel : nat) (cs : list ascii) : list ascii :=
  match fuel with
  | O => cs
  | S fuel' =>
      match width (map nat_of_ascii cs) with
      | O => cs
      | n => drop_ws width fuel' (skipn n cs)
      end
  end.

(** [s.trim()]. *)
Definition trim (s : string) : string :=
  let front := drop_ws ws_width (String.length s) (chars s) in
  str (rev (drop_ws ws_width_rev (String.length s) (rev front))).

(** [s.split('\n')] on the characters of [s]; [cur] is the piece being read,
    reversed. *)
Fixpoint split_lines (cs : list ascii) (cur : list ascii) : list string :=
  match cs with
  | [] => [str (rev cur)]
  | c :: rest =>
      if (nat_of_ascii c =? 10)%nat then str (rev cur) :: split_lines rest []
      else split_lines rest (c :: cur)
  end.

(** ** findUEProjectGlobally

    What the function makes of the output of [dir /s /b]: the first line
    that is not blank, trimmed; [None] stands for [null]. *)
Definition first_project (stdout_text : string) : option string :=
  let projects :=
    filter (fun line => (0 <? String.length (trim line))%nat)
      (split_lines (chars stdout_text) []) in
  match projects with
  | [] => None
  | first :: _ => Some (trim first)
  end.

(** The command line it runs in the first workspace folder. *)
Definition dir_command (workspaceRoot : string) : string :=
  "dir /s /b " ++ dquote ++ workspaceRoot ++ "\*.uproject" ++ dquote.

(** ** The provider of the panel

    [UEBuilderPanelProvider] owns the three managers and talks to the
    workspace settings, the webview and the timers of the extension host.

    - Its [async] methods are computations in a resumption monad of their
      own, over the [Panel]: the managers with their parked methods, the
      fields of the provider, the settings, the workspace folder and the
      intervals that are set.
    - A promise that only the outside can settle (reading the page, [exec],
      writing a setting, the file dialog) is an [await] that hands back a
      continuation; [await] of the provider's own [async] functions is
      sequencing, since every such call is the last thing its caller does.
    - What the provider sends out goes to the log of the managers' world;
      [console.error] is logged like [console.log].  The page itself
      ([webview.options], [webview.html]) is not modelled. *)

Module Provider.

(** The managers' side, under names that stay visible below. *)
Definition Method : Type := Async unit.
Definition ManagersEvent : Type := Event.
Definition managers_step : State -> ManagersEvent -> State := step.
Definition run_method (m : Method) (s : State) : State :=
  park (m (world s)) (pending s).
Definition setView : Method := modify (set_views true).

Variant Setting := UePathSetting | ProjectPathSetting.

Record Panel := {
  managers : State;
  _view : bool;                       (* _view is set *)
  _isDetecting : bool;
  _detectionInterval : option nat;
  _projectDetected : bool;
  listening : bool;                   (* the webview listeners are registered *)
  settings : PartialConfig;           (* the workspace settings ueBuilder.* *)
  workspaceFolder : option string;    (* workspaceFolders[0].uri.fsPath *)
  intervals : list nat;               (* intervals set and not cleared *)
  nextHandle : nat
}.

Definition set_managers (v : State) (p : Panel) : Panel :=
  {| managers := v; _view := _view p; _isDetecting := _isDetecting p;
     _detectionInterval := _detectionInterval p; _projectDetected := _projectDetected p;
     listening := listening p; settings := settings p;
     workspaceFolder := workspaceFolder p; intervals := intervals p;
     nextHandle := nextHandle p |}.

Definition set_view (v : bool) (p : Panel) : Panel :=
  {| managers := managers p; _view := v; _isDetecting := _isDetecting p;
     _detectionInterval := _detectionInterval p; _projectDetected := _projectDetected p;
     listening := listening p; settings := settings p;
     workspaceFolder := workspaceFolder p; intervals := intervals p;
     nextHandle := nextHandle p |}.

Definition set_isDetecting (v : bool) (p : Panel) : Panel :=
  {| managers := managers p; _view := _view p; _isDetecting := v;
     _detectionInterval := _detectionInterval p; _projectDetected := _projectDetected p;
     listening := listening p; settings := settings p;
     workspaceFolder := workspaceFolder p; intervals := intervals p;
     nextHandle := nextHandle p |}.

Definition set_detectionInterval (v : option nat) (p : Panel) : Panel :=
  {| managers := managers p; _view := _view p; _isDetecting := _isDetecting p;
     _detectionInterval := v; _projectDetected := _projectDetected p;
     listening := listening p; settings := settings p;
     workspaceFolder := workspaceFolder p; intervals := intervals p;
     nextHandle := nextHandle p |}.

Definition set_projectDetected (v : bool) (p : Panel) : Panel :=
  {| managers := managers p; _view := _view p; _isDetecting := _isDetecting p;
     _detectionInterval := _detectionInterval p; _projectDetected := v;
     listening := listening p; settings := settings p;
     workspaceFolder := workspaceFolder p; intervals := intervals p;
     nextHandle := nextHandle p |}.

Definition set_listening (v : bool) (p : Panel) : Panel :=
  {| managers := managers p; _view := _view p; _isDetecting := _isDetecting p;
     _detectionInterval := _detectionInterval p; _projectDetected := _projectDetected p;
     listening := v; settings := settings p;
     workspaceFolder := workspaceFolder p; intervals := intervals p;
     nextHandle := nextHandle p |}.

Definition set_settings (v : PartialConfig) (p : Panel) : Panel :=
  {| managers := managers p; _view := _view p; _isDetecting := _isDetecting p;
     _detectionInterval := _detectionInterval p; _projectDetected := _projectDetected p;
     listening := listening p; settings := v;
     workspaceFolder := workspaceFolder p; intervals := intervals p;
     nextHandle := nextHandle p |}.

Definition set_workspaceFolder (v : option string) (p : Panel) : Panel :=
  {| managers := managers p; _view := _view p; _isDetecting := _isDetecting p;
     _detectionInterval := _detectionInterval p; _projectDetected := _projectDetected p;
     listening := listening p; settings := settings p;
     workspaceFolder := v; intervals := intervals p;
     nextHandle := nextHandle p |}.

Definition set_intervals (v : list nat) (p : Panel) : Panel :=
  {| managers := managers p; _view := _view p; _isDetecting := _isDetecting p;
     _detectionInterval := _detectionInterval p; _projectDetected := _projectDetected p;
     listening := listening p; settings := settings p;
     workspaceFolder := workspaceFolder p; intervals := v;
     nextHandle := nextHandle p |}.

Definition set_nextHandle (v : nat) (p : Panel) : Panel :=
  {| managers := managers p; _view := _view p; _isDetecting := _isDetecting p;
     _detectionInterval := _detectionInterval p; _projectDetected := _projectDetected p;
     listening := listening p; settings := settings p;
     workspaceFolder := workspaceFolder p; intervals := intervals p;
     nextHandle := v |}.

(** *** Promises settled from outside *)

Variant Promise :=
| ReadPage                                     (* workspace.fs.readFile(index.html) *)
| ExecDir (command : string)                   (* execAsync(command) *)
| UpdateSetting (key : Setting) (value : string) (* getConfiguration().update *)
| OpenDialog (title : string).                 (* window.showOpenDialog *)

(** The value a promise is fulfilled with (the output of [exec], the path
    chosen in the dialog, nothing), or the message it is rejected with. *)
Variant Outcome :=
| Resolves (v : option string)
| Rejects (e : string).

Inductive Res (A : Type) : Type :=
| Val (a : A) (p : Panel)
| Exn (e : string) (p : Panel)
| Susp (id : nat) (q : Promise) (k : Outcome -> Panel -> Res A) (p : Panel).

Arguments Val {A} a p.
Arguments Exn {A} e p.
Arguments Susp {A} id q k p.

Definition Async (A : Type) : Type := Panel -> Res A.

Definition ret {A} (a : A) : Async A := fun p => Val a p.

Fixpoint bindRes {A B} (r : Res A) (f : A -> Async B) : Res B :=
  match r with
  | Val a p => f a p
  | Exn e p => Exn e p
  | Susp id q k p => Susp id q (fun o p' => bindRes (k o p') f) p
  end.

Definition bind {A B} (m : Async A) (f : A -> Async B) : Async B :=
  fun p => bindRes (m p) f.

Fixpoint catchRes {A} (r : Res A) (handler : string -> Async A) : Res A :=
  match r with
  | Val a p => Val a p
  | Exn e p => handler e p
  | Susp id q k p => Susp id q (fun o p' => catchRes (k o p') handler) p
  end.

Definition try_catch {A} (body : Async A) (handler : string -> Async A) : Async A :=
  fun p => catchRes (body p) handler.

#[warnings="-notation-overridden"]
Local Notation "x <- m ;; k" := (bind m (fun x => k))
  (at level 61, m at next level, right associativity).
#[warnings="-notation-overridden"]
Local Notation "m ;; k" := (bind m (fun _ => k))
  (at level 61, right associativity).

Definition gets {A} (f : Panel -> A) : Async A := fun p => Val (f p) p.
Definition modify (f : Panel -> Panel) : Async unit := fun p => Val tt (f p).

(** [await] of the promise [q]. *)
Definition await (q : Promise) : Async (option string) :=
  fun p =>
    Susp (nextHandle p) q
      (fun o p' => match o with
                   | Resolves v => Val v p'
                   | Rejects e => Exn e p'
                   end)
      (set_nextHandle (S (nextHandle p)) p).

(** A call into a manager: it runs to its first [await], where the event
    loop of the managers keeps it. *)
Definition call (m : Method) : Async unit :=
  modify (fun p => set_managers (run_method m (managers p)) p).

Definition console_log (s : string) : Async unit := call (emit (ConsoleLog s)).
Definition postMessage (m : Message) : Async unit := call (emit (PostMessage m)).

(** [config.get<string>(key, defaultValue)]. *)
Definition get (v : option string) (defaultValue : string) : string :=
  match v with Some s => s | None => defaultValue end.

(** How [console.log] prints a value that is a string or [null]. *)
Definition show (v : option string) : string :=
  match v with Some s => s | None => "null" end.

Definition show_bool (b : bool) : string := if b then "true" else "false".

(** [if (v)] for a value that is a string or [null]. *)
Definition truthy (v : option string) : bool :=
  match v with Some s => negb (falsy s) | None => false end.

Definition write (key : Setting) (value : string) (c : PartialConfig) : PartialConfig :=
  match key with
  | UePathSetting =>
      {| p_uePath := Some value; p_projectPath := p_projectPath c;
         p_buildConfiguration := p_buildConfiguration c |}
  | ProjectPathSetting =>
      {| p_uePath := p_uePath c; p_projectPath := Some value;
         p_buildConfiguration := p_buildConfiguration c |}
  end.

(** *** The free functions of extension.ts *)

Definition findUEProjectGlobally : Async (option string) :=
  workspaceFolders <- gets workspaceFolder ;;
  match workspaceFolders with
  | None => ret None
  | Some workspaceRoot =>
      try_catch
        (out <- await (ExecDir (dir_command workspaceRoot)) ;;
         ret (first_project (get out EmptyString)))
        (fun error =>
           console_log ("[UE Builder] Error searching for UE project: " ++ error) ;;
           ret None)
  end.

Definition selectUEPath : Async unit :=
  uePath <- await (OpenDialog "Select UE5 Editor") ;;
  match uePath with
  | Some selectedPath =>
      await (UpdateSetting UePathSetting selectedPath) ;;
      call (showInformationMessage ("UE5 Editor path set to: " ++ selectedPath))
  | None => ret tt
  end.

Definition selectProjectPath : Async unit :=
  projectPath <- await (OpenDialog "Select UE Project") ;;
  match projectPath with
  | Some selectedPath =>
      await (UpdateSetting ProjectPathSetting selectedPath) ;;
      call (showInformationMessage ("UE Project path set to: " ++ selectedPath))
  | None => ret tt
  end.

(** *** The methods of the provider *)

Definition _stopDetection : Async unit :=
  i <- gets _detectionInterval ;;
  match i with
  | Some id =>
      modify (fun p => set_intervals (filter (fun j => negb (j =? id)%nat) (intervals p)) p) ;;
      modify (set_detectionInterval None) ;;
      console_log "[UE Builder] Stopped continuous detection"
  | None => ret tt
  end.

(** [this._detectionInterval = setInterval(..., 5000)]. *)
Definition setInterval : Async unit :=
  id <- gets nextHandle ;;
  modify (set_nextHandle (S id)) ;;
  modify (fun p => set_intervals (id :: intervals p) p) ;;
  modify (set_detectionInterval (Some id)).

Definition _refresh : Async unit :=
  view <- gets _view ;;
  if negb view then console_log "[UE Builder] _refresh: view is not available"
  else
    console_log "[UE Builder] _refresh called" ;;
    config <- gets settings ;;
    let uePath := get (p_uePath config) EmptyString in
    let projectPath := get (p_projectPath config) EmptyString in
    let buildConfiguration := get (p_buildConfiguration config) "Development" in
    console_log ("[UE Builder] Read config - uePath: " ++ uePath) ;;
    console_log ("[UE Builder] Read config - projectPath: " ++ projectPath) ;;
    console_log ("[UE Builder] Read config - buildConfiguration: " ++ buildConfiguration) ;;
    projectPath <-
      (if falsy projectPath then
         console_log "[UE Builder] projectPath is empty, attempting auto-detection" ;;
         postMessage (MUpdate {| uePath := uePath; projectPath := "检测中...";
                                 buildConfiguration := buildConfiguration |}) ;;
         modify (set_isDetecting true) ;;
         detectedProjectPath <- findUEProjectGlobally ;;
         modify (set_isDetecting false) ;;
         console_log ("[UE Builder] Global detection result: " ++
                      show detectedProjectPath) ;;
         if truthy detectedProjectPath then
           let projectPath := get detectedProjectPath EmptyString in
           modify (set_projectDetected true) ;;
           console_log ("[UE Builder] Saving projectPath to Workspace config: " ++
                        projectPath) ;;
           try_catch
             (await (UpdateSetting ProjectPathSetting projectPath) ;;
              console_log "[UE Builder] Save completed" ;;
              updatedConfig <- gets settings ;;
              let reReadProjectPath := get (p_projectPath updatedConfig) EmptyString in
              console_log ("[UE Builder] Re-read projectPath after save: " ++
                           reReadProjectPath) ;;
              console_log ("[UE Builder] projectPath match: " ++
                           show_bool (String.eqb reReadProjectPath projectPath)) ;;
              ret (if String.eqb reReadProjectPath projectPath
                   then reReadProjectPath else projectPath))
             (fun error =>
                console_log ("[UE Builder] Error saving projectPath: " ++ error) ;;
                ret projectPath)
         else
           console_log
             "[UE Builder] No UE project found globally, starting continuous detection" ;;
           interval <- gets _detectionInterval ;;
           detected <- gets _projectDetected ;;
           (match interval with
            | None => if negb detected then setInterval else ret tt
            | Some _ => ret tt
            end) ;;
           ret projectPath
       else
         console_log ("[UE Builder] projectPath already set: " ++ projectPath) ;;
         modify (set_projectDetected true) ;;
         _stopDetection ;;
         ret projectPath) ;;
    call (updateConfig {| p_uePath := Some uePath; p_projectPath := Some projectPath;
                          p_buildConfiguration := Some buildConfiguration |}) ;;
    console_log ("[UE Builder] Sending update message - projectPath: " ++ projectPath) ;;
    postMessage (MUpdate {| uePath := uePath; projectPath := projectPath;
                            buildConfiguration := buildConfiguration |}).

(** The callback of the interval. *)
Definition onInterval : Async unit :=
  console_log "[UE Builder] Continuous detection - checking for project..." ;;
  config <- gets settings ;;
  let currentProjectPath := get (p_projectPath config) EmptyString in
  if negb (falsy currentProjectPath) then
    console_log "[UE Builder] Project already detected, stopping continuous detection" ;;
    _stopDetection ;;
    modify (set_projectDetected true) ;;
    _refresh
  else
    detectedPath <- findUEProjectGlobally ;;
    if truthy detectedPath then
      let detectedPath := get detectedPath EmptyString in
      console_log ("[UE Builder] Project found during continuous detection: " ++
                   detectedPath) ;;
      _stopDetection ;;
      modify (set_projectDetected true) ;;
      try_catch
        (await (UpdateSetting ProjectPathSetting detectedPath) ;; ret tt)
        (fun error => console_log ("[UE Builder] Error saving projectPath: " ++ error)) ;;
      _refresh
    else ret tt.

Definition _redetectProject : Async unit :=
  view <- gets _view ;;
  if negb view then ret tt
  else
    console_log "[UE Builder] Manual redetection requested" ;;
    modify (set_projectDetected false) ;;
    _refresh.

(** The messages of the webview: [data.type]. *)
Variant Request :=
| SelectUEPath
| SelectProjectPath
| Operation (c : Command)
| Refresh
| Redetect
| Other (type : string).

Definition request_type (r : Request) : string :=
  match r with
  | SelectUEPath => "selectUEPath"
  | SelectProjectPath => "selectProjectPath"
  | Operation CleanSolution => "cleanSolution"
  | Operation RegenerateSolution => "regenerateSolution"
  | Operation GenerateSolution => "generateSolution"
  | Operation StartDebug => "startDebug"
  | Operation StartWithoutDebug => "startWithoutDebug"
  | Operation LaunchProject => "launchProject"
  | Operation CancelBuild => "cancelBuild"
  | Operation CancelDebug => "cancelDebug"
  | Refresh => "refresh"
  | Redetect => "redetect"
  | Other type => type
  end.

(** The listener of [onDidReceiveMessage]. *)
Definition onDidReceiveMessage (data : Request) : Async unit :=
  console_log ("[UE Builder] Received message: " ++ request_type data) ;;
  match data with
  | SelectUEPath => selectUEPath ;; _refresh
  | SelectProjectPath => selectProjectPath ;; _refresh
  | Operation c => call (method c)
  | Refresh => _refresh
  | Redetect => _redetectProject
  | Other _ => ret tt
  end.

(** The listener of [onDidChangeVisibility]. *)
Definition onDidChangeVisibility (visible : bool) : Async unit :=
  console_log ("[UE Builder] Visibility changed, visible: " ++ show_bool visible) ;;
  if visible then _refresh else ret tt.

Definition resolveWebviewView : Async unit :=
  console_log "[UE Builder] resolveWebviewView called" ;;
  modify (set_view true) ;;
  call setView ;;
  await ReadPage ;;
  modify (set_listening true) ;;
  _refresh.

(** *** The event loop of the extension host *)

Record Pending := { handle : nat; promise : Promise; resume : Outcome -> Panel -> Res unit }.

Record Host := { panel : Panel; parked : list Pending }.

Definition park (r : Res unit) (ps : list Pending) : Host :=
  match r with
  | Val _ p => {| panel := p; parked := ps |}
  | Exn _ p => {| panel := p; parked := ps |}
  | Susp id q k p =>
      {| panel := p; parked := (ps ++ [{| handle := id; promise := q; resume := k |}])%list |}
  end.

(** What happens to the extension. *)
Variant Event :=
| Resolve                                  (* the panel is shown for the first time *)
| Receive (data : Request)                 (* a message of the webview *)
| Visibility (visible : bool)
| Tick (id : nat)                          (* the interval [id] fires *)
| Settle (id : nat) (o : Outcome)          (* the promise [id] settles *)
| Settings (c : PartialConfig)             (* the settings are edited *)
| Folder (f : option string)               (* the workspace folders change *)
| Outside (e : ManagersEvent).           (* file system and child processes *)

(** The events of the managers' loop that come from outside. *)
Definition outside (e : ManagersEvent) : bool :=
  match e with
  | FileSystem _ _ | RmSettled _ _ | StdoutData _ _ _ | StderrData _ _
  | Close _ _ | ProcessError _ _ => true
  | _ => false
  end.

Definition awaits (id : nat) (q : Pending) : bool := (handle q =? id)%nat.

(** A setting is written when its [update] is fulfilled. *)
Definition settled (q : Promise) (o : Outcome) (p : Panel) : Panel :=
  match q, o with
  | UpdateSetting key value, Resolves _ => set_settings (write key value (settings p)) p
  | _, _ => p
  end.

Definition step (h : Host) (e : Event) : Host :=
  let p := panel h in
  let ps := parked h in
  match e with
  | Resolve => park (resolveWebviewView p) ps
  | Receive data => if listening p then park (onDidReceiveMessage data p) ps else h
  | Visibility visible =>
      if listening p then park (onDidChangeVisibility visible p) ps else h
  | Tick id =>
      if existsb (Nat.eqb id) (intervals p) then park (onInterval p) ps else h
  | Settle id o =>
      match find (awaits id) ps with
      | Some q =>
          park (resume q o (settled (promise q) o p))
            (filter (fun q' => negb (awaits id q')) ps)
      | None => h
      end
  | Settings c => {| panel := set_settings c p; parked := ps |}
  | Folder f => {| panel := set_workspaceFolder f p; parked := ps |}
  | Outside e =>
      if outside e
      then {| panel := set_managers (managers_step (managers p) e) p; parked := ps |}
      else h
  end.

Definition run (h : Host) (es : list Event) : Host := fold_left step es h.

(** The extension right after activation. *)
Definition initialHost (ex : string -> bool) (ue : string -> option string)
  (c : PartialConfig) (f : option string) : Host :=
  {| panel :=
       {| managers := initialState ex ue; _view := false; _isDetecting := false;
          _detectionInterval := None; _projectDetected := false; listening := false;
          settings := c; workspaceFolder := f; intervals := []; nextHandle := 1 |};
     parked := [] |}.

End Provider.

(** * Vocabulary of the properties *)

(** ** Validation *)

(** The four checks in the order the specification lists them: whether the
    check fails, and the reason it then reports. *)
Definition checks (ex : string -> bool) (c : BuildConfig) : list (bool * string) :=
  [(falsy (uePath c), err_uePath_unset);
   (negb (ex (uePath c)), err_uePath_missing);
   (falsy (projectPath c), err_projectPath_unset);
   (negb (ex (projectPath c)), err_projectPath_missing)].

(** "valid, or else the first failing check". *)
Definition first_failure (l : list (bool * string)) : Validation :=
  match find fst l with
  | Some (_, reason) => {| valid := false; error := Some reason |}
  | None => {| valid := true; error := None |}
  end.

(** ** Operations that start a run *)

Definition starts_run (c : Command) : bool :=
  match c with
  | CleanSolution | RegenerateSolution | GenerateSolution
  | StartDebug | StartWithoutDebug => true
  | LaunchProject | CancelBuild | CancelDebug => false
  end.

(** The run flag of the manager that serves a command. *)
Definition running (c : Command) (w : World) : bool :=
  match c with
  | CleanSolution | RegenerateSolution | GenerateSolution | CancelBuild =>
      isBuilding w
  | StartDebug | StartWithoutDebug | LaunchProject | CancelDebug => isDebugging w
  end.

(** ** Invoking the build script *)

(** The child process [_executeProcess] creates: [exec] of a quoted command
    line for a batch file, [spawn] otherwise. *)
Definition child_process (pid : nat) (executable : string) (args : list string)
  (cwd : string) : Effect :=
  if endsWith ".bat" executable then Exec pid (bat_command executable args) cwd
  else Spawn pid executable args cwd false.

(** An argument as it stands on the command line of a batch file: inside
    double quotes when it contains a space. *)
Definition quoted (arg : string) : string :=
  if includes " " arg then dquote ++ arg ++ dquote else arg.

(** The command line the specification lists: the script in double quotes,
    [<projectName>Editor], the platform, the build flavor,
    [-Project="<path>"], the three switches, and [tail]. *)
Definition script_line (bat name flavor path tail : string) : string :=
  dquote ++ bat ++ dquote ++ " " ++ quoted (name ++ "Editor") ++ " Win64 " ++
  quoted flavor ++ " " ++ quoted ("-Project=" ++ dquote ++ path ++ dquote) ++
  " -WaitMutex -FromMsBuild -architecture=x64" ++ tail.

(** The segments that [buildBatPath] joins to the engine root. *)
Definition script_segments : list ascii := chars "Engine\Build\BatchFiles\Build.bat".

(** ** Asynchronous methods along their awaits

    A result tree is explored along its awaits.  [Rethrows r]: wherever [r]
    awaits, a rejected promise throws its error at that point and nothing else
    happens.  [Caught h r]: wherever [r] awaits, a rejected promise runs the
    handler [h] on the error and the method is over. *)

Fixpoint Rethrows {A} (r : Res A) : Prop :=
  match r with
  | Susp _ k _ =>
      (forall e w, k (Some e) w = Exn e w) /\ (forall w, Rethrows (k None w))
  | _ => True
  end.

Fixpoint Caught {A} (h : string -> Async A) (r : Res A) : Prop :=
  match r with
  | Susp _ k _ =>
      (forall e w, k (Some e) w = h e w) /\ (forall w, Caught h (k None w))
  | _ => True
  end.

(** A computation without [await]. *)
Definition NoSusp {A} (m : Async A) : Prop :=
  forall w, match m w with Susp _ _ _ => False | _ => True end.

(** The [catch] block of each operation. *)
Definition handler_of (c : Command) : string -> Async unit :=
  match c with
  | CleanSolution => BuildManager.failed "清理失败: " "清理失败! 查看输出面板了解详情"
  | RegenerateSolution | GenerateSolution | CancelBuild =>
      BuildManager.failed "操作失败: " "操作失败! 查看输出面板了解详情"
  | StartDebug | StartWithoutDebug | LaunchProject | CancelDebug =>
      DebugManager.failed
  end.

(** The [catch] blocks of the two managers. *)
Inductive Handler : (string -> Async unit) -> Prop :=
| HandlerBuild (prefix notification : string) :
    Handler (BuildManager.failed prefix notification)
| HandlerDebug : Handler DebugManager.failed.

(** A parked method whose rejection is caught by a [catch] block of a
    manager, now and at its later awaits. *)
Definition Guarded (p : Pending) : Prop :=
  exists h, Handler h /\
            (forall e w, resume p (Some e) w = h e w) /\
            (forall w, Caught h (resume p None w)).

(** ** Exit codes *)

(** What the [catch] block of a manager leaves behind for the error text
    [msg]: the text in the output channel, the notification, the failure
    message for the webview (when there is a view), and an idle manager. *)
Definition reports_failure (w w' : World) (msg : string) : Prop :=
  (exists prefix notification,
      log w' = (log w ++
                OutputAppendLine (prefix ++ msg) :: ShowErrorMessage notification ::
                (if buildView w then [PostMessage (MBuildFailed msg)] else []))%list /\
      isBuilding w' = false /\ buildProcess w' = None) \/
  (exists prefix notification,
      log w' = (log w ++
                OutputAppendLine (prefix ++ msg) :: ShowErrorMessage notification ::
                (if debugView w then [PostMessage (MDebugFailed msg)] else []))%list /\
      isDebugging w' = false /\ debugProcess w' = None).

(** The world after the [close] or [error] listener of a process of [o]. *)
Definition closed (o : Owner) (w : World) : World :=
  match o with
  | OwnerBuild => set_buildProcess None w
  | OwnerDebug => set_debugProcess None w
  end.

(** ** Assertions along an asynchronous method

    [Sat G R Qv Qe r]: the method that has reached [r] satisfies [G] whenever
    it stops at an [await]; provided the world it is resumed in is related by
    [R] to the world it stopped in, it ends in a world satisfying [Qv] when it
    returns and [Qe] when it throws. *)

Fixpoint Sat {A} (G : Wait -> World -> Prop) (R : World -> World -> Prop)
  (Qv : A -> World -> Prop) (Qe : string -> World -> Prop) (r : Res A) : Prop :=
  match r with
  | Val a w => Qv a w
  | Exn e w => Qe e w
  | Susp q k w => G q w /\ forall o w', R w w' -> Sat G R Qv Qe (k o w')
  end.

(** [Triple G R P m Qv Qe]: started in a world satisfying [P], the method
    [m] satisfies [Sat G R Qv Qe]. *)
Definition Triple (G : Wait -> World -> Prop) (R : World -> World -> Prop) {A}
  (P : World -> Prop) (m : Async A)
  (Qv : A -> World -> Prop) (Qe : string -> World -> Prop) : Prop :=
  forall w, P w -> Sat G R Qv Qe (m w).

(** The world [w] with the log [l]. *)
Definition with_log (l : list Effect) (w : World) : World :=
  {| config := config w; configView := configView w; buildView := buildView w;
     isBuilding := isBuilding w; buildProcess := buildProcess w;
     debugView := debugView w; isDebugging := isDebugging w;
     debugProcess := debugProcess w; existsSync := existsSync w;
     unlinkError := unlinkError w; procs := procs w; nextId := nextId w;
     log := l |}.

(** An assertion that does not depend on logged effects other than deletions
    and processes. *)
Definition Stable (P : World -> Prop) : Prop :=
  forall w l, side_effects l = [] -> P w -> P (with_log (log w ++ l) w).

(** Code without [await] or exceptions that only appends such effects. *)
Definition Quiet {A} (m : Async A) : Prop :=
  forall w, exists a l, m w = Val a (with_log (log w ++ l) w) /\ side_effects l = [].

(** ** A clean in flight *)

(** The build manager while a run without child process is in flight, and
    while it is idle. *)
Definition RunningNoProcess (w : World) : Prop :=
  isBuilding w = true /\ buildProcess w = None.


Definition awaits_rm (q : Wait) : Prop :=
  match q with WaitRm _ _ => True | WaitProcess _ => False end.







(** ** The steps of regenerate *)

(** The deletions and child processes of [regenerateSolution] under the
    configuration [cfg], numbered in the order of the specification: the three
    directories of clean, the solution file, the generate run of the script
    and its compile run. *)
Inductive regenerate_step (cfg : BuildConfig) : nat -> Effect -> Prop :=
| StepIntermediate (id : nat) :
    regenerate_step cfg 1 (FsRm id (Path.join [getProjectDir cfg; "Intermediate"]))
| StepBinaries (id : nat) :
    regenerate_step cfg 2 (FsRm id (Path.join [getProjectDir cfg; "Binaries"]))
| StepStagedBuilds (id : nat) :
    regenerate_step cfg 3
      (FsRm id (Path.join [getProjectDir cfg; "Saved"; "StagedBuilds"]))
| StepSolutionFile :
    regenerate_step cfg 4 (FsUnlink (getSolutionPath cfg))
| StepGenerate (pid : nat) :
    regenerate_step cfg 5
      (child_process pid (BuildManager.buildBatPath (uePath cfg))
         (BuildManager.generateArgs (getProjectName cfg) (projectPath cfg))
         (getProjectDir cfg))
| StepCompile (pid : nat) :
    regenerate_step cfg 6
      (child_process pid (BuildManager.buildBatPath (uePath cfg))
         (BuildManager.buildArgs (getProjectName cfg) (buildConfiguration cfg)
            (projectPath cfg))
         (getProjectDir cfg)).

(** [Done cfg base st w]: the operation was started with the configuration
    [cfg] when the deletions and processes logged were [base]; those logged
    since are steps of regenerate in strictly increasing order, none later
    than step [st]; at [st = 5] the generate run is among them, at [st = 6]
    the compile run too.  The configuration is still the one of the start. *)
Definition Done (cfg : BuildConfig) (base : list Effect) (st : nat) (w : World) : Prop :=
  config w = cfg /\
  exists (stages : list nat) (l : list Effect),
    side_effects (log w) = (base ++ l)%list /\
    Forall2 (regenerate_step cfg) stages l /\
    StronglySorted lt stages /\
    Forall (fun n => n <= st) stages /\
    (5 <= st -> In 5 stages) /\
    (6 <= st -> In 6 stages).

Definition InOrder (cfg : BuildConfig) (base : list Effect) (w : World) : Prop :=
  exists st, Done cfg base st w.

(** Guarantee at each await, and what is assumed of the world the operation
    is resumed in: nobody else has changed the configuration, deleted a file
    or started a process. *)
Definition Gorder (cfg : BuildConfig) (base : list Effect) (q : Wait) (w : World)
  : Prop := InOrder cfg base w.
Definition Rorder (w w' : World) : Prop :=
  config w' = config w /\ side_effects (log w') = side_effects (log w).

(** The operation has just reported success: the last effect is the
    completion notification, or the success message when there is a view. *)
Definition ends_in_success (w : World) : Prop :=
  exists l,
    log w = (l ++ [ShowInformationMessage "重新生成解决方案完成"])%list \/
    log w = (l ++ [PostMessage MBuildSuccess])%list.

(** Where regenerate ends: what it deleted and started is in order, and if it
    reports success, the generate run and the compile run are among it. *)
Definition RegenerateEnd (cfg : BuildConfig) (base : list Effect) (w : World) : Prop :=
  InOrder cfg base w /\ (ends_in_success w -> Done cfg base 6 w).

(** Whole runs on an installation where the three directories and the
    solution file exist. *)
Definition everything (p : string) : bool :=
  existsb (String.eqb p)
    (Sample.files ++ ["C:\Proj\Intermediate"; "C:\Proj\Saved\StagedBuilds"])%list.

(** ** The steps of regenerate, one after the other *)

(** A step of the specification: a directory of clean is removed, the
    solution file is deleted, the build script is run in its generate or in
    its compile mode. *)
Variant Stage :=
| RemoveDirectory (path : string)
| DeleteFile (path : string)
| RunScript (generate : bool).

(** The process that runs the build script for an operation that was started
    with the configuration [cfg], in the world [w]: the script and the
    project path are those of [cfg], the flavor is the one of [cfg] in
    compile mode and [Development] in generate mode, the project name and the
    working directory are read from the configuration of [w]. *)
Definition script_run (cfg : BuildConfig) (generate : bool) (w : World) : Effect :=
  Exec (nextId w)
    (script_line (BuildManager.buildBatPath (uePath cfg)) (getProjectName (config w))
       (if generate then "Development" else buildConfiguration cfg) (projectPath cfg)
       (if generate then " -GenerateProjectFiles" else EmptyString))
    (getProjectDir (config w)).

Section Performing.

Context {A : Type}.

(** The configuration the operation was started with. *)
Variable cfg : BuildConfig.

(** What holds of the operation once all steps are performed, and once a
    step has failed with an error. *)
Variable Succeeds : World -> list Effect -> Res A -> Prop.
Variable Fails : string -> list Effect -> Res A -> Prop.

(** [Performs stages w base r]: the operation is in the world [w], where the
    deletions and processes logged are [base], and has reached [r]; it
    performs [stages] in this order, each one in the world it is resumed in.
    - A directory that exists is removed: the operation stops at the await
      of [fs.promises.rm], having logged that removal and nothing else; one
      that does not exist is passed over.
    - The file, if it exists, is deleted by [unlinkSync] at once.
    - The script, if it exists, is started and the operation stops at the
      await of its exit, having logged that process and nothing else.
    When the awaited promise is fulfilled, in whatever world, the operation
    performs the stages that are left; when it is rejected, when
    [unlinkSync] throws or when the script is missing, the operation has
    failed with that error, with nothing more deleted or started. *)
Fixpoint Performs (stages : list Stage) (w : World) (base : list Effect) (r : Res A)
  : Prop :=
  match stages with
  | [] => Succeeds w base r
  | RemoveDirectory path :: rest =>
      if existsSync w path then
        exists k w1,
          r = Susp (WaitRm (nextId w) path) k w1 /\
          side_effects (log w1) = (base ++ [FsRm (nextId w) path])%list /\
          (forall w', Performs rest w' (side_effects (log w')) (k None w')) /\
          (forall e w', Fails e (side_effects (log w')) (k (Some e) w'))
      else Performs rest w base r
  | DeleteFile path :: rest =>
      if existsSync w path then
        match unlinkError w path with
        | Some e => Fails e (base ++ [FsUnlink path])%list r
        | None =>
            Performs rest (set_fs (removed path (existsSync w)) (unlinkError w) w)
              (base ++ [FsUnlink path])%list r
        end
      else Performs rest w base r
  | RunScript generate :: rest =>
      if existsSync w (BuildManager.buildBatPath (uePath cfg)) then
        exists k w1,
          r = Susp (WaitProcess (nextId w)) k w1 /\
          side_effects (log w1) = (base ++ [script_run cfg generate w])%list /\
          (forall w', Performs rest w' (side_effects (log w')) (k None w')) /\
          (forall e w', Fails e (side_effects (log w')) (k (Some e) w'))
      else
        Fails ("Build.bat not found at: " ++ BuildManager.buildBatPath (uePath cfg))
          base r
  end.

End Performing.

(** The steps of regenerate in the order of the specification, for the
    configuration it is started with. *)
Definition regenerate_stages (cfg : BuildConfig) : list Stage :=
  [RemoveDirectory (Path.join [getProjectDir cfg; "Intermediate"]);
   RemoveDirectory (Path.join [getProjectDir cfg; "Binaries"]);
   RemoveDirectory (Path.join [getProjectDir cfg; "Saved"; "StagedBuilds"]);
   DeleteFile (getSolutionPath cfg);
   RunScript true;
   RunScript false].

(** The manager is idle, and the success of regenerate was the last thing
    written to the output channel, shown as a notification and posted to the
    view, if any. *)
Definition Reported (w : World) : Prop :=
  isBuilding w = false /\ buildProcess w = None /\
  exists l,
    log w =
      (l ++ OutputAppendLine "=== 重新生成解决方案完成 ===" ::
            ShowInformationMessage "重新生成解决方案完成" ::
            (if buildView w then [PostMessage MBuildSuccess] else []))%list.

(** Regenerate is over and has reported its success: nothing was deleted or
    started beyond [base]. *)
Definition Regenerated (w : World) (base : list Effect) (r : Res unit) : Prop :=
  exists w1,
    r = Val tt w1 /\ side_effects (log w1) = base /\ Reported w1.

(** Regenerate is over and has reported the failure [e]: the [catch] block
    has written the error to the output channel, shown the notification and
    posted [buildFailed] to the view, if any; nothing was deleted or started
    beyond [base], and the manager is idle. *)
Definition RegenerateFailed (e : string) (base : list Effect) (r : Res unit) : Prop :=
  exists w1 l,
    r = Val tt w1 /\ side_effects (log w1) = base /\
    isBuilding w1 = false /\ buildProcess w1 = None /\
    log w1 =
      (l ++ OutputAppendLine ("操作失败: " ++ errorMessage e) ::
            ShowErrorMessage "操作失败! 查看输出面板了解详情" ::
            (if buildView w1 then [PostMessage (MBuildFailed (errorMessage e))] else []))%list.

(** [w'] is [w] as far as the steps read it. *)
Definition Alike (w w' : World) : Prop :=
  config w = config w' /\ existsSync w = existsSync w' /\
  unlinkError w = unlinkError w' /\ nextId w = nextId w'.

(** A piece of code inside the [try] block has returned, resp. thrown,
    having deleted and started nothing beyond [base]. *)
Definition Returns {A} (Q : A -> World -> Prop) (w : World) (base : list Effect)
  (r : Res A) : Prop :=
  exists a w1, r = Val a w1 /\ Alike w w1 /\ side_effects (log w1) = base /\ Q a w1.

Definition Throws {A} (e : string) (base : list Effect) (r : Res A) : Prop :=
  exists w1, r = Exn e w1 /\ side_effects (log w1) = base.

(** [Does cfg S F P stages m]: started in a world satisfying [P], the code
    [m] performs [stages]. *)
Definition Does {A} (cfg : BuildConfig) (S : World -> list Effect -> Res A -> Prop)
  (F : string -> list Effect -> Res A -> Prop) (P : World -> Prop)
  (stages : list Stage) (m : Async A) : Prop :=
  forall w0 w, Alike w0 w -> P w -> Performs cfg S F stages w0 (side_effects (log w)) (m w).

(** No condition on the world the code starts in, resp. on what it
    returns. *)
Definition Anywhere (w : World) : Prop := True.
Definition Whatever {A} (a : A) (w : World) : Prop := True.

(** ** Project name and solution path *)

(** A file name without path separators. *)
Definition no_separator (s : string) : Prop :=
  Forall (fun c => Path.isPathSeparator c = false) (chars s).

(** The specification's "basename with its extension stripped": the base
    name up to its last dot, when that dot is not its first character. *)
Fixpoint last_dot (cs : list ascii) (i : nat) (found : option nat) : option nat :=
  match cs with
  | [] => found
  | c :: rest => last_dot rest (S i) (if Path.is_dot c then Some i else found)
  end.

Definition strip_extension (name : string) : string :=
  match last_dot (chars name) 0 None with
  | Some (S k) => str (firstn (S k) (chars name))
  | _ => name
  end.

Definition basename_without_extension (path : string) : string :=
  strip_extension (Path.basename path EmptyString).

(** One iteration of the loop of [basename] on a character that is not a
    separator, for the suffix [suf]. *)
Definition after_char (suf : list ascii) (st : Path.BaseState) (i : nat) (c : ascii)
  : Path.BaseState :=
  let st1 :=
    match Path.b_firstNonSlashEnd st with
    | None =>
        {| Path.b_start := Path.b_start st; Path.b_end := Path.b_end st;
           Path.b_matchedSlash := false; Path.b_extIdx := Path.b_extIdx st;
           Path.b_firstNonSlashEnd := Some (i + 1) |}
    | Some _ => st
    end in
  match Path.b_extIdx st1 with
  | Some k =>
      if Path.at_ suf k (Ascii.eqb c) then
        match k with
        | O =>
            {| Path.b_start := Path.b_start st1; Path.b_end := Some i;
               Path.b_matchedSlash := Path.b_matchedSlash st1; Path.b_extIdx := None;
               Path.b_firstNonSlashEnd := Path.b_firstNonSlashEnd st1 |}
        | S k' =>
            {| Path.b_start := Path.b_start st1; Path.b_end := Path.b_end st1;
               Path.b_matchedSlash := Path.b_matchedSlash st1; Path.b_extIdx := Some k';
               Path.b_firstNonSlashEnd := Path.b_firstNonSlashEnd st1 |}
        end
      else
        {| Path.b_start := Path.b_start st1; Path.b_end := Path.b_firstNonSlashEnd st1;
           Path.b_matchedSlash := Path.b_matchedSlash st1; Path.b_extIdx := None;
           Path.b_firstNonSlashEnd := Path.b_firstNonSlashEnd st1 |}
  | None => st1
  end.

(** A configuration with the given project path. *)
Definition sample_config (path : string) : BuildConfig :=
  {| uePath := Sample.editor; projectPath := path; buildConfiguration := "Development" |}.

(** ** Further properties *)

(** No exception escapes: along every path through its awaits, the method
    returns. *)
Fixpoint NeverThrows {A} (r : Res A) : Prop :=
  match r with
  | Val _ _ => True
  | Exn _ _ => False
  | Susp _ k _ => forall o w, NeverThrows (k o w)
  end.

(** Assertions that say nothing, and one that forbids to await. *)
Definition Anything (w : World) : Prop := True.
Definition Gany (q : Wait) (w : World) : Prop := True.
Definition Rany (w w' : World) : Prop := True.
Definition Gnone (q : Wait) (w : World) : Prop := False.

(** What one chunk of output does to the closure of its process and to the
    progress values posted: at most one value, the new [currentProgress], and
    only when it is above the old one. *)
Definition Advances (c c' : ProcCtx) (posted : list Q) : Prop :=
  owner c' = owner c /\
  (currentProgress c <= currentProgress c')%Q /\
  (posted = [] \/
   posted = [currentProgress c'] /\ (currentProgress c < currentProgress c')%Q).

(** The [data] events of the output stream of process [pid], one per chunk
    with the time elapsed when it arrives. *)
Definition output_of (pid : nat) (chunks : list (string * Z)) : list Event :=
  map (fun ch => StdoutData pid (fst ch) (snd ch)) chunks.

(** Nothing to delete: the three directories of [dir] are absent; [view] and
    [base] are the view flag and the deletions and processes logged. *)
Definition NothingToDelete (dir : string) (view : bool) (base : list Effect)
  (w : World) : Prop :=
  getProjectDir (config w) = dir /\
  existsSync w (Path.join [dir; "Intermediate"]) = false /\
  existsSync w (Path.join [dir; "Binaries"]) = false /\
  existsSync w (Path.join [dir; "Saved"; "StagedBuilds"]) = false /\
  buildView w = view /\
  side_effects (log w) = base.

(** The clean has reported success and the manager is idle. *)
Definition CleanSucceeded (view : bool) (base : list Effect) (w : World) : Prop :=
  side_effects (log w) = base /\
  isBuilding w = false /\ buildProcess w = None /\
  last (log w) OutputShow =
    (if view then PostMessage MBuildSuccess else ShowInformationMessage "清理完成").

(** [Posted base b w]: the progress values posted since the log held [base]
    are non-decreasing and at most [b]. *)
Definition Posted (base : list Q) (b : Q) (w : World) : Prop :=
  exists l,
    progress_values (log w) = (base ++ l)%list /\
    StronglySorted Qle l /\ Forall (fun p => p <= b)%Q l.

(** The value 100 has been posted last, if there is a view to post to. *)
Definition Reached100 (base : list Q) (w : World) : Prop :=
  exists l,
    progress_values (log w) = (base ++ l)%list /\
    StronglySorted Qle l /\ Forall (fun p => p <= 100)%Q l /\
    (buildView w = true -> exists l', l = (l' ++ [100%Q])%list).

(** Where an operation ends: if its last effect is the success message, the
    last progress value posted is 100. *)
Definition ProgressEnd (base : list Q) (w : World) : Prop :=
  exists l,
    progress_values (log w) = (base ++ l)%list /\
    StronglySorted Qle l /\ Forall (fun p => p <= 100)%Q l /\
    (last (log w) OutputShow = PostMessage MBuildSuccess ->
     exists l', l = (l' ++ [100%Q])%list).

(** Guarantee at each await, and what is assumed of the world the operation
    is resumed in: nobody else has posted a progress value or changed the
    view. *)
Definition Gprogress (base : list Q) (q : Wait) (w : World) : Prop := Posted base 100 w.
Definition Rprogress (w w' : World) : Prop :=
  progress_values (log w') = progress_values (log w) /\ buildView w' = buildView w.

(** Code without [await] or exceptions that posts no progress value and
    leaves the view as it is. *)
Definition Silent {A} (m : Async A) : Prop :=
  forall w, exists a w',
    m w = Val a w' /\
    progress_values (log w') = progress_values (log w) /\ buildView w' = buildView w.

(** ** Vocabulary of the further properties *)

(** ** Reading the percent marker *)

(** The run of digits being read after the characters [pre]. *)
Definition run_after (pre : list ascii) (run : option Z) : option Z :=
  fold_left
    (fun r c =>
       if is_digit c
       then Some (10 * match r with Some v => v | None => 0 end + digit_value c)%Z
       else None)
    pre run.

Definition no_percent (cs : list ascii) : Prop :=
  Forall (fun c => (c =? "%")%char = false) cs.

(** The text does not end in a digit. *)
Definition ends_outside_digits (cs : list ascii) : Prop :=
  match rev cs with
  | [] => True
  | c :: _ => is_digit c = false
  end.

(** Reading the digits [ds] after the value [v]. *)
Definition read (ds : list ascii) (v : Z) : Z :=
  fold_left (fun v c => (10 * v + digit_value c)%Z) ds v.

(** ** Progress values of the listeners *)

(** The value the debug manager posts for the marker [q]: the double
    [10 + q * 0.4]. *)
Definition scaled (q : Q) : Q := Double.add 10 (Double.mul q (Double.round (4 # 10))).

(** The double [Math.min(95, 40 + (elapsed / 300000) * 55)]. *)
Definition estimate (elapsed : Z) : Q :=
  Qmin_js 95 (Double.add 40 (Double.mul (Double.div (inject_Z elapsed) 300000) 55)).

(** Chunks of output without a percent marker. *)
Definition without_marker (chunks : list (string * Z)) : Prop :=
  Forall (fun ch => _parseProgress (fst ch) = 0%Z) chunks.

(** Chunks whose markers and times elapsed are integers that a double
    holds exactly: on them the numbers of the model are those of the
    source. *)
Definition exact_numbers (chunks : list (string * Z)) : Prop :=
  Forall (fun ch => (_parseProgress (fst ch) <= 2 ^ 53)%Z /\
                    (- 2 ^ 53 <= snd ch <= 2 ^ 53)%Z) chunks.

(** ** What an operation may touch *)

(** The command lines that start the editor. *)
Definition runCommand (cfg : BuildConfig) : string :=
  dquote ++ uePath cfg ++ dquote ++ " " ++ dquote ++ projectPath cfg ++ dquote.

Definition debugCommand (cfg : BuildConfig) : string :=
  dquote ++ uePath cfg ++ dquote ++ " " ++ dquote ++ projectPath cfg ++ dquote
  ++ " -debug".

(** What each operation may delete or start under the configuration [cfg]:
    clean the three folders; generate the solution file and the generate run
    of the script; regenerate any of the six steps; the two start commands
    the compile run of the script and the editor; launch the editor; the
    cancel commands [taskkill]. *)
Inductive footprint (cfg : BuildConfig) : Command -> Effect -> Prop :=
| FootClean (st : nat) (e : Effect) :
    st <= 3 -> regenerate_step cfg st e -> footprint cfg CleanSolution e
| FootRegenerate (st : nat) (e : Effect) :
    regenerate_step cfg st e -> footprint cfg RegenerateSolution e
| FootGenerate (st : nat) (e : Effect) :
    4 <= st <= 5 -> regenerate_step cfg st e -> footprint cfg GenerateSolution e
| FootCompile (c : Command) (e : Effect) :
    c = StartDebug \/ c = StartWithoutDebug ->
    regenerate_step cfg 6 e -> footprint cfg c e
| FootDebug (id : nat) :
    footprint cfg StartDebug
      (Spawn id "cmd" ["/c"; debugCommand cfg] (getProjectDir cfg) true)
| FootRun (c : Command) (id : nat) :
    c = StartWithoutDebug \/ c = LaunchProject ->
    footprint cfg c (Exec id (runCommand cfg) (getProjectDir cfg))
| FootCancel (c : Command) (id pid : nat) :
    c = CancelBuild \/ c = CancelDebug ->
    footprint cfg c
      (Spawn id "taskkill" ["/F"; "/T"; "/PID"; string_of_nat pid] EmptyString false).

(** [Within allowed cfg base w]: the configuration is [cfg], and what was
    deleted or started since the log held [base] is all [allowed]. *)
Definition Within (allowed : Effect -> Prop) (cfg : BuildConfig) (base : list Effect)
  (w : World) : Prop :=
  config w = cfg /\
  exists l, side_effects (log w) = (base ++ l)%list /\ Forall allowed l.

Definition Gwithin (allowed : Effect -> Prop) (cfg : BuildConfig) (base : list Effect)
  (q : Wait) (w : World) : Prop := Within allowed cfg base w.

(** ** Runs in which every awaited promise is fulfilled *)

(** [Fulfilled R G n Q r]: the method that has reached [r] still stops at
    exactly [n] awaits, each time in a world satisfying [G]; resumed with the
    promise [q] fulfilled, in a world related by [R q] to the one it stopped
    in, it throws nothing and returns in a world satisfying [Q]. *)
Fixpoint Fulfilled {A} (R : Wait -> World -> World -> Prop) (G : Wait -> World -> Prop)
  (n : nat) (Q : A -> World -> Prop) (r : Res A) : Prop :=
  match r, n with
  | Val a w, O => Q a w
  | Susp q k w, S n' => G q w /\ forall w', R q w w' -> Fulfilled R G n' Q (k None w')
  | _, _ => False
  end.

(** [FT R G n P m Q]: started in a world satisfying [P], the method [m]
    satisfies [Fulfilled R G n Q]. *)
Definition FT (R : Wait -> World -> World -> Prop) (G : Wait -> World -> Prop) {A}
  (n : nat) (P : World -> Prop) (m : Async A) (Q : A -> World -> Prop) : Prop :=
  forall w, P w -> Fulfilled R G n Q (m w).

(** What the debug manager sees of the world. *)
Definition At (cfg : BuildConfig) (ex : string -> bool) (view busy : bool)
  (proc : option nat) (next : nat) (l : list Effect) (ps : list (nat * ProcCtx))
  (w : World) : Prop :=
  config w = cfg /\ existsSync w = ex /\ debugView w = view /\ isDebugging w = busy /\
  debugProcess w = proc /\ nextId w = next /\ log w = l /\ procs w = ps.

(** The closure variables of the listeners when a process is started. *)
Definition fresh_ctx (o : Owner) : ProcCtx :=
  {| owner := o; stdout := EmptyString; stderr := EmptyString; currentProgress := 0%Q |}.

(** The effects of [_executeProcess]. *)
Definition started (pid : nat) (exe : string) (args : list string) (cwd : string)
  : list Effect :=
  ((if endsWith ".bat" exe
    then [OutputAppendLine ("执行命令: " ++ bat_command exe args)] else []) ++
   [child_process pid exe args cwd])%list.

(** What a start command has done when it awaits the compile run [pid];
    [header] is the first line it writes to the output channel. *)
Definition compiling (header : string) (cfg : BuildConfig) (pid : nat) (view : bool)
  : list Effect :=
  ((if view then [PostMessage MDebugStarted] else []) ++
   [CreateOutputChannel; OutputShow;
    OutputAppendLine header;
    OutputAppendLine ("项目: " ++ getProjectName cfg);
    OutputAppendLine ("配置: " ++ buildConfiguration cfg)] ++
   (if view then [PostMessage (MBuildProgress 10 "正在编译...")] else []) ++
   [OutputAppendLine "--- 编译项目 ---";
    OutputAppendLine ("执行: " ++ BuildManager.buildBatPath (uePath cfg));
    OutputAppendLine
      ("参数: " ++ getProjectName cfg ++ "Editor Win64 " ++ buildConfiguration cfg ++
       " -Project=" ++ dquote ++ projectPath cfg ++ dquote ++
       " -WaitMutex -FromMsBuild -architecture=x64")] ++
   started pid (BuildManager.buildBatPath (uePath cfg))
     (BuildManager.buildArgs (getProjectName cfg) (buildConfiguration cfg)
        (projectPath cfg))
     (getProjectDir cfg))%list.

(** [startDebug] and [startWithoutDebug] up to the await. *)
Definition debug_compiling : BuildConfig -> nat -> bool -> list Effect :=
  compiling "=== 开始调试 ===".
Definition run_compiling : BuildConfig -> nat -> bool -> list Effect :=
  compiling "=== 开始执行(不调试) ===".

(** What [startDebug] does once the compile run has succeeded: the editor is
    started detached, and the success is reported. *)
Definition debug_launched (cfg : BuildConfig) (id : nat) (view : bool) : list Effect :=
  ((if view then [PostMessage (MBuildProgress 50 "正在启动调试...")] else []) ++
   [OutputAppendLine "--- 启动调试 ---";
    OutputAppendLine ("执行命令: " ++ debugCommand cfg);
    Spawn id "cmd" ["/c"; debugCommand cfg] (getProjectDir cfg) true;
    Unref id] ++
   (if view then [PostMessage (MBuildProgress 100 "调试已启动")] else []) ++
   [OutputAppendLine "=== 调试已启动 ==="; ShowInformationMessage "调试已启动"] ++
   (if view then [PostMessage MDebugSuccess] else []))%list.

(** The same for [startWithoutDebug]. *)
Definition run_launched (cfg : BuildConfig) (id : nat) (view : bool) : list Effect :=
  ((if view then [PostMessage (MBuildProgress 50 "正在启动项目...")] else []) ++
   [OutputAppendLine "--- 启动项目 ---";
    OutputAppendLine ("执行命令: " ++ runCommand cfg);
    Exec id (runCommand cfg) (getProjectDir cfg)] ++
   (if view then [PostMessage (MBuildProgress 100 "项目已启动")] else []) ++
   [OutputAppendLine "=== 项目已启动 ==="; ShowInformationMessage "项目已启动"] ++
   (if view then [PostMessage MDebugSuccess] else []))%list.

(** The process closes with exit code 0: [onClose] unsets the handle. *)
Definition closes (q : Wait) (w w' : World) : Prop := w' = set_debugProcess None w.

(** The world in which a start command awaits the compile run [pid]: the
    run flag is set, the handle is the process, the log is [l]. *)
Definition Gcompiling (cfg : BuildConfig) (ex : string -> bool) (view : bool)
  (pid : nat) (l : list Effect) (ps : list (nat * ProcCtx)) (q : Wait) (w : World)
  : Prop :=
  q = WaitProcess pid /\
  At cfg ex view true (Some pid) (S pid) l ((pid, fresh_ctx OwnerDebug) :: ps) w.

(** * Vocabulary of the properties of the provider *)

(** ** Detecting the project *)

Definition crlf : string := String (ascii_of_nat 13) newline.

(** What [dir /s /b] prints for the files [ps]: one per line. *)
Definition dir_output (ps : list string) : string :=
  fold_right (fun p rest => p ++ crlf ++ rest) EmptyString ps.

(** A path as [dir] prints it: not empty, without line feed, and without
    white space at its ends. *)
Definition plain_line (p : string) : Prop :=
  p <> EmptyString /\
  Forall (fun c => nat_of_ascii c <> 10) (chars p) /\
  ws_width (map nat_of_ascii (chars p)) = 0 /\
  ws_width_rev (rev (map nat_of_ascii (chars p))) = 0.

(** ** The provider along its awaits *)

(** [Keeps I r]: the method that has reached [r] leaves the panel in a state
    satisfying [I] whenever control returns to the event loop (at an
    [await], when it returns, when it throws), provided [I] holds again
    when it is resumed. *)
Fixpoint Keeps {A} (I : Provider.Panel -> Prop) (r : Provider.Res A) : Prop :=
  match r with
  | Provider.Val _ p => I p
  | Provider.Exn _ p => I p
  | Provider.Susp _ _ k p => I p /\ forall o p', I p' -> Keeps I (k o p')
  end.

(** [Safe I P m]: started in a state satisfying [P], [m] keeps [I]. *)
Definition Safe (I P : Provider.Panel -> Prop) {A} (m : Provider.Async A) : Prop :=
  forall p, P p -> Keeps I (m p).

(** The intervals that are set are the one the provider holds, if any. *)
Definition OneInterval (p : Provider.Panel) : Prop :=
  Provider.intervals p =
    match Provider._detectionInterval p with Some id => [id] | None => [] end.

Definition HostKeeps (I : Provider.Panel -> Prop) (h : Provider.Host) : Prop :=
  I (Provider.panel h) /\
  Forall (fun q => forall o p', I p' -> Keeps I (Provider.resume q o p'))
    (Provider.parked h).

(** The configuration the provider hands to the managers: the settings,
    with their defaults. *)
Definition configured (c : PartialConfig) : BuildConfig :=
  {| uePath := Provider.get (p_uePath c) EmptyString;
     projectPath := Provider.get (p_projectPath c) EmptyString;
     buildConfiguration := Provider.get (p_buildConfiguration c) "Development" |}.

(** [Resumes I r]: in whatever state the method that has reached [r] is now,
    each time it is resumed in a state satisfying [I] it keeps [I]. *)
Fixpoint Resumes {A} (I : Provider.Panel -> Prop) (r : Provider.Res A) : Prop :=
  match r with
  | Provider.Susp _ _ k _ =>
      forall o p', (I p' -> Keeps I (k o p')) /\ Resumes I (k o p')
  | _ => True
  end.

Definition Anytime (I : Provider.Panel -> Prop) {A} (m : Provider.Async A) : Prop :=
  forall p, Resumes I (m p).

(** The method returns without awaiting and without throwing. *)
Definition Immediate {A} (m : Provider.Async A) : Prop :=
  forall p, exists a p', m p = Provider.Val a p'.

Definition HostResumes (I : Provider.Panel -> Prop) (h : Provider.Host) : Prop :=
  Forall
    (fun q => forall o p',
       (I p' -> Keeps I (Provider.resume q o p')) /\ Resumes I (Provider.resume q o p'))
    (Provider.parked h).

(** The project counts as detected, and no interval is set. *)
Definition Detected (p : Provider.Panel) : Prop :=
  Provider._projectDetected p = true /\
  Provider._detectionInterval p = None /\
  Provider.intervals p = [].

Definition is_redetect (e : Provider.Event) : bool :=
  match e with
  | Provider.Receive Provider.Redetect => true
  | _ => false
  end.

(** A state with the panel resolved, in which nothing is known of the
    project and nothing searches for it: no project path in the settings,
    no workspace folder, no interval. *)
Definition Searching (p : Provider.Panel) : Prop :=
  Provider.listening p = true /\ Provider._view p = true /\
  falsy (Provider.get (p_projectPath (Provider.settings p)) EmptyString) = true /\
  Provider.workspaceFolder p = None /\
  Provider._detectionInterval p = None /\ Provider._projectDetected p = false /\ Provider.intervals p = [].

(** ** A clean whose removals are fulfilled *)

(** The file system completes the removals that are awaited, the oldest
    first, at most [n] of them. *)
Fixpoint removals (n : nat) (s : State) : State :=
  match n with
  | O => s
  | S n' =>
      match find (fun p => match waiting p with WaitRm _ _ => true | _ => false end)
              (pending s) with
      | Some p =>
          match waiting p with
          | WaitRm id _ => removals n' (step s (RmSettled id None))
          | WaitProcess _ => s
          end
      | None => s
      end
  end.

(** A removal is fulfilled: the path is gone, and nothing else has changed. *)
Definition removes (q : Wait) (w w' : World) : Prop :=
  match q with
  | WaitRm _ path => w' = set_fs (removed path (existsSync w)) (unlinkError w) w
  | WaitProcess _ => False
  end.

(** The only promises awaited are removals. *)
Definition Grm (q : Wait) (w : World) : Prop := awaits_rm q.

(** What a clean sees of the world. *)
Definition Cleaning (cfg : BuildConfig) (ex : string -> bool) (view busy : bool)
  (w : World) : Prop :=
  config w = cfg /\ existsSync w = ex /\ buildView w = view /\ isBuilding w = busy.

(** The files that exist once [path] was looked at and removed if it was
    there. *)
Definition cleared (path : string) (ex : string -> bool) : string -> bool :=
  if ex path then removed path ex else ex.

(** The manager when a clean has reported its success. *)
Definition Cleaned (view : bool) (w : World) : Prop :=
  isBuilding w = false /\
  last (log w) OutputShow =
    (if view then PostMessage MBuildSuccess else ShowInformationMessage "清理完成").

(** ** Choosing a path *)

(** The request of the webview that asks for the setting [key], and the
    title of the dialog it opens. *)
Definition select_request (key : Provider.Setting) : Provider.Request :=
  match key with
  | Provider.UePathSetting => Provider.SelectUEPath
  | Provider.ProjectPathSetting => Provider.SelectProjectPath
  end.

Definition dialog_title (key : Provider.Setting) : string :=
  match key with
  | Provider.UePathSetting => "Select UE5 Editor"
  | Provider.ProjectPathSetting => "Select UE Project"
  end.

(** The handles of the parked promises were given out before. *)
Definition FreshHandles (h : Provider.Host) : Prop :=
  Forall (fun q => Provider.handle q < Provider.nextHandle (Provider.panel h))
    (Provider.parked h).

(** The promises that are awaited. *)
Definition awaited (h : Provider.Host) : list (nat * Provider.Promise) :=
  map (fun q => (Provider.handle q, Provider.promise q)) (Provider.parked h).

(** * Properties *)

(** ** Validation *)

(** C2: [validateConfig] returns valid, or else the first failing check in
    the order engine path unset, engine path missing, project path unset,
    project path missing; the four reasons are distinct texts, so each failure
    carries the reason of its own check. *)
Theorem validateConfig_first_failure :
  forall (ex : string -> bool) (c : BuildConfig),
    validateConfig ex c = first_failure (checks ex c) /\
    NoDup [err_uePath_unset; err_uePath_missing; err_projectPath_unset;
           err_projectPath_missing] /\
    (valid (validateConfig ex c) = true <->
     falsy (uePath c) = false /\ ex (uePath c) = true /\
     falsy (projectPath c) = false /\ ex (projectPath c) = true).
Proof.
  intros ex c. split; [|split].
  - unfold validateConfig, first_failure, checks; simpl.
    destruct (falsy (uePath c)); simpl; [reflexivity|].
    destruct (ex (uePath c)); simpl; [|reflexivity].
    destruct (falsy (projectPath c)); simpl; [reflexivity|].
    destruct (ex (projectPath c)); reflexivity.
  - repeat constructor; simpl; intuition discriminate.
  - unfold validateConfig.
    destruct (falsy (uePath c)); simpl; [intuition discriminate|].
    destruct (ex (uePath c)); simpl; [|intuition discriminate].
    destruct (falsy (projectPath c)); simpl; [intuition discriminate|].
    destruct (ex (projectPath c)); simpl; intuition discriminate.
Qed.

(** An invalid configuration always has a reason, and the reason is shown as
    it is (the fallback text is never needed). *)
Lemma invalid_reason :
  forall (ex : string -> bool) (c : BuildConfig),
    valid (validateConfig ex c) = false ->
    exists reason,
      error (validateConfig ex c) = Some reason /\
      or_else (error (validateConfig ex c)) msg_validation_fallback = reason.
Proof.
  intros ex c. unfold validateConfig.
  destruct (falsy (uePath c)); simpl; [eexists; split; reflexivity|].
  destruct (ex (uePath c)); simpl; [|eexists; split; reflexivity].
  destruct (falsy (projectPath c)); simpl; [eexists; split; reflexivity|].
  destruct (ex (projectPath c)); simpl; [discriminate|eexists; split; reflexivity].
Qed.

(** ** Operations that start a run *)

Lemma state_eta : forall s : State, {| world := world s; pending := pending s |} = s.
Proof. destruct s; reflexivity. Qed.

(** While the flag of its manager is set, an operation only shows the
    warning and returns. *)
Lemma busy_rejected :
  forall (c : Command) (s : State),
    starts_run c = true ->
    running c (world s) = true ->
    step s (Receive c) =
      {| world := add_log (ShowWarningMessage msg_busy) (world s);
         pending := pending s |}.
Proof.
  intros c s Hc Hr.
  destruct c; try discriminate; simpl in Hr; simpl;
    unfold BuildManager.cleanSolution, BuildManager.regenerateSolution,
      BuildManager.generateSolution, DebugManager.startDebug,
      DebugManager.startWithoutDebug, bind, gets; simpl;
    rewrite Hr; reflexivity.
Qed.

(** C7: when the configuration is invalid and the manager is idle, each of
    clean, regenerate, generate, start-with-debugger and start-without-debugger
    shows the validation reason and returns: the only change is that one
    notification in the log, so nothing is deleted, no process is created,
    nothing is left pending and the run flag stays unset. *)
Theorem invalid_config_reported_before_any_side_effect :
  forall (c : Command) (s : State),
    starts_run c = true ->
    running c (world s) = false ->
    valid (validateConfig (existsSync (world s)) (config (world s))) = false ->
    exists reason,
      error (validateConfig (existsSync (world s)) (config (world s))) = Some reason /\
      step s (Receive c) =
        {| world := add_log (ShowErrorMessage reason) (world s);
           pending := pending s |} /\
      side_effects (log (world (step s (Receive c)))) = side_effects (log (world s)) /\
      procs (world (step s (Receive c))) = procs (world s) /\
      running c (world (step s (Receive c))) = false.
Proof.
  intros c s Hc Hr Hv.
  destruct (invalid_reason _ _ Hv) as (reason & He & Hor).
  exists reason. split; [exact He|].
  assert (Hstep : step s (Receive c) =
            {| world := add_log (ShowErrorMessage reason) (world s);
               pending := pending s |}).
  { destruct c; try discriminate; simpl in Hr; simpl;
      unfold BuildManager.cleanSolution, BuildManager.regenerateSolution,
        BuildManager.generateSolution, DebugManager.startDebug,
        DebugManager.startWithoutDebug, bind, gets, getConfig, validateConfigM;
      simpl; rewrite Hr; simpl; rewrite Hv; simpl;
      unfold showErrorMessage, emit, modify; rewrite Hor; reflexivity. }
  rewrite Hstep. split; [reflexivity|]. simpl.
  split; [|split].
  - unfold side_effects. rewrite filter_app. simpl. apply app_nil_r.
  - reflexivity.
  - destruct c; try discriminate; exact Hr.
Qed.

(** The witness: a freshly activated extension has no engine path. *)
Lemma invalid_config_reported_before_any_side_effect_witness :
  exists reason,
    error (validateConfig Sample.ex initialConfig) = Some reason /\
    step (initialState Sample.ex Sample.ue) (Receive CleanSolution) =
      {| world := add_log (ShowErrorMessage reason) (initialWorld Sample.ex Sample.ue);
         pending := [] |} /\
    side_effects (log (world (step (initialState Sample.ex Sample.ue)
                                (Receive CleanSolution)))) = [] /\
    procs (world (step (initialState Sample.ex Sample.ue) (Receive CleanSolution))) = [] /\
    isBuilding (world (step (initialState Sample.ex Sample.ue) (Receive CleanSolution)))
      = false.
Proof.
  exact (invalid_config_reported_before_any_side_effect CleanSolution
           (initialState Sample.ex Sample.ue) eq_refl eq_refl eq_refl).
Defined.

(** ** Cancelling *)

Lemma cancelBuild_noop :
  forall s : State,
    buildProcess (world s) = None ->
    BuildManager.cancelBuild (world s) = Val tt (world s) /\
    step s (Receive CancelBuild) = s.
Proof.
  intros s H.
  assert (E : BuildManager.cancelBuild (world s) = Val tt (world s)).
  { unfold BuildManager.cancelBuild, bind, gets; simpl. rewrite H. reflexivity. }
  split; [exact E|].
  simpl. rewrite E. apply state_eta.
Qed.

(** C9: [cancelBuild] with no child process returns normally and changes
    nothing: no message, no notification, the same manager state. *)
Theorem cancelBuild_without_process_is_noop :
  forall s : State,
    buildProcess (world s) = None ->
    BuildManager.cancelBuild (world s) = Val tt (world s) /\
    step s (Receive CancelBuild) = s /\
    log (world (step s (Receive CancelBuild))) = log (world s).
Proof.
  intros s H. destruct (cancelBuild_noop s H) as [H1 H2].
  split; [exact H1|]. split; [exact H2|]. rewrite H2. reflexivity.
Qed.

Lemma cancelBuild_without_process_is_noop_witness :
  BuildManager.cancelBuild (world (Sample.ready "Development")) =
    Val tt (world (Sample.ready "Development")) /\
  step (Sample.ready "Development") (Receive CancelBuild) = Sample.ready "Development" /\
  log (world (step (Sample.ready "Development") (Receive CancelBuild))) =
    log (world (Sample.ready "Development")).
Proof.
  exact (cancelBuild_without_process_is_noop (Sample.ready "Development") eq_refl).
Defined.

(** ** Invoking the build script *)

Lemma side_effects_app :
  forall l1 l2, side_effects (l1 ++ l2) = (side_effects l1 ++ side_effects l2)%list.
Proof. intros. apply filter_app. Qed.

Lemma child_process_is_side_effect :
  forall pid exe args cwd, is_side_effect (child_process pid exe args cwd) = true.
Proof. intros. unfold child_process. destruct (endsWith ".bat" exe); reflexivity. Qed.

Ltac norm_side_effects :=
  repeat rewrite side_effects_app; simpl;
  repeat rewrite app_nil_r; repeat rewrite <- app_assoc; simpl.

Lemma chars_app : forall a b, chars (a ++ b) = (chars a ++ chars b)%list.
Proof.
  induction a as [|c a IH]; intro b; simpl; [reflexivity|].
  unfold chars in *. simpl. rewrite IH. reflexivity.
Qed.

Lemma chars_str : forall cs, chars (str cs) = cs.
Proof. intro cs. unfold chars, str. apply list_ascii_of_string_of_list_ascii. Qed.

(** ** The build script is a batch file

    Whatever the engine path, [path.join(root, 'Engine', 'Build',
    'BatchFiles', 'Build.bat')] ends in [Build.bat]: neither the root found
    at the start of the joined path nor the normalisation of its segments
    reaches the last segment. *)

Section ScriptPath.

Import Path.
Local Open Scope list_scope.
Local Open Scope nat_scope.

Lemma take_while_stops :
  forall (p : ascii -> bool) (cs : list ascii) (k : nat) (c : ascii),
    nth_error cs k = Some c -> p c = false -> length (take_while p cs) <= k.
Proof.
  intros p. induction cs as [|x cs IH]; intros k c Hk Hc; simpl; [lia|].
  destruct k as [|k]; simpl in Hk.
  - injection Hk as ->. rewrite Hc. simpl. lia.
  - destruct (p x); simpl; [|lia]. specialize (IH k c Hk Hc). lia.
Qed.

(** A scan that starts at or before an index where [p] fails stops at or
    before that index. *)
Lemma scan_stops :
  forall (p : ascii -> bool) (cs : list ascii) (j q : nat) (c : ascii),
    j <= q -> nth_error cs q = Some c -> p c = false -> scan p cs j <= q.
Proof.
  intros p cs j q c Hj Hq Hc. unfold scan.
  assert (H : nth_error (skipn j cs) (q - j) = Some c).
  { rewrite nth_error_skipn. replace (j + (q - j)) with q by lia. exact Hq. }
  pose proof (take_while_stops p _ _ _ H Hc). lia.
Qed.

Lemma nth_script :
  forall (pre : list ascii) (k : nat),
    nth_error (pre ++ script_segments) (length pre + k) = nth_error script_segments k.
Proof.
  intros pre k. rewrite nth_error_app2 by lia.
  replace (length pre + k - length pre) with k by lia. reflexivity.
Qed.

(** The root of such a path ends before its third segment from the end. *)
Lemma normalize_root_before_script :
  forall pre : list ascii,
    exists device rootEnd isAbsolute,
      normalize_root (pre ++ script_segments) = NormRootAt device rootEnd isAbsolute /\
      rootEnd <= length pre + 12.
Proof.
  intro pre. set (cs := pre ++ script_segments).
  assert (Hlen : length cs = length pre + 33).
  { unfold cs. rewrite length_app. reflexivity. }
  assert (H6 : nth_error cs (length pre + 6) = Some "\"%char) by apply nth_script.
  assert (H7 : nth_error cs (length pre + 7) = Some "B"%char) by apply nth_script.
  assert (H12 : nth_error cs (length pre + 12) = Some "\"%char) by apply nth_script.
  unfold normalize_root.
  destruct (at_ cs 0 isPathSeparator).
  - destruct (at_ cs 1 isPathSeparator).
    + set (j1 := scan nonsep cs 2).
      assert (Hj1 : j1 <= length pre + 6).
      { apply (scan_stops nonsep cs 2 (length pre + 6) _ ltac:(lia) H6). reflexivity. }
      cbv zeta.
      destruct ((j1 <? length cs) && negb (j1 =? 2)); [|do 3 eexists; split; [reflexivity|lia]].
      set (j2 := scan isPathSeparator cs j1).
      assert (Hj2 : j2 <= length pre + 7).
      { apply (scan_stops isPathSeparator cs j1 (length pre + 7) _ ltac:(lia) H7). reflexivity. }
      destruct ((j2 <? length cs) && negb (j2 =? j1));
        [|do 3 eexists; split; [reflexivity|lia]].
      set (j3 := scan nonsep cs j2).
      assert (Hj3 : j3 <= length pre + 12).
      { apply (scan_stops nonsep cs j2 (length pre + 12) _ ltac:(lia) H12). reflexivity. }
      destruct (j3 =? length cs) eqn:E; [apply Nat.eqb_eq in E; lia|].
      destruct (negb (j3 =? j2)); do 3 eexists; (split; [reflexivity|lia]).
    + do 3 eexists. split; [reflexivity|lia].
  - destruct (at_ cs 0 isWindowsDeviceRoot && at_ cs 1 is_colon).
    + destruct ((2 <? length cs) && at_ cs 2 isPathSeparator);
        do 3 eexists; (split; [reflexivity|lia]).
    + do 3 eexists. split; [reflexivity|lia].
Qed.

Lemma norm_sep_lastSlash :
  forall path allow i code st,
    n_lastSlash (norm_sep path allow i code st) = Z.of_nat i.
Proof.
  intros. unfold norm_sep.
  repeat match goal with
         | |- context [if ?b then _ else _] => destruct b
         | |- context [match ?x with Some _ => _ | None => _ end] => destruct x
         end; reflexivity.
Qed.

(** One turn of the loop of [normalizeString] on a separator, and on a
    character that is neither a separator nor counted as a dot. *)
Lemma loop_separator_turn :
  forall path allow n st c,
    nth_error path (length path - n) = Some c ->
    isPathSeparator c = true ->
    normalizeString_loop path allow (S n) st =
      normalizeString_loop path allow n (norm_sep path allow (length path - n) c st).
Proof.
  intros path allow n st c Hc Hs. cbn [normalizeString_loop]. rewrite Hc, Hs. reflexivity.
Qed.

Lemma loop_plain_turn :
  forall path allow n st c,
    nth_error path (length path - n) = Some c ->
    isPathSeparator c = false ->
    is_dot c && negb (n_dots st =? -1)%Z = false ->
    normalizeString_loop path allow (S n) st =
      normalizeString_loop path allow n
        {| n_res := n_res st; n_lastSegmentLength := n_lastSegmentLength st;
           n_lastSlash := n_lastSlash st; n_dots := -1; n_code := c |}.
Proof.
  intros path allow n st c Hc Hs Hd. cbn [normalizeString_loop].
  rewrite Hc, Hs.
  destruct (is_dot c && negb (n_dots st =? -1)%Z); [discriminate Hd|reflexivity].
Qed.

Lemma loop_turn :
  forall path allow n st c,
    nth_error path (length path - n) = Some c ->
    exists st',
      normalizeString_loop path allow (S n) st = normalizeString_loop path allow n st'.
Proof.
  intros path allow n st c Hc. cbn [normalizeString_loop]. rewrite Hc.
  eexists. reflexivity.
Qed.

(** The loop reaches the separator before the last segment. *)
Lemma loop_reaches_last_segment :
  forall path allow m st,
    1 <= length path ->
    exists st',
      normalizeString_loop path allow (m + 11) st =
        normalizeString_loop path allow 11 st'.
Proof.
  intros path allow. induction m as [|m IH]; intros st Hlen; [exists st; reflexivity|].
  change (S m + 11) with (S (m + 11)).
  destruct (nth_error path (length path - (m + 11))) as [c|] eqn:E.
  - destruct (loop_turn path allow (m + 11) st c E) as [st1 ->]. apply IH. exact Hlen.
  - apply nth_error_None in E. lia.
Qed.

(** The last segment [Build.bat] ends the result of [normalizeString]. *)
Lemma normalizeString_keeps_script :
  forall (a : list ascii) (sep : ascii) (allow : bool),
    isPathSeparator sep = true ->
    exists r, normalizeString (a ++ sep :: chars "Build.bat") allow = r ++ chars "Build.bat".
Proof.
  intros a sep allow Hsep. unfold normalizeString.
  set (path := a ++ sep :: chars "Build.bat").
  assert (Hlen : length path = length a + 10).
  { unfold path. rewrite length_app. reflexivity. }
  assert (Hn : forall k, nth_error path (length a + k) =
                         nth_error (sep :: chars "Build.bat") k).
  { intro k. unfold path. rewrite nth_error_app2 by lia.
    replace (length a + k - length a) with k by lia. reflexivity. }
  replace (S (length path)) with (length a + 11) by lia.
  destruct (loop_reaches_last_segment path allow (length a)
              {| n_res := []; n_lastSegmentLength := 0; n_lastSlash := -1;
                 n_dots := 0; n_code := zero |} ltac:(lia)) as [st ->].
  rewrite (loop_separator_turn path allow 10 st sep);
    [|replace (length path - 10) with (length a + 0) by lia; rewrite Hn; reflexivity
     |exact Hsep].
  set (st1 := norm_sep path allow (length path - 10) sep st).
  assert (Hslash : n_lastSlash st1 = Z.of_nat (length a)).
  { unfold st1. rewrite norm_sep_lastSlash. f_equal. lia. }
  rewrite (loop_plain_turn path allow 9 _ "B");
    [|replace (length path - 9) with (length a + 1) by lia; rewrite Hn; reflexivity
     |reflexivity|reflexivity].
  rewrite (loop_plain_turn path allow 8 _ "u");
    [|replace (length path - 8) with (length a + 2) by lia; rewrite Hn; reflexivity
     |reflexivity|reflexivity].
  rewrite (loop_plain_turn path allow 7 _ "i");
    [|replace (length path - 7) with (length a + 3) by lia; rewrite Hn; reflexivity
     |reflexivity|reflexivity].
  rewrite (loop_plain_turn path allow 6 _ "l");
    [|replace (length path - 6) with (length a + 4) by lia; rewrite Hn; reflexivity
     |reflexivity|reflexivity].
  rewrite (loop_plain_turn path allow 5 _ "d");
    [|replace (length path - 5) with (length a + 5) by lia; rewrite Hn; reflexivity
     |reflexivity|reflexivity].
  rewrite (loop_plain_turn path allow 4 _ ".");
    [|replace (length path - 4) with (length a + 6) by lia; rewrite Hn; reflexivity
     |reflexivity|reflexivity].
  rewrite (loop_plain_turn path allow 3 _ "b");
    [|replace (length path - 3) with (length a + 7) by lia; rewrite Hn; reflexivity
     |reflexivity|reflexivity].
  rewrite (loop_plain_turn path allow 2 _ "a");
    [|replace (length path - 2) with (length a + 8) by lia; rewrite Hn; reflexivity
     |reflexivity|reflexivity].
  rewrite (loop_plain_turn path allow 1 _ "t");
    [|replace (length path - 1) with (length a + 9) by lia; rewrite Hn; reflexivity
     |reflexivity|reflexivity].
  cbn [normalizeString_loop n_res n_lastSegmentLength n_lastSlash n_dots n_code].
  replace (nth_error path (length path - 0)) with (@None ascii)
    by (symmetry; apply nth_error_None; lia).
  cbn [isPathSeparator Ascii.eqb Bool.eqb orb].
  unfold norm_sep.
  cbn [n_res n_lastSegmentLength n_lastSlash n_dots n_code].
  rewrite Hslash.
  replace (Z.of_nat (length a) =? Z.of_nat (length path - 0) - 1)%Z with false
    by (symmetry; apply Z.eqb_neq; lia).
  cbn [Z.eqb orb Pos.eqb].
  assert (Hseg : slice (Z.to_nat (Z.of_nat (length a) + 1)) (length path - 0) path =
                 chars "Build.bat").
  { unfold slice. replace (Z.to_nat (Z.of_nat (length a) + 1)) with (length a + 1) by lia.
    replace (length path - 0 - (length a + 1)) with 9 by lia.
    unfold path. rewrite skipn_app, skipn_all2 by lia.
    replace (length a + 1 - length a) with 1 by lia. reflexivity. }
  rewrite Hseg.
  destruct (0 <? length (n_res st1)).
  - exists (n_res st1 ++ chars "\"). rewrite <- app_assoc. reflexivity.
  - exists []. reflexivity.
Qed.

(** [normalize] keeps the last segment of such a path. *)
Lemma normalize_keeps_script :
  forall pre : list ascii,
    exists r, normalize (pre ++ script_segments) = r ++ chars "Build.bat".
Proof.
  intro pre.
  destruct (normalize_root_before_script pre) as (device & e & isAbsolute & Hroot & He).
  remember (pre ++ script_segments) as cs eqn:Ecs.
  assert (Hlen : length cs = length pre + 33).
  { rewrite Ecs, length_app. reflexivity. }
  unfold normalize.
  destruct cs as [|c1 [|c2 rest]]; [simpl in Hlen; lia|simpl in Hlen; lia|].
  rewrite Hroot. rewrite Ecs in *. clear Ecs.
  set (cs := pre ++ script_segments) in *.
  replace (e <? length cs) with true by (symmetry; apply Nat.ltb_lt; lia).
  assert (Htail : slice e (length cs) cs =
                  skipn e (pre ++ chars "Engine\Build\BatchFiles") ++
                  "\"%char :: chars "Build.bat").
  { unfold slice, cs.
    change script_segments
      with (chars "Engine\Build\BatchFiles" ++ "\"%char :: chars "Build.bat").
    rewrite app_assoc, skipn_app, firstn_all2.
    - replace (e - length (pre ++ chars "Engine\Build\BatchFiles")) with 0; [reflexivity|].
      rewrite length_app. simpl. lia.
    - rewrite <- skipn_app, length_skipn, <- app_assoc. fold cs. lia. }
  rewrite Htail.
  destruct (normalizeString_keeps_script
              (skipn e (pre ++ chars "Engine\Build\BatchFiles")) "\" (negb isAbsolute)
              eq_refl) as [r ->].
  replace (length (r ++ chars "Build.bat") =? 0) with false
    by (symmetry; apply Nat.eqb_neq; rewrite length_app; simpl; lia).
  cbn [andb].
  replace (at_ cs (length cs - 1) isPathSeparator) with false.
  2: { unfold at_. replace (length cs - 1) with (length pre + 32) by lia.
       unfold cs. rewrite nth_script. reflexivity. }
  rewrite andb_false_r.
  destruct device as [d|], isAbsolute.
  - exists (d ++ chars "\" ++ r). rewrite <- !app_assoc. reflexivity.
  - exists (d ++ r). rewrite <- app_assoc. reflexivity.
  - exists (chars "\" ++ r). rewrite <- app_assoc. reflexivity.
  - exists r. reflexivity.
Qed.

Lemma slice_to_end :
  forall (x y : list ascii) (e : nat),
    e <= length x -> slice e (length (x ++ y)) (x ++ y) = skipn e x ++ y.
Proof.
  intros x y e He. unfold slice. rewrite skipn_app.
  replace (e - length x) with 0 by lia. cbn [skipn].
  apply firstn_all2. rewrite !length_app, length_skipn. lia.
Qed.

(** What [path.join] hands to [normalize] ends with the four segments. *)
Lemma join_script_segments :
  forall root : string,
    exists pre,
      Path.join [root; "Engine"; "Build"; "BatchFiles"; "Build.bat"]%string =
        str (normalize (pre ++ script_segments)).
Proof.
  intros [|c root]; [exists []; reflexivity|].
  set (fp := chars (String c root)).
  set (head := fp ++ ["\"%char]).
  assert (Hj : chars (join_with "\" [String c root; "Engine"; "Build"; "BatchFiles";
                                     "Build.bat"]%string) = head ++ script_segments).
  { cbn [join_with]. rewrite chars_app. unfold head. rewrite <- app_assoc.
    reflexivity. }
  assert (Hhead : length head = length fp + 1).
  { unfold head. rewrite length_app. reflexivity. }
  assert (Hcut : forall k,
             k <= length fp ->
             exists pre,
               (if 2 <=? scan isPathSeparator (head ++ script_segments) k
                then chars "\" ++
                     slice (scan isPathSeparator (head ++ script_segments) k)
                       (length (head ++ script_segments)) (head ++ script_segments)
                else head ++ script_segments) = pre ++ script_segments).
  { intros k Hk.
    assert (Hs : scan isPathSeparator (head ++ script_segments) k <= length head).
    { apply (scan_stops isPathSeparator _ k (length head) "E"); [lia| |reflexivity].
      rewrite nth_error_app2 by lia. rewrite Nat.sub_diag. reflexivity. }
    destruct (2 <=? scan isPathSeparator (head ++ script_segments) k).
    - rewrite (slice_to_end head script_segments _ Hs).
      eexists. rewrite app_assoc. reflexivity.
    - exists head. reflexivity. }
  unfold Path.join. cbn [filter falsy negb]. rewrite Hj. fold fp.
  assert (Hfp : 1 <= length fp) by (unfold fp; simpl; lia).
  destruct (at_ fp 0 isPathSeparator).
  - destruct ((1 <? length fp) && at_ fp 1 isPathSeparator) eqn:E1.
    + apply andb_true_iff in E1. destruct E1 as [E1 _]. apply Nat.ltb_lt in E1.
      destruct (2 <? length fp) eqn:E2.
      * apply Nat.ltb_lt in E2. destruct (at_ fp 2 isPathSeparator).
        -- destruct (Hcut 3 ltac:(lia)) as [pre ->]. exists pre. reflexivity.
        -- exists head. reflexivity.
      * destruct (Hcut 2 ltac:(lia)) as [pre ->]. exists pre. reflexivity.
    + destruct (Hcut 1 ltac:(lia)) as [pre ->]. exists pre. reflexivity.
  - destruct (Hcut 0 ltac:(lia)) as [pre ->]. exists pre. reflexivity.
Qed.

End ScriptPath.

(** The build script is a batch file, whatever the engine path. *)
Lemma buildBatPath_is_bat :
  forall ueEnginePath : string,
    endsWith ".bat" (BuildManager.buildBatPath ueEnginePath) = true.
Proof.
  intro p. unfold BuildManager.buildBatPath.
  destruct (join_script_segments (engineRootDir p)) as [pre ->].
  destruct (normalize_keeps_script pre) as [r ->].
  unfold endsWith. rewrite chars_str, rev_app_distr. reflexivity.
Qed.

Lemma append_assoc : forall a b c : string, (a ++ b) ++ c = a ++ (b ++ c).
Proof.
  induction a as [|x a IH]; intros b c; simpl; [reflexivity|]. rewrite IH. reflexivity.
Qed.

Lemma bat_command_build :
  forall bat name flavor path,
    bat_command bat (BuildManager.buildArgs name flavor path) =
      script_line bat name flavor path EmptyString.
Proof.
  intros. unfold bat_command, BuildManager.buildArgs, script_line. cbv zeta.
  cbn [map join_with]. fold (quoted (name ++ "Editor")). fold (quoted flavor).
  fold (quoted ("-Project=" ++ dquote ++ path ++ dquote)).
  rewrite !append_assoc. reflexivity.
Qed.

Lemma bat_command_generate :
  forall bat name path,
    bat_command bat (BuildManager.generateArgs name path) =
      script_line bat name "Development" path " -GenerateProjectFiles".
Proof.
  intros. unfold bat_command, BuildManager.generateArgs, script_line. cbv zeta.
  cbn [map join_with]. fold (quoted (name ++ "Editor")).
  fold (quoted ("-Project=" ++ dquote ++ path ++ dquote)).
  rewrite !append_assoc. reflexivity.
Qed.

(** C5, as the code has it.  With the script in place, the compile step of
    either manager starts it, through [exec], with the command line
    [<script> <projectName>Editor Win64 <flavor> -Project=<path> -WaitMutex
    -FromMsBuild -architecture=x64], the script and the path in double
    quotes and the flavor being the configured one; the generate step
    starts it with the same line where the flavor is the literal
    [Development], followed by [-GenerateProjectFiles].  The name, the
    flavor and the [-Project] argument each stand inside one more pair of
    double quotes when they contain a space ([quoted]), and an empty flavor
    leaves nothing between [Win64] and [-Project].  The process created is
    the only deletion or process of the step. *)
Theorem build_script_arguments :
  forall (cfg : BuildConfig) (w : World),
    existsSync w (BuildManager.buildBatPath (uePath cfg)) = true ->
    let name := getProjectName (config w) in
    let dir := getProjectDir (config w) in
    let bat := BuildManager.buildBatPath (uePath cfg) in
    let started (flavor tail : string) : Effect :=
      Exec (nextId w) (script_line bat name flavor (projectPath cfg) tail) dir in
    (exists k w',
        BuildManager._generateProjectFiles cfg w = Susp (WaitProcess (nextId w)) k w' /\
        side_effects (log w') =
          List.app (side_effects (log w))
            [started "Development" " -GenerateProjectFiles"]) /\
    (exists k w',
        BuildManager._buildProject cfg w = Susp (WaitProcess (nextId w)) k w' /\
        side_effects (log w') =
          List.app (side_effects (log w)) [started (buildConfiguration cfg) EmptyString]) /\
    (exists k w',
        DebugManager._buildProject cfg w = Susp (WaitProcess (nextId w)) k w' /\
        side_effects (log w') =
          List.app (side_effects (log w)) [started (buildConfiguration cfg) EmptyString]).
Proof.
  intros cfg w Hex name dir bat started. subst started. cbv beta.
  rewrite <- bat_command_generate, <- bat_command_build.
  pose proof (buildBatPath_is_bat (uePath cfg)) as Hbat.
  split; [|split].
  - unfold BuildManager._generateProjectFiles, BuildManager._executeProcess,
      BuildManager.progress, BuildManager.postMessage,
      bind, gets, getProjectDirM, getProjectNameM, fs_existsSync.
    simpl. destruct (buildView w); simpl; rewrite Hex; simpl;
      rewrite Hbat; simpl;
      do 2 eexists; (split; [reflexivity|]); simpl; norm_side_effects; reflexivity.
  - unfold BuildManager._buildProject, BuildManager._executeProcess,
      BuildManager.progress, BuildManager.postMessage,
      bind, gets, getProjectDirM, getProjectNameM, fs_existsSync.
    simpl. destruct (buildView w); simpl; rewrite Hex; simpl;
      rewrite Hbat; simpl;
      do 2 eexists; (split; [reflexivity|]); simpl; norm_side_effects; reflexivity.
  - unfold DebugManager._buildProject, DebugManager._executeProcess,
      bind, gets, getProjectDirM, getProjectNameM, fs_existsSync.
    simpl. rewrite Hex; simpl;
      rewrite Hbat; simpl;
      do 2 eexists; (split; [reflexivity|]); simpl; norm_side_effects; reflexivity.
Qed.

(** The witness: the compile step for the flavor [Shipping]. *)
Lemma build_script_arguments_witness :
  exists k w',
    BuildManager._buildProject (config (world (Sample.ready "Shipping")))
      (world (Sample.ready "Shipping")) = Susp (WaitProcess 1) k w' /\
    side_effects (log w') =
      [Exec 1
         (dquote ++ "C:\UE\Engine\Build\BatchFiles\Build.bat" ++ dquote ++
          " GameEditor Win64 Shipping -Project=" ++
          dquote ++ "C:\Proj\Game.uproject" ++ dquote ++
          " -WaitMutex -FromMsBuild -architecture=x64")
         "C:\Proj"].
Proof.
  exact (proj1 (proj2 (build_script_arguments
                         (config (world (Sample.ready "Shipping")))
                         (world (Sample.ready "Shipping")) eq_refl))).
Defined.

(** C5 fails for the generate step: with the flavor [Shipping] configured,
    [generateSolution] starts the script with [Development] as third
    argument. *)
Lemma generate_ignores_configured_flavor :
  buildConfiguration (config (world (Sample.ready "Shipping"))) = "Shipping" /\
  side_effects (log (world (run (Sample.ready "Shipping") [Receive GenerateSolution]))) =
    [FsUnlink "C:\Proj\Game.sln";
     Exec 1
       (dquote ++ "C:\UE\Engine\Build\BatchFiles\Build.bat" ++ dquote ++
        " GameEditor Win64 Development -Project=" ++
        dquote ++ "C:\Proj\Game.uproject" ++ dquote ++
        " -WaitMutex -FromMsBuild -architecture=x64 -GenerateProjectFiles")
       "C:\Proj"] /\
  nth_error (BuildManager.generateArgs "Game" Sample.project) 2 <> Some "Shipping".
Proof.
  split; [reflexivity|]. split; [vm_compute; reflexivity|].
  simpl. intro H. discriminate H.
Qed.

(** An empty flavor leaves nothing between [Win64] and the [-Project]
    argument, and a project path with a space puts that argument inside a
    second pair of double quotes. *)
Example script_line_edge_cases :
  script_line "B.bat" "Game" EmptyString "C:\Proj\Game.uproject" EmptyString =
    dquote ++ "B.bat" ++ dquote ++ " GameEditor Win64  -Project=" ++
    dquote ++ "C:\Proj\Game.uproject" ++ dquote ++
    " -WaitMutex -FromMsBuild -architecture=x64" /\
  script_line "B.bat" "Game" "Shipping" "C:\My Proj\Game.uproject" EmptyString =
    dquote ++ "B.bat" ++ dquote ++ " GameEditor Win64 Shipping " ++
    dquote ++ "-Project=" ++ dquote ++ "C:\My Proj\Game.uproject" ++ dquote ++ dquote ++
    " -WaitMutex -FromMsBuild -architecture=x64".
Proof. split; vm_compute; reflexivity. Qed.

(** ** Progress of one operation *)

(** C1 fails on [generateSolution]: the checkpoint 35 is followed by the
    raw marker 5 of the script's output, and the successful run ends with 60. *)
Lemma generate_progress_regresses_and_ends_at_60 :
  let s := run (Sample.ready "Development")
             [Receive GenerateSolution;
              StdoutData 1 "[1/20] Compiling 5%" 1000;
              Close 1 (Some 0%Z)] in
  progress_values (log (world s)) = [35%Q; 5%Q; 60%Q] /\
  last (log (world s)) OutputShow = PostMessage MBuildSuccess /\
  pending s = [].
Proof. vm_compute. repeat split. Qed.

(** ** One run at a time *)

(** C3 fails after a cancel.  [cancelBuild] clears the flag while the
    cancelled run still waits for its process to close; a second run is then
    accepted, and when the first process closes, the first run's [catch] block
    clears the flag and the handle a second time.  The manager now looks idle
    while the second run is in flight, so a third request is accepted too: two
    runs and two build-script processes are active at once. *)
Lemma second_run_accepted_while_one_is_in_flight :
  let trace := [Receive RegenerateSolution; RmSettled 1 None; Receive CancelBuild;
                Receive GenerateSolution; Close 2 (Some 1%Z)] in
  let s := run (Sample.ready "Development") trace in
  let s' := step s (Receive GenerateSolution) in
  map waiting (pending s) = [WaitProcess 4] /\
  isBuilding (world s) = false /\
  buildProcess (world s) = None /\
  map waiting (pending s') = [WaitProcess 4; WaitProcess 5] /\
  filter (fun e => match e with
                   | PostMessage MBuildStarted | ShowWarningMessage _ | Exec _ _ _ => true
                   | _ => false
                   end)
    (skipn (length (log (world s))) (log (world s'))) =
    [PostMessage MBuildStarted;
     Exec 5
       (bat_command Sample.buildBat
          (BuildManager.generateArgs "Game" Sample.project)) "C:\Proj"].
Proof. vm_compute. repeat split. Qed.

(** ** Rejections reach the [catch] block *)

Lemma Rethrows_bind :
  forall {A B} (m : Async A) (f : A -> Async B) (w : World),
    Rethrows (m w) -> (forall a w', Rethrows (f a w')) -> Rethrows (bind m f w).
Proof.
  intros A B m f w. unfold bind. generalize (m w) as r.
  induction r as [a w0|e w0|q k IH w0]; simpl; intros Hr Hf; auto.
  destruct Hr as [Hrej Hok]. split.
  - intros e w1. rewrite Hrej. reflexivity.
  - intros w1. apply IH; auto.
Qed.

Lemma Rethrows_NoSusp :
  forall {A} (m : Async A) (w : World), NoSusp m -> Rethrows (m w).
Proof.
  intros A m w H. specialize (H w). destruct (m w); simpl; auto. contradiction.
Qed.

Lemma Rethrows_await : forall q w, Rethrows (await q w).
Proof. intros. simpl. split; intros; exact I || reflexivity. Qed.

Lemma Caught_NoSusp :
  forall {A} (h : string -> Async A) (m : Async A) (w : World),
    NoSusp m -> Caught h (m w).
Proof.
  intros A h m w H. specialize (H w). destruct (m w); simpl; auto. contradiction.
Qed.

Lemma Caught_try_catch :
  forall {A} (body : Async A) (h : string -> Async A) (w : World),
    Rethrows (body w) -> (forall e, NoSusp (h e)) -> Caught h (try_catch body h w).
Proof.
  intros A body h w. unfold try_catch. generalize (body w) as r.
  induction r as [a w0|e w0|q k IH w0]; simpl; intros Hr Hh; auto.
  - apply Caught_NoSusp. apply Hh.
  - destruct Hr as [Hrej Hok]. split.
    + intros e w1. rewrite Hrej. reflexivity.
    + intros w1. apply IH; auto.
Qed.

(** Before its [try] block a method only runs code without [await]. *)
Lemma Caught_bind_NoSusp :
  forall {A B} (h : string -> Async B) (m : Async A) (f : A -> Async B) (w : World),
    NoSusp m -> (forall a w', Caught h (f a w')) -> Caught h (bind m f w).
Proof.
  intros A B h m f w Hm Hf. unfold bind. specialize (Hm w).
  destruct (m w); simpl; auto. contradiction.
Qed.

Lemma NoSusp_bind :
  forall {A B} (m : Async A) (f : A -> Async B),
    NoSusp m -> (forall a, NoSusp (f a)) -> NoSusp (bind m f).
Proof.
  intros A B m f Hm Hf w. unfold bind. specialize (Hm w).
  destruct (m w); simpl; auto. apply Hf.
Qed.

Lemma NoSusp_gets : forall {A} (f : World -> A), NoSusp (gets f).
Proof. intros A f w. exact I. Qed.

Lemma NoSusp_modify : forall f, NoSusp (modify f).
Proof. intros f w. exact I. Qed.

Lemma NoSusp_emit : forall e, NoSusp (emit e).
Proof. intros e w. exact I. Qed.

Lemma NoSusp_ret : forall {A} (a : A), NoSusp (ret a).
Proof. intros A a w. exact I. Qed.

Lemma NoSusp_throw : forall {A} e, NoSusp (@throw A e).
Proof. intros A e w. exact I. Qed.

Lemma NoSusp_fresh : NoSusp fresh.
Proof. intros w. exact I. Qed.

Lemma NoSusp_when : forall b m, NoSusp m -> NoSusp (when b m).
Proof. intros b m H. destruct b; simpl; auto. apply NoSusp_ret. Qed.

Lemma NoSusp_if :
  forall {A} (b : bool) (m1 m2 : Async A),
    NoSusp m1 -> NoSusp m2 -> NoSusp (if b then m1 else m2).
Proof. intros A b m1 m2 H1 H2. destruct b; auto. Qed.

Lemma NoSusp_try_catch :
  forall {A} (body : Async A) (h : string -> Async A),
    NoSusp body -> (forall e, NoSusp (h e)) -> NoSusp (try_catch body h).
Proof.
  intros A body h Hb Hh w. unfold try_catch. specialize (Hb w).
  destruct (body w); simpl; auto. apply Hh.
Qed.

Create HintDb nosusp.
#[local] Hint Resolve NoSusp_gets NoSusp_modify NoSusp_emit NoSusp_ret NoSusp_throw
  NoSusp_fresh NoSusp_when NoSusp_if NoSusp_try_catch : nosusp.

(** Solves [NoSusp m] for code built from the primitives. *)
Ltac nosusp :=
  repeat first
    [ assumption
    | apply NoSusp_bind; [|intro]
    | apply NoSusp_when
    | apply NoSusp_if
    | apply NoSusp_try_catch; [|intro]
    | solve [auto with nosusp]
    | match goal with
      | |- NoSusp (match ?x with _ => _ end) => destruct x
      end ].

Lemma NoSusp_showWarningMessage : forall s, NoSusp (showWarningMessage s).
Proof. intro. apply NoSusp_emit. Qed.
Lemma NoSusp_showErrorMessage : forall s, NoSusp (showErrorMessage s).
Proof. intro. apply NoSusp_emit. Qed.
Lemma NoSusp_showInformationMessage : forall s, NoSusp (showInformationMessage s).
Proof. intro. apply NoSusp_emit. Qed.
Lemma NoSusp_appendLine : forall s, NoSusp (appendLine s).
Proof. intro. apply NoSusp_emit. Qed.
Lemma NoSusp_createOutputChannel : NoSusp createOutputChannel.
Proof. unfold createOutputChannel. nosusp. Qed.
Lemma NoSusp_fs_existsSync : forall p, NoSusp (fs_existsSync p).
Proof. intro. apply NoSusp_gets. Qed.
Lemma NoSusp_fs_unlinkSync : forall p, NoSusp (fs_unlinkSync p).
Proof. intro. unfold fs_unlinkSync. nosusp. Qed.
Lemma NoSusp_build_postMessage : forall m, NoSusp (BuildManager.postMessage m).
Proof. intro. unfold BuildManager.postMessage. nosusp. Qed.
Lemma NoSusp_build_progress : forall p m, NoSusp (BuildManager.progress p m).
Proof. intros. apply NoSusp_build_postMessage. Qed.
Lemma NoSusp_debug_postMessage : forall m, NoSusp (DebugManager.postMessage m).
Proof. intro. unfold DebugManager.postMessage. nosusp. Qed.
Lemma NoSusp_debug_progress : forall p m, NoSusp (DebugManager.progress p m).
Proof. intros. apply NoSusp_debug_postMessage. Qed.
Lemma NoSusp_getConfig : NoSusp getConfig.
Proof. apply NoSusp_gets. Qed.
Lemma NoSusp_validateConfigM : NoSusp validateConfigM.
Proof. apply NoSusp_gets. Qed.
Lemma NoSusp_getProjectDirM : NoSusp getProjectDirM.
Proof. apply NoSusp_gets. Qed.
Lemma NoSusp_getProjectNameM : NoSusp getProjectNameM.
Proof. apply NoSusp_gets. Qed.
Lemma NoSusp_getSolutionPathM : NoSusp getSolutionPathM.
Proof. apply NoSusp_gets. Qed.

#[local] Hint Resolve NoSusp_showWarningMessage NoSusp_showErrorMessage
  NoSusp_showInformationMessage NoSusp_appendLine NoSusp_createOutputChannel
  NoSusp_fs_existsSync NoSusp_fs_unlinkSync NoSusp_build_postMessage
  NoSusp_build_progress NoSusp_debug_postMessage NoSusp_debug_progress
  NoSusp_getConfig NoSusp_validateConfigM NoSusp_getProjectDirM
  NoSusp_getProjectNameM NoSusp_getSolutionPathM : nosusp.

Lemma NoSusp_build_failed : forall p n e, NoSusp (BuildManager.failed p n e).
Proof. intros. unfold BuildManager.failed. nosusp. Qed.
Lemma NoSusp_build_succeeded : forall l n, NoSusp (BuildManager.succeeded l n).
Proof. intros. unfold BuildManager.succeeded. nosusp. Qed.
Lemma NoSusp_deleteSolutionFile : forall p, NoSusp (BuildManager.deleteSolutionFile p).
Proof. intros. unfold BuildManager.deleteSolutionFile. nosusp. Qed.
Lemma NoSusp_debug_failed : forall e, NoSusp (DebugManager.failed e).
Proof. intros. unfold DebugManager.failed. nosusp. Qed.

#[local] Hint Resolve NoSusp_build_failed NoSusp_build_succeeded
  NoSusp_deleteSolutionFile NoSusp_debug_failed : nosusp.

Lemma Rethrows_fs_rm : forall p w, Rethrows (fs_rm p w).
Proof.
  intros p w. unfold fs_rm.
  apply Rethrows_bind; [apply Rethrows_NoSusp; nosusp|intros].
  apply Rethrows_bind; [apply Rethrows_NoSusp; nosusp|intros].
  apply Rethrows_await.
Qed.

(** Solves [Rethrows (m w)] for code built from the primitives and from
    computations already known to rethrow. *)
Ltac rethrows :=
  repeat
    match goal with
    | |- Rethrows (bind _ _ _) => apply Rethrows_bind; [|intros]
    | |- Rethrows (fs_rm _ _) => apply Rethrows_fs_rm
    | |- Rethrows (await _ _) => apply Rethrows_await
    | |- Rethrows ((if ?b then _ else _) _) => destruct b
    | |- Rethrows (when ?b _ _) => destruct b; simpl when
    | |- Rethrows ((let _ := _ in _) _) => cbv zeta
    | H : forall x y, Rethrows (_ x y) |- Rethrows _ => apply H
    | |- Rethrows _ => solve [auto | apply Rethrows_NoSusp; nosusp]
    end.

Lemma Rethrows_build_executeProcess :
  forall exe args cwd w, Rethrows (BuildManager._executeProcess exe args cwd w).
Proof. intros. unfold BuildManager._executeProcess, new_ctx. rethrows. Qed.

Lemma Rethrows_debug_executeProcess :
  forall exe args cwd w, Rethrows (DebugManager._executeProcess exe args cwd w).
Proof. intros. unfold DebugManager._executeProcess, new_ctx. rethrows. Qed.

#[local] Hint Resolve Rethrows_build_executeProcess Rethrows_debug_executeProcess
  : core.

Lemma Rethrows_cleanSolutionInternal :
  forall dir w, Rethrows (BuildManager._cleanSolutionInternal dir w).
Proof. intros. unfold BuildManager._cleanSolutionInternal. rethrows. Qed.

Lemma Rethrows_generateProjectFiles :
  forall cfg w, Rethrows (BuildManager._generateProjectFiles cfg w).
Proof.
  intros. unfold BuildManager._generateProjectFiles. rethrows.
Qed.

Lemma Rethrows_build_buildProject :
  forall cfg w, Rethrows (BuildManager._buildProject cfg w).
Proof.
  intros. unfold BuildManager._buildProject. rethrows.
Qed.

Lemma Rethrows_debug_buildProject :
  forall cfg w, Rethrows (DebugManager._buildProject cfg w).
Proof.
  intros. unfold DebugManager._buildProject. rethrows.
Qed.

(** Solves [Caught h (m w)] for a method that runs code without [await] and
    then its [try] block. *)
Ltac caught :=
  repeat
    match goal with
    | |- Caught _ (bind _ _ _) => apply Caught_bind_NoSusp; [solve [nosusp]|intros]
    | |- Caught _ ((if ?b then _ else _) _) => destruct b
    | |- Caught _ ((let _ := _ in _) _) => cbv zeta
    | |- Caught _ (try_catch _ _ _) =>
        apply Caught_try_catch; [rethrows|intro; solve [nosusp]]
    | |- Caught _ _ => solve [apply Caught_NoSusp; nosusp]
    end.

(** Wherever an operation awaits, a rejection runs its [catch] block. *)
Lemma method_Caught : forall (c : Command) (w : World), Caught (handler_of c) (method c w).
Proof.
  intros c w. destruct c; simpl handler_of; simpl method.
  - unfold BuildManager.cleanSolution. caught.
  - unfold BuildManager.regenerateSolution. caught.
    + apply Rethrows_cleanSolutionInternal.
    + apply Rethrows_generateProjectFiles.
    + apply Rethrows_build_buildProject.
  - unfold BuildManager.generateSolution. caught.
    apply Rethrows_generateProjectFiles.
  - unfold DebugManager.startDebug. caught.
    apply Rethrows_debug_buildProject.
  - unfold DebugManager.startWithoutDebug. caught.
    apply Rethrows_debug_buildProject.
  - apply Caught_NoSusp. unfold DebugManager.launchProject. nosusp.
  - apply Caught_NoSusp. unfold BuildManager.cancelBuild. nosusp.
  - apply Caught_NoSusp. unfold DebugManager.cancelDebug. nosusp.
Qed.

Lemma handler_of_Handler : forall c, Handler (handler_of c).
Proof.
  destruct c; simpl handler_of;
    first [apply HandlerDebug | apply HandlerBuild].
Qed.

Lemma Handler_NoSusp : forall h e, Handler h -> NoSusp (h e).
Proof. intros h e H. destruct H; nosusp. Qed.

Lemma park_Guarded :
  forall h r ps,
    Handler h -> Caught h r -> Forall Guarded ps -> Forall Guarded (pending (park r ps)).
Proof.
  intros h r ps Hh Hc Hps. destruct r as [a w|e w|q k w]; simpl; auto.
  apply Forall_app. split; [exact Hps|].
  constructor; [|constructor].
  exists h. simpl in *. destruct Hc as [H1 H2]. auto.
Qed.

Lemma filter_Forall :
  forall {A} (P : A -> Prop) (f : A -> bool) (l : list A),
    Forall P l -> Forall P (filter f l).
Proof.
  intros A P f l H. induction H; simpl; auto.
  destruct (f x); auto.
Qed.

Lemma settle_Guarded :
  forall sel o w ps,
    Forall Guarded ps -> Forall Guarded (pending (settle sel o w ps)).
Proof.
  intros sel o w ps Hps. unfold settle.
  destruct (find sel ps) as [p|] eqn:Hf; simpl; auto.
  apply find_some in Hf. destruct Hf as [Hin _].
  pose proof (proj1 (Forall_forall _ _) Hps p Hin) as (h & Hh & Hrej & Hok).
  apply park_Guarded with (h := h); auto.
  - destruct o as [e|].
    + rewrite Hrej. apply Caught_NoSusp. apply Handler_NoSusp. exact Hh.
    + apply Hok.
  - apply filter_Forall. exact Hps.
Qed.

Lemma step_Guarded :
  forall s e, Forall Guarded (pending s) -> Forall Guarded (pending (step s e)).
Proof.
  intros s e H. destruct e; simpl; auto.
  - apply park_Guarded with (h := handler_of c); auto.
    + apply handler_of_Handler.
    + apply method_Caught.
  - apply park_Guarded with (h := DebugManager.failed); auto.
    + apply HandlerDebug.
    + apply Caught_NoSusp. unfold updateConfig, _sendConfigToWebview. nosusp.
  - destruct (rm_path id (pending s)) as [path|]; [destruct outcome|];
      apply settle_Guarded; auto.
  - destruct (lookup_proc pid (procs (world s))); auto.
  - destruct (lookup_proc pid (procs (world s))); auto.
  - destruct (lookup_proc pid (procs (world s))); auto.
    apply settle_Guarded; auto.
  - destruct (lookup_proc pid (procs (world s))); auto.
    apply settle_Guarded; auto.
Qed.

Lemma run_Guarded :
  forall es s, Forall Guarded (pending s) -> Forall Guarded (pending (run s es)).
Proof.
  induction es as [|e es IH]; intros s H; simpl; auto.
  apply IH. apply step_Guarded. exact H.
Qed.

(** ** Exit codes *)

Lemma app_cons_1 : forall {A} (l : list A) a r, ((l ++ [a]) ++ r = l ++ a :: r)%list.
Proof. intros. rewrite <- app_assoc. reflexivity. Qed.

Lemma handler_reports_failure :
  forall h e w w0,
    Handler h ->
    log w = log w0 -> buildView w = buildView w0 -> debugView w = debugView w0 ->
    exists w', h e w = Val tt w' /\ reports_failure w0 w' (errorMessage e).
Proof.
  intros h e w w0 Hh Hl Hb Hd. destruct Hh as [prefix notification|].
  - unfold BuildManager.failed, BuildManager.postMessage, appendLine, showErrorMessage,
      emit, modify, gets, bind.
    simpl. destruct (buildView w) eqn:Hv; simpl; eexists; (split; [reflexivity|]);
      left; exists prefix, notification; simpl; rewrite <- Hb, Hl;
      repeat rewrite app_cons_1; auto.
  - unfold DebugManager.failed, DebugManager.postMessage, appendLine, showErrorMessage,
      emit, modify, gets, bind.
    simpl. destruct (debugView w) eqn:Hv; simpl; eexists; (split; [reflexivity|]);
      right; exists "启动失败: ", "启动失败! 查看输出面板了解详情"; simpl;
      rewrite <- Hd, Hl; repeat rewrite app_cons_1; auto.
Qed.

Lemma lookup_update_proc :
  forall pid c c' l,
    lookup_proc pid l = Some c -> lookup_proc pid (update_proc pid c' l) = Some c'.
Proof.
  intros pid c c' l. induction l as [|[p c0] l IH]; simpl; [discriminate|].
  destruct (p =? pid)%nat eqn:E; simpl; rewrite E; auto.
Qed.

Lemma exit_message_not_empty :
  forall code text, errorMessage (exit_message code text) = exit_message code text.
Proof. intros. reflexivity. Qed.

(** The [stderr] listener of either manager appends the chunk to the text
    captured for the process. *)
Lemma stderr_chunk :
  forall (s : State) (pid : nat) (c : ProcCtx) (text : string),
    lookup_proc pid (procs (world s)) = Some c ->
    lookup_proc pid (procs (world (step s (StderrData pid text)))) =
      Some {| owner := owner c; stdout := stdout c; stderr := stderr c ++ text;
              currentProgress := currentProgress c |}.
Proof.
  intros s pid c text Hc. simpl. rewrite Hc.
  destruct (owner c) eqn:Ho; simpl;
    unfold BuildManager.onStderr, DebugManager.onStderr, with_ctx, set_ctx,
      run_listener, bind, gets, modify, append, emit; simpl; rewrite Hc; simpl;
    rewrite Ho; apply lookup_update_proc with (c := c); exact Hc.
Qed.

Lemma stderr_chunks :
  forall (texts : list string) (s : State) (pid : nat) (c : ProcCtx),
    lookup_proc pid (procs (world s)) = Some c ->
    lookup_proc pid (procs (world (run s (map (StderrData pid) texts)))) =
      Some {| owner := owner c; stdout := stdout c;
              stderr := fold_left String.append texts (stderr c);
              currentProgress := currentProgress c |}.
Proof.
  induction texts as [|text texts IH]; intros s pid c Hc.
  - simpl. rewrite Hc. destruct c; reflexivity.
  - change (run s (map (StderrData pid) (text :: texts)))
      with (run (step s (StderrData pid text)) (map (StderrData pid) texts)).
    rewrite (IH _ pid _ (stderr_chunk s pid c text Hc)). reflexivity.
Qed.

(** C6: for a child process that a parked operation awaits, an exit code of 0
    is the one outcome that fulfils the awaited promise (the operation goes
    on); every other exit code, and an [error] event, run the [catch] block of
    the operation, which leaves the manager idle and reports, for an exit
    code, the text [进程退出，代码: <code>], a line break and the captured
    error stream ([null] stands for the code of a process ended by a signal),
    and for an [error] event the message of that error.  The captured error
    stream is what the [stderr] listener has appended, chunk after chunk. *)
Theorem only_exit_code_zero_succeeds :
  forall (ex : string -> bool) (ue : string -> option string) (es : list Event)
         (pid : nat) (c : ProcCtx) (p : Pending),
    let s := run (initialState ex ue) es in
    lookup_proc pid (procs (world s)) = Some c ->
    find (waits_process pid) (pending s) = Some p ->
    let others := filter (fun q => negb (waits_process pid q)) (pending s) in
    step s (Close pid (Some 0%Z)) =
      park (resume p None (closed (owner c) (world s))) others /\
    (forall code,
        code <> Some 0%Z ->
        pending (step s (Close pid code)) = others /\
        reports_failure (world s) (world (step s (Close pid code)))
          ("进程退出，代码: " ++
           match code with Some z => string_of_Z z | None => "null" end ++
           newline ++ stderr c)) /\
    (forall message,
        pending (step s (ProcessError pid message)) = others /\
        reports_failure (world s) (world (step s (ProcessError pid message)))
          (errorMessage message)) /\
    (forall text,
        lookup_proc pid (procs (world (step s (StderrData pid text)))) =
          Some {| owner := owner c; stdout := stdout c; stderr := stderr c ++ text;
                  currentProgress := currentProgress c |}) /\
    (forall texts,
        lookup_proc pid (procs (world (run s (map (StderrData pid) texts)))) =
          Some {| owner := owner c; stdout := stdout c;
                  stderr := fold_left String.append texts (stderr c);
                  currentProgress := currentProgress c |}).
Proof.
  intros ex ue es pid c p s Hc Hp others.
  assert (HG : Forall Guarded (pending s)).
  { apply run_Guarded. constructor. }
  destruct (find_some _ _ Hp) as [Hin _].
  destruct (proj1 (Forall_forall _ _) HG p Hin) as (h & Hh & Hrej & _).
  split; [|split; [|split; [|split]]].
  - simpl. rewrite Hc. unfold settle.
    destruct (owner c); simpl; rewrite Hp; reflexivity.
  - intros code Hcode.
    assert (Hstep : step s (Close pid code) =
              park (h (exit_message code (stderr c)) (closed (owner c) (world s))) others).
    { simpl. rewrite Hc. unfold settle.
      destruct (owner c); simpl;
        unfold BuildManager.onClose, DebugManager.onClose, result_of, run_listener,
          bind, gets, modify, ret; simpl; rewrite Hc;
        destruct code as [[|z|z]|]; simpl; try (exfalso; apply Hcode; reflexivity);
        rewrite Hp; cbv iota beta; rewrite Hrej; reflexivity. }
    rewrite Hstep.
    destruct (handler_reports_failure h (exit_message code (stderr c))
                (closed (owner c) (world s)) (world s) Hh) as (w' & Hw' & Hrep);
      try (destruct (owner c); reflexivity).
    rewrite Hw'. simpl. split; [reflexivity|exact Hrep].
  - intros message.
    assert (Hstep : step s (ProcessError pid message) =
              park (h message (closed (owner c) (world s))) others).
    { simpl. rewrite Hc. unfold settle.
      destruct (owner c); simpl;
        unfold BuildManager.onError, DebugManager.onError, result_of, run_listener,
          bind, modify, ret; simpl;
        rewrite Hp; cbv iota beta; rewrite Hrej; reflexivity. }
    rewrite Hstep.
    destruct (handler_reports_failure h message
                (closed (owner c) (world s)) (world s) Hh) as (w' & Hw' & Hrep);
      try (destruct (owner c); reflexivity).
    rewrite Hw'. simpl. split; [reflexivity|exact Hrep].
  - intros text. destruct c as [o so se cp]. exact (stderr_chunk s pid _ text Hc).
  - intros texts. exact (stderr_chunks texts s pid c Hc).
Qed.

(** The witness: the script writes to its error stream and exits with 1
    while [generateSolution] awaits it. *)
Lemma only_exit_code_zero_succeeds_witness :
  reports_failure
    (world (run (initialState Sample.ex Sample.ue)
              [SetView; UpdateConfig (Sample.settings "Development");
               Receive GenerateSolution; StderrData 1 "error C2065"]))
    (world (step (run (initialState Sample.ex Sample.ue)
                    [SetView; UpdateConfig (Sample.settings "Development");
                     Receive GenerateSolution; StderrData 1 "error C2065"])
              (Close 1 (Some 1%Z))))
    ("进程退出，代码: 1" ++ newline ++ "error C2065").
Proof.
  destruct (find (waits_process 1)
              (pending (run (initialState Sample.ex Sample.ue)
                          [SetView; UpdateConfig (Sample.settings "Development");
                           Receive GenerateSolution; StderrData 1 "error C2065"])))
    as [p|] eqn:Hp.
  - refine (proj2 (proj1 (proj2
              (only_exit_code_zero_succeeds Sample.ex Sample.ue
                 [SetView; UpdateConfig (Sample.settings "Development");
                  Receive GenerateSolution; StderrData 1 "error C2065"]
                 1
                 {| owner := OwnerBuild; stdout := EmptyString;
                    stderr := "error C2065"; currentProgress := 0%Q |}
                 p _ Hp)) (Some 1%Z) _)).
    + vm_compute. reflexivity.
    + discriminate.
  - vm_compute in Hp. discriminate Hp.
Defined.

(** ** Rules for assertions along a method *)

Lemma with_log_id : forall w, with_log (log w ++ []) w = w.
Proof. intros [ ]; unfold with_log; simpl. rewrite app_nil_r. reflexivity. Qed.

Lemma Quiet_bind :
  forall {A B} (m : Async A) (f : A -> Async B),
    Quiet m -> (forall a, Quiet (f a)) -> Quiet (bind m f).
Proof.
  intros A B m f Hm Hf w. unfold bind.
  destruct (Hm w) as (a & l & E & Hl). rewrite E. simpl.
  destruct (Hf a (with_log (log w ++ l) w)) as (b & l' & E' & Hl').
  exists b, (l ++ l')%list. rewrite E'. simpl. split.
  - unfold with_log; simpl. rewrite app_assoc. reflexivity.
  - rewrite side_effects_app, Hl, Hl'. reflexivity.
Qed.

Lemma Quiet_gets : forall {A} (f : World -> A), Quiet (gets f).
Proof. intros A f w. exists (f w), []. rewrite with_log_id. auto. Qed.

Lemma Quiet_ret : forall {A} (a : A), Quiet (ret a).
Proof. intros A a w. exists a, []. rewrite with_log_id. auto. Qed.

Lemma Quiet_emit : forall e, is_side_effect e = false -> Quiet (emit e).
Proof.
  intros e He w. exists tt, [e]. split; [reflexivity|].
  unfold side_effects; simpl. rewrite He. reflexivity.
Qed.

Lemma Quiet_when : forall b m, Quiet m -> Quiet (when b m).
Proof. intros b m H. destruct b; simpl; auto. apply Quiet_ret. Qed.

Lemma Quiet_if :
  forall {A} (b : bool) (m1 m2 : Async A), Quiet m1 -> Quiet m2 -> Quiet (if b then m1 else m2).
Proof. intros A b m1 m2 H1 H2. destruct b; auto. Qed.

Ltac quiet :=
  repeat first
    [ assumption
    | apply Quiet_bind; [|intro]
    | apply Quiet_when
    | apply Quiet_if
    | apply Quiet_gets
    | apply Quiet_ret
    | apply Quiet_emit; reflexivity ].

Lemma Quiet_build_progress : forall p m, Quiet (BuildManager.progress p m).
Proof. intros. unfold BuildManager.progress, BuildManager.postMessage. quiet. Qed.
Lemma Quiet_build_postMessage : forall m, Quiet (BuildManager.postMessage m).
Proof. intros. unfold BuildManager.postMessage. quiet. Qed.
Lemma Quiet_debug_progress : forall p m, Quiet (DebugManager.progress p m).
Proof. intros. unfold DebugManager.progress, DebugManager.postMessage. quiet. Qed.
Lemma Quiet_debug_postMessage : forall m, Quiet (DebugManager.postMessage m).
Proof. intros. unfold DebugManager.postMessage. quiet. Qed.
Lemma Quiet_appendLine : forall s, Quiet (appendLine s).
Proof. intros. unfold appendLine. quiet. Qed.
Lemma Quiet_showWarningMessage : forall s, Quiet (showWarningMessage s).
Proof. intros. unfold showWarningMessage. quiet. Qed.
Lemma Quiet_showErrorMessage : forall s, Quiet (showErrorMessage s).
Proof. intros. unfold showErrorMessage. quiet. Qed.
Lemma Quiet_showInformationMessage : forall s, Quiet (showInformationMessage s).
Proof. intros. unfold showInformationMessage. quiet. Qed.
Lemma Quiet_createOutputChannel : Quiet createOutputChannel.
Proof. unfold createOutputChannel. quiet. Qed.
Lemma Quiet_fs_existsSync : forall p, Quiet (fs_existsSync p).
Proof. intros. unfold fs_existsSync. quiet. Qed.
Lemma Quiet_getConfig : Quiet getConfig.
Proof. unfold getConfig. quiet. Qed.
Lemma Quiet_validateConfigM : Quiet validateConfigM.
Proof. unfold validateConfigM. quiet. Qed.
Lemma Quiet_getProjectDirM : Quiet getProjectDirM.
Proof. unfold getProjectDirM. quiet. Qed.
Lemma Quiet_getProjectNameM : Quiet getProjectNameM.
Proof. unfold getProjectNameM. quiet. Qed.
Lemma Quiet_getSolutionPathM : Quiet getSolutionPathM.
Proof. unfold getSolutionPathM. quiet. Qed.

Create HintDb quiet.
#[local] Hint Resolve Quiet_build_progress Quiet_build_postMessage Quiet_debug_progress
  Quiet_debug_postMessage Quiet_appendLine Quiet_showWarningMessage
  Quiet_showErrorMessage Quiet_showInformationMessage Quiet_createOutputChannel
  Quiet_fs_existsSync Quiet_getConfig Quiet_validateConfigM Quiet_getProjectDirM
  Quiet_getProjectNameM Quiet_getSolutionPathM Quiet_gets Quiet_ret : quiet.

Section Triples.

Variable G : Wait -> World -> Prop.
Variable R : World -> World -> Prop.

Lemma Sat_bindRes :
  forall {A B} (r : Res A) (f : A -> Async B) Q1 Qv Qe,
    Sat G R Q1 Qe r ->
    (forall a w, Q1 a w -> Sat G R Qv Qe (f a w)) ->
    Sat G R Qv Qe (bindRes r f).
Proof.
  intros A B r f Q1 Qv Qe. induction r as [a w|e w|q k IH w]; simpl; intros Hr Hf; auto.
  destruct Hr as [Hg Hk]. split; auto.
Qed.

Lemma Sat_catchRes :
  forall {A} (r : Res A) (h : string -> Async A) Q1 Qv Qe,
    Sat G R Qv Q1 r ->
    (forall e w, Q1 e w -> Sat G R Qv Qe (h e w)) ->
    Sat G R Qv Qe (catchRes r h).
Proof.
  intros A r h Q1 Qv Qe. induction r as [a w|e w|q k IH w]; simpl; intros Hr Hh; auto.
  destruct Hr as [Hg Hk]. split; auto.
Qed.

Lemma Sat_conseq :
  forall {A} (r : Res A) (Qv Qv' : A -> World -> Prop) (Qe Qe' : string -> World -> Prop),
    Sat G R Qv Qe r ->
    (forall a w, Qv a w -> Qv' a w) -> (forall e w, Qe e w -> Qe' e w) ->
    Sat G R Qv' Qe' r.
Proof.
  intros A r Qv Qv' Qe Qe'. induction r as [a w|e w|q k IH w]; simpl; intros Hr Hv He; auto.
  destruct Hr as [Hg Hk]. split; auto.
Qed.

Lemma Triple_bind :
  forall {A B} P (m : Async A) (f : A -> Async B) Q1 Qv Qe,
    Triple G R P m Q1 Qe -> (forall a, Triple G R (Q1 a) (f a) Qv Qe) ->
    Triple G R P (bind m f) Qv Qe.
Proof.
  intros A B P m f Q1 Qv Qe Hm Hf w Hw. unfold bind.
  apply Sat_bindRes with (Q1 := Q1); [apply Hm; exact Hw|].
  intros a w' Hq. apply Hf. exact Hq.
Qed.

Lemma Triple_try_catch :
  forall {A} P (body : Async A) (h : string -> Async A) Q1 Qv Qe,
    Triple G R P body Qv Q1 -> (forall e, Triple G R (Q1 e) (h e) Qv Qe) ->
    Triple G R P (try_catch body h) Qv Qe.
Proof.
  intros A P body h Q1 Qv Qe Hb Hh w Hw. unfold try_catch.
  apply Sat_catchRes with (Q1 := Q1); [apply Hb; exact Hw|].
  intros e w' Hq. apply Hh. exact Hq.
Qed.

Lemma Triple_conseq :
  forall {A} (P P' : World -> Prop) (m : Async A) Qv Qv' Qe Qe',
    Triple G R P m Qv Qe ->
    (forall w, P' w -> P w) ->
    (forall a w, Qv a w -> Qv' a w) -> (forall e w, Qe e w -> Qe' e w) ->
    Triple G R P' m Qv' Qe'.
Proof.
  intros A P P' m Qv Qv' Qe Qe' H HP Hv He w Hw.
  apply Sat_conseq with (Qv := Qv) (Qe := Qe); auto.
Qed.

Lemma Triple_Quiet :
  forall {A} (P : World -> Prop) (m : Async A) Qe,
    Stable P -> Quiet m -> Triple G R P m (fun _ => P) Qe.
Proof.
  intros A P m Qe HP Hm w Hw. destruct (Hm w) as (a & l & E & Hl).
  rewrite E. simpl. apply HP; auto.
Qed.

Lemma Triple_Quiet_weak :
  forall {A} (P Q : World -> Prop) (m : Async A) Qe,
    Stable P -> Quiet m -> (forall w, P w -> Q w) -> Triple G R P m (fun _ => Q) Qe.
Proof.
  intros A P Q m Qe HP Hm HPQ w Hw. destruct (Hm w) as (a & l & E & Hl).
  rewrite E. simpl. apply HPQ. apply HP; auto.
Qed.

Lemma Triple_if :
  forall {A} (b : bool) P (m1 m2 : Async A) Qv Qe,
    Triple G R P m1 Qv Qe -> Triple G R P m2 Qv Qe -> Triple G R P (if b then m1 else m2) Qv Qe.
Proof. intros A b P m1 m2 Qv Qe H1 H2. destruct b; auto. Qed.

Lemma Triple_when :
  forall (b : bool) (P : World -> Prop) m Qe,
    Triple G R P m (fun _ => P) Qe -> Triple G R P (when b m) (fun _ => P) Qe.
Proof.
  intros b P m Qe H. destruct b; simpl; auto.
  intros w Hw. exact Hw.
Qed.

Lemma Triple_throw :
  forall {A} (P : World -> Prop) e (Qv : A -> World -> Prop),
    Triple G R P (throw e) Qv (fun _ => P).
Proof. intros A P e Qv w Hw. exact Hw. Qed.

Lemma Triple_ret :
  forall {A} (P : World -> Prop) (a : A) Qe, Triple G R P (ret a) (fun _ => P) Qe.
Proof. intros A P a Qe w Hw. exact Hw. Qed.

Lemma Triple_when_weak :
  forall (b : bool) (P : World -> Prop) m (Q : unit -> World -> Prop) Qe,
    Triple G R P m Q Qe -> (forall w, P w -> Q tt w) -> Triple G R P (when b m) Q Qe.
Proof.
  intros b P m Q Qe H HPQ. destruct b; simpl; [exact H|].
  intros w Hw. apply HPQ. exact Hw.
Qed.

Lemma Triple_throw_weak :
  forall {A} (P : World -> Prop) e (Qv : A -> World -> Prop) (Qe : string -> World -> Prop),
    (forall w, P w -> Qe e w) -> Triple G R P (throw e) Qv Qe.
Proof. intros A P e Qv Qe H w Hw. apply H. exact Hw. Qed.

Lemma Triple_absurd :
  forall {A} (m : Async A) Qv Qe, Triple G R (fun _ => False) m Qv Qe.
Proof. intros A m Qv Qe w []. Qed.

Lemma Triple_modify :
  forall (P : World -> Prop) (f : World -> World) Qe,
    (forall w, P w -> P (f w)) -> Triple G R P (modify f) (fun _ => P) Qe.
Proof. intros P f Qe H w Hw. simpl. auto. Qed.

Lemma Triple_emit :
  forall (P : World -> Prop) (e : Effect) Qe,
    (forall w, P w -> P (add_log e w)) -> Triple G R P (emit e) (fun _ => P) Qe.
Proof. intros P e Qe H w Hw. simpl. auto. Qed.

Lemma Triple_fresh :
  forall (P : World -> Prop) Qe,
    (forall w, P w -> P (set_nextId (S (nextId w)) w)) ->
    Triple G R P fresh (fun _ => P) Qe.
Proof. intros P Qe H w Hw. simpl. auto. Qed.

End Triples.

(** Proves [Stable P] for an assertion on the fields of a world that does not
    read the log. *)
Ltac stable := intros ? ? ? ?; assumption.

(** Walks through the code of a method; [prim] closes the primitives the
    assertion at hand is sensitive to. *)
Ltac triple prim :=
  lazymatch goal with
  | |- Triple _ _ _ (bind _ _) _ _ =>
      eapply Triple_bind; [triple prim|intro; triple prim]
  | |- Triple _ _ _ (when _ _) _ _ => apply Triple_when; triple prim
  | |- Triple _ _ _ (match ?x with _ => _ end) _ _ => destruct x; triple prim
  | |- Triple _ _ _ (try_catch _ _) _ _ =>
      eapply Triple_try_catch;
      [ triple prim
      | intro;
        lazymatch goal with
        | |- Triple _ _ (?P _) _ _ _ =>
            tryif is_evar P then apply Triple_absurd else triple prim
        | |- _ => triple prim
        end ]
  | |- Triple _ _ _ (throw _) _ _ => apply Triple_throw
  | |- Triple _ _ _ (ret _) _ _ => apply Triple_ret
  | |- Triple _ _ _ _ _ _ =>
      first [ solve [apply Triple_Quiet; [stable|auto with quiet]]
            | solve [prim] ]
  end.

(** Primitives that leave the fields of the assertion as they are. *)
Ltac untouched :=
  first [apply Triple_modify | apply Triple_emit | apply Triple_fresh];
  let w := fresh "w" in
  let Hw := fresh "Hw" in
  intros w Hw; exact Hw.

(** ** An in-flight clean cannot be cancelled *)

















Lemma RunningNoProcess_add_log :
  forall e w, RunningNoProcess w -> RunningNoProcess (add_log e w).
Proof. intros e w H. exact H. Qed.







(** ** The steps of regenerate *)

Lemma bind_gets :
  forall {A B} (g : World -> A) (f : A -> Async B) (w : World),
    bind (gets g) f w = f (g w) w.
Proof. reflexivity. Qed.

Lemma sorted_snoc :
  forall (l : list nat) (st i : nat),
    StronglySorted lt l -> Forall (fun n => n <= st) l -> st < i ->
    StronglySorted lt (l ++ [i]).
Proof.
  induction l as [|x l IH]; intros st i Hs Hle Hlt; simpl.
  - constructor; constructor.
  - inversion Hs; subst. inversion Hle; subst.
    constructor; [eapply IH; eauto|].
    apply Forall_app. split; [assumption|]. constructor; [lia|constructor].
Qed.

Section RegenerateOrder.

(** The configuration the operation was started with, and the deletions and
    processes logged before it started. *)
Variable cfg : BuildConfig.
Variable base : list Effect.

Lemma Done_Stable : forall st, Stable (Done cfg base st).
Proof.
  intros st w l Hl (Hc & stages & l0 & E & H).
  split; [exact Hc|]. exists stages, l0. simpl.
  rewrite side_effects_app, Hl, app_nil_r. auto.
Qed.

Lemma InOrder_Stable : Stable (InOrder cfg base).
Proof. intros w l Hl [st H]. exists st. apply Done_Stable; auto. Qed.

Lemma Done_mono :
  forall st st' w, st <= st' -> st' <= 4 -> Done cfg base st w -> Done cfg base st' w.
Proof.
  intros st st' w H1 H2 (Hc & stages & l & E & HF & HS & Hle & H5 & H6).
  split; [exact Hc|]. exists stages, l. repeat split; auto.
  - eapply Forall_impl; [|exact Hle]. simpl. intros. lia.
  - intro. lia.
  - intro. lia.
Qed.

Lemma Done_extend :
  forall st i e w w',
    Done cfg base st w -> st < i -> i <= 6 -> (i = 6 -> st = 5) ->
    regenerate_step cfg i e ->
    config w' = config w ->
    side_effects (log w') = (side_effects (log w) ++ [e])%list ->
    Done cfg base i w'.
Proof.
  intros st i e w w' (Hc & stages & l & E & HF & HS & Hle & H5 & H6) Hlt Hi Hi6 He Hc' Hl.
  split; [congruence|]. exists (stages ++ [i])%list, (l ++ [e])%list.
  split; [rewrite Hl, E, app_assoc; reflexivity|].
  split; [apply Forall2_app; auto|].
  split; [eapply sorted_snoc; eauto|].
  split; [apply Forall_app; split;
          [eapply Forall_impl; [|exact Hle]; simpl; intros; lia
          |constructor; [lia|constructor]]|].
  split; intro Hge; apply in_or_app.
  - destruct (Nat.eq_dec i 5) as [->|Hne]; [right; left; reflexivity|].
    left. apply H5. assert (i = 6) by lia. specialize (Hi6 H). lia.
  - right. left. lia.
Qed.

Lemma Done_resume :
  forall st w w', Done cfg base st w -> Rorder w w' -> Done cfg base st w'.
Proof.
  intros st w w' (Hc & stages & l & E & H) [Hc' Hl].
  split; [congruence|]. exists stages, l. rewrite Hl. auto.
Qed.

Lemma Done_InOrder : forall st w, Done cfg base st w -> InOrder cfg base w.
Proof. intros st w H. exists st. exact H. Qed.

Lemma rm_step :
  forall st i path,
    (forall id, regenerate_step cfg i (FsRm id path)) -> st < i -> i <= 3 ->
    Triple (Gorder cfg base) Rorder (Done cfg base st) (fs_rm path)
      (fun _ => Done cfg base i) (fun _ => InOrder cfg base).
Proof.
  intros st i path Hstep Hlt Hi w Hw.
  unfold fs_rm, bind, fresh, emit, modify, await. simpl.
  assert (H : Done cfg base i
                (add_log (FsRm (nextId w) path) (set_nextId (S (nextId w)) w))).
  { eapply Done_extend with (e := FsRm (nextId w) path); eauto; try lia.
    simpl. rewrite side_effects_app. reflexivity. }
  split; [exists i; exact H|].
  intros [e|] w' HR.
  - exists i. eapply Done_resume; eauto.
  - eapply Done_resume; eauto.
Qed.

Lemma unlink_step :
  forall st,
    st <= 3 ->
    Triple (Gorder cfg base) Rorder (Done cfg base st)
      (fs_unlinkSync (getSolutionPath cfg))
      (fun _ => Done cfg base 4) (fun _ => InOrder cfg base).
Proof.
  intros st Hst w Hw.
  unfold fs_unlinkSync, bind, emit, modify, gets, throw. simpl.
  assert (H : Done cfg base 4 (add_log (FsUnlink (getSolutionPath cfg)) w)).
  { eapply Done_extend with (e := FsUnlink (getSolutionPath cfg)); eauto; try lia.
    - constructor.
    - simpl. rewrite side_effects_app. reflexivity. }
  destruct (unlinkError w (getSolutionPath cfg)); simpl.
  - exists 4. exact H.
  - exact H.
Qed.

Lemma exec_step :
  forall st i args,
    (forall pid,
        regenerate_step cfg i
          (child_process pid (BuildManager.buildBatPath (uePath cfg)) args
             (getProjectDir cfg))) ->
    st < i -> i <= 6 -> (i = 6 -> st = 5) ->
    Triple (Gorder cfg base) Rorder (Done cfg base st)
      (BuildManager._executeProcess (BuildManager.buildBatPath (uePath cfg)) args
         (getProjectDir cfg))
      (fun _ => Done cfg base i) (fun _ => InOrder cfg base).
Proof.
  intros st i args Hstep Hlt Hi Hi6 w Hw.
  specialize (Hstep (nextId w)). unfold child_process in Hstep.
  unfold BuildManager._executeProcess, new_ctx, bind, fresh, appendLine, emit, modify,
    await.
  destruct (endsWith ".bat" (BuildManager.buildBatPath (uePath cfg))); simpl.
  - match goal with
    | |- Gorder cfg base _ ?w1 /\ _ => assert (H : Done cfg base i w1)
    end.
    { eapply Done_extend; eauto. simpl. repeat rewrite side_effects_app.
      simpl. rewrite app_nil_r. reflexivity. }
    split; [exists i; exact H|].
    intros [e|] w' HR; [exists i|]; eapply Done_resume; eauto.
  - match goal with
    | |- Gorder cfg base _ ?w1 /\ _ => assert (H : Done cfg base i w1)
    end.
    { eapply Done_extend; eauto. simpl. repeat rewrite side_effects_app.
      reflexivity. }
    split; [exists i; exact H|].
    intros [e|] w' HR; [exists i|]; eapply Done_resume; eauto.
Qed.

(** Reading a value derived from the configuration. *)
Lemma bind_config :
  forall {A B} st (g : BuildConfig -> A) (f : A -> Async B) Qv Qe,
    Triple (Gorder cfg base) Rorder (Done cfg base st) (f (g cfg)) Qv Qe ->
    Triple (Gorder cfg base) Rorder (Done cfg base st)
      (bind (gets (fun w => g (config w))) f) Qv Qe.
Proof.
  intros A B st g f Qv Qe H w Hw. rewrite bind_gets.
  destruct Hw as [Hc Hrest]. rewrite Hc. apply H. split; auto.
Qed.

End RegenerateOrder.

(** Weakening between the numbered assertions. *)
Ltac mono :=
  intros;
  first
    [ assumption
    | eapply Done_mono; [| |eassumption]; lia
    | eapply Done_InOrder; eassumption
    | eapply Done_InOrder; eapply Done_mono; [| |eassumption]; lia ].

(** Walks through code that performs steps of regenerate; [prim] is tried
    first on every piece of code. *)
Ltac walk prim :=
  first
    [ solve [prim]
    | lazymatch goal with
      | |- Triple _ _ _ (bind getConfig _) _ _ =>
          apply (bind_config _ _ _ (fun c => c)); walk prim
      | |- Triple _ _ _ (bind getProjectDirM _) _ _ =>
          apply (bind_config _ _ _ getProjectDir); walk prim
      | |- Triple _ _ _ (bind getProjectNameM _) _ _ =>
          apply (bind_config _ _ _ getProjectName); walk prim
      | |- Triple _ _ _ (bind getSolutionPathM _) _ _ =>
          apply (bind_config _ _ _ getSolutionPath); walk prim
      | |- Triple _ _ _ (bind _ _) _ _ =>
          eapply Triple_bind; [walk prim|intro; cbv beta; walk prim]
      | |- Triple _ _ _ (when _ _) _ _ => eapply Triple_when_weak; [walk prim|mono]
      | |- Triple _ _ _ (match ?x with _ => _ end) _ _ => destruct x; walk prim
      | |- Triple _ _ _ (try_catch _ _) _ _ =>
          eapply Triple_try_catch; [walk prim|intro; cbv beta; walk prim]
      | |- Triple _ _ _ (throw _) _ _ => apply Triple_throw_weak; mono
      | |- Triple _ _ _ (fs_rm _) _ _ => eapply rm_step; [intro; constructor|lia|lia]
      | |- Triple _ _ _ (fs_unlinkSync _) _ _ => apply unlink_step; lia
      | |- Triple _ _ _ (BuildManager._executeProcess _ _ _) _ _ =>
          eapply exec_step; [intro; constructor|lia|lia|lia]
      | |- Triple _ _ _ (modify _) _ _ =>
          apply Triple_modify; let w := fresh "w" in intros w ?; assumption
      | |- Triple _ _ _ _ _ _ =>
          first
            [ apply Triple_Quiet; [apply Done_Stable|solve [auto with quiet]]
            | apply Triple_Quiet_weak;
              [apply Done_Stable|solve [auto with quiet]|mono] ]
      end ].

Lemma cleanSolutionInternal_steps :
  forall cfg base,
    Triple (Gorder cfg base) Rorder (Done cfg base 0)
      (BuildManager._cleanSolutionInternal (getProjectDir cfg))
      (fun _ => Done cfg base 3) (fun _ => InOrder cfg base).
Proof.
  intros cfg base. unfold BuildManager._cleanSolutionInternal. cbv zeta. walk fail.
Qed.

Lemma deleteSolutionFile_steps :
  forall cfg base,
    Triple (Gorder cfg base) Rorder (Done cfg base 3)
      (BuildManager.deleteSolutionFile (getSolutionPath cfg))
      (fun _ => Done cfg base 4) (fun _ => InOrder cfg base).
Proof.
  intros cfg base. unfold BuildManager.deleteSolutionFile. walk fail.
Qed.

Lemma generateProjectFiles_steps :
  forall cfg base,
    Triple (Gorder cfg base) Rorder (Done cfg base 4)
      (BuildManager._generateProjectFiles cfg)
      (fun _ => Done cfg base 5) (fun _ => InOrder cfg base).
Proof.
  intros cfg base. unfold BuildManager._generateProjectFiles. cbv zeta. walk fail.
Qed.

Lemma buildProject_steps :
  forall cfg base,
    Triple (Gorder cfg base) Rorder (Done cfg base 5)
      (BuildManager._buildProject cfg)
      (fun _ => Done cfg base 6) (fun _ => InOrder cfg base).
Proof.
  intros cfg base. unfold BuildManager._buildProject. cbv zeta. walk fail.
Qed.

Lemma last_effect :
  forall (l l' : list Effect) (e e' : Effect),
    (l ++ [e] = l' ++ [e'])%list -> e = e'.
Proof. intros l l' e e' H. apply app_inj_tail in H. tauto. Qed.

Lemma rejected_end :
  forall cfg base e Qe,
    (forall s, e <> ShowInformationMessage s) -> (forall m, e <> PostMessage m) ->
    is_side_effect e = false ->
    Triple (Gorder cfg base) Rorder (Done cfg base 0) (emit e)
      (fun _ => RegenerateEnd cfg base) Qe.
Proof.
  intros cfg base e Qe H1 H2 He w Hw. simpl.
  assert (Hd : Done cfg base 0 (add_log e w)).
  { apply (Done_Stable cfg base 0 w [e]); [|exact Hw].
    unfold side_effects. simpl. rewrite He. reflexivity. }
  split; [exists 0; exact Hd|].
  intros [l [H|H]]; simpl in H; apply last_effect in H; exfalso;
    [exact (H1 _ H)|exact (H2 _ H)].
Qed.

(** [w'] is [w] up to fields other than the configuration and up to logged
    effects that are neither deletions nor processes. *)
Ltac same_steps :=
  split;
  [ reflexivity
  | simpl; repeat rewrite side_effects_app; simpl; repeat rewrite app_nil_r;
    reflexivity ].

Lemma succeeded_end :
  forall cfg base line note Qe,
    Triple (Gorder cfg base) Rorder (Done cfg base 6)
      (BuildManager.succeeded line note) (fun _ => RegenerateEnd cfg base) Qe.
Proof.
  intros cfg base line note Qe w Hw.
  unfold BuildManager.succeeded, BuildManager.postMessage, appendLine,
    showInformationMessage, emit, modify, gets, bind. simpl.
  destruct (buildView w); simpl;
    (split; [exists 6|intros _]); (eapply Done_resume; [exact Hw|same_steps]).
Qed.

Lemma failed_end :
  forall cfg base prefix note e Qe,
    Triple (Gorder cfg base) Rorder (InOrder cfg base)
      (BuildManager.failed prefix note e) (fun _ => RegenerateEnd cfg base) Qe.
Proof.
  intros cfg base prefix note e Qe w [st Hw].
  unfold BuildManager.failed, BuildManager.postMessage, appendLine, showErrorMessage,
    emit, modify, gets, bind. simpl.
  destruct (buildView w); simpl;
    (split; [exists st; eapply Done_resume; [exact Hw|same_steps]|]);
    intros [l [H|H]]; simpl in H; apply last_effect in H; discriminate.
Qed.

Lemma regenerateSolution_steps :
  forall cfg base,
    Triple (Gorder cfg base) Rorder (Done cfg base 0) BuildManager.regenerateSolution
      (fun _ => RegenerateEnd cfg base) (fun _ _ => False).
Proof.
  intros cfg base. unfold BuildManager.regenerateSolution. cbv zeta.
  walk ltac:(idtac;
             lazymatch goal with
             | |- Triple _ _ _ (showWarningMessage _) _ _ =>
                 apply rejected_end; [discriminate|discriminate|reflexivity]
             | |- Triple _ _ _ (showErrorMessage _) _ _ =>
                 apply rejected_end; [discriminate|discriminate|reflexivity]
             | |- Triple _ _ _ (BuildManager._cleanSolutionInternal _) _ _ =>
                 apply cleanSolutionInternal_steps
             | |- Triple _ _ _ (BuildManager.deleteSolutionFile _) _ _ =>
                 apply deleteSolutionFile_steps
             | |- Triple _ _ _ (BuildManager._generateProjectFiles _) _ _ =>
                 apply generateProjectFiles_steps
             | |- Triple _ _ _ (BuildManager._buildProject _) _ _ =>
                 apply buildProject_steps
             | |- Triple _ _ _ (BuildManager.succeeded _ _) _ _ => apply succeeded_end
             | |- Triple _ _ _ (BuildManager.failed _ _ _) _ _ => apply failed_end
             end).
Qed.

(** The failures that are not rejected promises: [fs.unlinkSync] throws, or
    the build script is not where it is expected.  The step throws at that
    point; a missing script starts no process. *)
Lemma unlink_failure_throws :
  forall p e w,
    existsSync w p = true -> unlinkError w p = Some e ->
    exists w',
      BuildManager.deleteSolutionFile p w = Exn e w' /\
      side_effects (log w') = (side_effects (log w) ++ [FsUnlink p])%list.
Proof.
  intros p e w Hex Hue.
  unfold BuildManager.deleteSolutionFile, fs_unlinkSync, fs_existsSync, appendLine,
    emit, modify, gets, bind, throw. simpl.
  rewrite Hex. simpl. rewrite Hue. simpl.
  eexists. split; [reflexivity|]. simpl. norm_side_effects. reflexivity.
Qed.

Lemma missing_script_throws :
  forall cfg w,
    existsSync w (BuildManager.buildBatPath (uePath cfg)) = false ->
    let e := "Build.bat not found at: " ++ BuildManager.buildBatPath (uePath cfg) in
    (exists w',
        BuildManager._generateProjectFiles cfg w = Exn e w' /\
        side_effects (log w') = side_effects (log w)) /\
    (exists w',
        BuildManager._buildProject cfg w = Exn e w' /\
        side_effects (log w') = side_effects (log w)).
Proof.
  intros cfg w Hex e.
  split;
    unfold BuildManager._generateProjectFiles, BuildManager._buildProject,
      BuildManager.progress, BuildManager.postMessage, getProjectDirM, getProjectNameM,
      fs_existsSync, emit, modify, gets, bind, throw; simpl;
    destruct (buildView w); simpl; rewrite Hex; simpl;
    eexists; (split; [reflexivity|]); simpl; norm_side_effects; reflexivity.
Qed.

(** [regenerateSolution], started in any world, as long as nobody else
    changes the configuration, deletes or starts anything while it awaits
    ([Rorder]).  At each of its awaits and when it ends, what it has deleted
    and started since the start is a strictly increasing selection of: the
    Intermediate directory, the Binaries directory, the Saved/StagedBuilds
    directory, the solution file, the generate run of the script, its compile
    run; when it reports success, the generate run and the compile run are
    among them.  Wherever the operation awaits, a rejection runs the [catch]
    block with that error and the operation is over; a failing [unlinkSync]
    throws right after the attempt, and a missing build script throws before
    any process is started; the [catch] block deletes nothing, starts nothing
    and leaves the manager idle. *)
Lemma regenerate_effects_in_order :
  (forall w : World,
      Sat (Gorder (config w) (side_effects (log w))) Rorder
        (fun _ => RegenerateEnd (config w) (side_effects (log w))) (fun _ _ => False)
        (BuildManager.regenerateSolution w) /\
      Caught (handler_of RegenerateSolution) (BuildManager.regenerateSolution w)) /\
  (forall e w1,
      exists w2,
        handler_of RegenerateSolution e w1 = Val tt w2 /\
        side_effects (log w2) = side_effects (log w1) /\
        isBuilding w2 = false /\ buildProcess w2 = None) /\
  (forall p e w1,
      existsSync w1 p = true -> unlinkError w1 p = Some e ->
      exists w2,
        BuildManager.deleteSolutionFile p w1 = Exn e w2 /\
        side_effects (log w2) = (side_effects (log w1) ++ [FsUnlink p])%list) /\
  (forall cfg w1,
      existsSync w1 (BuildManager.buildBatPath (uePath cfg)) = false ->
      exists e w2 w3,
        BuildManager._generateProjectFiles cfg w1 = Exn e w2 /\
        side_effects (log w2) = side_effects (log w1) /\
        BuildManager._buildProject cfg w1 = Exn e w3 /\
        side_effects (log w3) = side_effects (log w1)).
Proof.
  split; [|split; [|split]].
  - intro w. split.
    + apply regenerateSolution_steps. split; [reflexivity|].
      exists [], []. rewrite app_nil_r.
      repeat split; try constructor; intro; lia.
    + apply (method_Caught RegenerateSolution).
  - intros e w1. simpl handler_of.
    unfold BuildManager.failed, BuildManager.postMessage, appendLine, showErrorMessage,
      emit, modify, gets, bind. simpl.
    destruct (buildView w1); simpl; eexists; (split; [reflexivity|]); simpl;
      repeat rewrite side_effects_app; simpl; repeat rewrite app_nil_r; auto.
  - apply unlink_failure_throws.
  - intros cfg w1 Hex.
    destruct (missing_script_throws cfg w1 Hex) as [(w2 & E2 & H2) (w3 & E3 & H3)].
    exists ("Build.bat not found at: " ++ BuildManager.buildBatPath (uePath cfg)), w2, w3.
    repeat split; assumption.
Qed.


(** ** The steps of regenerate, performed *)

Lemma Alike_refl : forall w, Alike w w.
Proof. intro w. repeat split. Qed.

Lemma Alike_with_log :
  forall w0 w l, Alike w0 w -> Alike w0 (with_log l w).
Proof. intros w0 w l H. exact H. Qed.

Section PerformsRules.

Variable cfg : BuildConfig.

Lemma Performs_bind :
  forall {A B} (st1 st2 : list Stage) (Q1 : A -> World -> Prop)
         (S : World -> list Effect -> Res B -> Prop)
         (F : string -> list Effect -> Res B -> Prop)
         (f : A -> Async B) w0 base r,
    Performs cfg (Returns Q1) Throws st1 w0 base r ->
    (forall a w0' w1,
        Alike w0' w1 -> Q1 a w1 ->
        Performs cfg S F st2 w0' (side_effects (log w1)) (f a w1)) ->
    (forall e w1, F e (side_effects (log w1)) (Exn e w1)) ->
    Performs cfg S F (st1 ++ st2) w0 base (bindRes r f).
Proof.
  intros A B st1 st2 Q1 S F f.
  induction st1 as [|[path|path|generate] st1 IH]; intros w0 base r Hr Hf HF.
  - destruct Hr as (a & w1 & -> & Hal & <- & Hq). simpl. apply Hf; assumption.
  - cbn [app Performs] in *. destruct (existsSync w0 path).
    + destruct Hr as (k & w1 & -> & Hlog & Hk & He).
      exists (fun o w' => bindRes (k o w') f), w1.
      split; [reflexivity|]. split; [exact Hlog|]. split.
      * intro w'. apply IH; auto.
      * intros e w'. destruct (He e w') as (w2 & -> & <-). simpl. apply HF.
    + apply IH; auto.
  - cbn [app Performs] in *. destruct (existsSync w0 path).
    + destruct (unlinkError w0 path) as [e|].
      * destruct Hr as (w2 & -> & <-). simpl. apply HF.
      * apply IH; auto.
    + apply IH; auto.
  - cbn [app Performs] in *.
    destruct (existsSync w0 (BuildManager.buildBatPath (uePath cfg))).
    + destruct Hr as (k & w1 & -> & Hlog & Hk & He).
      exists (fun o w' => bindRes (k o w') f), w1.
      split; [reflexivity|]. split; [exact Hlog|]. split.
      * intro w'. apply IH; auto.
      * intros e w'. destruct (He e w') as (w2 & -> & <-). simpl. apply HF.
    + destruct Hr as (w2 & -> & <-). simpl. apply HF.
Qed.

Lemma Performs_catch :
  forall {A} (st : list Stage) (Q : A -> World -> Prop)
         (S : World -> list Effect -> Res A -> Prop)
         (F : string -> list Effect -> Res A -> Prop)
         (h : string -> Async A) w0 base r,
    Performs cfg (Returns Q) Throws st w0 base r ->
    (forall a w0' w1, Alike w0' w1 -> Q a w1 -> S w0' (side_effects (log w1)) (Val a w1)) ->
    (forall e w1, F e (side_effects (log w1)) (h e w1)) ->
    Performs cfg S F st w0 base (catchRes r h).
Proof.
  intros A st Q S F h.
  induction st as [|[path|path|generate] st IH]; intros w0 base r Hr HS HF.
  - destruct Hr as (a & w1 & -> & Hal & <- & Hq). simpl. apply HS; assumption.
  - cbn [Performs] in *. destruct (existsSync w0 path).
    + destruct Hr as (k & w1 & -> & Hlog & Hk & He).
      exists (fun o w' => catchRes (k o w') h), w1.
      split; [reflexivity|]. split; [exact Hlog|]. split.
      * intro w'. apply IH; auto.
      * intros e w'. destruct (He e w') as (w2 & -> & <-). simpl. apply HF.
    + apply IH; auto.
  - cbn [Performs] in *. destruct (existsSync w0 path).
    + destruct (unlinkError w0 path) as [e|].
      * destruct Hr as (w2 & -> & <-). simpl. apply HF.
      * apply IH; auto.
    + apply IH; auto.
  - cbn [Performs] in *.
    destruct (existsSync w0 (BuildManager.buildBatPath (uePath cfg))).
    + destruct Hr as (k & w1 & -> & Hlog & Hk & He).
      exists (fun o w' => catchRes (k o w') h), w1.
      split; [reflexivity|]. split; [exact Hlog|]. split.
      * intro w'. apply IH; auto.
      * intros e w'. destruct (He e w') as (w2 & -> & <-). simpl. apply HF.
    + destruct Hr as (w2 & -> & <-). simpl. apply HF.
Qed.

Section Generic.

Context {B : Type}.
Variable S : World -> list Effect -> Res B -> Prop.
Variable F : string -> list Effect -> Res B -> Prop.

(** Code that only writes to the channels does not count. *)
Lemma Does_quiet_bind :
  forall {A} (P : World -> Prop) st (m : Async A) (f : A -> Async B),
    Quiet m -> Stable P ->
    (forall a, Does cfg S F P st (f a)) ->
    Does cfg S F P st (bind m f).
Proof.
  intros A P st m f Hm HP Hf w0 w Hal Hp. unfold bind.
  destruct (Hm w) as (a & l & E & Hl). rewrite E. cbn [bindRes].
  replace (side_effects (log w))
    with (side_effects (log (with_log (log w ++ l) w))).
  - apply Hf; [exact Hal|]. apply HP; assumption.
  - simpl. rewrite side_effects_app, Hl, app_nil_r. reflexivity.
Qed.

Lemma Does_gets_bind :
  forall {A} (P : World -> Prop) st (g : World -> A) (f : A -> Async B),
    (forall v, Does cfg S F (fun w => P w /\ g w = v) st (f v)) ->
    Does cfg S F P st (bind (gets g) f).
Proof.
  intros A P st g f Hf w0 w Hal Hp. rewrite bind_gets. apply (Hf (g w)); auto.
Qed.

Lemma Does_set_isBuilding_bind :
  forall (P : World -> Prop) st b (f : unit -> Async B),
    Does cfg S F Anywhere st (f tt) ->
    Does cfg S F P st (bind (modify (set_isBuilding b)) f).
Proof.
  intros P st b f Hf w0 w Hal Hp. unfold bind, modify. cbn [bindRes].
  apply (Hf w0 (set_isBuilding b w)); [exact Hal|exact I].
Qed.

Lemma Does_weaken :
  forall {A} (P P' : World -> Prop) st (m : Async A) S' F',
    Does cfg S' F' P st m -> (forall w, P' w -> P w) -> Does cfg S' F' P' st m.
Proof. intros A P P' st m S' F' H HP w0 w Hal Hp. apply H; auto. Qed.

End Generic.

(** Composition inside the [try] block. *)
Lemma Does_bind :
  forall {A B} (P : World -> Prop) (st1 st2 : list Stage) (m : Async A)
         (f : A -> Async B) (Q1 : A -> World -> Prop) (Q : B -> World -> Prop),
    Does cfg (Returns Q1) Throws P st1 m ->
    (forall a, Does cfg (Returns Q) Throws (Q1 a) st2 (f a)) ->
    Does cfg (Returns Q) Throws P (st1 ++ st2) (bind m f).
Proof.
  intros A B P st1 st2 m f Q1 Q Hm Hf w0 w Hal Hp. unfold bind.
  eapply Performs_bind.
  - apply Hm; eassumption.
  - intros a w0' w1 Hal' Hq. apply Hf; assumption.
  - intros e w1. exists w1. split; reflexivity.
Qed.

Lemma Does_quiet :
  forall {A} (P : World -> Prop) (m : Async A),
    Quiet m -> Does cfg (Returns Whatever) Throws P [] m.
Proof.
  intros A P m Hm w0 w Hal Hp. destruct (Hm w) as (a & l & E & Hl). rewrite E.
  exists a, (with_log (log w ++ l) w). split; [reflexivity|].
  split; [exact Hal|]. split; [|exact I].
  simpl. rewrite side_effects_app, Hl, app_nil_r. reflexivity.
Qed.

Lemma Does_fs_rm :
  forall path,
    Does cfg (Returns Whatever) Throws (fun w => existsSync w path = true)
      [RemoveDirectory path] (fs_rm path).
Proof.
  intros path w0 w (Hc & Hex & Hue & Hn) Hp. cbn [Performs].
  rewrite Hex, Hp, Hn.
  unfold fs_rm, fresh, emit, modify, await, bind. simpl.
  do 2 eexists. split; [reflexivity|]. split.
  - simpl. rewrite side_effects_app. reflexivity.
  - split.
    + intro w'. exists tt, w'. split; [reflexivity|]. split; [apply Alike_refl|].
      split; [reflexivity|exact I].
    + intros e w'. exists w'. split; reflexivity.
Qed.

Lemma Does_skip :
  forall {A} path (m : Async A),
    Quiet m ->
    Does cfg (Returns Whatever) Throws (fun w => existsSync w path = false)
      [RemoveDirectory path] m.
Proof.
  intros A path m Hm w0 w Hal Hp. cbn [Performs].
  destruct Hal as (Hc & Hex & Hue & Hn). rewrite Hex, Hp.
  apply (Does_quiet (fun _ => True) m Hm w0 w); [repeat split; assumption|exact I].
Qed.

Lemma exists_Stable : forall path b, Stable (fun w => existsSync w path = b).
Proof. intros path b w l _ H. exact H. Qed.

Lemma Anywhere_Stable : Stable Anywhere.
Proof. intros w l _ H. exact H. Qed.

Lemma Does_then :
  forall {A B} (P : World -> Prop) (st1 st2 : list Stage) (m : Async A)
         (f : A -> Async B) (Q : B -> World -> Prop),
    Does cfg (Returns Whatever) Throws P st1 m ->
    (forall a, Does cfg (Returns Q) Throws Anywhere st2 (f a)) ->
    Does cfg (Returns Q) Throws P (st1 ++ st2) (bind m f).
Proof.
  intros A B P st1 st2 m f Q Hm Hf. eapply Does_bind; [exact Hm|].
  intro a. eapply Does_weaken; [apply Hf|]. intros w _. exact I.
Qed.

Lemma Does_try_catch :
  forall {A} (P : World -> Prop) st (m : Async A) (h : string -> Async A)
         (Q : A -> World -> Prop) S F,
    Does cfg (Returns Q) Throws P st m ->
    (forall a w0 w1, Q a w1 -> S w0 (side_effects (log w1)) (Val a w1)) ->
    (forall e w1, F e (side_effects (log w1)) (h e w1)) ->
    Does cfg S F P st (try_catch m h).
Proof.
  intros A P st m h Q S F Hm HS HF w0 w Hal Hp. unfold try_catch.
  eapply Performs_catch; [apply Hm; eassumption| |exact HF].
  intros a w0' w1 _ Hq. apply HS. exact Hq.
Qed.

(** [if (fs.existsSync(dir)) { ...; await fs.promises.rm(dir, ...) }]. *)
Lemma Does_when_exists :
  forall {B} path (m : Async unit) (rest : Async B) st (Q : B -> World -> Prop),
    Does cfg (Returns Whatever) Throws (fun w => existsSync w path = true)
      [RemoveDirectory path] m ->
    Does cfg (Returns Q) Throws Anywhere st rest ->
    Does cfg (Returns Q) Throws Anywhere (RemoveDirectory path :: st)
      (bind (fs_existsSync path) (fun ex => bind (when ex m) (fun _ => rest))).
Proof.
  intros B path m rest st Q Hm Hrest w0 w Hal _.
  unfold fs_existsSync. rewrite bind_gets.
  destruct (existsSync w path) eqn:E; cbn [when].
  - apply (Does_then (fun w => existsSync w path = true) [RemoveDirectory path] st);
      auto.
  - apply (Does_then (fun w => existsSync w path = false) [RemoveDirectory path] st);
      auto.
    apply Does_skip. apply Quiet_ret.
Qed.

Lemma Does_cleanSolutionInternal :
  forall dir,
    Does cfg (Returns Whatever) Throws Anywhere
      [RemoveDirectory (Path.join [dir; "Intermediate"]);
       RemoveDirectory (Path.join [dir; "Binaries"]);
       RemoveDirectory (Path.join [dir; "Saved"; "StagedBuilds"])]
      (BuildManager._cleanSolutionInternal dir).
Proof.
  intro dir. unfold BuildManager._cleanSolutionInternal. cbv zeta.
  repeat
    first
      [ apply Does_when_exists;
        [repeat (apply Does_quiet_bind;
                 [solve [auto with quiet]|apply exists_Stable|intros _]);
         apply Does_fs_rm|]
      | apply Does_quiet_bind; [solve [auto with quiet]|apply Anywhere_Stable|intros _]
      | apply Does_quiet; solve [auto with quiet] ].
Qed.

Lemma Does_deleteSolutionFile :
  forall path,
    Does cfg (Returns Whatever) Throws Anywhere [DeleteFile path]
      (BuildManager.deleteSolutionFile path).
Proof.
  intros path w0 w (Hc & Hex & Hue & Hn) _. cbn [Performs]. rewrite Hex, Hue.
  unfold BuildManager.deleteSolutionFile, fs_unlinkSync, fs_existsSync, appendLine,
    emit, modify, gets, bind, throw. simpl.
  destruct (existsSync w path) eqn:E; simpl.
  - destruct (unlinkError w path) as [e|] eqn:E'; simpl.
    + eexists. split; [reflexivity|]. simpl. norm_side_effects. reflexivity.
    + do 2 eexists. split; [reflexivity|]. split; [|split; [|exact I]].
      * repeat split; simpl; congruence.
      * simpl. norm_side_effects. reflexivity.
  - do 2 eexists. split; [reflexivity|]. split; [|split; [|exact I]].
    + repeat split; assumption.
    + simpl. norm_side_effects. rewrite ?app_nil_r. reflexivity.
Qed.

Lemma Does_script :
  forall generate,
    Does cfg (Returns Whatever) Throws Anywhere [RunScript generate]
      (if generate then BuildManager._generateProjectFiles cfg
       else BuildManager._buildProject cfg).
Proof.
  intros generate w0 w (Hc & Hex & Hue & Hn) _. cbn [Performs].
  unfold script_run. rewrite Hex, Hc, Hn.
  destruct generate;
    [rewrite <- bat_command_generate|rewrite <- bat_command_build];
    unfold BuildManager._generateProjectFiles, BuildManager._buildProject,
      BuildManager._executeProcess, BuildManager.progress, BuildManager.postMessage,
      new_ctx, bind, gets, getProjectDirM, getProjectNameM, fs_existsSync, throw;
    simpl;
    destruct (buildView w); simpl;
    destruct (existsSync w (BuildManager.buildBatPath (uePath cfg))); simpl;
    try (eexists; split; [reflexivity|]; simpl; norm_side_effects; reflexivity);
    rewrite (buildBatPath_is_bat (uePath cfg)); simpl;
    (do 2 eexists; split; [reflexivity|]; split;
     [simpl; norm_side_effects; reflexivity|]; split;
     [ intro w'; unfold Returns; simpl;
       destruct (buildView w'); simpl; do 2 eexists;
       (split; [reflexivity|]); (split; [repeat split|]);
       (split; [simpl; norm_side_effects; rewrite ?app_nil_r; reflexivity|exact I])
     | intros e w'; eexists; split; reflexivity ]).
Qed.

Lemma succeeded_Reported :
  forall (P : World -> Prop),
    Does cfg (Returns (fun _ => Reported)) Throws P []
      (BuildManager.succeeded "=== 重新生成解决方案完成 ===" "重新生成解决方案完成").
Proof.
  intros P w0 w Hal _. cbn [Performs].
  unfold BuildManager.succeeded, BuildManager.postMessage, appendLine,
    showInformationMessage, emit, modify, gets, bind. simpl.
  destruct (buildView w) eqn:E; simpl; do 2 eexists; (split; [reflexivity|]);
    (split; [exact Hal|]);
    (split; [simpl; norm_side_effects; rewrite ?app_nil_r; reflexivity|]);
    unfold Reported; simpl; rewrite E; (split; [reflexivity|]); (split; [reflexivity|]);
    exists (log w); rewrite <- ?app_assoc; reflexivity.
Qed.

Lemma failed_RegenerateFailed :
  forall e w,
    RegenerateFailed e (side_effects (log w))
      (BuildManager.failed "操作失败: " "操作失败! 查看输出面板了解详情" e w).
Proof.
  intros e w.
  unfold BuildManager.failed, BuildManager.postMessage, appendLine, showErrorMessage,
    emit, modify, gets, bind. simpl.
  destruct (buildView w) eqn:E; simpl; eexists; exists (log w);
    (split; [reflexivity|]); simpl; rewrite E; norm_side_effects;
    rewrite ?app_nil_r; auto.
Qed.

(** [regenerateSolution] once the guards are passed and the configuration is
    read. *)
Lemma Does_regenerate :
  forall dir name sln flavor,
    Does cfg Regenerated RegenerateFailed Anywhere
      [RemoveDirectory (Path.join [dir; "Intermediate"]);
       RemoveDirectory (Path.join [dir; "Binaries"]);
       RemoveDirectory (Path.join [dir; "Saved"; "StagedBuilds"]);
       DeleteFile sln; RunScript true; RunScript false]
      (modify (set_isBuilding true) ;;
       BuildManager.postMessage MBuildStarted ;;
       createOutputChannel ;;
       appendLine "=== 重新生成解决方案 ===" ;;
       appendLine ("项目: " ++ name) ;;
       appendLine ("配置: " ++ flavor) ;;
       try_catch
         (BuildManager._cleanSolutionInternal dir ;;
          BuildManager.deleteSolutionFile sln ;;
          appendLine "--- 生成项目文件 ---" ;;
          BuildManager._generateProjectFiles cfg ;;
          appendLine "--- 编译项目 ---" ;;
          BuildManager._buildProject cfg ;;
          BuildManager.succeeded "=== 重新生成解决方案完成 ===" "重新生成解决方案完成")
         (BuildManager.failed "操作失败: " "操作失败! 查看输出面板了解详情")).
Proof.
  intros dir name sln flavor.
  apply Does_set_isBuilding_bind.
  do 5 (apply Does_quiet_bind; [solve [auto with quiet]|apply Anywhere_Stable|intros _]).
  apply Does_try_catch with (Q := fun _ => Reported).
  - apply (Does_then Anywhere
             [RemoveDirectory (Path.join [dir; "Intermediate"]);
              RemoveDirectory (Path.join [dir; "Binaries"]);
              RemoveDirectory (Path.join [dir; "Saved"; "StagedBuilds"])]
             [DeleteFile sln; RunScript true; RunScript false]);
      [apply Does_cleanSolutionInternal|intros _].
    apply (Does_then Anywhere [DeleteFile sln] [RunScript true; RunScript false]);
      [apply Does_deleteSolutionFile|intros _].
    apply Does_quiet_bind; [solve [auto with quiet]|apply Anywhere_Stable|intros _].
    apply (Does_then Anywhere [RunScript true] [RunScript false]);
      [apply (Does_script true)|intros _].
    apply Does_quiet_bind; [solve [auto with quiet]|apply Anywhere_Stable|intros _].
    apply (Does_then Anywhere [RunScript false] []);
      [apply (Does_script false)|intros _].
    apply succeeded_Reported.
  - intros [] w0 w1 H. exists w1. auto.
  - apply failed_RegenerateFailed.
Qed.

End PerformsRules.

(** C4: [regenerateSolution] in any world.  While an operation of the
    manager is running it only shows the busy warning, and with an invalid
    configuration it only shows the reason.  Otherwise it performs, in this
    order: the removal of the Intermediate, the Binaries and the
    Saved\StagedBuilds directory of the project, each one if it exists and
    awaited; the deletion of the solution file, if it exists; the generate
    run of the build script, awaited; its compile run, awaited; all with the
    configuration read at the start (the project name and the working
    directory of a script run are read when it starts).  After the last step
    it reports success and is idle.  A step that fails, by a rejected
    removal, an [unlinkSync] that throws, a missing script, or a script run
    that is rejected, ends the operation: the error is reported, the manager
    is idle, and the steps that are left are not performed.  This holds in
    whatever world the operation is resumed in. *)
Theorem regenerate_steps_in_order_and_abort :
  forall w : World,
    if isBuilding w then
      BuildManager.regenerateSolution w = Val tt (add_log (ShowWarningMessage msg_busy) w)
    else
      let validation := validateConfig (existsSync w) (config w) in
      if valid validation then
        Performs (config w) Regenerated RegenerateFailed (regenerate_stages (config w))
          w (side_effects (log w)) (BuildManager.regenerateSolution w)
      else
        BuildManager.regenerateSolution w =
          Val tt (add_log (ShowErrorMessage
                             (or_else (error validation) msg_validation_fallback)) w).
Proof.
  intro w. unfold BuildManager.regenerateSolution.
  rewrite bind_gets. destruct (isBuilding w); [reflexivity|]. cbv iota zeta.
  unfold getConfig, validateConfigM, getProjectDirM, getProjectNameM, getSolutionPathM.
  rewrite !bind_gets.
  destruct (valid (validateConfig (existsSync w) (config w))); [|reflexivity].
  cbv iota beta delta [negb]. rewrite !bind_gets. cbv zeta.
  apply (Does_regenerate (config w)); [apply Alike_refl|exact I].
Qed.

(** The witness: the manager is idle, the configuration is valid and
    everything is in place, so the operation stops at the removal of the
    Intermediate directory, and goes on with the five other steps when that
    removal is fulfilled. *)
Lemma regenerate_steps_in_order_and_abort_witness :
  let w := world (run (Sample.ready "Shipping") [FileSystem everything Sample.ue]) in
  exists k w1,
    BuildManager.regenerateSolution w = Susp (WaitRm 1 "C:\Proj\Intermediate") k w1 /\
    side_effects (log w1) = [FsRm 1 "C:\Proj\Intermediate"] /\
    (forall w',
        Performs (config w) Regenerated RegenerateFailed
          [RemoveDirectory "C:\Proj\Binaries";
           RemoveDirectory "C:\Proj\Saved\StagedBuilds";
           DeleteFile "C:\Proj\Game.sln"; RunScript true; RunScript false]
          w' (side_effects (log w')) (k None w')) /\
    (forall e w', RegenerateFailed e (side_effects (log w')) (k (Some e) w')).
Proof.
  exact (regenerate_steps_in_order_and_abort
           (world (run (Sample.ready "Shipping") [FileSystem everything Sample.ue]))).
Defined.

(** A complete run: the six steps, in order. *)
Example regenerate_complete_run :
  side_effects
    (log (world (run (Sample.ready "Shipping")
                   [FileSystem everything Sample.ue;
                    Receive RegenerateSolution; RmSettled 1 None; RmSettled 2 None;
                    RmSettled 3 None; Close 4 (Some 0%Z); Close 5 (Some 0%Z)]))) =
    [FsRm 1 "C:\Proj\Intermediate";
     FsRm 2 "C:\Proj\Binaries";
     FsRm 3 "C:\Proj\Saved\StagedBuilds";
     FsUnlink "C:\Proj\Game.sln";
     Exec 4
       (dquote ++ "C:\UE\Engine\Build\BatchFiles\Build.bat" ++ dquote ++
        " GameEditor Win64 Development -Project=" ++
        dquote ++ "C:\Proj\Game.uproject" ++ dquote ++
        " -WaitMutex -FromMsBuild -architecture=x64 -GenerateProjectFiles")
       "C:\Proj";
     Exec 5
       (dquote ++ "C:\UE\Engine\Build\BatchFiles\Build.bat" ++ dquote ++
        " GameEditor Win64 Shipping -Project=" ++
        dquote ++ "C:\Proj\Game.uproject" ++ dquote ++
        " -WaitMutex -FromMsBuild -architecture=x64")
       "C:\Proj"].
Proof. vm_compute. reflexivity. Qed.

(** The generate run exits with an error: the compile run is not started. *)
Example regenerate_aborted_run :
  side_effects
    (log (world (run (Sample.ready "Shipping")
                   [Receive RegenerateSolution; RmSettled 1 None;
                    Close 2 (Some 6%Z)]))) =
    [FsRm 1 "C:\Proj\Binaries";
     FsUnlink "C:\Proj\Game.sln";
     Exec 2
       (dquote ++ "C:\UE\Engine\Build\BatchFiles\Build.bat" ++ dquote ++
        " GameEditor Win64 Development -Project=" ++
        dquote ++ "C:\Proj\Game.uproject" ++ dquote ++
        " -WaitMutex -FromMsBuild -architecture=x64 -GenerateProjectFiles")
       "C:\Proj"] /\
  pending (run (Sample.ready "Shipping")
             [Receive RegenerateSolution; RmSettled 1 None; Close 2 (Some 6%Z)]) = [].
Proof. vm_compute. split; reflexivity. Qed.

(** The removal of Binaries is rejected: nothing else is deleted or
    started.  The solution file cannot be unlinked: no script run. *)
Example regenerate_aborted_by_deletion :
  side_effects
    (log (world (run (Sample.ready "Shipping")
                   [Receive RegenerateSolution; RmSettled 1 (Some "EBUSY")]))) =
    [FsRm 1 "C:\Proj\Binaries"] /\
  side_effects
    (log (world (run (Sample.ready "Shipping")
                   [FileSystem Sample.ex (fun _ => Some "EPERM");
                    Receive RegenerateSolution; RmSettled 1 None]))) =
    [FsRm 1 "C:\Proj\Binaries"; FsUnlink "C:\Proj\Game.sln"] /\
  pending (run (Sample.ready "Shipping")
             [FileSystem Sample.ex (fun _ => Some "EPERM");
              Receive RegenerateSolution; RmSettled 1 None]) = [].
Proof. vm_compute. repeat split. Qed.

(** ** Project name and solution path *)

Lemma str_chars : forall s, str (chars s) = s.
Proof. intro s. apply string_of_list_ascii_of_string. Qed.

Lemma chars_length : forall s, List.length (chars s) = String.length s.
Proof. induction s; simpl; auto. Qed.

Section Basename.

Import Path.
Local Open Scope nat_scope.

Variables (cs suf : list ascii) (start0 : nat).

Lemma loop_separator :
  forall m st,
    at_ cs (start0 + m) isPathSeparator = true ->
    b_matchedSlash st = false ->
    basename_ext_loop cs suf start0 (S m) st =
      {| b_start := start0 + m + 1; b_end := b_end st;
         b_matchedSlash := b_matchedSlash st; b_extIdx := b_extIdx st;
         b_firstNonSlashEnd := b_firstNonSlashEnd st |}.
Proof.
  intros m st Hsep Hms. simpl. rewrite Hsep, Hms. reflexivity.
Qed.

Lemma loop_name :
  forall k m st f,
    (forall j, j < k -> at_ cs (start0 + (j + m)) isPathSeparator = false) ->
    b_extIdx st = None ->
    b_firstNonSlashEnd st = Some f ->
    basename_ext_loop cs suf start0 (k + m) st = basename_ext_loop cs suf start0 m st.
Proof.
  induction k as [|k IH]; intros m st f Hns He Hf; [reflexivity|].
  simpl. rewrite (Hns k) by lia. rewrite Hf, He. eapply IH; eauto.
Qed.

Lemma loop_char :
  forall n st c,
    nth_error cs (start0 + n) = Some c -> isPathSeparator c = false ->
    basename_ext_loop cs suf start0 (S n) st =
      basename_ext_loop cs suf start0 n (after_char suf st (start0 + n) c).
Proof.
  intros n st c Hc Hs. cbn [basename_ext_loop]. unfold at_ at 1. rewrite Hc, Hs.
  unfold after_char, at_ at 1. rewrite Hc. reflexivity.
Qed.

Lemma loop_suffix :
  forall k m st,
    (forall j, j <= k ->
               exists c, nth_error cs (start0 + (j + m)) = Some c /\
                         nth_error suf j = Some c /\ isPathSeparator c = false) ->
    b_extIdx st = Some k ->
    (b_firstNonSlashEnd st = None \/ b_matchedSlash st = false) ->
    basename_ext_loop cs suf start0 (S k + m) st =
      basename_ext_loop cs suf start0 m
        {| b_start := b_start st; b_end := Some (start0 + m);
           b_matchedSlash := false; b_extIdx := None;
           b_firstNonSlashEnd :=
             match b_firstNonSlashEnd st with
             | None => Some (start0 + (k + m) + 1)
             | Some f => Some f
             end |}.
Proof.
  induction k as [|k IH]; intros m st Hc He Hf.
  - destruct (Hc 0 (le_n 0)) as (c & H1 & H2 & H3).
    change (1 + m) with (S (0 + m)).
    rewrite (loop_char _ _ c H1 H3). f_equal.
    unfold after_char, at_.
    destruct (b_firstNonSlashEnd st) eqn:Ef; simpl; rewrite He, H2, Ascii.eqb_refl;
      simpl; [|reflexivity].
    destruct Hf as [Hf|Hf]; [discriminate|]. rewrite Hf, ?Ef. reflexivity.
  - destruct (Hc (S k) (le_n _)) as (c & H1 & H2 & H3).
    change (S (S k) + m) with (S (S k + m)).
    rewrite (loop_char _ _ c H1 H3).
    assert (Ha : after_char suf st (start0 + (S k + m)) c =
                 {| b_start := b_start st; b_end := b_end st; b_matchedSlash := false;
                    b_extIdx := Some k;
                    b_firstNonSlashEnd :=
                      match b_firstNonSlashEnd st with
                      | None => Some (start0 + (S k + m) + 1)
                      | Some f => Some f
                      end |}).
    { unfold after_char, at_.
      destruct (b_firstNonSlashEnd st) eqn:Ef; simpl; rewrite He, H2, Ascii.eqb_refl;
        simpl; [|reflexivity].
      destruct Hf as [Hf|Hf]; [discriminate|]. rewrite Hf, ?Ef. reflexivity. }
    rewrite Ha. rewrite IH; simpl; auto;
      try (intros j Hj; apply Hc; lia);
      try (f_equal; destruct (b_firstNonSlashEnd st); reflexivity).
Qed.

End Basename.

Section BasenameUproject.

Import Path.
Local Open Scope nat_scope.

Lemma separator_chars :
  forall c, isPathSeparator c = true ->
            isWindowsDeviceRoot c = false /\ is_colon c = false.
Proof.
  intros c H. unfold isPathSeparator in H. apply orb_true_iff in H.
  destruct H as [H|H]; apply Ascii.eqb_eq in H; subst; split; reflexivity.
Qed.

Lemma nth_error_at :
  forall (l1 l2 : list ascii) j, nth_error (l1 ++ l2) (List.length l1 + j) = nth_error l2 j.
Proof.
  intros. rewrite nth_error_app2 by lia. f_equal. lia.
Qed.

Lemma slice_middle :
  forall (l1 l2 l3 : list ascii),
    slice (List.length l1) (List.length l1 + List.length l2) (l1 ++ l2 ++ l3) = l2.
Proof.
  intros. unfold slice. rewrite skipn_app, skipn_all, Nat.sub_diag. simpl.
  replace (List.length l1 + List.length l2 - List.length l1) with (List.length l2 + 0) by lia.
  rewrite firstn_app_2. simpl. apply app_nil_r.
Qed.

(** For a path [dir ++ sep ++ name ++ ".uproject"] whose [name] is not empty
    and has no separator, [basename(path, '.uproject')] is [name]. *)
Lemma basename_uproject :
  forall (dir : string) (sep : ascii) (name : string),
    isPathSeparator sep = true ->
    name <> EmptyString ->
    no_separator name ->
    basename (dir ++ String sep (name ++ ".uproject")) ".uproject" = name.
Proof.
  intros dir sep name Hsep Hne Hns.
  set (D := chars dir). set (N := chars name). set (S9 := chars ".uproject").
  assert (Hcs : chars (dir ++ String sep (name ++ ".uproject")) = (D ++ sep :: N ++ S9)%list).
  { rewrite chars_app. unfold chars at 2. simpl. fold (chars (name ++ ".uproject")).
    rewrite chars_app. reflexivity. }
  assert (HN : 0 < List.length N).
  { unfold N. destruct name; [congruence|]. simpl. lia. }
  unfold basename. rewrite Hcs.
  set (cs := (D ++ sep :: N ++ S9)%list).
  assert (Hlen : List.length cs = List.length D + 1 + List.length N + 9).
  { unfold cs. rewrite length_app. simpl. rewrite length_app. simpl. lia. }
  set (start := if (2 <=? List.length cs)%nat && at_ cs 0 isWindowsDeviceRoot
                     && at_ cs 1 is_colon
                then 2%nat else 0%nat).
  assert (Hstart : start <= List.length D).
  { unfold start.
    destruct ((2 <=? List.length cs) && at_ cs 0 isWindowsDeviceRoot && at_ cs 1 is_colon) eqn:E;
      [|lia].
    apply andb_true_iff in E. destruct E as [E E2].
    apply andb_true_iff in E. destruct E as [_ E1].
    destruct (separator_chars sep Hsep) as [Hr Hc].
    unfold cs, at_ in E1, E2.
    destruct D as [|d0 [|d1 D']]; simpl in *; try congruence; lia. }
  change (chars ".uproject") with S9.
  replace ((0 <? List.length S9) && (List.length S9 <=? List.length cs)) with true
    by (symmetry; apply andb_true_iff; split; [reflexivity|apply Nat.leb_le; simpl; lia]).
  destruct (String.eqb ".uproject" (dir ++ String sep (name ++ ".uproject"))) eqn:Eq.
  { apply String.eqb_eq in Eq. apply (f_equal chars) in Eq. rewrite Hcs in Eq.
    apply (f_equal (@List.length ascii)) in Eq. fold cs in Eq. rewrite Hlen in Eq.
    simpl in Eq. lia. }
  set (m0 := List.length D - start).
  replace (List.length cs - start) with (9 + (List.length N + S m0)) by (unfold m0; lia).
  change (List.length S9 - 1) with 8.
  rewrite loop_suffix; simpl b_extIdx; auto.
  2:{ intros j Hj. exists (nth j S9 zero).
      replace (start + (j + (List.length N + S m0)))
        with (List.length (D ++ sep :: N) + j)
        by (rewrite length_app; simpl; unfold m0; lia).
      unfold cs. replace (D ++ sep :: N ++ S9)%list with ((D ++ sep :: N) ++ S9)%list
        by (rewrite <- app_assoc; reflexivity).
      rewrite nth_error_at.
      do 9 (destruct j as [|j]; [repeat split; reflexivity|]). lia. }
  simpl b_firstNonSlashEnd. cbv iota.
  rewrite loop_name with (f := start + (8 + (List.length N + S m0)) + 1); auto.
  2:{ intros j Hj.
      replace (start + (j + S m0)) with (List.length (D ++ [sep]) + j)
        by (rewrite length_app; simpl; unfold m0; lia).
      unfold cs. replace (D ++ sep :: N ++ S9)%list with ((D ++ [sep]) ++ N ++ S9)%list
        by (rewrite <- app_assoc; reflexivity).
      unfold at_. rewrite nth_error_at. rewrite nth_error_app1 by lia.
      destruct (nth_error N j) eqn:En; [|reflexivity].
      apply nth_error_In in En.
      exact (proj1 (Forall_forall _ _) Hns a En). }
  rewrite loop_separator; auto.
  2:{ unfold at_, cs, m0. replace (start + (List.length D - start)) with (List.length D + 0) by lia.
      rewrite nth_error_at. simpl. exact Hsep. }
  simpl.
  replace (start + m0 + 1 =? start + (List.length N + S m0)) with false
    by (symmetry; apply Nat.eqb_neq; lia).
  replace (start + m0 + 1) with (List.length (D ++ [sep]))
    by (rewrite length_app; simpl; unfold m0; lia).
  replace (start + (List.length N + S m0)) with (List.length (D ++ [sep]) + List.length N)
    by (rewrite length_app; simpl; unfold m0; lia).
  unfold cs. replace (D ++ sep :: N ++ S9)%list with ((D ++ [sep]) ++ N ++ S9)%list
    by (rewrite <- app_assoc; reflexivity).
  rewrite slice_middle. apply str_chars.
Qed.

End BasenameUproject.

(** C8, as the code has it: for a project path [dir sep name.uproject] with a
    non-empty [name] free of separators, [getProjectName] is [name] (the
    [.uproject] extension, and only that one, is stripped) and
    [getSolutionPath] joins the directory of the project path with
    [name.sln]. *)
Theorem projectName_strips_uproject :
  forall (c : BuildConfig) (dir : string) (sep : ascii) (name : string),
    Path.isPathSeparator sep = true ->
    name <> EmptyString ->
    no_separator name ->
    projectPath c = dir ++ String sep (name ++ ".uproject") ->
    getProjectName c = name /\
    getSolutionPath c = Path.join [Path.dirname (projectPath c); name ++ ".sln"].
Proof.
  intros c dir sep name Hsep Hne Hns Hp.
  assert (H : getProjectName c = name).
  { unfold getProjectName. rewrite Hp. apply basename_uproject; assumption. }
  split; [exact H|].
  unfold getSolutionPath, getProjectDir. rewrite H. reflexivity.
Qed.

(** The witness is the example of the specification. *)
Lemma projectName_strips_uproject_witness :
  getProjectName (sample_config "C:\Proj\Game.uproject") = "Game" /\
  getSolutionPath (sample_config "C:\Proj\Game.uproject") = "C:\Proj\Game.sln".
Proof.
  destruct (projectName_strips_uproject (sample_config "C:\Proj\Game.uproject")
              "C:\Proj" "\"%char "Game") as [H1 H2].
  - reflexivity.
  - discriminate.
  - repeat constructor.
  - reflexivity.
  - split; [exact H1|]. rewrite H2. reflexivity.
Defined.

(** C8 fails for a project path with another extension: the extension stays
    in the project name and in the solution path. *)
Lemma projectName_keeps_other_extension :
  getProjectName (sample_config "C:\Proj\Game.txt") = "Game.txt" /\
  basename_without_extension "C:\Proj\Game.txt" = "Game" /\
  getProjectName (sample_config "C:\Proj\Game.txt") <>
    basename_without_extension (projectPath (sample_config "C:\Proj\Game.txt")) /\
  getSolutionPath (sample_config "C:\Proj\Game.txt") = "C:\Proj\Game.txt.sln".
Proof.
  split; [reflexivity|]. split; [reflexivity|]. split; [|reflexivity].
  vm_compute. discriminate.
Qed.

(** * Further properties of the managers *)

(** ** A busy manager *)

(** X1: while the run flag of its manager is set, a request to start an
    operation only shows the busy warning: nothing is parked (the request is
    not queued), nothing is deleted or started, and the flag stays set. *)
Theorem busy_request_only_warns :
  forall (c : Command) (s : State),
    starts_run c = true ->
    running c (world s) = true ->
    step s (Receive c) =
      {| world := add_log (ShowWarningMessage msg_busy) (world s);
         pending := pending s |} /\
    pending (step s (Receive c)) = pending s /\
    side_effects (log (world (step s (Receive c)))) = side_effects (log (world s)) /\
    running c (world (step s (Receive c))) = true.
Proof.
  intros c s Hc Hr. rewrite (busy_rejected c s Hc Hr). simpl.
  split; [reflexivity|]. split; [reflexivity|]. split.
  - rewrite side_effects_app. simpl. apply app_nil_r.
  - destruct c; exact Hr.
Qed.

(** The witness: regenerate is requested while a clean waits for a removal. *)
Lemma busy_request_only_warns_witness :
  step (step (Sample.ready "Development") (Receive CleanSolution))
    (Receive RegenerateSolution) =
    {| world := add_log (ShowWarningMessage msg_busy)
                  (world (step (Sample.ready "Development") (Receive CleanSolution)));
       pending := pending (step (Sample.ready "Development") (Receive CleanSolution)) |}.
Proof.
  exact (proj1 (busy_request_only_warns RegenerateSolution
                  (step (Sample.ready "Development") (Receive CleanSolution))
                  eq_refl eq_refl)).
Defined.

(** ** No operation throws *)

Lemma Sat_NeverThrows :
  forall {A} (r : Res A) (Qv : A -> World -> Prop),
    Sat Gany Rany Qv (fun _ _ => False) r -> NeverThrows r.
Proof.
  intros A r Qv. induction r as [a w|e w|q k IH w]; simpl; auto.
  intros [_ H] o w'. apply IH. apply H. exact I.
Qed.

Lemma await_any :
  forall q, Triple Gany Rany Anything (await q) (fun _ => Anything) (fun _ => Anything).
Proof. intros q w _. simpl. split; [exact I|]. intros [e|] w' _; exact I. Qed.

Ltac any_prim := first [apply await_any | untouched].

Lemma method_never_throws :
  forall c, Triple Gany Rany Anything (method c) (fun _ => Anything) (fun _ _ => False).
Proof.
  destruct c; simpl method.
  - unfold BuildManager.cleanSolution, BuildManager.succeeded, BuildManager.failed, fs_rm.
    cbv zeta. triple any_prim.
  - unfold BuildManager.regenerateSolution, BuildManager._cleanSolutionInternal,
      BuildManager.deleteSolutionFile, BuildManager._generateProjectFiles,
      BuildManager._buildProject, BuildManager._executeProcess,
      BuildManager.succeeded, BuildManager.failed, fs_rm, fs_unlinkSync, new_ctx.
    cbv zeta. triple any_prim.
  - unfold BuildManager.generateSolution,
      BuildManager.deleteSolutionFile, BuildManager._generateProjectFiles,
      BuildManager._executeProcess,
      BuildManager.succeeded, BuildManager.failed, fs_rm, fs_unlinkSync, new_ctx.
    cbv zeta. triple any_prim.
  - unfold DebugManager.startDebug, DebugManager._buildProject,
      DebugManager._executeProcess, DebugManager.failed, new_ctx.
    cbv zeta. triple any_prim.
  - unfold DebugManager.startWithoutDebug, DebugManager._buildProject,
      DebugManager._executeProcess, DebugManager.failed, new_ctx.
    cbv zeta. triple any_prim.
  - unfold DebugManager.launchProject. cbv zeta. triple any_prim.
  - unfold BuildManager.cancelBuild. triple any_prim.
  - unfold DebugManager.cancelDebug. triple any_prim.
Qed.

(** X2: no operation of a manager lets an exception escape, whatever the
    world it is started in and however its awaited promises settle: every
    failure ends in the operation's own [catch] block. *)
Theorem operations_never_throw :
  forall (c : Command) (w : World), NeverThrows (method c w).
Proof.
  intros c w. apply Sat_NeverThrows with (Qv := fun _ => Anything).
  apply method_never_throws. exact I.
Qed.

(** ** Progress of one child process *)

Lemma progress_values_app :
  forall l1 l2, progress_values (l1 ++ l2) = (progress_values l1 ++ progress_values l2)%list.
Proof.
  induction l1 as [|e l1 IH]; intro l2; simpl; [reflexivity|].
  destruct e as [[ ]| | | | | | | | | | | | |]; simpl; rewrite IH; reflexivity.
Qed.

Lemma Qltb_lt : forall a b, Qltb a b = true -> (a < b)%Q.
Proof.
  intros a b H. unfold Qltb in H. apply negb_true_iff in H.
  apply Qnot_le_lt. intro Hle. apply Qle_bool_iff in Hle. congruence.
Qed.

Lemma onStdout_advances :
  forall (pid : nat) (text : string) (elapsed : Z) (w : World) (c : ProcCtx),
    lookup_proc pid (procs w) = Some c ->
    exists c' posted,
      lookup_proc pid (procs (run_listener (BuildManager.onStdout pid text elapsed) w))
        = Some c' /\
      progress_values (log (run_listener (BuildManager.onStdout pid text elapsed) w)) =
        (progress_values (log w) ++ posted)%list /\
      Advances c c' posted.
Proof.
  intros pid text elapsed w c Hc.
  unfold BuildManager.onStdout, BuildManager.progress, BuildManager.postMessage,
    with_ctx, set_ctx, run_listener, append, emit, when, bind, gets, modify. simpl.
  rewrite Hc. simpl.
  destruct (Qltb (currentProgress c) (inject_Z (_parseProgress text))) eqn:E1; simpl.
  - apply Qltb_lt in E1.
    destruct (buildView w); simpl;
      eexists; eexists; (split; [erewrite lookup_update_proc; [reflexivity|];
                                  erewrite lookup_update_proc; [reflexivity|exact Hc]|]);
      simpl; repeat rewrite progress_values_app; simpl.
    + split; [rewrite <- app_assoc; reflexivity|].
      split; [reflexivity|]. split; [apply Qlt_le_weak; exact E1|].
      right. split; [reflexivity|exact E1].
    + split; [rewrite app_nil_r; instantiate (1 := []); rewrite app_nil_r; reflexivity|].
      split; [reflexivity|]. split; [apply Qlt_le_weak; exact E1|left; reflexivity].
  - destruct (Qltb 0 (currentProgress c) && Qltb (currentProgress c) 100) eqn:E2; simpl.
    + fold (estimate elapsed).
      destruct (Qltb (currentProgress c) (estimate elapsed)) eqn:E3; simpl.
      * apply Qltb_lt in E3.
        destruct (buildView w); simpl;
          eexists; eexists; (split; [erewrite lookup_update_proc; [reflexivity|];
                                      erewrite lookup_update_proc; [reflexivity|exact Hc]|]);
          simpl; repeat rewrite progress_values_app; simpl.
        -- split; [rewrite <- app_assoc; reflexivity|].
           split; [reflexivity|]. split; [apply Qlt_le_weak; exact E3|].
           right. split; [reflexivity|exact E3].
        -- split; [rewrite app_nil_r; instantiate (1 := []); rewrite app_nil_r; reflexivity|].
           split; [reflexivity|]. split; [apply Qlt_le_weak; exact E3|left; reflexivity].
      * eexists; exists [].
        split; [erewrite lookup_update_proc; [reflexivity|exact Hc]|].
        simpl. rewrite progress_values_app. simpl.
        split; [reflexivity|]. split; [reflexivity|].
        split; [apply Qle_refl|left; reflexivity].
    + eexists; exists [].
      split; [erewrite lookup_update_proc; [reflexivity|exact Hc]|].
      simpl. rewrite progress_values_app. simpl.
      split; [reflexivity|]. split; [reflexivity|].
      split; [apply Qle_refl|left; reflexivity].
Qed.

(** X3: the progress values that the [stdout] listener of one child process
    of the build manager posts, over any sequence of output chunks, strictly
    increase, and all lie above the [currentProgress] the sequence started
    from: within one process the progress never regresses.  The chunks are
    those whose markers are at most 2^53 and whose times elapsed lie between
    -2^53 and 2^53 milliseconds: integers that a double holds exactly. *)
Theorem process_progress_increases :
  forall (chunks : list (string * Z)) (s : State) (pid : nat) (c : ProcCtx),
    lookup_proc pid (procs (world s)) = Some c ->
    owner c = OwnerBuild ->
    exact_numbers chunks ->
    exists posted,
      progress_values (log (world (run s (output_of pid chunks)))) =
        (progress_values (log (world s)) ++ posted)%list /\
      StronglySorted Qlt posted /\
      Forall (fun p => currentProgress c < p)%Q posted.
Proof.
  induction chunks as [|[text elapsed] chunks IH]; intros s pid c Hc Ho Hex.
  - exists []. simpl. rewrite app_nil_r. repeat constructor.
  - change (run s (output_of pid ((text, elapsed) :: chunks)))
      with (run (step s (StdoutData pid text elapsed)) (output_of pid chunks)).
    destruct (onStdout_advances pid text elapsed (world s) c Hc)
      as (c' & posted1 & Hc' & Hlog & Ho' & Hle & Hposted).
    assert (Hstep : world (step s (StdoutData pid text elapsed)) =
                    run_listener (BuildManager.onStdout pid text elapsed) (world s)).
    { simpl. rewrite Hc, Ho. reflexivity. }
    destruct (IH (step s (StdoutData pid text elapsed)) pid c') as (posted2 & H2 & Hs2 & Hf2).
    { rewrite Hstep. exact Hc'. }
    { congruence. }
    { inversion Hex; assumption. }
    exists (posted1 ++ posted2)%list.
    split; [rewrite H2, Hstep, Hlog, app_assoc; reflexivity|].
    assert (Hf : Forall (fun p => currentProgress c < p)%Q posted2).
    { eapply Forall_impl; [|exact Hf2]. simpl. intros q Hq.
      eapply Qle_lt_trans; eauto. }
    destruct Hposted as [->|[-> Hlt]]; simpl.
    + split; assumption.
    + split; [constructor; assumption|constructor; assumption].
Qed.

(** The witness: the script run of [generateSolution] prints three markers,
    the second below the first. *)
Lemma process_progress_increases_witness :
  exists posted,
    progress_values
      (log (world (run (step (Sample.ready "Development") (Receive GenerateSolution))
                     (output_of 1 [("10%", 0%Z); ("5%", 0%Z); ("30%", 0%Z)])))) =
      (progress_values
         (log (world (step (Sample.ready "Development") (Receive GenerateSolution))))
       ++ posted)%list /\
    StronglySorted Qlt posted /\
    Forall (fun p => 0 < p)%Q posted.
Proof.
  apply (process_progress_increases [("10%", 0%Z); ("5%", 0%Z); ("30%", 0%Z)]
           (step (Sample.ready "Development") (Receive GenerateSolution)) 1
           {| owner := OwnerBuild; stdout := EmptyString; stderr := EmptyString;
              currentProgress := 0%Q |}).
  - reflexivity.
  - reflexivity.
  - repeat constructor; vm_compute; discriminate.
Defined.

(** ** Cancelling a run *)

(** X4: with a child process at hand, [cancelBuild] starts
    [taskkill /F /T /PID <pid>] on it, clears the run flag and the process
    handle, posts [buildCancelled] when there is a view, and shows the
    notification; it throws nothing. *)
Theorem cancelBuild_kills_process_tree :
  forall (w : World) (pid : nat),
    buildProcess w = Some pid ->
    exists w',
      BuildManager.cancelBuild w = Val tt w' /\
      log w' =
        (log w ++
         [ConsoleLog "[BuildManager] Cancelling build process...";
          Spawn (nextId w) "taskkill" ["/F"; "/T"; "/PID"; string_of_nat pid]
            EmptyString false;
          ConsoleLog "[BuildManager] Build process cancelled"] ++
         (if buildView w then [PostMessage MBuildCancelled] else []) ++
         [ShowInformationMessage "操作已取消"])%list /\
      isBuilding w' = false /\ buildProcess w' = None.
Proof.
  intros w pid Hp.
  unfold BuildManager.cancelBuild, BuildManager.postMessage, showInformationMessage,
    try_catch, emit, when, fresh, bind, gets, modify. simpl.
  rewrite Hp. simpl.
  destruct (buildView w); simpl; eexists; (split; [reflexivity|]); simpl;
    repeat rewrite <- app_assoc; simpl; auto.
Qed.

(** The witness: the script run of [generateSolution] is cancelled. *)
Lemma cancelBuild_kills_process_tree_witness :
  exists w',
    BuildManager.cancelBuild
      (world (step (Sample.ready "Development") (Receive GenerateSolution))) = Val tt w' /\
    side_effects (log w') =
      [FsUnlink "C:\Proj\Game.sln";
       Exec 1 (bat_command Sample.buildBat
                 (BuildManager.generateArgs "Game" Sample.project)) "C:\Proj";
       Spawn 2 "taskkill" ["/F"; "/T"; "/PID"; "1"] EmptyString false] /\
    isBuilding w' = false /\ buildProcess w' = None.
Proof.
  destruct (cancelBuild_kills_process_tree
              (world (step (Sample.ready "Development") (Receive GenerateSolution))) 1
              eq_refl) as (w' & E & Hl & H).
  exists w'. split; [exact E|]. split; [|exact H].
  rewrite Hl. vm_compute. reflexivity.
Defined.

(** X5: [cancelDebug] with no child process returns normally and changes
    nothing. *)
Theorem cancelDebug_without_process_is_noop :
  forall s : State,
    debugProcess (world s) = None ->
    DebugManager.cancelDebug (world s) = Val tt (world s) /\
    step s (Receive CancelDebug) = s.
Proof.
  intros s H.
  assert (E : DebugManager.cancelDebug (world s) = Val tt (world s)).
  { unfold DebugManager.cancelDebug, bind, gets; simpl. rewrite H. reflexivity. }
  split; [exact E|]. simpl. rewrite E. apply state_eta.
Qed.

Lemma cancelDebug_without_process_is_noop_witness :
  DebugManager.cancelDebug (world (Sample.ready "Development")) =
    Val tt (world (Sample.ready "Development")) /\
  step (Sample.ready "Development") (Receive CancelDebug) = Sample.ready "Development".
Proof.
  exact (cancelDebug_without_process_is_noop (Sample.ready "Development") eq_refl).
Defined.

(** ** A clean with nothing to delete *)

Lemma Triple_gets_known :
  forall G R {A B} (P : World -> Prop) (g : World -> A) (v : A) (f : A -> Async B) Qv Qe,
    (forall w, P w -> g w = v) ->
    Triple G R P (f v) Qv Qe -> Triple G R P (bind (gets g) f) Qv Qe.
Proof.
  intros G R A B P g v f Qv Qe Hg Hf w Hw. rewrite bind_gets, (Hg w Hw).
  apply Hf. exact Hw.
Qed.

Lemma NothingToDelete_Stable :
  forall dir view base, Stable (NothingToDelete dir view base).
Proof.
  intros dir view base w l Hl (H1 & H2 & H3 & H4 & H5 & H6).
  repeat split; try assumption.
  simpl. rewrite side_effects_app, Hl, app_nil_r. exact H6.
Qed.

Lemma succeeded_nothing_deleted :
  forall G R dir view base line Qe,
    Triple G R (NothingToDelete dir view base)
      (BuildManager.succeeded line "清理完成") (fun _ => CleanSucceeded view base) Qe.
Proof.
  intros G R dir view base line Qe w (H1 & H2 & H3 & H4 & H5 & H6).
  unfold BuildManager.succeeded, BuildManager.postMessage, appendLine,
    showInformationMessage, emit, when, modify, gets, bind. simpl.
  rewrite H5. destruct view; simpl; unfold CleanSucceeded; simpl;
    rewrite last_last; repeat rewrite side_effects_app; simpl;
    repeat rewrite app_nil_r; auto.
Qed.

(** Finds among the facts of [NothingToDelete] the value that is read. *)
Ltac known :=
  let w := fresh "w" in
  let H := fresh "H" in
  intros w H; cbv beta;
  destruct H as (?H & ?H & ?H & ?H & ?H & ?H); eassumption.

(** Walks through code whose file-system checks all answer "absent". *)
Ltac absent :=
  lazymatch goal with
  | |- Triple _ _ _ (bind (gets _) _) _ _ =>
      first
        [ eapply Triple_gets_known; [solve [known]|]
        | eapply Triple_bind;
          [ apply Triple_Quiet; [apply NothingToDelete_Stable|apply Quiet_gets]
          | intro ] ];
      cbv beta iota; absent
  | |- Triple _ _ _ (bind _ _) _ _ =>
      eapply Triple_bind; [absent|intro; cbv beta; absent]
  | |- Triple _ _ _ (try_catch _ _) _ _ =>
      eapply Triple_try_catch;
      [ absent
      | intro;
        lazymatch goal with
        | |- Triple _ _ (?P _) _ _ _ => is_evar P; apply Triple_absurd
        end ]
  | |- Triple _ _ _ (BuildManager.succeeded _ _) _ _ => apply succeeded_nothing_deleted
  | |- Triple _ _ _ (modify _) _ _ => untouched
  | |- Triple _ _ _ _ _ _ =>
      apply Triple_Quiet; [apply NothingToDelete_Stable|solve [auto with quiet]]
  end.

(** X6: when the manager is idle, the configuration valid and none of the
    three directories exists (as after a clean), [cleanSolution] runs to its
    end without awaiting anything: it deletes nothing, reports success and
    leaves the manager idle.  A clean repeated right after a clean
    succeeds. *)
Theorem clean_with_nothing_to_delete_succeeds :
  forall w : World,
    isBuilding w = false ->
    valid (validateConfig (existsSync w) (config w)) = true ->
    existsSync w (Path.join [getProjectDir (config w); "Intermediate"]) = false ->
    existsSync w (Path.join [getProjectDir (config w); "Binaries"]) = false ->
    existsSync w (Path.join [getProjectDir (config w); "Saved"; "StagedBuilds"]) = false ->
    exists w',
      BuildManager.cleanSolution w = Val tt w' /\
      CleanSucceeded (buildView w) (side_effects (log w)) w'.
Proof.
  intros w Hb Hv H1 H2 H3.
  unfold BuildManager.cleanSolution, getConfig, validateConfigM.
  rewrite bind_gets, Hb. cbv beta iota.
  rewrite bind_gets. cbv beta. rewrite bind_gets. cbv beta. rewrite Hv.
  change (negb true) with false. cbv beta iota zeta.
  match goal with
  | |- exists w', ?m w = _ /\ _ =>
      assert (HT : Triple Gnone Rany
                     (NothingToDelete (getProjectDir (config w)) (buildView w)
                        (side_effects (log w)))
                     m
                     (fun _ => CleanSucceeded (buildView w) (side_effects (log w)))
                     (fun _ _ => False));
      [|specialize (HT w); destruct (m w) as [[] w'|e w'|q k w']]
  end.
  - unfold getProjectDirM, getProjectNameM, fs_existsSync. absent.
  - exists w'. split; [reflexivity|]. apply HT. repeat split; assumption.
  - exfalso. apply HT. repeat split; assumption.
  - exfalso. apply HT. repeat split; assumption.
Qed.

(** The witness: a second clean, right after the first one has removed the
    Binaries directory. *)
Lemma clean_with_nothing_to_delete_succeeds_witness :
  exists w',
    BuildManager.cleanSolution
      (world (run (Sample.ready "Development") [Receive CleanSolution; RmSettled 1 None]))
    = Val tt w' /\
    CleanSucceeded
      (buildView
         (world (run (Sample.ready "Development")
                   [Receive CleanSolution; RmSettled 1 None])))
      (side_effects
         (log (world (run (Sample.ready "Development")
                        [Receive CleanSolution; RmSettled 1 None]))))
      w'.
Proof.
  apply (clean_with_nothing_to_delete_succeeds
           (world (run (Sample.ready "Development")
                     [Receive CleanSolution; RmSettled 1 None])));
    vm_compute; reflexivity.
Defined.

(** ** Launching without a build *)

(** X7: [launchProject] is fire-and-forget: it never awaits, leaves the run
    flags and process handles of both managers as they are, and starts the
    editor on the project (one [exec], in the project directory) exactly when
    the project path and the engine path are set and exist. *)
Theorem launchProject_is_fire_and_forget :
  forall s : State,
    let w := world s in
    let s' := step s (Receive LaunchProject) in
    pending s' = pending s /\
    isDebugging (world s') = isDebugging w /\ debugProcess (world s') = debugProcess w /\
    isBuilding (world s') = isBuilding w /\ buildProcess (world s') = buildProcess w /\
    side_effects (log (world s')) =
      (side_effects (log w) ++
       if negb (falsy (projectPath (config w))) && existsSync w (projectPath (config w)) &&
          negb (falsy (uePath (config w))) && existsSync w (uePath (config w))
       then [Exec (nextId w)
               (dquote ++ uePath (config w) ++ dquote ++ " " ++
                dquote ++ projectPath (config w) ++ dquote)
               (getProjectDir (config w))]
       else [])%list.
Proof.
  intros s w s'. subst w s'. unfold step, method.
  unfold DebugManager.launchProject, getConfig, getProjectDirM, createOutputChannel,
    appendLine, showInformationMessage, showErrorMessage, fs_existsSync,
    try_catch, emit, fresh, when, bind, gets, modify.
  cbn -[getProjectDir String.append].
  destruct (falsy (projectPath (config (world s)))),
    (existsSync (world s) (projectPath (config (world s))));
    cbn -[getProjectDir String.append];
    try (unfold side_effects; rewrite filter_app; simpl; rewrite app_nil_r;
         repeat split; reflexivity).
  destruct (falsy (uePath (config (world s)))),
    (existsSync (world s) (uePath (config (world s))));
    cbn -[getProjectDir String.append];
    unfold side_effects; rewrite ?filter_app; simpl; rewrite ?app_nil_r;
    rewrite <- ?app_assoc; repeat split; reflexivity.
Qed.

(** ** Progress of a clean *)

Lemma Silent_bind :
  forall {A B} (m : Async A) (f : A -> Async B),
    Silent m -> (forall a, Silent (f a)) -> Silent (bind m f).
Proof.
  intros A B m f Hm Hf w. unfold bind.
  destruct (Hm w) as (a & w1 & E & Hp & Hv). rewrite E. simpl.
  destruct (Hf a w1) as (b & w2 & E' & Hp' & Hv').
  exists b, w2. rewrite E'. split; [reflexivity|]. split; congruence.
Qed.

Lemma Silent_gets : forall {A} (f : World -> A), Silent (gets f).
Proof. intros A f w. exists (f w), w. auto. Qed.

Lemma Silent_ret : forall {A} (a : A), Silent (ret a).
Proof. intros A a w. exists a, w. auto. Qed.

Lemma Silent_emit :
  forall e, progress_values [e] = [] -> Silent (emit e).
Proof.
  intros e He w. exists tt, (add_log e w). split; [reflexivity|]. split; [|reflexivity].
  simpl. rewrite progress_values_app, He. apply app_nil_r.
Qed.

Lemma Silent_when : forall b m, Silent m -> Silent (when b m).
Proof. intros b m H. destruct b; simpl; auto. apply Silent_ret. Qed.

Lemma Silent_set_isBuilding : forall v, Silent (modify (set_isBuilding v)).
Proof. intros v w. exists tt, (set_isBuilding v w). auto. Qed.

Lemma Silent_set_buildProcess : forall v, Silent (modify (set_buildProcess v)).
Proof. intros v w. exists tt, (set_buildProcess v w). auto. Qed.

Lemma Silent_fresh : Silent fresh.
Proof. intro w. exists (nextId w), (set_nextId (S (nextId w)) w). auto. Qed.

Ltac silent :=
  repeat first
    [ apply Silent_bind; [|intro]
    | apply Silent_when
    | apply Silent_gets
    | apply Silent_ret
    | apply Silent_fresh
    | apply Silent_set_isBuilding
    | apply Silent_set_buildProcess
    | apply Silent_emit; reflexivity ].

Lemma Silent_appendLine : forall s, Silent (appendLine s).
Proof. intros. unfold appendLine. silent. Qed.
Lemma Silent_showWarningMessage : forall s, Silent (showWarningMessage s).
Proof. intros. unfold showWarningMessage. silent. Qed.
Lemma Silent_showErrorMessage : forall s, Silent (showErrorMessage s).
Proof. intros. unfold showErrorMessage. silent. Qed.
Lemma Silent_showInformationMessage : forall s, Silent (showInformationMessage s).
Proof. intros. unfold showInformationMessage. silent. Qed.
Lemma Silent_createOutputChannel : Silent createOutputChannel.
Proof. unfold createOutputChannel. silent. Qed.
Lemma Silent_fs_existsSync : forall p, Silent (fs_existsSync p).
Proof. intros. unfold fs_existsSync. silent. Qed.
Lemma Silent_getConfig : Silent getConfig.
Proof. unfold getConfig. silent. Qed.
Lemma Silent_validateConfigM : Silent validateConfigM.
Proof. unfold validateConfigM. silent. Qed.
Lemma Silent_getProjectDirM : Silent getProjectDirM.
Proof. unfold getProjectDirM. silent. Qed.
Lemma Silent_getProjectNameM : Silent getProjectNameM.
Proof. unfold getProjectNameM. silent. Qed.
Lemma Silent_buildStarted : Silent (BuildManager.postMessage MBuildStarted).
Proof. unfold BuildManager.postMessage. silent. Qed.

Create HintDb silent.
#[local] Hint Resolve Silent_appendLine Silent_showWarningMessage Silent_showErrorMessage
  Silent_showInformationMessage Silent_createOutputChannel Silent_fs_existsSync
  Silent_getConfig Silent_validateConfigM Silent_getProjectDirM Silent_getProjectNameM
  Silent_buildStarted Silent_set_isBuilding Silent_set_buildProcess Silent_gets Silent_ret
  : silent.

Lemma Posted_mono :
  forall base b b' w, (b <= b')%Q -> Posted base b w -> Posted base b' w.
Proof.
  intros base b b' w Hb (l & E & Hs & Hf). exists l. repeat split; auto.
  eapply Forall_impl; [|exact Hf]. simpl. intros p Hp. eapply Qle_trans; eauto.
Qed.

Lemma Posted_same :
  forall base b w w',
    progress_values (log w') = progress_values (log w) -> Posted base b w -> Posted base b w'.
Proof. intros base b w w' H (l & E & Hs). exists l. rewrite H. auto. Qed.

Lemma sorted_snoc_Qle :
  forall (l : list Q) (b p : Q),
    StronglySorted Qle l -> Forall (fun q => q <= b)%Q l -> (b <= p)%Q ->
    StronglySorted Qle (l ++ [p]).
Proof.
  induction l as [|x l IH]; intros b p Hs Hle Hb; simpl.
  - constructor; constructor.
  - inversion Hs; subst. inversion Hle; subst.
    constructor; [eapply IH; eauto|].
    apply Forall_app. split; [assumption|].
    constructor; [eapply Qle_trans; eauto|constructor].
Qed.

Lemma Posted_post :
  forall base b p msg w,
    (b <= p)%Q -> Posted base b w ->
    Posted base p (add_log (PostMessage (MBuildProgress p msg)) w) /\
    exists l', progress_values (log (add_log (PostMessage (MBuildProgress p msg)) w)) =
               (base ++ l' ++ [p])%list.
Proof.
  intros base b p msg w Hb (l & E & Hs & Hf).
  assert (E' : progress_values (log (add_log (PostMessage (MBuildProgress p msg)) w)) =
               (base ++ l ++ [p])%list).
  { simpl. rewrite progress_values_app, E. simpl. rewrite <- app_assoc. reflexivity. }
  split.
  - exists (l ++ [p])%list. split; [exact E'|]. split.
    + eapply sorted_snoc_Qle; eauto.
    + apply Forall_app. split.
      * eapply Forall_impl; [|exact Hf]. simpl. intros q Hq. eapply Qle_trans; eauto.
      * constructor; [apply Qle_refl|constructor].
  - exists l. exact E'.
Qed.

Section ProgressRules.

Variable base : list Q.

Lemma Triple_Silent :
  forall {A} (P Q : World -> Prop) (m : Async A) Qe,
    (forall w w', progress_values (log w') = progress_values (log w) ->
                  buildView w' = buildView w -> P w -> Q w') ->
    Silent m -> Triple (Gprogress base) Rprogress P m (fun _ => Q) Qe.
Proof.
  intros A P Q m Qe HPQ Hm w Hw. destruct (Hm w) as (a & w' & E & Hp & Hv).
  rewrite E. simpl. eapply HPQ; eauto.
Qed.

Lemma progress_step :
  forall b p msg Qe,
    (b <= p)%Q ->
    Triple (Gprogress base) Rprogress (Posted base b) (BuildManager.progress p msg)
      (fun _ => Posted base p) Qe.
Proof.
  intros b p msg Qe Hb w Hw.
  unfold BuildManager.progress, BuildManager.postMessage, when, emit, modify, bind, gets.
  simpl. destruct (buildView w); simpl.
  - apply (Posted_post base b p msg w Hb Hw).
  - eapply Posted_mono; eauto.
Qed.

Lemma progress_100 :
  forall b msg Qe,
    (b <= 100)%Q ->
    Triple (Gprogress base) Rprogress (Posted base b) (BuildManager.progress 100 msg)
      (fun _ => Reached100 base) Qe.
Proof.
  intros b msg Qe Hb w Hw.
  unfold BuildManager.progress, BuildManager.postMessage, when, emit, modify, bind, gets.
  simpl. destruct (buildView w) eqn:Hv; simpl.
  - destruct (Posted_post base b 100 msg w Hb Hw) as [(l & E & Hs & Hf) (l' & E')].
    exists l. repeat split; auto. intros _.
    exists l'. rewrite E in E'. apply app_inv_head in E'. exact E'.
  - destruct (Posted_mono base b 100 w Hb Hw) as (l & E & Hs & Hf).
    exists l. repeat split; auto. simpl. rewrite Hv. discriminate.
Qed.

Lemma rm_progress :
  forall b path,
    (b <= 100)%Q ->
    Triple (Gprogress base) Rprogress (Posted base b) (fs_rm path)
      (fun _ => Posted base b) (fun _ => Posted base 100).
Proof.
  intros b path Hb w Hw. unfold fs_rm, bind, fresh, emit, modify, await. simpl.
  assert (H : Posted base b (add_log (FsRm (nextId w) path) (set_nextId (S (nextId w)) w))).
  { eapply Posted_same; [|exact Hw]. simpl. rewrite progress_values_app. simpl.
    apply app_nil_r. }
  split; [eapply Posted_mono; eauto|].
  intros [e|] w' [HR _].
  - eapply Posted_mono; [exact Hb|]. eapply Posted_same; eauto.
  - eapply Posted_same; eauto.
Qed.

Lemma succeeded_progress :
  forall line note Qe,
    Triple (Gprogress base) Rprogress (Reached100 base) (BuildManager.succeeded line note)
      (fun _ => ProgressEnd base) Qe.
Proof.
  intros line note Qe w (l & E & Hs & Hf & H100).
  unfold BuildManager.succeeded, BuildManager.postMessage, appendLine,
    showInformationMessage, when, emit, modify, gets, bind. simpl.
  destruct (buildView w) eqn:Hv; simpl; exists l; simpl;
    repeat rewrite progress_values_app; simpl; repeat rewrite app_nil_r;
    (split; [exact E|]); (split; [exact Hs|]); (split; [exact Hf|]).
  - intros _. apply H100. reflexivity.
  - rewrite last_last. discriminate.
Qed.

Lemma failed_progress :
  forall prefix note e Qe,
    Triple (Gprogress base) Rprogress (Posted base 100) (BuildManager.failed prefix note e)
      (fun _ => ProgressEnd base) Qe.
Proof.
  intros prefix note e Qe w (l & E & Hs & Hf).
  unfold BuildManager.failed, BuildManager.postMessage, appendLine, showErrorMessage,
    when, emit, modify, gets, bind. simpl.
  destruct (buildView w) eqn:Hv; simpl; exists l; simpl;
    repeat rewrite progress_values_app; simpl; repeat rewrite app_nil_r;
    (split; [exact E|]); (split; [exact Hs|]); (split; [exact Hf|]);
    rewrite last_last; discriminate.
Qed.

Lemma rejected_progress :
  forall e Qe,
    (forall m, e <> PostMessage m) ->
    Triple (Gprogress base) Rprogress (Posted base 0) (emit e)
      (fun _ => ProgressEnd base) Qe.
Proof.
  intros e Qe He w Hw. simpl.
  destruct (Posted_mono base 0 100 w) as (l & E & Hs & Hf); [discriminate|exact Hw|].
  exists l. simpl. rewrite progress_values_app.
  assert (Hp : progress_values [e] = []).
  { destruct e as [m| | | | | | | | | | | | |]; try reflexivity.
    exfalso. apply (He m). reflexivity. }
  rewrite Hp, app_nil_r. repeat split; auto.
  rewrite last_last. intro H. exfalso. apply (He _ H).
Qed.

End ProgressRules.

(** Compares two progress checkpoints. *)
Ltac qle := unfold Qle; simpl; lia.

(** Code that posts nothing keeps [Posted], possibly under a larger bound. *)
Ltac posted_same :=
  let w := fresh "w" in
  let w' := fresh "w" in
  let Hp := fresh "Hp" in
  let Hv := fresh "Hv" in
  let H := fresh "H" in
  intros w w' Hp Hv H;
  first
    [ eapply Posted_same; [exact Hp|exact H]
    | eapply Posted_mono; [|eapply Posted_same; [exact Hp|exact H]]; qle ].

Ltac progress_walk :=
  lazymatch goal with
  | |- Triple _ _ _ (bind _ _) _ _ =>
      eapply Triple_bind; [progress_walk|intro; cbv beta; progress_walk]
  | |- Triple _ _ _ (match ?x with _ => _ end) _ _ => destruct x; progress_walk
  | |- Triple _ _ _ (try_catch _ _) _ _ =>
      eapply Triple_try_catch; [progress_walk|intro; cbv beta; progress_walk]
  | |- Triple _ _ _ (showWarningMessage _) _ _ =>
      apply rejected_progress; discriminate
  | |- Triple _ _ _ (showErrorMessage _) _ _ =>
      apply rejected_progress; discriminate
  | |- Triple _ _ _ (BuildManager.progress 100 _) _ _ => eapply progress_100; qle
  | |- Triple _ _ _ (BuildManager.progress _ _) _ _ => eapply progress_step; qle
  | |- Triple _ _ _ (fs_rm _) _ _ => eapply rm_progress; qle
  | |- Triple _ _ _ (BuildManager.succeeded _ _) _ _ => apply succeeded_progress
  | |- Triple _ _ _ (BuildManager.failed _ _ _) _ _ => apply failed_progress
  | |- Triple _ _ _ _ _ _ =>
      apply Triple_Silent; [posted_same|solve [auto with silent]]
  end.

(** Walks through an operation of the build manager, one progress checkpoint
    after the other. *)
Lemma cleanSolution_progress :
  forall base,
    Triple (Gprogress base) Rprogress (Posted base 0) BuildManager.cleanSolution
      (fun _ => ProgressEnd base) (fun _ _ => False).
Proof.
  intro base. unfold BuildManager.cleanSolution. cbv zeta. progress_walk.
Qed.

(** X8: the progress values that [cleanSolution] posts, from any world it is
    started in, are non-decreasing and at most 100 at each of its awaits and
    at its end; and when its last effect is the success message, the last
    value posted is exactly 100.  (Meanwhile nobody else posts a progress
    value or changes the view: that is [Rprogress].) *)
Theorem clean_progress_never_regresses :
  forall w : World,
    Sat (Gprogress (progress_values (log w))) Rprogress
      (fun _ => ProgressEnd (progress_values (log w))) (fun _ _ => False)
      (BuildManager.cleanSolution w).
Proof.
  intro w. apply cleanSolution_progress.
  exists []. rewrite app_nil_r. repeat constructor.
Qed.

(** A clean on the sample installation, where only Binaries exists. *)
Example clean_progress_run :
  progress_values
    (log (world (run (Sample.ready "Development")
                   [Receive CleanSolution; RmSettled 1 None]))) =
    [10; 40; 60; 70; 100]%Q.
Proof. vm_compute. reflexivity. Qed.

(** * Further properties: output scraping, footprints and cancellation *)

(** ** Reading the percent marker *)

Lemma match_percent_skip :
  forall pre rest run,
    no_percent pre ->
    match_percent (pre ++ rest) run = match_percent rest (run_after pre run).
Proof.
  induction pre as [|c pre IH]; intros rest run Hp; [reflexivity|].
  inversion Hp as [|? ? Hc Hpre]; subst. simpl.
  destruct (is_digit c) eqn:Hd.
  - apply IH. exact Hpre.
  - rewrite Hc. apply IH. exact Hpre.
Qed.

Lemma run_after_snoc :
  forall pre c run,
    is_digit c = false -> run_after (pre ++ [c]) run = None.
Proof.
  intros pre c run Hc. unfold run_after. rewrite fold_left_app. simpl.
  rewrite Hc. reflexivity.
Qed.

Lemma run_after_outside :
  forall pre, ends_outside_digits pre -> run_after pre None = None.
Proof.
  intros pre H. unfold ends_outside_digits in H.
  destruct (rev pre) as [|c r] eqn:E.
  - apply (f_equal (@rev ascii)) in E. rewrite rev_involutive in E. subst. reflexivity.
  - apply (f_equal (@rev ascii)) in E. rewrite rev_involutive in E. subst. simpl.
    apply run_after_snoc. exact H.
Qed.

Lemma digit_char_is_digit : forall m, m < 10 -> is_digit (digit_char m) = true.
Proof.
  intros m H. unfold is_digit, digit_char. rewrite nat_ascii_embedding by lia.
  apply andb_true_iff. split; apply Nat.leb_le; lia.
Qed.

Lemma digit_char_value : forall m, m < 10 -> digit_value (digit_char m) = Z.of_nat m.
Proof.
  intros m H. unfold digit_value, digit_char. rewrite nat_ascii_embedding by lia.
  f_equal. lia.
Qed.

Lemma nat_digits_step :
  forall fuel n acc,
    nat_digits (S fuel) n acc =
      if (n / 10 =? 0)%nat then digit_char (n mod 10) :: acc
      else nat_digits fuel (n / 10) (digit_char (n mod 10) :: acc).
Proof. reflexivity. Qed.

Lemma nat_digits_read :
  forall fuel n acc,
    n < fuel ->
    exists ds,
      nat_digits fuel n acc = (ds ++ acc)%list /\
      ds <> [] /\
      Forall (fun c => is_digit c = true) ds /\
      forall v, read ds v = (v * 10 ^ Z.of_nat (length ds) + Z.of_nat n)%Z.
Proof.
  induction fuel as [|fuel IH]; intros n acc Hn; [lia|].
  rewrite nat_digits_step.
  assert (Hm : n mod 10 < 10) by (apply Nat.mod_upper_bound; lia).
  destruct (n / 10 =? 0)%nat eqn:E.
  - apply Nat.eqb_eq in E. exists [digit_char (n mod 10)].
    split; [reflexivity|]. split; [discriminate|].
    split; [constructor; [apply digit_char_is_digit; exact Hm|constructor]|].
    intro v. unfold read. cbn [fold_left length]. rewrite digit_char_value by exact Hm.
    assert (H : n = n mod 10).
    { pose proof (Nat.div_mod_eq n 10) as D. rewrite E in D. rewrite Nat.mul_0_r in D. exact D. }
    rewrite <- H. rewrite Z.pow_1_r. ring.
  - apply Nat.eqb_neq in E.
    assert (Hlt : n / 10 < fuel).
    { assert (Hpos : 0 < n) by (destruct n; [exfalso; apply E; reflexivity|apply Nat.lt_0_succ]).
      assert (n / 10 < n) by (apply Nat.div_lt; [exact Hpos|repeat constructor]). lia. }
    destruct (IH (n / 10) (digit_char (n mod 10) :: acc) Hlt) as (ds & E1 & Hne & Hd & Hr).
    exists (ds ++ [digit_char (n mod 10)])%list.
    split; [rewrite E1, <- app_assoc; reflexivity|].
    split; [destruct ds; discriminate|].
    split; [apply Forall_app; split;
            [exact Hd|constructor; [apply digit_char_is_digit; exact Hm|constructor]]|].
    intro v. unfold read in *. rewrite fold_left_app. cbn [fold_left]. rewrite Hr.
    rewrite digit_char_value by exact Hm.
    rewrite length_app. cbn [length].
    replace (Z.of_nat (length ds + 1)) with (Z.of_nat (length ds) + 1)%Z by lia.
    rewrite Z.pow_add_r by lia. change (10 ^ 1)%Z with 10%Z.
    assert (D : (Z.of_nat n = 10 * Z.of_nat (n / 10) + Z.of_nat (n mod 10))%Z).
    { rewrite (Nat.div_mod_eq n 10) at 1.
      rewrite Nat2Z.inj_add, Nat2Z.inj_mul. reflexivity. }
    rewrite D. ring.
Qed.

Lemma match_percent_digits :
  forall ds post run,
    ds <> [] -> Forall (fun c => is_digit c = true) ds ->
    match_percent (ds ++ "%"%char :: post) run =
      Some (read ds match run with Some v => v | None => 0%Z end).
Proof.
  induction ds as [|c ds IH]; intros post run Hne Hd; [congruence|].
  inversion Hd as [|? ? Hc Hds]; subst. simpl. rewrite Hc.
  destruct ds as [|c' ds'].
  - simpl. destruct (is_digit "%") eqn:E; [discriminate E|]. reflexivity.
  - rewrite IH by (auto; discriminate). reflexivity.
Qed.

(** X9: a chunk of output that holds the decimal numeral of [n] followed by a
    percent sign, after a text [pre] without percent sign that does not end
    in a digit, is read as [n], whatever follows; [pre] alone is read as 0.
    (Up to [2 ^ 53] the number [parseInt] returns is the integer itself.) *)
Theorem parseProgress_reads_marker :
  forall (pre post : string) (n : nat),
    no_percent (chars pre) ->
    ends_outside_digits (chars pre) ->
    (Z.of_nat n <= 2 ^ 53)%Z ->
    _parseProgress (pre ++ string_of_nat n ++ "%" ++ post) = Z.of_nat n /\
    _parseProgress pre = 0%Z.
Proof.
  intros pre post n Hp He _. unfold _parseProgress. split.
  - rewrite chars_app, match_percent_skip by exact Hp.
    rewrite run_after_outside by exact He.
    rewrite chars_app. unfold string_of_nat.
    destruct (nat_digits_read (S n) n [] (Nat.lt_succ_diag_r n))
      as (ds & E & Hne & Hd & Hr).
    rewrite E, app_nil_r.
    assert (Hs : chars (str ds) = ds).
    { unfold chars, str. apply list_ascii_of_string_of_list_ascii. }
    rewrite Hs. change (chars ("%" ++ post)) with ("%"%char :: chars post).
    rewrite match_percent_digits by assumption.
    rewrite Hr. lia.
  - rewrite <- (app_nil_r (chars pre)), match_percent_skip by exact Hp.
    reflexivity.
Qed.

(** The witness: a line of the build script. *)
Lemma parseProgress_reads_marker_witness :
  _parseProgress ("[3/20] Compiling Game.cpp " ++ string_of_nat 42 ++ "%" ++ " of 100%")
    = 42%Z /\
  _parseProgress "[3/20] Compiling Game.cpp " = 0%Z.
Proof.
  apply (parseProgress_reads_marker "[3/20] Compiling Game.cpp " " of 100%" 42).
  - repeat constructor.
  - reflexivity.
  - discriminate.
Defined.

(** ** Rounding to the nearest double *)

Lemma two_power_pos : forall z : Z, (0 < 2 ^ z)%Q.
Proof. intro z. apply Qpower_0_lt. reflexivity. Qed.

Lemma two_power_plus : forall a b : Z, (2 ^ (a + b) == 2 ^ a * 2 ^ b)%Q.
Proof. intros a b. apply Qpower_plus. discriminate. Qed.

Lemma two_power_Z : forall n : Z, (0 <= n)%Z -> (inject_Z (2 ^ n) == 2 ^ n)%Q.
Proof. intros n Hn. rewrite Zpower_Qpower by exact Hn. reflexivity. Qed.

(** [exponent q] is not above the binary logarithm of [q]. *)
Lemma exponent_le : forall q : Q, (0 < q)%Q -> (2 ^ Double.exponent q <= q)%Q.
Proof.
  intros [n d] Hq. unfold Double.exponent. cbn [Qnum Qden].
  set (L := Z.log2 n). set (D := Z.log2 (Zpos d)).
  destruct (Qle_bool (2 ^ (L - D)) (n # d)) eqn:E.
  - apply Qle_bool_iff. exact E.
  - assert (Hn : (0 < n)%Z).
    { unfold Qlt in Hq. simpl in Hq. lia. }
    assert (HL : (2 ^ L <= n)%Z) by (apply Z.log2_spec; exact Hn).
    assert (HD : (Zpos d < 2 ^ (D + 1))%Z).
    { replace (D + 1)%Z with (Z.succ D) by lia. apply Z.log2_spec. reflexivity. }
    assert (HL0 : (0 <= L)%Z) by apply Z.log2_nonneg.
    assert (HD0 : (0 <= D)%Z) by apply Z.log2_nonneg.
    assert (Hd : (inject_Z (Zpos d) <= 2 ^ (D + 1))%Q).
    { rewrite <- two_power_Z by lia. rewrite <- Zle_Qle. lia. }
    assert (Hl : (2 ^ L <= inject_Z n)%Q).
    { rewrite <- two_power_Z by lia. rewrite <- Zle_Qle. exact HL. }
    assert (Hs : (2 ^ (L - D - 1) * 2 ^ (D + 1) == 2 ^ L)%Q).
    { rewrite <- two_power_plus. replace (L - D - 1 + (D + 1))%Z with L by lia.
      reflexivity. }
    assert (Hdpos : (0 < inject_Z (Zpos d))%Q) by reflexivity.
    assert (Hq' : (n # d == inject_Z n / inject_Z (Zpos d))%Q).
    { rewrite (Qmake_Qdiv n d). reflexivity. }
    rewrite Hq'. apply Qle_shift_div_l; [exact Hdpos|].
    apply Qle_trans with (y := (2 ^ (L - D - 1) * 2 ^ (D + 1))%Q).
    + apply Qmult_le_l; [apply two_power_pos|exact Hd].
    + rewrite Hs. exact Hl.
Qed.

Lemma nearest_even_ge : forall m, (Qfloor m <= Double.nearest_even m)%Z.
Proof.
  intro m. unfold Double.nearest_even.
  destruct (Qle_bool _ _); [destruct (Qle_bool _ _); [destruct (Z.even _)|]|]; lia.
Qed.

(** Rounding a positive [q] does not go below a multiple of the unit in the
    last place that is at most [q]. *)
Lemma round_pos_ge :
  forall (q : Q) (k : Z),
    (0 < q)%Q ->
    (inject_Z k * 2 ^ (Double.exponent q - 52) <= q)%Q ->
    (inject_Z k * 2 ^ (Double.exponent q - 52) <= Double.round q)%Q.
Proof.
  intros q k Hq Hk. unfold Double.round.
  destruct (Qnum q) as [|p|p] eqn:En.
  - exfalso. destruct q as [n d]. simpl in En. subst n. discriminate Hq.
  - cbv zeta. set (ulp := (2 ^ (Double.exponent q - 52))%Q) in *.
    assert (Hu : (0 < ulp)%Q) by apply two_power_pos.
    apply Qmult_le_r; [exact Hu|].
    rewrite <- Zle_Qle.
    apply Z.le_trans with (m := Qfloor (q / ulp)); [|apply nearest_even_ge].
    rewrite <- (Qfloor_Z k). apply Qfloor_resp_le.
    apply Qle_shift_div_l; [exact Hu|exact Hk].
  - exfalso. destruct q as [n d]. simpl in En. subst n. discriminate Hq.
Qed.

Lemma round_nonneg : forall q, (0 <= q)%Q -> (0 <= Double.round q)%Q.
Proof.
  intros q Hq. destruct (Qnum q) as [|p|p] eqn:En.
  - unfold Double.round. rewrite En. apply Qle_refl.
  - assert (Hpos : (0 < q)%Q).
    { destruct q as [n d]. simpl in En. subst n. reflexivity. }
    pose proof (round_pos_ge q 0 Hpos) as H.
    rewrite Qmult_0_l in H. apply H. exact Hq.
  - exfalso. destruct q as [n d]. simpl in En. subst n.
    unfold Qle in Hq. simpl in Hq. lia.
Qed.

(** 40 is a double: rounding a number that is at least 40 gives at least
    40. *)
Lemma round_ge_40 : forall q, (40 <= q)%Q -> (40 <= Double.round q)%Q.
Proof.
  intros q Hq.
  assert (Hpos : (0 < q)%Q) by (eapply Qlt_le_trans; [|exact Hq]; reflexivity).
  pose proof (exponent_le q Hpos) as He.
  set (e := (Double.exponent q - 52)%Z) in *.
  destruct (Z_le_gt_dec e 3) as [Hle|Hgt].
  - assert (Hk : (inject_Z (5 * 2 ^ (3 - e)) * 2 ^ e == 40)%Q).
    { rewrite inject_Z_mult, two_power_Z by lia.
      rewrite <- Qmult_assoc, <- two_power_plus.
      replace (3 - e + e)%Z with 3%Z by lia. reflexivity. }
    rewrite <- Hk. apply round_pos_ge; [exact Hpos|]. fold e. rewrite Hk. exact Hq.
  - apply Qle_trans with (y := (inject_Z (2 ^ 52) * 2 ^ e)%Q).
    + apply Qle_trans with (y := (inject_Z (2 ^ 52) * 1)%Q).
      * vm_compute. discriminate.
      * apply Qmult_le_l; [reflexivity|].
        apply Qpower_1_le; [vm_compute; discriminate|lia].
    + apply round_pos_ge; [exact Hpos|]. fold e.
      rewrite two_power_Z by lia. rewrite <- two_power_plus.
      replace (52 + e)%Z with (Double.exponent q) by (unfold e; lia). exact He.
Qed.

(** ** Progress of the debug manager *)

(** From one percentage to the next the value posted increases. *)
Lemma scaled_next :
  forall i : nat,
    (i < 100)%nat ->
    (scaled (inject_Z (Z.of_nat i)) < scaled (inject_Z (Z.of_nat (S i))))%Q.
Proof.
  intros i Hi. apply Qltb_lt.
  assert (H : forallb
                (fun i => Qltb (scaled (inject_Z (Z.of_nat i)))
                            (scaled (inject_Z (Z.of_nat (S i)))))
                (seq 0 100) = true) by (vm_compute; reflexivity).
  rewrite forallb_forall in H. apply H. apply in_seq. lia.
Qed.

Lemma scaled_increases :
  forall a b : Z,
    (0 <= a < b)%Z -> (b <= 100)%Z -> (scaled (inject_Z a) < scaled (inject_Z b))%Q.
Proof.
  intros a b Hab Hb.
  assert (H : forall d i : nat,
             (i + S d <= 100)%nat ->
             (scaled (inject_Z (Z.of_nat i)) < scaled (inject_Z (Z.of_nat (i + S d))))%Q).
  { induction d as [|d IH]; intros i Hi.
    - replace (i + 1)%nat with (S i) by lia. apply scaled_next. lia.
    - apply Qlt_trans with (y := scaled (inject_Z (Z.of_nat (i + S d)))).
      + apply IH. lia.
      + replace (i + S (S d))%nat with (S (i + S d)) by lia. apply scaled_next. lia. }
  specialize (H (Z.to_nat (b - a) - 1)%nat (Z.to_nat a)).
  replace (Z.of_nat (Z.to_nat a)) with a in H by lia.
  replace (Z.of_nat (Z.to_nat a + S (Z.to_nat (b - a) - 1))) with b in H by lia.
  apply H. lia.
Qed.

(** The values posted for the percentages 1 to 100 lie above 10 and at or
    below 50. *)
Lemma scaled_window :
  forall m : Z,
    (0 < m <= 100)%Z -> (10 < scaled (inject_Z m))%Q /\ (scaled (inject_Z m) <= 50)%Q.
Proof.
  intros m Hm. split.
  - apply Qle_lt_trans with (y := scaled (inject_Z 0)).
    + vm_compute. discriminate.
    + apply scaled_increases; lia.
  - destruct (Z.eq_dec m 100) as [->|Hne].
    + vm_compute. discriminate.
    + apply Qlt_le_weak. apply Qlt_le_trans with (y := scaled (inject_Z 100)).
      * apply scaled_increases; lia.
      * vm_compute. discriminate.
Qed.

(** One chunk: the marker becomes the [currentProgress] when it is above it,
    and its value is posted when there is a view. *)
Lemma debug_onStdout_advances :
  forall (pid : nat) (text : string) (w : World) (c : ProcCtx),
    lookup_proc pid (procs w) = Some c ->
    exists c' posted,
      lookup_proc pid (procs (run_listener (DebugManager.onStdout pid text) w)) = Some c' /\
      progress_values (log (run_listener (DebugManager.onStdout pid text) w)) =
        (progress_values (log w) ++ posted)%list /\
      owner c' = owner c /\
      (currentProgress c' = currentProgress c /\ posted = [] \/
       currentProgress c' = inject_Z (_parseProgress text) /\
       (currentProgress c < inject_Z (_parseProgress text))%Q /\
       (posted = [] \/ posted = [scaled (inject_Z (_parseProgress text))])).
Proof.
  intros pid text w c Hc.
  unfold DebugManager.onStdout, DebugManager.progress, DebugManager.postMessage,
    with_ctx, set_ctx, run_listener, append, emit, when, bind, gets, modify. simpl.
  rewrite Hc. simpl.
  destruct (Qltb (currentProgress c) (inject_Z (_parseProgress text))) eqn:E1; simpl.
  - apply Qltb_lt in E1.
    destruct (debugView w); simpl;
      eexists; eexists; (split; [erewrite lookup_update_proc; [reflexivity|];
                                  erewrite lookup_update_proc; [reflexivity|exact Hc]|]);
      simpl; repeat rewrite progress_values_app; simpl.
    + split; [rewrite <- app_assoc; reflexivity|].
      split; [reflexivity|]. right. split; [reflexivity|]. split; [exact E1|].
      right. reflexivity.
    + split; [rewrite app_nil_r; instantiate (1 := []); rewrite app_nil_r; reflexivity|].
      split; [reflexivity|]. right. split; [reflexivity|]. split; [exact E1|].
      left. reflexivity.
  - eexists; exists [].
    split; [erewrite lookup_update_proc; [reflexivity|exact Hc]|].
    simpl. rewrite progress_values_app. simpl.
    split; [reflexivity|]. split; [reflexivity|]. left. split; reflexivity.
Qed.

(** X10: within one child process of the debug manager whose
    [currentProgress] is a whole percentage [n], over any sequence of output
    chunks whose markers are at most 100, the values its stdout listener
    posts are the doubles [10 + marker * 0.4] of strictly increasing
    markers: they strictly increase, lie above the value of [n], above 10,
    and at or below 50. *)
Theorem debug_progress_stays_in_window :
  forall (chunks : list (string * Z)) (s : State) (pid : nat) (c : ProcCtx) (n : Z),
    lookup_proc pid (procs (world s)) = Some c ->
    owner c = OwnerDebug ->
    currentProgress c = inject_Z n ->
    (0 <= n <= 100)%Z ->
    Forall (fun ch => (_parseProgress (fst ch) <= 100)%Z) chunks ->
    exists posted,
      progress_values (log (world (run s (output_of pid chunks)))) =
        (progress_values (log (world s)) ++ posted)%list /\
      StronglySorted Qlt posted /\
      Forall (fun p => scaled (inject_Z n) < p /\ 10 < p /\ p <= 50)%Q posted.
Proof.
  induction chunks as [|[text elapsed] chunks IH]; intros s pid c n Hc Ho Hn Hr Hm.
  - exists []. simpl. rewrite app_nil_r. repeat constructor.
  - change (run s (output_of pid ((text, elapsed) :: chunks)))
      with (run (step s (StdoutData pid text elapsed)) (output_of pid chunks)).
    inversion Hm as [|? ? Hm1 Hm2]; subst. simpl in Hm1.
    destruct (debug_onStdout_advances pid text (world s) c Hc)
      as (c' & posted1 & Hc' & Hlog & Ho' & Hcase).
    assert (Hstep : world (step s (StdoutData pid text elapsed)) =
                    run_listener (DebugManager.onStdout pid text) (world s)).
    { simpl. rewrite Hc, Ho. reflexivity. }
    destruct Hcase as [[Hcp ->]|(Hcp & Hlt & Hp)].
    + destruct (IH (step s (StdoutData pid text elapsed)) pid c' n)
        as (posted2 & H2 & Hs2 & Hf2); auto.
      { rewrite Hstep. exact Hc'. }
      { congruence. }
      { congruence. }
      exists posted2. split; [rewrite H2, Hstep, Hlog, app_nil_r; reflexivity|].
      split; assumption.
    + rewrite Hn in Hlt. rewrite <- Zlt_Qlt in Hlt.
      destruct (IH (step s (StdoutData pid text elapsed)) pid c' (_parseProgress text))
        as (posted2 & H2 & Hs2 & Hf2); auto.
      { rewrite Hstep. exact Hc'. }
      { congruence. }
      { lia. }
      assert (Hinc : (scaled (inject_Z n) < scaled (inject_Z (_parseProgress text)))%Q).
      { apply scaled_increases; lia. }
      assert (Hf : Forall (fun p => scaled (inject_Z n) < p /\ 10 < p /\ p <= 50)%Q posted2).
      { eapply Forall_impl; [|exact Hf2]. cbv beta. intros q (Hq & Hq1 & Hq2).
        split; [eapply Qlt_trans; eassumption|]. split; assumption. }
      exists (posted1 ++ posted2)%list.
      split; [rewrite H2, Hstep, Hlog, app_assoc; reflexivity|].
      destruct Hp as [->| ->]; simpl.
      * split; assumption.
      * destruct (scaled_window (_parseProgress text)) as [Hlo Hhi]; [lia|].
        split.
        -- constructor; [exact Hs2|].
           eapply Forall_impl; [|exact Hf2]. cbv beta. intros q (Hq & _). exact Hq.
        -- constructor; [|exact Hf]. split; [exact Hinc|]. split; assumption.
Qed.

(** The witness: the compile run of [startDebug] prints three markers, the
    second below the first. *)
Lemma debug_progress_stays_in_window_witness :
  exists posted,
    progress_values
      (log (world (run (step (Sample.ready "Development") (Receive StartDebug))
                     (output_of 1 [("10%", 0%Z); ("5%", 0%Z); ("30%", 0%Z)])))) =
      (progress_values
         (log (world (step (Sample.ready "Development") (Receive StartDebug))))
       ++ posted)%list /\
    StronglySorted Qlt posted /\
    Forall (fun p => scaled (inject_Z 0) < p /\ 10 < p /\ p <= 50)%Q posted.
Proof.
  apply (debug_progress_stays_in_window [("10%", 0%Z); ("5%", 0%Z); ("30%", 0%Z)]
           (step (Sample.ready "Development") (Receive StartDebug)) 1
           {| owner := OwnerDebug; stdout := EmptyString; stderr := EmptyString;
              currentProgress := 0%Q |} 0%Z).
  - reflexivity.
  - reflexivity.
  - reflexivity.
  - lia.
  - repeat constructor; vm_compute; discriminate.
Defined.

(** ** The time estimate *)

Lemma estimate_bounds :
  forall elapsed, (0 <= elapsed)%Z -> (40 <= estimate elapsed)%Q /\ (estimate elapsed <= 95)%Q.
Proof.
  intros elapsed H. unfold estimate, Qmin_js.
  assert (H40 : (40 <= Double.add 40
                         (Double.mul (Double.div (inject_Z elapsed) 300000) 55))%Q).
  { unfold Double.add. apply round_ge_40.
    rewrite <- (Qplus_0_r 40) at 1. apply Qplus_le_r.
    unfold Double.mul. apply round_nonneg.
    apply Qmult_le_0_compat; [|discriminate].
    unfold Double.div. apply round_nonneg.
    apply Qle_shift_div_l; [reflexivity|].
    rewrite Qmult_0_l. change 0%Q with (inject_Z 0). rewrite <- Zle_Qle. exact H. }
  destruct (Qle_bool 95 _) eqn:E.
  - split; [discriminate|apply Qle_refl].
  - split; [exact H40|].
    apply Qlt_le_weak. apply Qnot_le_lt. intro Hle.
    apply Qle_bool_iff in Hle. congruence.
Qed.

(** A chunk without a marker: the time estimate is posted only above a
    [currentProgress] strictly between 0 and 100. *)
Lemma onStdout_without_marker :
  forall (pid : nat) (text : string) (elapsed : Z) (w : World) (c : ProcCtx),
    lookup_proc pid (procs w) = Some c ->
    _parseProgress text = 0%Z ->
    (0 <= currentProgress c)%Q ->
    exists c' posted,
      lookup_proc pid (procs (run_listener (BuildManager.onStdout pid text elapsed) w))
        = Some c' /\
      progress_values (log (run_listener (BuildManager.onStdout pid text elapsed) w)) =
        (progress_values (log w) ++ posted)%list /\
      owner c' = owner c /\
      (posted = [] /\ currentProgress c' = currentProgress c \/
       (0 < currentProgress c)%Q /\ (currentProgress c < estimate elapsed)%Q /\
       currentProgress c' = estimate elapsed /\
       (posted = [] \/ posted = [estimate elapsed])).
Proof.
  intros pid text elapsed w c Hc Hm Hpos.
  unfold BuildManager.onStdout, BuildManager.progress, BuildManager.postMessage,
    with_ctx, set_ctx, run_listener, append, emit, when, bind, gets, modify. simpl.
  rewrite Hc. simpl. rewrite Hm.
  assert (E1 : Qltb (currentProgress c) (inject_Z 0) = false).
  { unfold Qltb. apply negb_false_iff. apply Qle_bool_iff. exact Hpos. }
  rewrite E1. simpl.
  destruct (Qltb 0 (currentProgress c) && Qltb (currentProgress c) 100) eqn:E2; simpl.
  - fold (estimate elapsed).
    destruct (Qltb (currentProgress c) (estimate elapsed)) eqn:E3; simpl.
    + apply andb_true_iff in E2. destruct E2 as [E2 _].
      apply Qltb_lt in E2. apply Qltb_lt in E3.
      destruct (buildView w); simpl;
        eexists; eexists; (split; [erewrite lookup_update_proc; [reflexivity|];
                                    erewrite lookup_update_proc; [reflexivity|exact Hc]|]);
        simpl; repeat rewrite progress_values_app; simpl.
      * split; [rewrite <- app_assoc; reflexivity|].
        split; [reflexivity|]. right. repeat split; auto.
      * split; [rewrite app_nil_r; instantiate (1 := []); rewrite app_nil_r; reflexivity|].
        split; [reflexivity|]. right. repeat split; auto.
    + eexists; exists [].
      split; [erewrite lookup_update_proc; [reflexivity|exact Hc]|].
      simpl. rewrite progress_values_app. simpl.
      split; [reflexivity|]. split; [reflexivity|]. left. auto.
  - eexists; exists [].
    split; [erewrite lookup_update_proc; [reflexivity|exact Hc]|].
    simpl. rewrite progress_values_app. simpl.
    split; [reflexivity|]. split; [reflexivity|]. left. auto.
Qed.

(** X11: take a child process of the build manager whose [currentProgress]
    is not negative, and output chunks without a percent marker that arrive
    at times elapsed from 0 to 2^53 milliseconds (the clock is not set back).
    The stdout listener posts nothing but time estimates over them, each
    between 40 and 95; and it posts nothing at all while no marker has been
    seen ([currentProgress] is still 0). *)
Theorem time_estimate_needs_a_marker :
  forall (chunks : list (string * Z)) (s : State) (pid : nat) (c : ProcCtx),
    lookup_proc pid (procs (world s)) = Some c ->
    owner c = OwnerBuild ->
    without_marker chunks ->
    Forall (fun ch => (0 <= snd ch <= 2 ^ 53)%Z) chunks ->
    (0 <= currentProgress c)%Q ->
    exists posted,
      progress_values (log (world (run s (output_of pid chunks)))) =
        (progress_values (log (world s)) ++ posted)%list /\
      Forall (fun p => 40 <= p /\ p <= 95)%Q posted /\
      (currentProgress c == 0 -> posted = [])%Q.
Proof.
  induction chunks as [|[text elapsed] chunks IH]; intros s pid c Hc Ho Hm Ht Hpos.
  - exists []. simpl. rewrite app_nil_r. repeat constructor.
  - change (run s (output_of pid ((text, elapsed) :: chunks)))
      with (run (step s (StdoutData pid text elapsed)) (output_of pid chunks)).
    inversion Hm as [|? ? Hm1 Hm2]; subst. simpl in Hm1.
    inversion Ht as [|? ? [He1 _] Ht2]; subst. simpl in He1.
    destruct (onStdout_without_marker pid text elapsed (world s) c Hc Hm1 Hpos)
      as (c' & posted1 & Hc' & Hlog & Ho' & Hcase).
    assert (Hstep : world (step s (StdoutData pid text elapsed)) =
                    run_listener (BuildManager.onStdout pid text elapsed) (world s)).
    { simpl. rewrite Hc, Ho. reflexivity. }
    destruct (estimate_bounds elapsed He1) as [Hlo Hhi].
    assert (Hpos' : (0 <= currentProgress c')%Q).
    { destruct Hcase as [[_ ->]|(_ & _ & -> & _)]; [exact Hpos|].
      eapply Qle_trans; [|exact Hlo]. discriminate. }
    destruct (IH (step s (StdoutData pid text elapsed)) pid c')
      as (posted2 & H2 & Hb2 & Hz2); auto.
    { rewrite Hstep. exact Hc'. }
    { congruence. }
    exists (posted1 ++ posted2)%list.
    split; [rewrite H2, Hstep, Hlog, app_assoc; reflexivity|].
    destruct Hcase as [[-> Hcp]|(H0 & Hlt & Hcp & Hp)].
    + simpl. split; [exact Hb2|]. intro Hz. apply Hz2. rewrite Hcp. exact Hz.
    + split.
      * apply Forall_app. split; [|exact Hb2].
        destruct Hp as [->| ->]; repeat constructor; assumption.
      * intro Hz. exfalso. rewrite Hz in H0. discriminate H0.
Qed.

(** The witness: the script has printed [10%]; a minute later it prints a
    line without marker. *)
Lemma time_estimate_needs_a_marker_witness :
  exists posted,
    progress_values
      (log (world (run (run (Sample.ready "Development")
                          [Receive GenerateSolution; StdoutData 1 "10%" 0])
                     (output_of 1 [("Linking Game.dll", 60000%Z)])))) =
      (progress_values
         (log (world (run (Sample.ready "Development")
                        [Receive GenerateSolution; StdoutData 1 "10%" 0])))
       ++ posted)%list /\
    Forall (fun p => 40 <= p /\ p <= 95)%Q posted /\
    (10 == 0 -> posted = [])%Q.
Proof.
  apply (time_estimate_needs_a_marker [("Linking Game.dll", 60000%Z)]
           (run (Sample.ready "Development")
              [Receive GenerateSolution; StdoutData 1 "10%" 0]) 1
           {| owner := OwnerBuild; stdout := "10%"; stderr := EmptyString;
              currentProgress := 10%Q |}).
  - reflexivity.
  - reflexivity.
  - repeat constructor.
  - repeat constructor; vm_compute; discriminate.
  - discriminate.
Defined.

(** ** What an operation may touch *)

Section Footprint.

Variable allowed : Effect -> Prop.
Variable cfg : BuildConfig.
Variable base : list Effect.

Lemma Within_Stable : Stable (Within allowed cfg base).
Proof.
  intros w l Hl (Hc & l0 & E & H). split; [exact Hc|]. exists l0. simpl.
  rewrite side_effects_app, Hl, app_nil_r. auto.
Qed.

Lemma Within_add :
  forall e w w',
    allowed e -> config w' = config w ->
    side_effects (log w') = (side_effects (log w) ++ [e])%list ->
    Within allowed cfg base w -> Within allowed cfg base w'.
Proof.
  intros e w w' He Hc Hl (Hc0 & l & E & H). split; [congruence|].
  exists (l ++ [e])%list. rewrite Hl, E, app_assoc. split; [reflexivity|].
  apply Forall_app. split; [exact H|constructor; [exact He|constructor]].
Qed.

Lemma Within_resume :
  forall w w', Within allowed cfg base w -> Rorder w w' -> Within allowed cfg base w'.
Proof.
  intros w w' (Hc & l & E & H) [Hc' Hl]. split; [congruence|].
  exists l. rewrite Hl. auto.
Qed.

Lemma Within_emit :
  forall e Qe,
    allowed e -> is_side_effect e = true ->
    Triple (Gwithin allowed cfg base) Rorder (Within allowed cfg base) (emit e)
      (fun _ => Within allowed cfg base) Qe.
Proof.
  intros e Qe He Hs w Hw. simpl.
  apply (Within_add e w); [exact He|reflexivity| |exact Hw].
  simpl. rewrite side_effects_app. unfold side_effects at 2. simpl. rewrite Hs. reflexivity.
Qed.

Lemma Within_await :
  forall q,
    Triple (Gwithin allowed cfg base) Rorder (Within allowed cfg base) (await q)
      (fun _ => Within allowed cfg base) (fun _ => Within allowed cfg base).
Proof.
  intros q w Hw. simpl. split; [exact Hw|].
  intros [e|] w' HR; eapply Within_resume; eauto.
Qed.

Lemma Within_child :
  forall pid exe args cwd Qe,
    allowed (child_process pid exe args cwd) ->
    Triple (Gwithin allowed cfg base) Rorder (Within allowed cfg base)
      (if endsWith ".bat" exe
       then appendLine ("执行命令: " ++ bat_command exe args) ;;
            emit (Exec pid (bat_command exe args) cwd)
       else emit (Spawn pid exe args cwd false))
      (fun _ => Within allowed cfg base) Qe.
Proof.
  intros pid exe args cwd Qe He. unfold child_process in He.
  destruct (endsWith ".bat" exe).
  - eapply Triple_bind.
    + apply Triple_Quiet; [apply Within_Stable|apply Quiet_appendLine].
    + intro. apply Within_emit; [exact He|reflexivity].
  - apply Within_emit; [exact He|reflexivity].
Qed.

Lemma Within_known :
  forall {A B} (g : BuildConfig -> A) (f : A -> Async B) Qv Qe,
    Triple (Gwithin allowed cfg base) Rorder (Within allowed cfg base) (f (g cfg)) Qv Qe ->
    Triple (Gwithin allowed cfg base) Rorder (Within allowed cfg base)
      (bind (gets (fun w => g (config w))) f) Qv Qe.
Proof.
  intros A B g f Qv Qe H w Hw. rewrite bind_gets.
  destruct Hw as [Hc Hrest]. rewrite Hc. apply H. split; auto.
Qed.

End Footprint.

(** Walks a method, with [prim] for the effects that must be allowed. *)
Ltac within prim :=
  lazymatch goal with
  | |- Triple _ _ _ (bind (gets config) _) _ _ =>
      apply (Within_known _ _ _ (fun c => c)); cbv beta; within prim
  | |- Triple _ _ _ (bind (gets (fun w => getProjectDir (config w))) _) _ _ =>
      apply (Within_known _ _ _ getProjectDir); cbv beta; within prim
  | |- Triple _ _ _ (bind (gets (fun w => getProjectName (config w))) _) _ _ =>
      apply (Within_known _ _ _ getProjectName); cbv beta; within prim
  | |- Triple _ _ _ (bind (gets (fun w => getSolutionPath (config w))) _) _ _ =>
      apply (Within_known _ _ _ getSolutionPath); cbv beta; within prim
  | |- Triple _ _ _ (bind _ _) _ _ =>
      eapply Triple_bind; [within prim|intro; cbv beta; within prim]
  | |- Triple _ _ _ (when _ _) _ _ => apply Triple_when; within prim
  | |- Triple _ _ _ (if endsWith _ _ then _ else _) _ _ =>
      apply Within_child; solve [prim]
  | |- Triple _ _ _ (match ?x with _ => _ end) _ _ => destruct x; within prim
  | |- Triple _ _ _ (try_catch _ _) _ _ =>
      eapply Triple_try_catch;
      [ within prim
      | intro;
        lazymatch goal with
        | |- Triple _ _ (?P _) _ _ _ =>
            tryif is_evar P then apply Triple_absurd else within prim
        | |- _ => within prim
        end ]
  | |- Triple _ _ _ (throw _) _ _ => apply Triple_throw
  | |- Triple _ _ _ (ret _) _ _ => apply Triple_ret
  | |- Triple _ _ _ (await _) _ _ => apply Within_await
  | |- Triple _ _ _ (emit (FsRm _ _)) _ _ => apply Within_emit; [solve [prim]|reflexivity]
  | |- Triple _ _ _ (emit (FsUnlink _)) _ _ => apply Within_emit; [solve [prim]|reflexivity]
  | |- Triple _ _ _ (emit (Exec _ _ _)) _ _ => apply Within_emit; [solve [prim]|reflexivity]
  | |- Triple _ _ _ (emit (Spawn _ _ _ _ _)) _ _ =>
      apply Within_emit; [solve [prim]|reflexivity]
  | |- Triple _ _ _ (emit _) _ _ =>
      apply Triple_Quiet; [apply Within_Stable|apply Quiet_emit; reflexivity]
  | |- Triple _ _ _ (modify _) _ _ => untouched
  | |- Triple _ _ _ fresh _ _ => untouched
  | |- Triple _ _ _ _ _ _ =>
      apply Triple_Quiet; [apply Within_Stable|solve [auto with quiet]]
  end.

Ltac foot :=
  first
    [ eapply FootClean; [|constructor]; lia
    | eapply FootRegenerate; constructor
    | eapply FootGenerate; [|constructor]; lia
    | eapply FootCompile; [|constructor]; auto
    | apply FootDebug
    | apply FootRun; auto
    | eapply FootCancel; auto ].

Lemma method_within :
  forall c cfg base,
    Triple (Gwithin (footprint cfg c) cfg base) Rorder (Within (footprint cfg c) cfg base)
      (method c) (fun _ => Within (footprint cfg c) cfg base) (fun _ _ => False).
Proof.
  intros c cfg base.
  destruct c; simpl method;
    unfold BuildManager.cleanSolution, BuildManager.regenerateSolution,
      BuildManager.generateSolution, DebugManager.startDebug,
      DebugManager.startWithoutDebug, DebugManager.launchProject,
      BuildManager.cancelBuild, DebugManager.cancelDebug,
      BuildManager._cleanSolutionInternal, BuildManager.deleteSolutionFile,
      BuildManager._generateProjectFiles, BuildManager._buildProject,
      DebugManager._buildProject,
      BuildManager._executeProcess, DebugManager._executeProcess,
      BuildManager.succeeded, BuildManager.failed, DebugManager.failed,
      fs_rm, fs_unlinkSync, new_ctx,
      getConfig, getProjectDirM, getProjectNameM, getSolutionPathM;
    cbv zeta; within foot.
Qed.

(** X12: an operation deletes and starts only what belongs to it, under the
    configuration it was started with: clean removes the three folders and
    nothing else; generate deletes the solution file and runs the script in
    its generate mode; regenerate does the six steps; the start commands
    run the script in its compile mode and start the editor; launch starts
    the editor; the cancel commands start [taskkill].  This holds at each of
    its awaits and at its end, and no exception escapes.  (Meanwhile nobody
    else changes the configuration, deletes or starts anything: that is
    [Rorder].) *)
Theorem operations_stay_within_footprint :
  forall (c : Command) (w : World),
    Sat (Gwithin (footprint (config w) c) (config w) (side_effects (log w))) Rorder
      (fun _ => Within (footprint (config w) c) (config w) (side_effects (log w)))
      (fun _ _ => False)
      (method c w).
Proof.
  intros c w. apply method_within.
  split; [reflexivity|]. exists []. rewrite app_nil_r. auto.
Qed.

(** ** Cancelling a process run *)

Lemma close_with_failure :
  forall (s : State) (pid : nat) (c : ProcCtx) (p : Pending) (code : option Z),
    Forall Guarded (pending s) ->
    lookup_proc pid (procs (world s)) = Some c ->
    find (waits_process pid) (pending s) = Some p ->
    code <> Some 0%Z ->
    pending (step s (Close pid code)) =
      filter (fun q => negb (waits_process pid q)) (pending s) /\
    reports_failure (world s) (world (step s (Close pid code)))
      (exit_message code (stderr c)).
Proof.
  intros s pid c p code HG Hc Hp Hcode.
  destruct (find_some _ _ Hp) as [Hin _].
  destruct (proj1 (Forall_forall _ _) HG p Hin) as (h & Hh & Hrej & _).
  assert (Hstep : step s (Close pid code) =
            park (h (exit_message code (stderr c)) (closed (owner c) (world s)))
              (filter (fun q => negb (waits_process pid q)) (pending s))).
  { simpl. rewrite Hc. unfold settle.
    destruct (owner c); simpl;
      unfold BuildManager.onClose, DebugManager.onClose, result_of, run_listener,
        bind, gets, modify, ret; simpl; rewrite Hc;
      destruct code as [[|z|z]|]; simpl; try (exfalso; apply Hcode; reflexivity);
      rewrite Hp; cbv iota beta; rewrite Hrej; reflexivity. }
  rewrite Hstep.
  destruct (handler_reports_failure h (exit_message code (stderr c))
              (closed (owner c) (world s)) (world s) Hh) as (w' & Hw' & Hrep);
    try (destruct (owner c); reflexivity).
  rewrite Hw'. simpl. split; [reflexivity|exact Hrep].
Qed.

Lemma cancelBuild_result :
  forall (w : World) (pid : nat),
    buildProcess w = Some pid ->
    exists w',
      BuildManager.cancelBuild w = Val tt w' /\
      procs w' = procs w /\ isBuilding w' = false /\ buildProcess w' = None /\
      last (log w') OutputShow = ShowInformationMessage "操作已取消" /\
      (buildView w = true ->
       exists l, log w' = (l ++ [PostMessage MBuildCancelled;
                                 ShowInformationMessage "操作已取消"])%list).
Proof.
  intros w pid Hp.
  unfold BuildManager.cancelBuild, BuildManager.postMessage, showInformationMessage,
    try_catch, emit, when, fresh, bind, gets, modify. simpl.
  rewrite Hp. simpl.
  destruct (buildView w); simpl; eexists; (split; [reflexivity|]); simpl;
    rewrite last_last; repeat split; auto; try discriminate.
  intros _. eexists. rewrite <- app_assoc. reflexivity.
Qed.

(** X13: cancelling while an operation awaits its child process does not end
    the operation: [cancelBuild] clears the run flag and shows the
    notification, and the operation stays parked until the process closes;
    closed with a code other than 0, the operation then reports, as for any
    failed run, the text [进程退出，代码: <code>], a line break and the
    captured stderr ([null] stands for the code of a process ended by a
    signal). *)
Theorem cancelled_run_ends_as_failure :
  forall (ex : string -> bool) (ue : string -> option string) (es : list Event)
         (pid : nat) (c : ProcCtx) (code : option Z),
    let s := run (initialState ex ue) es in
    lookup_proc pid (procs (world s)) = Some c ->
    existsb (waits_process pid) (pending s) = true ->
    buildProcess (world s) = Some pid ->
    code <> Some 0%Z ->
    let s1 := step s (Receive CancelBuild) in
    let s2 := step s1 (Close pid code) in
    pending s1 = pending s /\
    isBuilding (world s1) = false /\
    last (log (world s1)) OutputShow = ShowInformationMessage "操作已取消" /\
    pending s2 = filter (fun q => negb (waits_process pid q)) (pending s) /\
    reports_failure (world s1) (world s2)
      ("进程退出，代码: " ++
       match code with Some z => string_of_Z z | None => "null" end ++
       newline ++ stderr c).
Proof.
  intros ex ue es pid c code s Hc Hp Hb Hcode s1 s2.
  destruct (find (waits_process pid) (pending s)) as [p|] eqn:Hfind.
  2: { destruct (proj1 (existsb_exists _ _) Hp) as (q & Hin & Hq).
       rewrite (find_none _ _ Hfind q Hin) in Hq. discriminate Hq. }
  destruct (cancelBuild_result (world s) pid Hb) as (w' & E & Hprocs & Hflag & _ & Hlast & _).
  assert (H1 : s1 = {| world := w'; pending := pending s |}).
  { unfold s1. simpl. rewrite E. reflexivity. }
  assert (HG : Forall Guarded (pending s1)).
  { rewrite H1. simpl. apply run_Guarded. constructor. }
  destruct (close_with_failure s1 pid c p code HG) as [Hpend Hrep]; auto.
  - rewrite H1. simpl. rewrite Hprocs. exact Hc.
  - rewrite H1. simpl. exact Hfind.
  - subst s2. split; [rewrite H1; reflexivity|]. split; [rewrite H1; exact Hflag|].
    split; [rewrite H1; exact Hlast|].
    split; [rewrite Hpend, H1; reflexivity|exact Hrep].
Qed.

(** The witness: the generate run of the sample, cancelled and then closed
    without exit code. *)
Lemma cancelled_run_ends_as_failure_witness :
  let s := run (initialState Sample.ex Sample.ue)
             [SetView; UpdateConfig (Sample.settings "Development");
              Receive GenerateSolution; StderrData 1 "terminated"] in
  let s1 := step s (Receive CancelBuild) in
  let s2 := step s1 (Close 1 None) in
  pending s1 = pending s /\
  isBuilding (world s1) = false /\
  last (log (world s1)) OutputShow = ShowInformationMessage "操作已取消" /\
  pending s2 = filter (fun q => negb (waits_process 1 q)) (pending s) /\
  reports_failure (world s1) (world s2)
    ("进程退出，代码: null" ++ newline ++ "terminated").
Proof.
  apply (cancelled_run_ends_as_failure Sample.ex Sample.ue
           [SetView; UpdateConfig (Sample.settings "Development");
            Receive GenerateSolution; StderrData 1 "terminated"] 1
           {| owner := OwnerBuild; stdout := EmptyString; stderr := "terminated";
              currentProgress := 0%Q |} None).
  - reflexivity.
  - reflexivity.
  - reflexivity.
  - discriminate.
Defined.

(** * Further properties: a start command whose compile run succeeds *)

Section Fulfilment.

Variable R : Wait -> World -> World -> Prop.
Variable G : Wait -> World -> Prop.

Lemma Fulfilled_bind :
  forall {A B} (r : Res A) (f : A -> Async B) n1 n2 (Q1 : A -> World -> Prop) Q,
    Fulfilled R G n1 Q1 r ->
    (forall a w, Q1 a w -> Fulfilled R G n2 Q (f a w)) ->
    Fulfilled R G (n1 + n2) Q (bindRes r f).
Proof.
  intros A B r f. induction r as [a w|e w|q k IH w]; intros n1 n2 Q1 Q Hr Hf.
  - destruct n1; [|contradiction]. simpl. apply Hf. exact Hr.
  - destruct n1; contradiction.
  - destruct n1 as [|n1]; [contradiction|]. destruct Hr as [Hg Hk].
    simpl. split; [exact Hg|]. intros w' HR. eapply IH; [apply Hk; exact HR|exact Hf].
Qed.

Lemma Fulfilled_catch :
  forall {A} (r : Res A) (h : string -> Async A) n Q,
    Fulfilled R G n Q r -> Fulfilled R G n Q (catchRes r h).
Proof.
  intros A r h. induction r as [a w|e w|q k IH w]; intros n Q Hr.
  - exact Hr.
  - destruct n; contradiction.
  - destruct n as [|n]; [contradiction|]. destruct Hr as [Hg Hk].
    simpl. split; [exact Hg|]. intros w' HR. apply IH. apply Hk. exact HR.
Qed.

Lemma FT_bind0 :
  forall {A B} n P (m : Async A) (f : A -> Async B) Q1 Q,
    FT R G 0 P m Q1 -> (forall a, FT R G n (Q1 a) (f a) Q) -> FT R G n P (bind m f) Q.
Proof.
  intros A B n P m f Q1 Q Hm Hf w Hw. unfold bind.
  change n with (0 + n). eapply Fulfilled_bind; [apply Hm; exact Hw|].
  intros a w' Hq. apply Hf. exact Hq.
Qed.

Lemma FT_bind1 :
  forall {A B} n P (m : Async A) (f : A -> Async B) Q1 Q,
    FT R G n P m Q1 -> (forall a, FT R G 0 (Q1 a) (f a) Q) -> FT R G n P (bind m f) Q.
Proof.
  intros A B n P m f Q1 Q Hm Hf w Hw. unfold bind.
  rewrite <- (Nat.add_0_r n). eapply Fulfilled_bind; [apply Hm; exact Hw|].
  intros a w' Hq. apply Hf. exact Hq.
Qed.

Lemma FT_try_catch :
  forall {A} n P (body : Async A) (h : string -> Async A) Q,
    FT R G n P body Q -> FT R G n P (try_catch body h) Q.
Proof. intros A n P body h Q H w Hw. apply Fulfilled_catch. apply H. exact Hw. Qed.

Lemma FT_known :
  forall {A B} n (P : World -> Prop) (g : World -> A) (v : A) (f : A -> Async B) Q,
    (forall w, P w -> g w = v) -> FT R G n P (f v) Q -> FT R G n P (bind (gets g) f) Q.
Proof.
  intros A B n P g v f Q Hg Hf w Hw. rewrite bind_gets, (Hg w Hw). apply Hf. exact Hw.
Qed.

Lemma FT_await :
  forall (P : World -> Prop) q (Q : unit -> World -> Prop),
    (forall w, P w -> G q w) -> (forall w w', P w -> R q w w' -> Q tt w') ->
    FT R G 1 P (await q) Q.
Proof.
  intros P q Q Hg Hr w Hw. simpl. split; [apply Hg; exact Hw|].
  intros w' HR. eapply Hr; eauto.
Qed.

Lemma FT_modify :
  forall (P : World -> Prop) (f : World -> World) (Q : World -> Prop),
    (forall w, P w -> Q (f w)) -> FT R G 0 P (modify f) (fun _ => Q).
Proof. intros P f Q H w Hw. simpl. apply H. exact Hw. Qed.

Lemma FT_ret :
  forall {A} (a : A) (P : World -> Prop) (Q : A -> World -> Prop),
    (forall w, P w -> Q a w) -> FT R G 0 P (ret a) Q.
Proof. intros A a P Q H w Hw. simpl. apply H. exact Hw. Qed.

Lemma At_emit :
  forall cfg ex view e busy proc next l ps,
    FT R G 0 (At cfg ex view busy proc next l ps) (emit e)
      (fun _ => At cfg ex view busy proc next (l ++ [e]) ps).
Proof.
  intros cfg ex view e busy proc next l ps. apply FT_modify.
  intros w (H1 & H2 & H3 & H4 & H5 & H6 & H7 & H8). unfold At. simpl.
  rewrite H7. auto 10.
Qed.

Lemma At_post :
  forall cfg ex view m busy proc next l ps,
    FT R G 0 (At cfg ex view busy proc next l ps) (DebugManager.postMessage m)
      (fun _ => At cfg ex view busy proc next (l ++ if view then [PostMessage m] else []) ps).
Proof.
  intros cfg ex view m busy proc next l ps. unfold DebugManager.postMessage.
  eapply FT_known; [intros w H; apply H|].
  destruct view; simpl.
  - apply At_emit.
  - apply FT_ret. intros w H. rewrite app_nil_r. exact H.
Qed.

Lemma At_set_isDebugging :
  forall cfg ex view b busy proc next l ps,
    FT R G 0 (At cfg ex view busy proc next l ps) (modify (set_isDebugging b))
      (fun _ => At cfg ex view b proc next l ps).
Proof.
  intros cfg ex view b busy proc next l ps. apply FT_modify.
  intros w (H1 & H2 & H3 & H4 & H5 & H6 & H7 & H8). unfold At. simpl. auto 10.
Qed.

Lemma At_set_debugProcess :
  forall cfg ex view p busy proc next l ps,
    FT R G 0 (At cfg ex view busy proc next l ps) (modify (set_debugProcess p))
      (fun _ => At cfg ex view busy p next l ps).
Proof.
  intros cfg ex view p busy proc next l ps. apply FT_modify.
  intros w (H1 & H2 & H3 & H4 & H5 & H6 & H7 & H8). unfold At. simpl. auto 10.
Qed.

Lemma At_new_ctx :
  forall cfg ex view pid o busy proc next l ps,
    FT R G 0 (At cfg ex view busy proc next l ps) (new_ctx pid o)
      (fun _ => At cfg ex view busy proc next l ((pid, fresh_ctx o) :: ps)).
Proof.
  intros cfg ex view pid o busy proc next l ps. apply FT_modify.
  intros w (H1 & H2 & H3 & H4 & H5 & H6 & H7 & H8). unfold At, fresh_ctx. simpl.
  rewrite H8. auto 10.
Qed.

Lemma At_fresh :
  forall {B} cfg ex view n (f : nat -> Async B) busy proc next l ps Q,
    FT R G n (At cfg ex view busy proc (S next) l ps) (f next) Q ->
    FT R G n (At cfg ex view busy proc next l ps) (bind fresh f) Q.
Proof.
  intros B cfg ex view n f busy proc next l ps Q H w Hw. unfold bind, fresh.
  cbn [bindRes].
  destruct Hw as (H1 & H2 & H3 & H4 & H5 & H6 & H7 & H8). rewrite H6.
  apply H. unfold At. simpl. auto 10.
Qed.

End Fulfilment.

Section FulfilmentOfDebug.

Variable G : Wait -> World -> Prop.

Lemma FT_post :
  forall {A} n (P : World -> Prop) (m : Async A) (Q1 Q : A -> World -> Prop),
    FT closes G n P m Q1 -> (forall a w, Q1 a w -> Q a w) -> FT closes G n P m Q.
Proof.
  intros A n P m Q1 Q Hm HQ w Hw. specialize (Hm w Hw).
  revert n Hm. induction (m w) as [a w0|e w0|q k IH w0]; intros n Hm.
  - destruct n; [|contradiction]. apply HQ. exact Hm.
  - destruct n; contradiction.
  - destruct n as [|n]; [contradiction|]. destruct Hm as [Hg Hk].
    split; [exact Hg|]. intros w' HR. apply IH. apply Hk. exact HR.
Qed.

Lemma At_log :
  forall cfg ex view busy proc next l l' ps w,
    l = l' -> At cfg ex view busy proc next l ps w -> At cfg ex view busy proc next l' ps w.
Proof. intros. subst. assumption. Qed.

Lemma At_createOutputChannel :
  forall cfg ex view busy proc next l ps,
    FT closes G 0 (At cfg ex view busy proc next l ps) createOutputChannel
      (fun _ => At cfg ex view busy proc next ((l ++ [CreateOutputChannel]) ++ [OutputShow]) ps).
Proof.
  intros. unfold createOutputChannel.
  eapply FT_bind0; [apply At_emit|intro; apply At_emit].
Qed.

Lemma At_await :
  forall cfg ex view busy proc next l ps q,
    (forall w, At cfg ex view busy proc next l ps w -> G q w) ->
    FT closes G 1 (At cfg ex view busy proc next l ps) (await q)
      (fun _ => At cfg ex view busy None next l ps).
Proof.
  intros cfg ex view busy proc next l ps q Hg. apply FT_await; [exact Hg|].
  intros w w' (H1 & H2 & H3 & H4 & H5 & H6 & H7 & H8) ->. unfold At. simpl. auto 10.
Qed.

End FulfilmentOfDebug.

Ltac at_known :=
  let w := fresh "w" in
  let H1 := fresh in let H2 := fresh in let H3 := fresh in let H4 := fresh in
  let H5 := fresh in let H6 := fresh in let H7 := fresh in let H8 := fresh in
  intros w (H1 & H2 & H3 & H4 & H5 & H6 & H7 & H8); cbv beta;
  try rewrite H1; try rewrite H2; try rewrite H3; try rewrite H4; try rewrite H5;
  reflexivity.

Ltac at_prim :=
  first [ apply At_emit | apply At_post | apply At_set_isDebugging
        | apply At_set_debugProcess | apply At_new_ctx | apply At_createOutputChannel ].

Ltac at_end :=
  let a := fresh in let w := fresh in
  intros a w; apply At_log;
  unfold debug_compiling, run_compiling, compiling, debug_launched, run_launched,
    debugCommand, runCommand;
  repeat rewrite <- app_assoc; cbn [app]; reflexivity.

Ltac exec simp sub :=
  simp; cbn [negb orb]; cbv beta iota zeta;
  lazymatch goal with
  | |- FT _ _ _ _ (bind (gets _) _) _ => eapply FT_known; [at_known|exec simp sub]
  | |- FT _ _ _ _ (bind fresh _) _ => apply At_fresh; exec simp sub
  | |- FT _ _ _ _ (bind (if _ then _ else _) _) _ =>
      eapply FT_bind0;
      [ lazymatch goal with |- FT _ _ _ _ (if ?b then _ else _) _ => destruct b end;
        exec simp sub
      | intro; exec simp sub ]
  | |- FT _ _ _ _ (bind (bind _ _) _) _ => eapply FT_bind0; [at_prim|intro; exec simp sub]
  | |- FT _ _ _ _ (bind _ _) _ =>
      first [ eapply FT_bind0; [at_prim|intro; exec simp sub]
            | eapply FT_bind1; [sub|intro; exec simp sub] ]
  | |- FT _ _ _ _ (try_catch _ _) _ => apply FT_try_catch; exec simp sub
  | |- FT _ _ _ _ _ _ =>
      first [ at_prim | eapply FT_post; [first [at_prim|sub]|at_end] ]
  end.

Lemma At_executeProcess :
  forall G cfg ex view busy proc next l ps exe args cwd,
    (forall w,
        At cfg ex view busy (Some next) (S next) (l ++ started next exe args cwd)
          ((next, fresh_ctx OwnerDebug) :: ps) w ->
        G (WaitProcess next) w) ->
    FT closes G 1 (At cfg ex view busy proc next l ps)
      (DebugManager._executeProcess exe args cwd)
      (fun _ => At cfg ex view busy None (S next) (l ++ started next exe args cwd)
                  ((next, fresh_ctx OwnerDebug) :: ps)).
Proof.
  intros G cfg ex view busy proc next l ps exe args cwd HG.
  assert (E : started next exe args cwd =
              if endsWith ".bat" exe
              then [OutputAppendLine ("执行命令: " ++ bat_command exe args);
                    Exec next (bat_command exe args) cwd]
              else [Spawn next exe args cwd false]).
  { unfold started, child_process. destruct (endsWith ".bat" exe); reflexivity. }
  rewrite E in *. clear E.
  unfold DebugManager._executeProcess, appendLine.
  apply At_fresh. cbv beta zeta.
  destruct (endsWith ".bat" exe).
  - eapply FT_bind0; [eapply FT_bind0; [apply At_emit|intro; apply At_emit]|intro].
    eapply FT_bind0; [apply At_set_debugProcess|intro].
    eapply FT_bind0; [apply At_new_ctx|intro].
    eapply FT_post; [apply At_await|].
    + intros w H. apply HG. revert H. apply At_log. rewrite <- app_assoc. reflexivity.
    + intros ? w. apply At_log. rewrite <- app_assoc. reflexivity.
  - eapply FT_bind0; [apply At_emit|intro].
    eapply FT_bind0; [apply At_set_debugProcess|intro].
    eapply FT_bind0; [apply At_new_ctx|intro].
    eapply FT_post; [apply At_await|].
    + intros w H. apply HG. exact H.
    + intros ? w H. exact H.
Qed.

Lemma At_buildProject :
  forall G cfg ex view busy proc next l ps,
    ex (BuildManager.buildBatPath (uePath cfg)) = true ->
    (forall w,
        At cfg ex view busy (Some next) (S next)
          (l ++
           [OutputAppendLine ("执行: " ++ BuildManager.buildBatPath (uePath cfg));
            OutputAppendLine
              ("参数: " ++ getProjectName cfg ++ "Editor Win64 " ++
               buildConfiguration cfg ++
               " -Project=" ++ dquote ++ projectPath cfg ++ dquote ++
               " -WaitMutex -FromMsBuild -architecture=x64")] ++
           started next (BuildManager.buildBatPath (uePath cfg))
             (BuildManager.buildArgs (getProjectName cfg) (buildConfiguration cfg)
                (projectPath cfg))
             (getProjectDir cfg))
          ((next, fresh_ctx OwnerDebug) :: ps) w ->
        G (WaitProcess next) w) ->
    FT closes G 1 (At cfg ex view busy proc next l ps)
      (DebugManager._buildProject cfg)
      (fun _ =>
         At cfg ex view busy None (S next)
           (l ++
            [OutputAppendLine ("执行: " ++ BuildManager.buildBatPath (uePath cfg));
             OutputAppendLine
               ("参数: " ++ getProjectName cfg ++ "Editor Win64 " ++
                buildConfiguration cfg ++
                " -Project=" ++ dquote ++ projectPath cfg ++ dquote ++
                " -WaitMutex -FromMsBuild -architecture=x64")] ++
            started next (BuildManager.buildBatPath (uePath cfg))
              (BuildManager.buildArgs (getProjectName cfg) (buildConfiguration cfg)
                 (projectPath cfg))
              (getProjectDir cfg))
           ((next, fresh_ctx OwnerDebug) :: ps)).
Proof.
  intros G cfg ex view busy proc next l ps Hbat HG.
  unfold DebugManager._buildProject, getProjectDirM, getProjectNameM, fs_existsSync,
    appendLine.
  exec ltac:(rewrite ?Hbat)
       ltac:(apply At_executeProcess; intros w H; apply HG; revert H; apply At_log;
             repeat rewrite <- app_assoc; reflexivity).
Qed.

Lemma startDebug_fulfilled :
  forall cfg ex view proc pid l ps,
    valid (validateConfig ex cfg) = true ->
    ex (BuildManager.buildBatPath (uePath cfg)) = true ->
    FT closes (Gcompiling cfg ex view pid (l ++ debug_compiling cfg pid view) ps) 1
      (At cfg ex view false proc pid l ps) DebugManager.startDebug
      (fun _ =>
         At cfg ex view false None (S (S pid))
           ((l ++ debug_compiling cfg pid view) ++ debug_launched cfg (S pid) view)
           ((pid, fresh_ctx OwnerDebug) :: ps)).
Proof.
  intros cfg ex view proc pid l ps Hvalid Hbat.
  assert (Hue : falsy (uePath cfg) || negb (ex (uePath cfg)) = false).
  { unfold validateConfig in Hvalid.
    destruct (falsy (uePath cfg)); [discriminate Hvalid|].
    destruct (ex (uePath cfg)); [reflexivity|discriminate Hvalid]. }
  unfold DebugManager.startDebug, getConfig, validateConfigM, getProjectDirM,
    getProjectNameM, fs_existsSync, DebugManager.progress, appendLine,
    showInformationMessage.
  exec ltac:(rewrite ?Hvalid, ?Hue)
       ltac:(apply At_buildProject; [exact Hbat|];
             intros w H; split; [reflexivity|]; revert H; apply At_log;
             unfold debug_compiling, compiling; repeat rewrite <- app_assoc;
             reflexivity).
Qed.

Lemma startWithoutDebug_fulfilled :
  forall cfg ex view proc pid l ps,
    valid (validateConfig ex cfg) = true ->
    ex (BuildManager.buildBatPath (uePath cfg)) = true ->
    FT closes (Gcompiling cfg ex view pid (l ++ run_compiling cfg pid view) ps) 1
      (At cfg ex view false proc pid l ps) DebugManager.startWithoutDebug
      (fun _ =>
         At cfg ex view false None (S (S pid))
           ((l ++ run_compiling cfg pid view) ++ run_launched cfg (S pid) view)
           ((pid, fresh_ctx OwnerDebug) :: ps)).
Proof.
  intros cfg ex view proc pid l ps Hvalid Hbat.
  assert (Hue : falsy (uePath cfg) || negb (ex (uePath cfg)) = false).
  { unfold validateConfig in Hvalid.
    destruct (falsy (uePath cfg)); [discriminate Hvalid|].
    destruct (ex (uePath cfg)); [reflexivity|discriminate Hvalid]. }
  unfold DebugManager.startWithoutDebug, getConfig, validateConfigM, getProjectDirM,
    getProjectNameM, fs_existsSync, DebugManager.progress, appendLine,
    showInformationMessage.
  exec ltac:(rewrite ?Hvalid, ?Hue)
       ltac:(apply At_buildProject; [exact Hbat|];
             intros w H; split; [reflexivity|]; revert H; apply At_log;
             unfold run_compiling, compiling; repeat rewrite <- app_assoc;
             reflexivity).
Qed.

Lemma find_last :
  forall {A} (sel : A -> bool) (l : list A) (p : A),
    existsb sel l = false -> sel p = true ->
    find sel (l ++ [p]) = Some p /\ filter (fun q => negb (sel q)) (l ++ [p]) = l.
Proof.
  intros A sel l p Hl Hp. induction l as [|x l IH]; simpl.
  - rewrite Hp. auto.
  - simpl in Hl. apply orb_false_iff in Hl. destruct Hl as [Hx Hl].
    rewrite Hx. simpl. destruct (IH Hl) as [IH1 IH2]. rewrite IH1, IH2. auto.
Qed.

Lemma At_here :
  forall w,
    At (config w) (existsSync w) (debugView w) (isDebugging w) (debugProcess w)
      (nextId w) (log w) (procs w) w.
Proof. intro w. unfold At. auto 10. Qed.

(** A start command that awaits its compile run, and the run closing with
    exit code 0. *)
Lemma compile_then_launch :
  forall (s : State) (c : Command) cfg ex view pid L L' ps next,
    Fulfilled closes (Gcompiling cfg ex view pid L ps) 1
      (fun _ => At cfg ex view false None next L' ((pid, fresh_ctx OwnerDebug) :: ps))
      (method c (world s)) ->
    existsb (waits_process pid) (pending s) = false ->
    let s1 := step s (Receive c) in
    let s2 := step s1 (Close pid (Some 0%Z)) in
    (isDebugging (world s1) = true /\ debugProcess (world s1) = Some pid /\
     existsb (waits_process pid) (pending s1) = true /\ log (world s1) = L) /\
    (isDebugging (world s2) = false /\ debugProcess (world s2) = None /\
     pending s2 = pending s /\ log (world s2) = L').
Proof.
  intros s c cfg ex view pid L L' ps next H Hfree s1 s2.
  assert (E1 : s1 = park (method c (world s)) (pending s)) by reflexivity.
  destruct (method c (world s)) as [a w1|e w1|q k w1]; simpl in H; try contradiction.
  destruct H as [[Hq (H1 & H2 & H3 & H4 & H5 & H6 & H7 & H8)] Hk].
  simpl in E1.
  assert (Hsel : waits_process pid {| waiting := q; resume := k |} = true).
  { unfold waits_process. simpl. rewrite Hq. apply Nat.eqb_refl. }
  destruct (find_last (waits_process pid) (pending s) _ Hfree Hsel) as [Hfind Hfilter].
  assert (E2 : s2 = park (k None (set_debugProcess None w1)) (pending s)).
  { unfold s2. rewrite E1. unfold step. cbn [world pending].
    rewrite H8. cbn [lookup_proc]. rewrite Nat.eqb_refl. cbn [owner fresh_ctx].
    unfold settle, DebugManager.onClose, result_of, run_listener, bind, gets, modify, ret.
    cbn [bindRes]. rewrite Hfind. cbn [resume]. rewrite Hfilter. reflexivity. }
  specialize (Hk (set_debugProcess None w1) eq_refl).
  destruct (k None (set_debugProcess None w1)) as [a w2|e w2|q2 k2 w2];
    simpl in Hk; try contradiction.
  destruct Hk as (K1 & K2 & K3 & K4 & K5 & K6 & K7 & K8).
  simpl in E2. rewrite E2, E1. cbn [world pending].
  split; [|auto].
  split; [exact H4|]. split; [exact H5|]. split; [|exact H7].
  rewrite existsb_app. simpl. rewrite Hsel. apply orb_true_r.
Qed.

(** X14: [startDebug], accepted with a valid configuration and the build
    script in place, sets the run flag, starts the compile run of the script
    and awaits it; up to there its effects are exactly [debug_compiling].
    When the run closes with exit code 0, it starts the editor with [-debug]
    through [cmd /c], detached and unreferenced, reports the success at
    once, and leaves the manager idle without process handle: its effects
    are exactly [debug_launched], and nothing stays pending. *)
Theorem startDebug_launches_after_compile :
  forall s : State,
    isDebugging (world s) = false ->
    valid (validateConfig (existsSync (world s)) (config (world s))) = true ->
    existsSync (world s) (BuildManager.buildBatPath (uePath (config (world s)))) = true ->
    existsb (waits_process (nextId (world s))) (pending s) = false ->
    let cfg := config (world s) in
    let pid := nextId (world s) in
    let view := debugView (world s) in
    let s1 := step s (Receive StartDebug) in
    let s2 := step s1 (Close pid (Some 0%Z)) in
    (isDebugging (world s1) = true /\ debugProcess (world s1) = Some pid /\
     existsb (waits_process pid) (pending s1) = true /\
     log (world s1) = (log (world s) ++ debug_compiling cfg pid view)%list) /\
    (isDebugging (world s2) = false /\ debugProcess (world s2) = None /\
     pending s2 = pending s /\
     log (world s2) = (log (world s1) ++ debug_launched cfg (S pid) view)%list).
Proof.
  intros s Hidle Hvalid Hbat Hfree cfg pid view s1 s2.
  pose proof (startDebug_fulfilled cfg (existsSync (world s)) view
                (debugProcess (world s)) pid (log (world s)) (procs (world s))
                Hvalid Hbat (world s)) as H.
  assert (HAt : At cfg (existsSync (world s)) view false (debugProcess (world s)) pid
                  (log (world s)) (procs (world s)) (world s)).
  { rewrite <- Hidle. apply At_here. }
  destruct (compile_then_launch s StartDebug _ _ _ _ _ _ _ _ (H HAt) Hfree)
    as [(A1 & A2 & A3 & A4) (B1 & B2 & B3 & B4)].
  fold s1 in A1, A2, A3, A4. fold s1 s2 in B1, B2, B3, B4.
  rewrite B4, A4. auto 10.
Qed.

(** The witness: the sample installation, with the panel attached. *)
Lemma startDebug_launches_after_compile_witness :
  let s := Sample.ready "Development" in
  let s1 := step s (Receive StartDebug) in
  let s2 := step s1 (Close 1 (Some 0%Z)) in
  (isDebugging (world s1) = true /\ debugProcess (world s1) = Some 1 /\
   existsb (waits_process 1) (pending s1) = true /\
   log (world s1) =
     (log (world s) ++ debug_compiling (config (world s)) 1 true)%list) /\
  (isDebugging (world s2) = false /\ debugProcess (world s2) = None /\
   pending s2 = pending s /\
   log (world s2) =
     (log (world s1) ++ debug_launched (config (world s)) 2 true)%list).
Proof.
  apply (startDebug_launches_after_compile (Sample.ready "Development"));
    reflexivity.
Defined.

(** X15: [startWithoutDebug] does the same with its own messages, and starts
    the editor by [exec] of the plain command line: up to the await of the
    compile run its effects are exactly [run_compiling]; when the run closes
    with exit code 0 they are exactly [run_launched], the manager is idle
    without process handle, and nothing stays pending. *)
Theorem startWithoutDebug_launches_after_compile :
  forall s : State,
    isDebugging (world s) = false ->
    valid (validateConfig (existsSync (world s)) (config (world s))) = true ->
    existsSync (world s) (BuildManager.buildBatPath (uePath (config (world s)))) = true ->
    existsb (waits_process (nextId (world s))) (pending s) = false ->
    let cfg := config (world s) in
    let pid := nextId (world s) in
    let view := debugView (world s) in
    let s1 := step s (Receive StartWithoutDebug) in
    let s2 := step s1 (Close pid (Some 0%Z)) in
    (isDebugging (world s1) = true /\ debugProcess (world s1) = Some pid /\
     existsb (waits_process pid) (pending s1) = true /\
     log (world s1) = (log (world s) ++ run_compiling cfg pid view)%list) /\
    (isDebugging (world s2) = false /\ debugProcess (world s2) = None /\
     pending s2 = pending s /\
     log (world s2) = (log (world s1) ++ run_launched cfg (S pid) view)%list).
Proof.
  intros s Hidle Hvalid Hbat Hfree cfg pid view s1 s2.
  pose proof (startWithoutDebug_fulfilled cfg (existsSync (world s)) view
                (debugProcess (world s)) pid (log (world s)) (procs (world s))
                Hvalid Hbat (world s)) as H.
  assert (HAt : At cfg (existsSync (world s)) view false (debugProcess (world s)) pid
                  (log (world s)) (procs (world s)) (world s)).
  { rewrite <- Hidle. apply At_here. }
  destruct (compile_then_launch s StartWithoutDebug _ _ _ _ _ _ _ _ (H HAt) Hfree)
    as [(A1 & A2 & A3 & A4) (B1 & B2 & B3 & B4)].
  fold s1 in A1, A2, A3, A4. fold s1 s2 in B1, B2, B3, B4.
  rewrite B4, A4. auto 10.
Qed.

(** The witness: the sample installation before the panel is attached. *)
Lemma startWithoutDebug_launches_after_compile_witness :
  let s := run (initialState Sample.ex Sample.ue)
             [UpdateConfig (Sample.settings "Shipping")] in
  let s1 := step s (Receive StartWithoutDebug) in
  let s2 := step s1 (Close 1 (Some 0%Z)) in
  (isDebugging (world s1) = true /\ debugProcess (world s1) = Some 1 /\
   existsb (waits_process 1) (pending s1) = true /\
   log (world s1) =
     (log (world s) ++ run_compiling (config (world s)) 1 false)%list) /\
  (isDebugging (world s2) = false /\ debugProcess (world s2) = None /\
   pending s2 = pending s /\
   log (world s2) =
     (log (world s1) ++ run_launched (config (world s)) 2 false)%list).
Proof.
  apply (startWithoutDebug_launches_after_compile
           (run (initialState Sample.ex Sample.ue)
              [UpdateConfig (Sample.settings "Shipping")]));
    reflexivity.
Defined.

(** * Further properties: the provider of the panel *)

(** ** Detecting the project *)

Lemma split_lines_line :
  forall (p rest cur : list ascii),
    Forall (fun c => nat_of_ascii c <> 10) p ->
    split_lines (p ++ ascii_of_nat 10 :: rest) cur =
      str (rev cur ++ p) :: split_lines rest [].
Proof.
  induction p as [|c p IH]; intros rest cur Hp.
  - simpl. rewrite app_nil_r. reflexivity.
  - inversion Hp as [|? ? Hc Hp']; subst. simpl.
    destruct (nat_of_ascii c =? 10)%nat eqn:E; [apply Nat.eqb_eq in E; contradiction|].
    rewrite IH by exact Hp'. simpl. rewrite <- app_assoc. reflexivity.
Qed.

Lemma ws_width_cr :
  forall (ns : list nat),
    ns <> [] -> ws_width ns = 0 -> ws_width (ns ++ [13]) = 0.
Proof.
  intros [|c [|d [|e r]]] Hne H; [congruence| | |]; cbn [app]; unfold ws_width in *.
  - destruct (((9 <=? c) && (c <=? 13)) || (c =? 32))%nat; [discriminate H|].
    rewrite andb_false_r. reflexivity.
  - destruct (((9 <=? c) && (c <=? 13)) || (c =? 32))%nat; [discriminate H|].
    destruct ((c =? 194) && (d =? 160))%nat; [discriminate H|].
    cbn [Nat.eqb Nat.leb]. rewrite !andb_false_r. reflexivity.
  - exact H.
Qed.

Lemma drop_ws_none :
  forall width fuel cs, width (map nat_of_ascii cs) = 0 -> drop_ws width fuel cs = cs.
Proof. intros width [|fuel] cs H; simpl; [reflexivity|]. rewrite H. reflexivity. Qed.

Lemma trim_line :
  forall p : string,
    plain_line p -> trim (str (chars p ++ [ascii_of_nat 13])) = p.
Proof.
  intros p (Hne & _ & Hfront & Hend). unfold trim.
  rewrite chars_str.
  assert (Hc : chars p <> []).
  { destruct p; [congruence|discriminate]. }
  rewrite (drop_ws_none ws_width).
  2: { rewrite map_app. apply ws_width_cr; [|exact Hfront].
       destruct (chars p); [congruence|discriminate]. }
  rewrite rev_app_distr. cbn [rev app].
  rewrite <- chars_length, chars_str, length_app. cbn [length].
  rewrite Nat.add_1_r. cbn [drop_ws map ws_width_rev].
  change (nat_of_ascii (ascii_of_nat 13)) with 13.
  cbn [Nat.leb Nat.eqb andb orb skipn].
  rewrite drop_ws_none by (rewrite map_rev; exact Hend).
  rewrite rev_involutive. apply str_chars.
Qed.

Lemma dir_output_chars :
  forall p rest,
    chars (p ++ crlf ++ rest) =
      ((chars p ++ [ascii_of_nat 13]) ++ ascii_of_nat 10 :: chars rest)%list.
Proof.
  intros p rest. rewrite chars_app. rewrite <- app_assoc. reflexivity.
Qed.

(** X16: for the output that [dir /s /b] prints for the project files [ps],
    one per line with CR LF at its end, the detection returns the first of
    them, and [null] when there is none.  (The paths are not empty, hold no
    line feed, and neither start nor end with white space.) *)
Theorem detection_returns_first_file :
  forall ps : list string,
    Forall plain_line ps -> first_project (dir_output ps) = hd_error ps.
Proof.
  intros [|p ps] H; [reflexivity|].
  inversion H as [|? ? Hp Hps]; subst.
  unfold first_project. cbn [dir_output fold_right]. rewrite dir_output_chars.
  rewrite split_lines_line.
  2: { destruct Hp as (_ & Hnl & _). apply Forall_app. split; [exact Hnl|].
       constructor; [discriminate|constructor]. }
  cbn [rev app filter]. rewrite trim_line by exact Hp.
  assert (Hlen : (0 <? String.length p)%nat = true).
  { destruct p; [destruct Hp as [Hne _]; congruence|reflexivity]. }
  rewrite Hlen. rewrite trim_line by exact Hp. reflexivity.
Qed.

(** The witness: a project with a plugin project below it. *)
Lemma detection_returns_first_file_witness :
  first_project (dir_output ["C:\Proj\Game.uproject"; "C:\Proj\Plugins\Tool.uproject"]) =
    Some "C:\Proj\Game.uproject".
Proof.
  apply (detection_returns_first_file
           ["C:\Proj\Game.uproject"; "C:\Proj\Plugins\Tool.uproject"]).
  repeat constructor; discriminate.
Defined.

(** ** The detection interval *)

Section Keeping.

Variable I : Provider.Panel -> Prop.

Lemma Keeps_bind :
  forall {A B} (r : Provider.Res A) (f : A -> Provider.Async B),
    Keeps I r -> (forall a p, I p -> Keeps I (f a p)) -> Keeps I (Provider.bindRes r f).
Proof.
  intros A B r f. induction r as [a p|e p|id q k IH p]; intros Hr Hf; simpl.
  - apply Hf. exact Hr.
  - exact Hr.
  - destruct Hr as [Hp Hk]. split; [exact Hp|].
    intros o p' Hp'. apply IH; [apply Hk; exact Hp'|exact Hf].
Qed.

Lemma Keeps_catch :
  forall {A} (r : Provider.Res A) (h : string -> Provider.Async A),
    Keeps I r -> (forall e p, I p -> Keeps I (h e p)) -> Keeps I (Provider.catchRes r h).
Proof.
  intros A r h. induction r as [a p|e p|id q k IH p]; intros Hr Hh; simpl.
  - exact Hr.
  - apply Hh. exact Hr.
  - destruct Hr as [Hp Hk]. split; [exact Hp|].
    intros o p' Hp'. apply IH; [apply Hk; exact Hp'|exact Hh].
Qed.

Lemma Safe_bind :
  forall {A B} (Pre : Provider.Panel -> Prop) (m : Provider.Async A) (f : A -> Provider.Async B),
    Safe I Pre m -> (forall a, Safe I I (f a)) -> Safe I Pre (Provider.bind m f).
Proof.
  intros A B Pre m f Hm Hf p Hp. unfold Provider.bind.
  apply Keeps_bind; [apply Hm; exact Hp|]. intros a p' Hp'. apply Hf. exact Hp'.
Qed.

Lemma Safe_gets :
  forall {A B} (Pre : Provider.Panel -> Prop) (g : Provider.Panel -> A) (f : A -> Provider.Async B),
    (forall v, Safe I (fun p => Pre p /\ g p = v) (f v)) ->
    Safe I Pre (Provider.bind (Provider.gets g) f).
Proof.
  intros A B Pre g f H p Hp. unfold Provider.bind, Provider.gets. simpl. apply (H (g p)). auto.
Qed.

Lemma Safe_try_catch :
  forall {A} (Pre : Provider.Panel -> Prop) (body : Provider.Async A) (h : string -> Provider.Async A),
    Safe I Pre body -> (forall e, Safe I I (h e)) -> Safe I Pre (Provider.try_catch body h).
Proof.
  intros A Pre body h Hb Hh p Hp. unfold Provider.try_catch.
  apply Keeps_catch; [apply Hb; exact Hp|]. intros e p' Hp'. apply Hh. exact Hp'.
Qed.

Lemma Safe_weaken :
  forall {A} (Pre Pre' : Provider.Panel -> Prop) (m : Provider.Async A),
    (forall p, Pre p -> Pre' p) -> Safe I Pre' m -> Safe I Pre m.
Proof. intros A Pre Pre' m H Hm p Hp. apply Hm. apply H. exact Hp. Qed.

Lemma Safe_ret :
  forall {A} (Pre : Provider.Panel -> Prop) (a : A),
    (forall p, Pre p -> I p) -> Safe I Pre (Provider.ret a).
Proof. intros A Pre a H p Hp. simpl. apply H. exact Hp. Qed.

Lemma Safe_modify :
  forall (Pre : Provider.Panel -> Prop) (f : Provider.Panel -> Provider.Panel),
    (forall p, Pre p -> I (f p)) -> Safe I Pre (Provider.modify f).
Proof. intros Pre f H p Hp. simpl. apply H. exact Hp. Qed.

Lemma Safe_await :
  forall (Pre : Provider.Panel -> Prop) (q : Provider.Promise),
    (forall p, Pre p -> I (Provider.set_nextHandle (S (Provider.nextHandle p)) p)) ->
    Safe I Pre (Provider.await q).
Proof.
  intros Pre q H p Hp. simpl. split; [apply H; exact Hp|].
  intros [v|e] p' Hp'; exact Hp'.
Qed.

End Keeping.

(** The facts gathered about the state: the invariant and what was read. *)
Ltac facts H :=
  repeat match type of H with
         | _ /\ _ => let H' := fresh "E" in destruct H as [H H']
         end.

Ltac kept :=
  let p := fresh "p" in
  let H := fresh "H" in
  intros p H; facts H; exact H.

Lemma Safe_stopDetection :
  forall Pre : Provider.Panel -> Prop,
    (forall p, Pre p -> OneInterval p) -> Safe OneInterval Pre Provider._stopDetection.
Proof.
  intros Pre HPre p Hp. apply HPre in Hp. unfold OneInterval in Hp.
  unfold Provider._stopDetection, Provider.console_log, Provider.call, Provider.bind, Provider.gets, Provider.modify. simpl.
  destruct (Provider._detectionInterval p) as [id|] eqn:E; simpl.
  - unfold OneInterval. simpl. rewrite Hp. simpl. rewrite Nat.eqb_refl. reflexivity.
  - unfold OneInterval. rewrite E. exact Hp.
Qed.

Lemma Safe_setInterval :
  forall Pre : Provider.Panel -> Prop,
    (forall p, Pre p -> OneInterval p /\ Provider._detectionInterval p = None) ->
    Safe OneInterval Pre Provider.setInterval.
Proof.
  intros Pre HPre p Hp. destruct (HPre p Hp) as [HI HN]. unfold OneInterval in HI.
  unfold Provider.setInterval, Provider.bind, Provider.gets, Provider.modify. simpl.
  unfold OneInterval. simpl. rewrite HI, HN. reflexivity.
Qed.

(** Walks a method of the provider: [inv] proves that a step keeps the
    invariant, [sub] deals with the methods it calls. *)
Ltac safe inv sub :=
  lazymatch goal with
  | |- Safe _ _ (Provider.bind (Provider.gets _) _) => apply Safe_gets; intro; safe inv sub
  | |- Safe _ _ (Provider.bind _ _) => apply Safe_bind; [safe inv sub|intro; safe inv sub]
  | |- Safe _ _ (Provider.try_catch _ _) =>
      apply Safe_try_catch; [safe inv sub|intro; safe inv sub]
  | |- Safe _ _ (if negb ?b then _ else _) => destruct b; cbn [negb]; safe inv sub
  | |- Safe _ _ (match ?x with _ => _ end) => destruct x; safe inv sub
  | |- Safe _ _ (Provider.ret _) => apply Safe_ret; inv
  | |- Safe _ _ (Provider.await _) => apply Safe_await; inv
  | |- Safe _ _ (Provider.modify _) => apply Safe_modify; inv
  | |- Safe _ _ (Provider.call _) => apply Safe_modify; inv
  | |- Safe _ _ (Provider.console_log _) => apply Safe_modify; inv
  | |- Safe _ _ (Provider.postMessage _) => apply Safe_modify; inv
  | |- _ => sub
  end.

Ltac one_interval :=
  lazymatch goal with
  | |- Safe _ _ Provider._stopDetection => apply Safe_stopDetection; kept
  | |- Safe _ _ Provider.setInterval =>
      apply Safe_setInterval;
      let p := fresh "p" in let H := fresh "H" in
      intros p H; facts H; split; [exact H|assumption]
  end.

Lemma Safe_findUEProjectGlobally :
  forall Pre : Provider.Panel -> Prop,
    (forall p, Pre p -> OneInterval p) -> Safe OneInterval Pre Provider.findUEProjectGlobally.
Proof.
  intros Pre HPre. eapply Safe_weaken; [exact HPre|].
  unfold Provider.findUEProjectGlobally. safe kept fail.
Qed.

Lemma Safe_refresh :
  forall Pre : Provider.Panel -> Prop,
    (forall p, Pre p -> OneInterval p) -> Safe OneInterval Pre Provider._refresh.
Proof.
  intros Pre HPre. eapply Safe_weaken; [exact HPre|].
  unfold Provider._refresh. cbv zeta.
  safe kept ltac:(first [one_interval | apply Safe_findUEProjectGlobally; kept]).
Qed.

Ltac safe_method :=
  safe kept ltac:(first [ one_interval
                        | apply Safe_findUEProjectGlobally; kept
                        | apply Safe_refresh; kept ]).

Lemma Safe_onInterval : Safe OneInterval OneInterval Provider.onInterval.
Proof. unfold Provider.onInterval. cbv zeta. safe_method. Qed.

Lemma Safe_redetectProject : Safe OneInterval OneInterval Provider._redetectProject.
Proof. unfold Provider._redetectProject. safe_method. Qed.

Lemma Safe_onDidReceiveMessage :
  forall data, Safe OneInterval OneInterval (Provider.onDidReceiveMessage data).
Proof.
  intro data. unfold Provider.onDidReceiveMessage, Provider.selectUEPath, Provider.selectProjectPath.
  safe kept ltac:(first [ one_interval | apply Safe_refresh; kept
                        | apply Safe_redetectProject ]).
Qed.

Lemma Safe_onDidChangeVisibility :
  forall visible, Safe OneInterval OneInterval (Provider.onDidChangeVisibility visible).
Proof. intro visible. unfold Provider.onDidChangeVisibility. safe_method. Qed.

Lemma Safe_resolveWebviewView : Safe OneInterval OneInterval Provider.resolveWebviewView.
Proof. unfold Provider.resolveWebviewView. safe_method. Qed.

Lemma park_keeps :
  forall (r : Provider.Res unit) (ps : list Provider.Pending),
    Keeps OneInterval r ->
    Forall (fun q => forall o p', OneInterval p' -> Keeps OneInterval (Provider.resume q o p')) ps ->
    HostKeeps OneInterval (Provider.park r ps).
Proof.
  intros [a p|e p|id q k p] ps Hr Hps; simpl in *.
  - split; assumption.
  - split; assumption.
  - destruct Hr as [Hp Hk]. split; [exact Hp|]. simpl.
    apply Forall_app. split; [exact Hps|]. constructor; [exact Hk|constructor].
Qed.

Lemma step_keeps :
  forall (h : Provider.Host) (e : Provider.Event),
    HostKeeps OneInterval h -> HostKeeps OneInterval (Provider.step h e).
Proof.
  intros h e [Hp Hps].
  destruct e as [|data|visible|id|id o|c|f|e]; cbv beta iota zeta delta [Provider.step].
  - apply park_keeps; [apply Safe_resolveWebviewView; exact Hp|exact Hps].
  - destruct (Provider.listening (Provider.panel h)); [|split; assumption].
    apply park_keeps; [apply Safe_onDidReceiveMessage; exact Hp|exact Hps].
  - destruct (Provider.listening (Provider.panel h)); [|split; assumption].
    apply park_keeps; [apply Safe_onDidChangeVisibility; exact Hp|exact Hps].
  - destruct (existsb (Nat.eqb id) (Provider.intervals (Provider.panel h))); [|split; assumption].
    apply park_keeps; [apply Safe_onInterval; exact Hp|exact Hps].
  - destruct (find (Provider.awaits id) (Provider.parked h)) as [q|] eqn:E; [|split; assumption].
    apply park_keeps.
    + destruct (find_some _ _ E) as [Hin _].
      apply (proj1 (Forall_forall _ _) Hps q Hin).
      destruct (Provider.promise q) as [|cmd|key value|title]; destruct o as [v|err];
        simpl; exact Hp.
    + clear E. induction Hps as [|q' ps Hq Hps' IH]; simpl; [constructor|].
      destruct (negb (Provider.awaits id q')); [constructor; assumption|exact IH].
  - split; [exact Hp|exact Hps].
  - split; [exact Hp|exact Hps].
  - destruct (Provider.outside e); split; assumption.
Qed.

Lemma run_keeps :
  forall (ex : string -> bool) (ue : string -> option string) (c : PartialConfig)
         (f : option string) (es : list Provider.Event),
    HostKeeps OneInterval (Provider.run (Provider.initialHost ex ue c f) es).
Proof.
  intros ex ue c f es.
  assert (H : forall h, HostKeeps OneInterval h -> HostKeeps OneInterval (Provider.run h es)).
  { unfold Provider.run. induction es as [|e es IH]; intros h Hh; simpl; [exact Hh|].
    apply IH. apply step_keeps. exact Hh. }
  apply (H (Provider.initialHost ex ue c f)). split; [reflexivity|constructor].
Qed.

(** X17: whatever happens to the extension, the intervals that are set are
    the one the provider holds in [_detectionInterval], if any: there is
    never more than one detection interval, and none is lost without being
    cleared. *)
Theorem at_most_one_detection_interval :
  forall (ex : string -> bool) (ue : string -> option string) (c : PartialConfig)
         (f : option string) (es : list Provider.Event),
    let p := Provider.panel (Provider.run (Provider.initialHost ex ue c f) es) in
    Provider.intervals p = match Provider._detectionInterval p with Some id => [id] | None => [] end.
Proof.
  intros ex ue c f es. exact (proj1 (run_keeps ex ue c f es)).
Qed.

(** ** Refreshing the panel *)

Lemma refresh_configured :
  forall (p : Provider.Panel),
    Provider._view p = true ->
    falsy (Provider.get (p_projectPath (Provider.settings p)) EmptyString) = false ->
    exists p',
      Provider._refresh p = Provider.Val tt p' /\
      Provider._projectDetected p' = true /\
      Provider._detectionInterval p' = None /\
      Provider.intervals p' =
        match Provider._detectionInterval p with
        | Some id => filter (fun j => negb (j =? id)%nat) (Provider.intervals p)
        | None => Provider.intervals p
        end /\
      Provider.settings p' = Provider.settings p /\
      Provider.nextHandle p' = Provider.nextHandle p /\
      pending (Provider.managers p') = pending (Provider.managers p) /\
      config (world (Provider.managers p')) = configured (Provider.settings p) /\
      last (log (world (Provider.managers p'))) OutputShow =
        PostMessage (MUpdate (configured (Provider.settings p))).
Proof.
  intros p Hview Hpath.
  destruct p as [[w ps] view isDet di pd lis st wf ints nh].
  destruct w as [cfg cv bv ib bp dv idb dp ex ue procs nid l].
  destruct st as [sue spp sbc].
  cbn in Hview, Hpath. subst view.
  destruct spp as [[|c path]|]; try discriminate Hpath. clear Hpath.
  destruct di as [id|]; destruct cv;
    (eexists; split; [cbv -[String.append filter app last]; reflexivity|]);
    cbv -[String.append filter app last]; rewrite ?last_last; repeat split; reflexivity.
Qed.

(** [refresh] and [redetect] both come down to [_refresh]. *)
Lemma receive_refresh :
  forall (data : Provider.Request) (p : Provider.Panel),
    data = Provider.Refresh \/ data = Provider.Redetect ->
    Provider._view p = true ->
    exists p1,
      Provider.onDidReceiveMessage data p = Provider._refresh p1 /\
      Provider._view p1 = true /\ Provider.settings p1 = Provider.settings p /\
      Provider._detectionInterval p1 = Provider._detectionInterval p /\
      Provider.intervals p1 = Provider.intervals p /\
      Provider.nextHandle p1 = Provider.nextHandle p /\
      pending (Provider.managers p1) = pending (Provider.managers p) /\
      Provider.workspaceFolder p1 = Provider.workspaceFolder p.
Proof.
  intros data p Hdata Hview.
  destruct Hdata as [-> | ->];
    unfold Provider.onDidReceiveMessage, Provider._redetectProject, Provider.console_log, Provider.call,
      Provider.bind, Provider.gets, Provider.modify; cbn [Provider.bindRes Provider.request_type];
    [|cbn [Provider._view Provider.set_managers]; rewrite Hview; cbn [negb Provider.bindRes]];
    (eexists; split; [reflexivity|]);
    cbn; auto 10.
Qed.

(** X18: with a project path in the settings, a [refresh] and a [redetect]
    request are served at once, without searching: no promise is awaited,
    the project counts as detected, the detection interval is cleared, the
    settings (with their defaults) become the configuration of the managers,
    and the last message to the webview is the [update] with them.  (The
    state is one the extension can reach, with the panel resolved.) *)
Theorem refresh_with_project_pushes_settings :
  forall (ex : string -> bool) (ue : string -> option string) (c : PartialConfig)
         (f : option string) (es : list Provider.Event) (data : Provider.Request),
    let h := Provider.run (Provider.initialHost ex ue c f) es in
    let h' := Provider.step h (Provider.Receive data) in
    data = Provider.Refresh \/ data = Provider.Redetect ->
    Provider.listening (Provider.panel h) = true ->
    Provider._view (Provider.panel h) = true ->
    falsy (Provider.get (p_projectPath (Provider.settings (Provider.panel h))) EmptyString) = false ->
    Provider.parked h' = Provider.parked h /\
    Provider.nextHandle (Provider.panel h') = Provider.nextHandle (Provider.panel h) /\
    Provider._projectDetected (Provider.panel h') = true /\
    Provider._detectionInterval (Provider.panel h') = None /\
    Provider.intervals (Provider.panel h') = [] /\
    pending (Provider.managers (Provider.panel h')) = pending (Provider.managers (Provider.panel h)) /\
    config (world (Provider.managers (Provider.panel h'))) = configured (Provider.settings (Provider.panel h)) /\
    last (log (world (Provider.managers (Provider.panel h')))) OutputShow =
      PostMessage (MUpdate (configured (Provider.settings (Provider.panel h)))).
Proof.
  intros ex ue c f es data h h' Hdata Hlis Hview Hpath.
  pose proof (proj1 (run_keeps ex ue c f es)) as Hone. fold h in Hone.
  unfold OneInterval in Hone.
  destruct (receive_refresh data (Provider.panel h) Hdata Hview)
    as (p1 & E & Hv1 & Hs1 & Hd1 & Hi1 & Hn1 & Hp1 & _).
  destruct (refresh_configured p1 Hv1) as (p' & E' & F1 & F2 & F3 & F4 & F5 & F6 & F7 & F8).
  { rewrite Hs1. exact Hpath. }
  assert (Eh : h' = {| Provider.panel := p'; Provider.parked := Provider.parked h |}).
  { unfold h', Provider.step. rewrite Hlis, E, E'. reflexivity. }
  rewrite Eh. cbn [Provider.panel Provider.parked].
  rewrite F5, Hn1, F6, Hp1, F7, F8, Hs1, F3, Hd1, Hi1, Hone.
  repeat split; auto.
  destruct (Provider._detectionInterval (Provider.panel h)) as [id|]; [|reflexivity].
  simpl. rewrite Nat.eqb_refl. reflexivity.
Qed.

(** The witness: the panel of the sample installation is resolved, and the
    user asks to redetect. *)
Lemma refresh_with_project_pushes_settings_witness :
  let h := Provider.run (Provider.initialHost Sample.ex Sample.ue (Sample.settings "Shipping") None)
             [Provider.Resolve; Provider.Settle 1 (Provider.Resolves (Some "page"))] in
  let h' := Provider.step h (Provider.Receive Provider.Redetect) in
  Provider.parked h' = Provider.parked h /\
  Provider.nextHandle (Provider.panel h') = Provider.nextHandle (Provider.panel h) /\
  Provider._projectDetected (Provider.panel h') = true /\
  Provider._detectionInterval (Provider.panel h') = None /\
  Provider.intervals (Provider.panel h') = [] /\
  pending (Provider.managers (Provider.panel h')) = pending (Provider.managers (Provider.panel h)) /\
  config (world (Provider.managers (Provider.panel h'))) = configured (Provider.settings (Provider.panel h)) /\
  last (log (world (Provider.managers (Provider.panel h')))) OutputShow =
    PostMessage (MUpdate (configured (Provider.settings (Provider.panel h)))).
Proof.
  apply (refresh_with_project_pushes_settings Sample.ex Sample.ue
           (Sample.settings "Shipping") None
           [Provider.Resolve; Provider.Settle 1 (Provider.Resolves (Some "page"))] Provider.Redetect).
  - right. reflexivity.
  - reflexivity.
  - reflexivity.
  - reflexivity.
Defined.

Lemma first_project_truthy :
  forall out d, first_project out = Some d -> falsy d = false.
Proof.
  intros out d. unfold first_project.
  destruct (filter (fun line => (0 <? String.length (trim line))%nat)
              (split_lines (chars out) [])) as [|line rest] eqn:E; [discriminate|].
  intro H. inversion H; subst. clear H.
  assert (Hin : In line (line :: rest)) by (left; reflexivity).
  rewrite <- E in Hin. apply filter_In in Hin. destruct Hin as [_ Hlen].
  destruct (trim line); [discriminate Hlen|reflexivity].
Qed.

(** A refresh without project path in the settings, in a workspace folder. *)
Lemma refresh_detects :
  forall (p : Provider.Panel) (root : string),
    Provider._view p = true ->
    falsy (Provider.get (p_projectPath (Provider.settings p)) EmptyString) = true ->
    Provider.workspaceFolder p = Some root ->
    exists k p1,
      Provider._refresh p = Provider.Susp (Provider.nextHandle p) (Provider.ExecDir (dir_command root)) k p1 /\
      Provider._isDetecting p1 = true /\
      Provider.settings p1 = Provider.settings p /\
      Provider.nextHandle p1 = S (Provider.nextHandle p) /\
      last (log (world (Provider.managers p1))) OutputShow =
        PostMessage
          (MUpdate {| uePath := Provider.get (p_uePath (Provider.settings p)) EmptyString;
                      projectPath := "检测中...";
                      buildConfiguration :=
                        Provider.get (p_buildConfiguration (Provider.settings p)) "Development" |}) /\
      forall (out d : string) (p2 : Provider.Panel),
        first_project out = Some d ->
        exists k' p3,
          k (Provider.Resolves (Some out)) p2 =
            Provider.Susp (Provider.nextHandle p2) (Provider.UpdateSetting Provider.ProjectPathSetting d) k' p3 /\
          Provider._isDetecting p3 = false /\
          Provider._projectDetected p3 = true /\
          Provider.settings p3 = Provider.settings p2 /\
          Provider.nextHandle p3 = S (Provider.nextHandle p2) /\
          forall (o : Provider.Outcome) (p4 : Provider.Panel),
            exists p5,
              k' o p4 = Provider.Val tt p5 /\
              Provider.settings p5 = Provider.settings p4 /\
              config (world (Provider.managers p5)) =
                {| uePath := Provider.get (p_uePath (Provider.settings p)) EmptyString;
                   projectPath := d;
                   buildConfiguration :=
                     Provider.get (p_buildConfiguration (Provider.settings p)) "Development" |} /\
              last (log (world (Provider.managers p5))) OutputShow =
                PostMessage
                  (MUpdate {| uePath := Provider.get (p_uePath (Provider.settings p)) EmptyString;
                              projectPath := d;
                              buildConfiguration :=
                                Provider.get (p_buildConfiguration (Provider.settings p))
                                  "Development" |}).
Proof.
  intros p root Hview Hpath Hroot.
  destruct p as [[w ps] view isDet di pd lis st wf ints nh].
  destruct w as [cfg cv bv ib bp dv idb dp ex ue procs nid l].
  destruct st as [sue spp sbc].
  cbn in Hview, Hpath, Hroot. subst view wf.
  destruct spp as [[|c0 s0]|]; try discriminate Hpath; clear Hpath.
  all: eexists; eexists;
    (split; [cbv -[String.append filter app last first_project dir_command String.eqb]; reflexivity|]).
  all: cbv -[String.append filter app last first_project dir_command String.eqb].
  all: rewrite ?last_last.
  all: split; [reflexivity|]; split; [reflexivity|]; split; [reflexivity|];
    split; [reflexivity|].
  all: intros out d p2 Hd; pose proof (first_project_truthy out d Hd) as Hd'.
  all: destruct p2 as [[w2 ps2] view2 isDet2 di2 pd2 lis2 st2 wf2 ints2 nh2].
  all: destruct w2 as [cfg2 cv2 bv2 ib2 bp2 dv2 idb2 dp2 ex2 ue2 procs2 nid2 l2].
  all: rewrite Hd; destruct d as [|c d]; [discriminate Hd'|].
  all: eexists; eexists;
    (split; [cbv -[String.append filter app last first_project dir_command String.eqb]; reflexivity|]).
  all: cbv -[String.append filter app last first_project dir_command String.eqb].
  all: split; [reflexivity|]; split; [reflexivity|]; split; [reflexivity|];
    split; [reflexivity|].
  all: intros o p4.
  all: destruct p4 as [[w4 ps4] view4 isDet4 di4 pd4 lis4 st4 wf4 ints4 nh4].
  all: destruct w4 as [cfg4 cv4 bv4 ib4 bp4 dv4 idb4 dp4 ex4 ue4 procs4 nid4 l4].
  all: destruct st4 as [sue4 spp4 sbc4].
  all: destruct spp4 as [s4|]; destruct o as [v|e]; destruct cv4.
  all: cbv -[String.append filter app last first_project dir_command String.eqb].
  all: try match goal with
           | |- context [String.eqb ?a ?b] =>
               let Eq := fresh "Eq" in
               destruct (String.eqb a b) eqn:Eq;
               [apply String.eqb_eq in Eq; try discriminate Eq; subst|]
           end.
  all: eexists; (split; [reflexivity|]).
  all: cbv -[String.append filter app last first_project dir_command String.eqb].
  all: rewrite ?last_last; repeat split; reflexivity.
Qed.

(** X19: a refresh without project path in the settings, in a workspace
    folder, awaits [dir /s /b] on the folder; when that finds the project
    [d], the refresh awaits the saving of [d] as the project path.  Whether
    the saving succeeds or fails, [d] becomes the project path of the
    managers' configuration and of the last [update] message; the setting
    itself holds [d] only when the saving succeeded. *)
Theorem detected_project_is_used_even_if_not_saved :
  forall (h : Provider.Host) (root out d : string) (o : Provider.Outcome),
    let id := Provider.nextHandle (Provider.panel h) in
    let h1 := Provider.step h (Provider.Receive Provider.Refresh) in
    let h2 := Provider.step h1 (Provider.Settle id (Provider.Resolves (Some out))) in
    let h3 := Provider.step h2 (Provider.Settle (S id) o) in
    let shown :=
      {| uePath := Provider.get (p_uePath (Provider.settings (Provider.panel h))) EmptyString;
         projectPath := d;
         buildConfiguration :=
           Provider.get (p_buildConfiguration (Provider.settings (Provider.panel h))) "Development" |} in
    Provider.listening (Provider.panel h) = true ->
    Provider._view (Provider.panel h) = true ->
    falsy (Provider.get (p_projectPath (Provider.settings (Provider.panel h))) EmptyString) = true ->
    Provider.workspaceFolder (Provider.panel h) = Some root ->
    existsb (Provider.awaits id) (Provider.parked h) = false ->
    existsb (Provider.awaits (S id)) (Provider.parked h) = false ->
    first_project out = Some d ->
    (exists q, Provider.parked h1 = (Provider.parked h ++ [q])%list /\ Provider.handle q = id /\
               Provider.promise q = Provider.ExecDir (dir_command root)) /\
    (exists q, Provider.parked h2 = (Provider.parked h ++ [q])%list /\ Provider.handle q = S id /\
               Provider.promise q = Provider.UpdateSetting Provider.ProjectPathSetting d) /\
    Provider._projectDetected (Provider.panel h2) = true /\
    Provider.parked h3 = Provider.parked h /\
    Provider.settings (Provider.panel h3) =
      match o with
      | Provider.Resolves _ => Provider.write Provider.ProjectPathSetting d (Provider.settings (Provider.panel h))
      | Provider.Rejects _ => Provider.settings (Provider.panel h)
      end /\
    config (world (Provider.managers (Provider.panel h3))) = shown /\
    last (log (world (Provider.managers (Provider.panel h3)))) OutputShow = PostMessage (MUpdate shown).
Proof.
  intros h root out d o id h1 h2 h3 shown Hlis Hview Hpath Hroot Hid Hid' Hd.
  destruct (receive_refresh Provider.Refresh (Provider.panel h) (or_introl eq_refl) Hview)
    as (p0 & E0 & Hv0 & Hs0 & _ & _ & Hn0 & _ & Hw0).
  destruct (refresh_detects p0 root Hv0) as (k & p1 & E1 & _ & Hs1 & Hn1 & _ & Hk).
  { rewrite Hs0. exact Hpath. }
  { rewrite Hw0. exact Hroot. }
  destruct (Hk out d p1 Hd) as (k' & p3 & E3 & _ & Hpd3 & Hs3 & Hn3 & Hk').
  set (q1 := {| Provider.handle := id; Provider.promise := Provider.ExecDir (dir_command root);
                Provider.resume := k |}).
  set (q2 := {| Provider.handle := S id;
                Provider.promise := Provider.UpdateSetting Provider.ProjectPathSetting d;
                Provider.resume := k' |}).
  assert (Eh1 : h1 = {| Provider.panel := p1; Provider.parked := (Provider.parked h ++ [q1])%list |}).
  { unfold h1, Provider.step. rewrite Hlis, E0, E1, Hn0. reflexivity. }
  assert (Hsel1 : Provider.awaits id q1 = true) by apply Nat.eqb_refl.
  assert (Hsel2 : Provider.awaits (S id) q2 = true) by apply Nat.eqb_refl.
  destruct (find_last _ _ _ Hid Hsel1) as [Hf1 Hr1].
  destruct (find_last _ _ _ Hid' Hsel2) as [Hf2 Hr2].
  assert (Eh2 : h2 = {| Provider.panel := p3; Provider.parked := (Provider.parked h ++ [q2])%list |}).
  { unfold h2, Provider.step. rewrite Eh1. cbn [Provider.panel Provider.parked].
    rewrite Hf1, Hr1. cbn [Provider.resume Provider.promise q1 Provider.settled].
    rewrite E3, Hn1, Hn0. reflexivity. }
  set (p4 := Provider.settled (Provider.UpdateSetting Provider.ProjectPathSetting d) o p3).
  destruct (Hk' o p4) as (p5 & E5 & Hs5 & Hc5 & Hl5).
  assert (Eh3 : h3 = {| Provider.panel := p5; Provider.parked := Provider.parked h |}).
  { unfold h3, Provider.step. rewrite Eh2. cbn [Provider.panel Provider.parked].
    rewrite Hf2, Hr2. cbn [Provider.resume Provider.promise q2]. fold p4. rewrite E5. reflexivity. }
  rewrite Eh1, Eh2, Eh3. cbn [Provider.panel Provider.parked].
  split; [exists q1; auto|]. split; [exists q2; auto|].
  split; [exact Hpd3|]. split; [reflexivity|].
  rewrite Hs0 in Hc5, Hl5.
  split; [|split; [exact Hc5|exact Hl5]].
  rewrite Hs5. unfold p4. destruct o as [v|e]; cbn [Provider.settled Provider.settings Provider.set_settings].
  - rewrite Hs3, Hs1, Hs0. reflexivity.
  - rewrite Hs3, Hs1, Hs0. reflexivity.
Qed.

(** The witness: a workspace without project path, where the saving fails. *)
Lemma detected_project_is_used_even_if_not_saved_witness :
  let h := Provider.run
             (Provider.initialHost Sample.ex Sample.ue
                {| p_uePath := Some Sample.editor; p_projectPath := None;
                   p_buildConfiguration := None |}
                (Some "C:\Proj"))
             [Provider.Resolve; Provider.Settle 1 (Provider.Resolves (Some "page"))] in
  let h1 := Provider.step h (Provider.Receive Provider.Refresh) in
  let h2 := Provider.step h1 (Provider.Settle 3 (Provider.Resolves (Some (dir_output [Sample.project])))) in
  let h3 := Provider.step h2 (Provider.Settle 4 (Provider.Rejects "EPERM")) in
  let shown :=
    {| uePath := Sample.editor; projectPath := Sample.project;
       buildConfiguration := "Development" |} in
  (exists q, Provider.parked h1 = (Provider.parked h ++ [q])%list /\ Provider.handle q = 3 /\
             Provider.promise q = Provider.ExecDir (dir_command "C:\Proj")) /\
  (exists q, Provider.parked h2 = (Provider.parked h ++ [q])%list /\ Provider.handle q = 4 /\
             Provider.promise q = Provider.UpdateSetting Provider.ProjectPathSetting Sample.project) /\
  Provider._projectDetected (Provider.panel h2) = true /\
  Provider.parked h3 = Provider.parked h /\
  Provider.settings (Provider.panel h3) = Provider.settings (Provider.panel h) /\
  config (world (Provider.managers (Provider.panel h3))) = shown /\
  last (log (world (Provider.managers (Provider.panel h3)))) OutputShow = PostMessage (MUpdate shown).
Proof.
  apply (detected_project_is_used_even_if_not_saved
           (Provider.run
              (Provider.initialHost Sample.ex Sample.ue
                 {| p_uePath := Some Sample.editor; p_projectPath := None;
                    p_buildConfiguration := None |}
                 (Some "C:\Proj"))
              [Provider.Resolve; Provider.Settle 1 (Provider.Resolves (Some "page"))])
           "C:\Proj" (dir_output [Sample.project]) Sample.project (Provider.Rejects "EPERM"));
    reflexivity.
Defined.

(** ** No continuous detection once the project is known *)

Section Resuming.

Variable I : Provider.Panel -> Prop.

Lemma Resumes_bind :
  forall {A B} (r : Provider.Res A) (f : A -> Provider.Async B),
    Resumes I r ->
    (forall a p, I p -> Keeps I (f a p)) ->
    (forall a p, Resumes I (f a p)) ->
    Resumes I (Provider.bindRes r f).
Proof.
  intros A B r f. induction r as [a p|e p|id q k IH p]; intros Hr Hs Hf; simpl.
  - apply Hf.
  - exact Logic.I.
  - intros o p'. destruct (Hr o p') as [Hk Hr']. split.
    + intro Hp'. apply Keeps_bind; [apply Hk; exact Hp'|exact Hs].
    + apply IH; assumption.
Qed.

Lemma Resumes_catch :
  forall {A} (r : Provider.Res A) (h : string -> Provider.Async A),
    Resumes I r ->
    (forall e p, I p -> Keeps I (h e p)) ->
    (forall e p, Resumes I (h e p)) ->
    Resumes I (Provider.catchRes r h).
Proof.
  intros A r h. induction r as [a p|e p|id q k IH p]; intros Hr Hs Hh; simpl.
  - exact Logic.I.
  - apply Hh.
  - intros o p'. destruct (Hr o p') as [Hk Hr']. split.
    + intro Hp'. apply Keeps_catch; [apply Hk; exact Hp'|exact Hs].
    + apply IH; assumption.
Qed.

Lemma Anytime_bind :
  forall {A B} (m : Provider.Async A) (f : A -> Provider.Async B),
    Anytime I m -> (forall a, Safe I I (f a)) -> (forall a, Anytime I (f a)) ->
    Anytime I (Provider.bind m f).
Proof.
  intros A B m f Hm Hs Hf p. unfold Provider.bind.
  apply Resumes_bind; [apply Hm| |].
  - intros a p' Hp'. apply Hs. exact Hp'.
  - intros a p'. apply Hf.
Qed.

Lemma Anytime_try_catch :
  forall {A} (body : Provider.Async A) (h : string -> Provider.Async A),
    Anytime I body -> (forall e, Safe I I (h e)) -> (forall e, Anytime I (h e)) ->
    Anytime I (Provider.try_catch body h).
Proof.
  intros A body h Hb Hs Hh p. unfold Provider.try_catch.
  apply Resumes_catch; [apply Hb| |].
  - intros e p' Hp'. apply Hs. exact Hp'.
  - intros e p'. apply Hh.
Qed.

Lemma Anytime_Immediate :
  forall {A} (m : Provider.Async A), Immediate m -> Anytime I m.
Proof. intros A m H p. destruct (H p) as (a & p' & ->). exact Logic.I. Qed.

Lemma Anytime_then :
  forall {A B} (m : Provider.Async A) (f : A -> Provider.Async B),
    Immediate m -> (forall a, Anytime I (f a)) -> Anytime I (Provider.bind m f).
Proof.
  intros A B m f Hm Hf p. unfold Provider.bind. destruct (Hm p) as (a & p' & ->).
  simpl. apply Hf.
Qed.

Lemma Anytime_await :
  forall q, Anytime I (Provider.await q).
Proof. intros q p. simpl. intros [v|e] p'; split; auto; exact Logic.I. Qed.

End Resuming.

Lemma Immediate_gets : forall {A} (g : Provider.Panel -> A), Immediate (Provider.gets g).
Proof. intros A g p. eexists. eexists. reflexivity. Qed.

Lemma Immediate_modify : forall f, Immediate (Provider.modify f).
Proof. intros f p. eexists. eexists. reflexivity. Qed.

Lemma Immediate_ret : forall {A} (a : A), Immediate (Provider.ret a).
Proof. intros A a p. eexists. eexists. reflexivity. Qed.

Lemma Immediate_stopDetection : Immediate Provider._stopDetection.
Proof.
  intro p. unfold Provider._stopDetection, Provider.console_log, Provider.call, Provider.bind, Provider.gets, Provider.modify.
  simpl. destruct (Provider._detectionInterval p); eexists; eexists; reflexivity.
Qed.

Lemma Immediate_setInterval : Immediate Provider.setInterval.
Proof. intro p. eexists. eexists. reflexivity. Qed.

Lemma Immediate_call : forall m, Immediate (Provider.call m).
Proof. intros m p. eexists. eexists. reflexivity. Qed.

Lemma Immediate_console_log : forall s, Immediate (Provider.console_log s).
Proof. intros s p. eexists. eexists. reflexivity. Qed.

Lemma Immediate_postMessage : forall m, Immediate (Provider.postMessage m).
Proof. intros m p. eexists. eexists. reflexivity. Qed.

Ltac immediate :=
  first [ apply Immediate_gets | apply Immediate_modify | apply Immediate_ret
        | apply Immediate_call | apply Immediate_console_log
        | apply Immediate_postMessage
        | apply Immediate_stopDetection | apply Immediate_setInterval ].

(** Walks a method for [Anytime]; [safe_tail] proves [Safe] of what follows
    an await, [sub] deals with the methods it calls. *)
Ltac anytime safe_tail sub :=
  lazymatch goal with
  | |- Anytime _ (if negb ?b then _ else _) =>
      destruct b; cbn [negb]; anytime safe_tail sub
  | |- Anytime _ (match ?x with _ => _ end) => destruct x; anytime safe_tail sub
  | |- Anytime _ (Provider.bind (if negb ?b then _ else _) _) =>
      destruct b; cbn [negb]; anytime safe_tail sub
  | |- Anytime _ (Provider.bind (match ?x with _ => _ end) _) =>
      destruct x; anytime safe_tail sub
  | |- Anytime _ (Provider.bind _ _) =>
      first [ apply Anytime_then; [solve [immediate]|intro; anytime safe_tail sub]
            | apply Anytime_bind;
              [anytime safe_tail sub|intro; safe_tail|intro; anytime safe_tail sub] ]
  | |- Anytime _ (Provider.try_catch _ _) =>
      apply Anytime_try_catch;
      [anytime safe_tail sub|intro; safe_tail|intro; anytime safe_tail sub]
  | |- Anytime _ (Provider.await _) => apply Anytime_await
  | |- Anytime _ _ => first [ apply Anytime_Immediate; solve [immediate] | sub ]
  end.

(** *** The invariant *)

Lemma Safe_absurd :
  forall {A} (I Pre : Provider.Panel -> Prop) (m : Provider.Async A),
    (forall p, Pre p -> False) -> Safe I Pre m.
Proof. intros A I Pre m H p Hp. destruct (H p Hp). Qed.

Lemma Safe_stopDetection_detected :
  forall Pre : Provider.Panel -> Prop,
    (forall p, Pre p -> Detected p) -> Safe Detected Pre Provider._stopDetection.
Proof.
  intros Pre HPre p Hp. apply HPre in Hp. destruct Hp as (H1 & H2 & H3).
  unfold Provider._stopDetection, Provider.bind, Provider.gets. simpl. rewrite H2. simpl.
  repeat split; assumption.
Qed.

Ltac kept_detected :=
  let p := fresh "p" in
  let H := fresh "H" in
  intros p H; facts H;
  first [ exact H
        | destruct H as (? & ? & ?); repeat split; first [assumption|reflexivity] ].

Ltac detected :=
  lazymatch goal with
  | |- Safe _ _ Provider._stopDetection => apply Safe_stopDetection_detected; kept_detected
  | |- Safe _ _ Provider.setInterval =>
      apply Safe_absurd;
      let p := fresh "p" in let H := fresh "H" in
      intros p H; facts H; destruct H as (? & ? & ?); congruence
  end.

Lemma Safe_findUEProjectGlobally_detected :
  Safe Detected Detected Provider.findUEProjectGlobally.
Proof. unfold Provider.findUEProjectGlobally. safe kept_detected fail. Qed.

Ltac safe_detected sub := safe kept_detected ltac:(first [detected | sub]).

Lemma Anytime_findUEProjectGlobally : Anytime Detected Provider.findUEProjectGlobally.
Proof.
  unfold Provider.findUEProjectGlobally.
  anytime ltac:(idtac; safe_detected fail) fail.
Qed.

Lemma Safe_refresh_detected : Safe Detected Detected Provider._refresh.
Proof.
  unfold Provider._refresh. cbv zeta.
  safe_detected ltac:(eapply Safe_weaken; [|apply Safe_findUEProjectGlobally_detected];
                      kept_detected).
Qed.

Lemma Anytime_refresh : Anytime Detected Provider._refresh.
Proof.
  unfold Provider._refresh. cbv zeta.
  anytime ltac:(idtac; safe_detected
                         ltac:(eapply Safe_weaken;
                               [|apply Safe_findUEProjectGlobally_detected];
                               kept_detected))
          ltac:(apply Anytime_findUEProjectGlobally).
Qed.

Ltac weaker lemma := eapply Safe_weaken; [|apply lemma]; kept_detected.

Ltac safe_detected_method :=
  safe_detected ltac:(first [ weaker Safe_findUEProjectGlobally_detected
                            | weaker Safe_refresh_detected ]).

Ltac anytime_method :=
  anytime ltac:(idtac; safe_detected_method)
          ltac:(first [ apply Anytime_findUEProjectGlobally | apply Anytime_refresh ]).

Lemma Safe_onInterval_detected : Safe Detected Detected Provider.onInterval.
Proof. unfold Provider.onInterval. cbv zeta. safe_detected_method. Qed.

Lemma Anytime_onInterval : Anytime Detected Provider.onInterval.
Proof. unfold Provider.onInterval. cbv zeta. anytime_method. Qed.

Lemma Anytime_redetectProject : Anytime Detected Provider._redetectProject.
Proof. unfold Provider._redetectProject. anytime_method. Qed.

Lemma Safe_onDidReceiveMessage_detected :
  forall data,
    data <> Provider.Redetect -> Safe Detected Detected (Provider.onDidReceiveMessage data).
Proof.
  intros data Hdata.
  unfold Provider.onDidReceiveMessage, Provider.selectUEPath, Provider.selectProjectPath.
  destruct data; try congruence; safe_detected_method.
Qed.

Lemma Anytime_onDidReceiveMessage :
  forall data, Anytime Detected (Provider.onDidReceiveMessage data).
Proof.
  intro data. unfold Provider.onDidReceiveMessage, Provider.selectUEPath, Provider.selectProjectPath.
  anytime ltac:(idtac; safe_detected_method)
          ltac:(first [ apply Anytime_refresh | apply Anytime_redetectProject ]).
Qed.

Lemma Safe_onDidChangeVisibility_detected :
  forall visible, Safe Detected Detected (Provider.onDidChangeVisibility visible).
Proof. intro visible. unfold Provider.onDidChangeVisibility. safe_detected_method. Qed.

Lemma Anytime_onDidChangeVisibility :
  forall visible, Anytime Detected (Provider.onDidChangeVisibility visible).
Proof. intro visible. unfold Provider.onDidChangeVisibility. anytime_method. Qed.

Lemma Safe_resolveWebviewView_detected : Safe Detected Detected Provider.resolveWebviewView.
Proof. unfold Provider.resolveWebviewView. safe_detected_method. Qed.

Lemma Anytime_resolveWebviewView : Anytime Detected Provider.resolveWebviewView.
Proof. unfold Provider.resolveWebviewView. anytime_method. Qed.

(** *** Along the events *)

Lemma park_resumes :
  forall (r : Provider.Res unit) (ps : list Provider.Pending),
    Resumes Detected r ->
    HostResumes Detected {| Provider.panel := Provider.panel (Provider.park r ps); Provider.parked := ps |} ->
    HostResumes Detected (Provider.park r ps).
Proof.
  intros [a p|e p|id q k p] ps Hr Hps; simpl in *; try exact Hps.
  unfold HostResumes in *. simpl in *.
  apply Forall_app. split; [exact Hps|]. constructor; [exact Hr|constructor].
Qed.

Lemma filter_resumes :
  forall (f : Provider.Pending -> bool) (p p' : Provider.Panel) (ps : list Provider.Pending),
    HostResumes Detected {| Provider.panel := p; Provider.parked := ps |} ->
    HostResumes Detected {| Provider.panel := p'; Provider.parked := filter f ps |}.
Proof.
  intros f p p' ps H. unfold HostResumes in *. simpl in *.
  induction H as [|q ps Hq Hps IH]; simpl; [constructor|].
  destruct (f q); [constructor; assumption|exact IH].
Qed.

Lemma step_resumes :
  forall (h : Provider.Host) (e : Provider.Event),
    HostResumes Detected h -> HostResumes Detected (Provider.step h e).
Proof.
  intros h e Hps.
  destruct e as [|data|visible|id|id o|c|f|e]; cbv beta iota zeta delta [Provider.step].
  - apply park_resumes; [apply Anytime_resolveWebviewView|exact Hps].
  - destruct (Provider.listening (Provider.panel h)); [|exact Hps].
    apply park_resumes; [apply Anytime_onDidReceiveMessage|exact Hps].
  - destruct (Provider.listening (Provider.panel h)); [|exact Hps].
    apply park_resumes; [apply Anytime_onDidChangeVisibility|exact Hps].
  - destruct (existsb (Nat.eqb id) (Provider.intervals (Provider.panel h))); [|exact Hps].
    apply park_resumes; [apply Anytime_onInterval|exact Hps].
  - destruct (find (Provider.awaits id) (Provider.parked h)) as [q|] eqn:E; [|exact Hps].
    destruct (find_some _ _ E) as [Hin _].
    apply park_resumes.
    + apply (proj1 (Forall_forall _ _) Hps q Hin).
    + apply (filter_resumes _ (Provider.panel h)). exact Hps.
  - exact Hps.
  - exact Hps.
  - destruct (Provider.outside e); exact Hps.
Qed.

Lemma run_resumes :
  forall (ex : string -> bool) (ue : string -> option string) (c : PartialConfig)
         (f : option string) (es : list Provider.Event),
    HostResumes Detected (Provider.run (Provider.initialHost ex ue c f) es).
Proof.
  intros ex ue c f es.
  assert (H : forall h, HostResumes Detected h -> HostResumes Detected (Provider.run h es)).
  { unfold Provider.run. induction es as [|e es IH]; intros h Hh; simpl; [exact Hh|].
    apply IH. apply step_resumes. exact Hh. }
  apply H. constructor.
Qed.

Lemma step_detected :
  forall (h : Provider.Host) (e : Provider.Event),
    is_redetect e = false ->
    HostResumes Detected h -> Detected (Provider.panel h) -> Detected (Provider.panel (Provider.step h e)).
Proof.
  intros h e He Hps Hp.
  assert (Hpark : forall r ps, Keeps Detected r -> Detected (Provider.panel (Provider.park r ps))).
  { intros [a p|e' p|id q k p] ps Hr; simpl in *; tauto. }
  destruct e as [|data|visible|id|id o|c|f|e]; cbv beta iota zeta delta [Provider.step].
  - apply Hpark. apply Safe_resolveWebviewView_detected. exact Hp.
  - destruct (Provider.listening (Provider.panel h)); [|exact Hp].
    apply Hpark. apply Safe_onDidReceiveMessage_detected; [|exact Hp].
    intros ->. discriminate He.
  - destruct (Provider.listening (Provider.panel h)); [|exact Hp].
    apply Hpark. apply Safe_onDidChangeVisibility_detected. exact Hp.
  - destruct (existsb (Nat.eqb id) (Provider.intervals (Provider.panel h))); [|exact Hp].
    apply Hpark. apply Safe_onInterval_detected. exact Hp.
  - destruct (find (Provider.awaits id) (Provider.parked h)) as [q|] eqn:E; [|exact Hp].
    destruct (find_some _ _ E) as [Hin _].
    apply Hpark. apply (proj1 (Forall_forall _ _) Hps q Hin).
    destruct (Provider.promise q) as [|cmd|key value|title]; destruct o as [v|err];
      simpl; exact Hp.
  - exact Hp.
  - exact Hp.
  - destruct (Provider.outside e); exact Hp.
Qed.

(** X20: once the project counts as detected and no detection interval is
    set, no interval is set again, whatever happens (the project path may
    even be removed from the settings, and searches may fail), until the
    webview asks to redetect: [_projectDetected] stays set and no interval
    exists. *)
Theorem no_continuous_detection_once_detected :
  forall (ex : string -> bool) (ue : string -> option string) (c : PartialConfig)
         (f : option string) (es es' : list Provider.Event),
    let h := Provider.run (Provider.initialHost ex ue c f) es in
    let p' := Provider.panel (Provider.run h es') in
    Provider._projectDetected (Provider.panel h) = true ->
    Provider._detectionInterval (Provider.panel h) = None ->
    forallb (fun e => negb (is_redetect e)) es' = true ->
    Provider._projectDetected p' = true /\ Provider._detectionInterval p' = None /\ Provider.intervals p' = [].
Proof.
  intros ex ue c f es es' h p' Hpd Hdi Hes.
  assert (H0 : HostResumes Detected h) by apply run_resumes.
  assert (H1 : Detected (Provider.panel h)).
  { split; [exact Hpd|]. split; [exact Hdi|].
    pose proof (proj1 (run_keeps ex ue c f es)) as Hone. fold h in Hone.
    unfold OneInterval in Hone. rewrite Hdi in Hone. exact Hone. }
  unfold p'. clear p'. clearbody h. clear Hpd Hdi.
  revert h H0 H1. unfold Provider.run.
  induction es' as [|e es' IH]; intros h H0 H1; simpl; [exact H1|].
  simpl in Hes. apply andb_true_iff in Hes. destruct Hes as [He Hes].
  apply negb_true_iff in He.
  apply IH; [exact Hes|apply step_resumes; exact H0|apply step_detected; assumption].
Qed.

(** The witness: the project path is removed from the settings, and the
    search of the next refresh finds nothing. *)
Lemma no_continuous_detection_once_detected_witness :
  let h := Provider.run (Provider.initialHost Sample.ex Sample.ue (Sample.settings "Shipping")
                    (Some "C:\Proj"))
             [Provider.Resolve; Provider.Settle 1 (Provider.Resolves (Some "page"))] in
  let p' :=
    Provider.panel
      (Provider.run h
         [Provider.Settings {| p_uePath := Some Sample.editor; p_projectPath := None;
                        p_buildConfiguration := None |};
          Provider.Receive Provider.Refresh; Provider.Settle 2 (Provider.Resolves (Some EmptyString));
          Provider.Visibility true; Provider.Settle 3 (Provider.Rejects "dir failed")]) in
  Provider._projectDetected p' = true /\ Provider._detectionInterval p' = None /\ Provider.intervals p' = [].
Proof.
  apply (no_continuous_detection_once_detected Sample.ex Sample.ue
           (Sample.settings "Shipping") (Some "C:\Proj")
           [Provider.Resolve; Provider.Settle 1 (Provider.Resolves (Some "page"))]
           [Provider.Settings {| p_uePath := Some Sample.editor; p_projectPath := None;
                          p_buildConfiguration := None |};
            Provider.Receive Provider.Refresh; Provider.Settle 2 (Provider.Resolves (Some EmptyString));
            Provider.Visibility true; Provider.Settle 3 (Provider.Rejects "dir failed")]);
    reflexivity.
Defined.

(** ** The life of the detection interval *)

(** X21: in a state with the panel resolved where nothing is known of the
    project and nothing searches for it, a refresh sets the detection
    interval at once, and a tick of it changes nothing while there is
    neither a project path in the settings nor a workspace folder.  Once
    the settings hold a project path, the next tick clears the interval,
    sets [_projectDetected] and hands the settings to the managers; further
    ticks of the cleared interval are ignored. *)
Theorem continuous_detection_starts_and_stops :
  forall (h : Provider.Host) (c : PartialConfig),
    let id := Provider.nextHandle (Provider.panel h) in
    let h1 := Provider.step h (Provider.Receive Provider.Refresh) in
    let h2 := Provider.step (Provider.step h1 (Provider.Settings c)) (Provider.Tick id) in
    Searching (Provider.panel h) ->
    falsy (Provider.get (p_projectPath c) EmptyString) = false ->
    (Provider.parked h1 = Provider.parked h /\
     Provider._detectionInterval (Provider.panel h1) = Some id /\ Provider.intervals (Provider.panel h1) = [id] /\
     Provider.intervals (Provider.panel (Provider.step h1 (Provider.Tick id))) = [id]) /\
    (Provider.parked h2 = Provider.parked h /\
     Provider._detectionInterval (Provider.panel h2) = None /\ Provider.intervals (Provider.panel h2) = [] /\
     Provider._projectDetected (Provider.panel h2) = true /\
     config (world (Provider.managers (Provider.panel h2))) = configured c /\
     Provider.step h2 (Provider.Tick id) = h2).
Proof.
  intros h c id h1 h2 (Hlis & Hview & Hpath & Hwf & Hdi & Hpd & Hints) Hc.
  destruct h as [[[w ps] view isDet di pd lis st wf ints nh] parked].
  destruct w as [cfg cv bv ib bp dv idb dp ex ue procs nid l].
  destruct st as [sue spp sbc]. destruct c as [cue cpp cbc].
  cbn in Hlis, Hview, Hpath, Hwf, Hdi, Hpd, Hints, Hc, id.
  subst lis view wf di pd ints id.
  destruct cpp as [[|c0 cp]|]; try discriminate Hc. clear Hc.
  destruct spp as [[|s0 sp]|]; try discriminate Hpath; clear Hpath.
  all: destruct cv.
  all: remember (Provider.step _ (Provider.Receive Provider.Refresh)) as k1 eqn:E1 in h1;
    cbv -[String.append app last Nat.eqb first_project dir_command] in E1;
    subst k1.
  all: remember (Provider.step h1 (Provider.Tick nh)) as t1 eqn:T1;
    unfold h1 in T1;
    cbv -[String.append app last Nat.eqb first_project dir_command] in T1;
    rewrite ?Nat.eqb_refl in T1;
    cbv -[String.append app last Nat.eqb first_project dir_command] in T1;
    subst t1.
  all: remember (Provider.step h1 (Provider.Settings _)) as k2 eqn:E2 in h2;
    unfold h1 in E2;
    cbv -[String.append app last Nat.eqb first_project dir_command] in E2;
    subst k2.
  all: remember (Provider.step _ (Provider.Tick nh)) as k3 eqn:E3 in h2;
    cbv -[String.append app last Nat.eqb first_project dir_command] in E3;
    rewrite ?Nat.eqb_refl in E3;
    cbv -[String.append app last Nat.eqb first_project dir_command] in E3;
    rewrite ?Nat.eqb_refl in E3;
    cbv -[String.append app last Nat.eqb first_project dir_command] in E3;
    subst k3.
  all: unfold h2, h1.
  all: cbv -[String.append app last Nat.eqb first_project dir_command].
  all: repeat split; try reflexivity.
Qed.

(** The witness: the panel is resolved in a workspace folder without
    project path, and the folder is then closed. *)
Lemma continuous_detection_starts_and_stops_witness :
  let h := Provider.run
             (Provider.initialHost Sample.ex Sample.ue
                {| p_uePath := Some Sample.editor; p_projectPath := None;
                   p_buildConfiguration := None |}
                (Some "C:\Proj"))
             [Provider.Resolve; Provider.Settle 1 (Provider.Resolves (Some "page")); Provider.Folder None] in
  let c := Sample.settings "Development" in
  let id := Provider.nextHandle (Provider.panel h) in
  let h1 := Provider.step h (Provider.Receive Provider.Refresh) in
  let h2 := Provider.step (Provider.step h1 (Provider.Settings c)) (Provider.Tick id) in
  (Provider.parked h1 = Provider.parked h /\
   Provider._detectionInterval (Provider.panel h1) = Some id /\ Provider.intervals (Provider.panel h1) = [id] /\
   Provider.intervals (Provider.panel (Provider.step h1 (Provider.Tick id))) = [id]) /\
  (Provider.parked h2 = Provider.parked h /\
   Provider._detectionInterval (Provider.panel h2) = None /\ Provider.intervals (Provider.panel h2) = [] /\
   Provider._projectDetected (Provider.panel h2) = true /\
   config (world (Provider.managers (Provider.panel h2))) = configured c /\
   Provider.step h2 (Provider.Tick id) = h2).
Proof.
  apply (continuous_detection_starts_and_stops
           (Provider.run
              (Provider.initialHost Sample.ex Sample.ue
                 {| p_uePath := Some Sample.editor; p_projectPath := None;
                    p_buildConfiguration := None |}
                 (Some "C:\Proj"))
              [Provider.Resolve; Provider.Settle 1 (Provider.Resolves (Some "page")); Provider.Folder None])
           (Sample.settings "Development")).
  - repeat split.
  - reflexivity.
Defined.

(** * Further properties: a clean whose removals are fulfilled *)

Lemma FT_bind_S :
  forall R G {A B} n P (m : Async A) (f : A -> Async B) Q1 Q,
    FT R G 1 P m Q1 -> (forall a, FT R G n (Q1 a) (f a) Q) -> FT R G (S n) P (bind m f) Q.
Proof.
  intros R G A B n P m f Q1 Q Hm Hf w Hw. unfold bind.
  change (S n) with (1 + n). eapply Fulfilled_bind; [apply Hm; exact Hw|].
  intros a w' Hq. apply Hf. exact Hq.
Qed.

Lemma FT_Quiet :
  forall R G {A} (P : World -> Prop) (m : Async A),
    Stable P -> Quiet m -> FT R G 0 P m (fun _ => P).
Proof.
  intros R G A P m HP Hm w Hw. destruct (Hm w) as (a & l & E & Hl).
  rewrite E. simpl. apply HP; auto.
Qed.

Lemma Cleaning_Stable : forall cfg ex view busy, Stable (Cleaning cfg ex view busy).
Proof. intros cfg ex view busy w l _ H. exact H. Qed.

Lemma Cleaning_set_isBuilding :
  forall cfg ex view b busy,
    FT removes Grm 0 (Cleaning cfg ex view busy) (modify (set_isBuilding b))
      (fun _ => Cleaning cfg ex view b).
Proof.
  intros cfg ex view b busy. apply FT_modify.
  intros w (H1 & H2 & H3 & H4). unfold Cleaning. simpl. auto.
Qed.

Lemma Cleaning_fs_rm :
  forall cfg ex view busy path,
    FT removes Grm 1 (Cleaning cfg ex view busy) (fs_rm path)
      (fun _ => Cleaning cfg (removed path ex) view busy).
Proof.
  intros cfg ex view busy path w (H1 & H2 & H3 & H4).
  unfold fs_rm, fresh, emit, modify, await, bind. simpl.
  split; [exact I|]. intros w' ->. unfold Cleaning. simpl. rewrite H2. auto.
Qed.

Lemma Cleaning_succeeded :
  forall cfg ex view busy line,
    FT removes Grm 0 (Cleaning cfg ex view busy) (BuildManager.succeeded line "清理完成")
      (fun _ w => Cleaning cfg ex view false w /\ Cleaned view w).
Proof.
  intros cfg ex view busy line w (H1 & H2 & H3 & H4).
  unfold BuildManager.succeeded, BuildManager.postMessage, appendLine,
    showInformationMessage, emit, modify, gets, bind. simpl. rewrite H3.
  destruct view; simpl; unfold Cleaning, Cleaned; simpl; rewrite ?last_last; auto 10.
Qed.

Ltac clean_known :=
  let w := fresh "w" in
  let H1 := fresh in let H2 := fresh in let H3 := fresh in let H4 := fresh in
  intros w (H1 & H2 & H3 & H4); cbv beta;
  try rewrite H1; try rewrite H2; try rewrite H3; try rewrite H4;
  first [eassumption | reflexivity].

Ltac clean_walk :=
  lazymatch goal with
  | |- FT _ _ _ _ (try_catch _ _) _ => apply FT_try_catch; clean_walk
  | |- FT _ _ _ _ (bind (gets _) _) _ =>
      eapply FT_known; [clean_known|]; lazy beta iota; clean_walk
  | |- FT _ _ _ _ (bind (modify (set_isBuilding _)) _) _ =>
      eapply FT_bind0; [apply Cleaning_set_isBuilding|intro; clean_walk]
  | |- FT _ _ _ _ (fs_rm _) _ => apply Cleaning_fs_rm
  | |- FT _ _ _ _ (BuildManager.succeeded _ _) _ => apply Cleaning_succeeded
  | |- FT _ _ _ _ (bind _ _) _ =>
      first
        [ eapply FT_bind0;
          [apply FT_Quiet; [apply Cleaning_Stable|solve [auto with quiet]]|];
          intro; clean_walk
        | eapply FT_bind_S; [clean_walk|intro; clean_walk] ]
  end.

Lemma removed_gone : forall p ex, removed p ex p = false.
Proof. intros p ex. unfold removed. rewrite String.eqb_refl. reflexivity. Qed.

Lemma removed_absent : forall p ex q, ex q = false -> removed p ex q = false.
Proof. intros p ex q H. unfold removed. rewrite H. destruct (String.eqb q p); reflexivity. Qed.

Lemma cleared_gone : forall p ex, cleared p ex p = false.
Proof.
  intros p ex. unfold cleared. destruct (ex p) eqn:E; [apply removed_gone|exact E].
Qed.

Lemma cleared_absent : forall p ex q, ex q = false -> cleared p ex q = false.
Proof.
  intros p ex q H. unfold cleared. destruct (ex p); [apply removed_absent|]; exact H.
Qed.

(** [cleanSolution], from an idle manager with a valid configuration: it
    awaits one removal for each directory that is there when it looks. *)
Lemma cleanSolution_removes :
  forall cfg ex view,
    valid (validateConfig ex cfg) = true ->
    let inter := Path.join [getProjectDir cfg; "Intermediate"] in
    let bin := Path.join [getProjectDir cfg; "Binaries"] in
    let saved := Path.join [getProjectDir cfg; "Saved"; "StagedBuilds"] in
    let ex1 := cleared inter ex in
    let ex2 := cleared bin ex1 in
    FT removes Grm (Nat.b2n (ex inter) + Nat.b2n (ex1 bin) + Nat.b2n (ex2 saved))
      (Cleaning cfg ex view false) BuildManager.cleanSolution
      (fun _ w => Cleaning cfg (cleared saved ex2) view false w /\ Cleaned view w).
Proof.
  intros cfg ex view Hv inter bin saved ex1 ex2.
  unfold BuildManager.cleanSolution, getConfig, validateConfigM, getProjectDirM,
    getProjectNameM, fs_existsSync.
  cbv zeta. fold inter bin saved.
  eapply FT_known; [clean_known|]. lazy beta iota.
  eapply FT_known; [clean_known|]. lazy beta.
  eapply FT_known; [clean_known|]. lazy beta. rewrite Hv. lazy beta iota delta [negb].
  unfold ex2, ex1, cleared.
  destruct (ex inter) eqn:Ha.
  all: match goal with
       | |- FT _ _ (_ + Nat.b2n ?b + _) _ _ _ => destruct b eqn:Hb
       end.
  all: lazy beta iota.
  all: match goal with
       | |- FT _ _ (_ + _ + Nat.b2n ?c) _ _ _ => destruct c eqn:Hc
       end.
  all: lazy beta iota.
  all: cbn [Nat.b2n Nat.add].
  all: clean_walk.
Qed.

Lemma removals_fulfilled :
  forall n m (Q : unit -> World -> Prop) (r : Res unit),
    n <= m ->
    Fulfilled removes Grm n Q r ->
    pending (removals m (park r [])) = [] /\ Q tt (world (removals m (park r []))).
Proof.
  induction n as [|n IH]; intros m Q r Hm Hr.
  - destruct r as [[] w|e w|q k w]; try contradiction.
    simpl park. destruct m; simpl; auto.
  - destruct r as [a w|e w|q k w]; try contradiction.
    destruct Hr as [Hg Hk]. destruct q as [id path|pid]; [|contradiction].
    destruct m as [|m]; [lia|].
    assert (E : removals (S m) (park (Susp (WaitRm id path) k w) []) =
                removals m
                  (park (k None (set_fs (removed path (existsSync w)) (unlinkError w) w)) [])).
    { cbn [removals park pending app find waiting].
      unfold step, rm_path, settle. cbn [pending world find waits_rm waiting resume filter].
      rewrite Nat.eqb_refl. cbn [negb waiting resume]. reflexivity. }
    rewrite E. apply IH; [lia|]. apply Hk. reflexivity.
Qed.

(** X22: take a manager that is idle, with a valid configuration and nothing
    parked, and start [cleanSolution].  When the file system fulfils the
    removals it awaits (at most three), the clean has ended: nothing is
    parked, none of the Intermediate, Binaries and Saved/StagedBuilds
    directories of the project exists, the configuration is as it was, the
    run flag is cleared and the success is reported. *)
Theorem clean_removes_the_folders :
  forall s : State,
    let w := world s in
    let dir := getProjectDir (config w) in
    let s' := removals 3 (step s (Receive CleanSolution)) in
    pending s = [] ->
    isBuilding w = false ->
    valid (validateConfig (existsSync w) (config w)) = true ->
    pending s' = [] /\
    Cleaned (buildView w) (world s') /\
    config (world s') = config w /\
    existsSync (world s') (Path.join [dir; "Intermediate"]) = false /\
    existsSync (world s') (Path.join [dir; "Binaries"]) = false /\
    existsSync (world s') (Path.join [dir; "Saved"; "StagedBuilds"]) = false.
Proof.
  intros s w dir s' Hp Hidle Hvalid.
  pose proof (cleanSolution_removes (config w) (existsSync w) (buildView w) Hvalid w) as H.
  cbv zeta in H. fold dir in H.
  set (inter := Path.join [dir; "Intermediate"]) in *.
  set (bin := Path.join [dir; "Binaries"]) in *.
  set (saved := Path.join [dir; "Saved"; "StagedBuilds"]) in *.
  assert (Hw : Cleaning (config w) (existsSync w) (buildView w) false w)
    by (repeat split; assumption).
  specialize (H Hw).
  eapply (removals_fulfilled _ 3) in H.
  2: { destruct (existsSync w inter), (cleared inter (existsSync w) bin),
         (cleared bin (cleared inter (existsSync w)) saved); simpl; lia. }
  unfold s', step. cbn [method]. fold w. rewrite Hp.
  destruct H as [Hpend ((Hcfg & Hex & _ & _) & Hdone)].
  split; [exact Hpend|]. split; [exact Hdone|]. split; [exact Hcfg|].
  rewrite Hex. repeat split.
  - apply cleared_absent, cleared_absent, cleared_gone.
  - apply cleared_absent, cleared_gone.
  - apply cleared_gone.
Qed.

(** The witness: the sample installation, whose project has a Binaries
    directory. *)
Lemma clean_removes_the_folders_witness :
  let s := Sample.ready "Development" in
  let w := world s in
  let dir := getProjectDir (config w) in
  let s' := removals 3 (step s (Receive CleanSolution)) in
  pending s' = [] /\
  Cleaned (buildView w) (world s') /\
  config (world s') = config w /\
  existsSync (world s') (Path.join [dir; "Intermediate"]) = false /\
  existsSync (world s') (Path.join [dir; "Binaries"]) = false /\
  existsSync (world s') (Path.join [dir; "Saved"; "StagedBuilds"]) = false.
Proof.
  apply (clean_removes_the_folders (Sample.ready "Development")).
  - reflexivity.
  - reflexivity.
  - reflexivity.
Defined.

(** ** Choosing a path *)

Lemma settle_last :
  forall p ps id q k o,
    Forall (fun x => Provider.handle x < id) ps ->
    Provider.step
      {| Provider.panel := p;
         Provider.parked :=
           (ps ++ [{| Provider.handle := id; Provider.promise := q; Provider.resume := k |}])%list |}
      (Provider.Settle id o) =
    Provider.park (k o (Provider.settled q o p)) ps.
Proof.
  intros p ps id q k o Hps.
  assert (Hnone : forall x, In x ps -> Provider.awaits id x = false).
  { intros x Hx. rewrite Forall_forall in Hps. specialize (Hps x Hx).
    unfold Provider.awaits. apply Nat.eqb_neq. lia. }
  unfold Provider.step. cbn [Provider.panel Provider.parked].
  assert (Hfind : forall l, (forall x, In x l -> Provider.awaits id x = false) ->
            find (Provider.awaits id)
              (l ++ [{| Provider.handle := id; Provider.promise := q; Provider.resume := k |}]) =
            Some {| Provider.handle := id; Provider.promise := q; Provider.resume := k |}).
  { induction l as [|x l IH]; intro H; simpl.
    - unfold Provider.awaits at 1. simpl. rewrite Nat.eqb_refl. reflexivity.
    - rewrite (H x (or_introl eq_refl)). apply IH. intros y Hy. apply H. right. exact Hy. }
  rewrite (Hfind ps Hnone). cbn [Provider.resume Provider.promise].
  f_equal. rewrite filter_app. simpl. unfold Provider.awaits at 2. simpl.
  rewrite Nat.eqb_refl. simpl. rewrite app_nil_r.
  clear Hfind Hps. induction ps as [|x l IH]; simpl; [reflexivity|].
  rewrite (Hnone x (or_introl eq_refl)). simpl. f_equal. apply IH.
  intros y Hy. apply Hnone. right. exact Hy.
Qed.

(** X23: a request of the webview to choose the editor or the project
    path, with the panel resolved.  It opens the dialog; when that is
    dismissed, nothing is saved and the panel is refreshed as it is.  With a
    file chosen, the update of the setting is awaited, the settings still as
    they were; if the update is rejected, nothing is refreshed and the panel
    stays as it is.  Once the update is fulfilled, the settings hold the
    chosen path and the refresh that follows uses them: with a project path
    in them, they become the configuration of the managers and the project
    counts as detected.  (The promises that are parked already have handles
    given out before.) *)
Theorem selected_path_is_saved_then_used :
  forall (h : Provider.Host) (key : Provider.Setting) (path : string),
    let id := Provider.nextHandle (Provider.panel h) in
    let saved := Provider.write key path (Provider.settings (Provider.panel h)) in
    let h1 := Provider.step h (Provider.Receive (select_request key)) in
    let h2 := Provider.step h1 (Provider.Settle id (Provider.Resolves (Some path))) in
    let h3 := Provider.step h2 (Provider.Settle (S id) (Provider.Resolves None)) in
    Provider.listening (Provider.panel h) = true ->
    Provider._view (Provider.panel h) = true ->
    FreshHandles h ->
    falsy (Provider.get (p_projectPath saved) EmptyString) = false ->
    (awaited h1 = (awaited h ++ [(id, Provider.OpenDialog (dialog_title key))])%list /\
     Provider.step h1 (Provider.Settle id (Provider.Resolves None)) =
       Provider.park (Provider._refresh (Provider.panel h1)) (Provider.parked h)) /\
    (awaited h2 = (awaited h ++ [(S id, Provider.UpdateSetting key path)])%list /\
     Provider.settings (Provider.panel h2) = Provider.settings (Provider.panel h) /\
     forall e,
       Provider.step h2 (Provider.Settle (S id) (Provider.Rejects e)) =
         {| Provider.panel := Provider.panel h2; Provider.parked := Provider.parked h |}) /\
    (Provider.parked h3 = Provider.parked h /\
     Provider.settings (Provider.panel h3) = saved /\
     config (world (Provider.managers (Provider.panel h3))) = configured saved /\
     Provider._projectDetected (Provider.panel h3) = true).
Proof.
  intros [p ps] key path id saved h1 h2 h3 Hlis Hview Hfresh Hpath.
  cbn [Provider.panel Provider.parked] in *. unfold FreshHandles in Hfresh.
  cbn [Provider.panel Provider.parked] in Hfresh.
  assert (E1 : exists p1 k1,
             h1 = {| Provider.panel := p1;
                     Provider.parked :=
                       (ps ++ [{| Provider.handle := id;
                                  Provider.promise := Provider.OpenDialog (dialog_title key);
                                  Provider.resume := k1 |}])%list |} /\
             Provider.settings p1 = Provider.settings p /\
             Provider._view p1 = true /\
             Provider.nextHandle p1 = S id /\
             (forall p', k1 (Provider.Resolves None) p' = Provider._refresh p') /\
             (forall p', exists k2,
                 k1 (Provider.Resolves (Some path)) p' =
                   Provider.Susp (Provider.nextHandle p') (Provider.UpdateSetting key path) k2
                     (Provider.set_nextHandle (S (Provider.nextHandle p')) p') /\
                 (forall e p'', k2 (Provider.Rejects e) p'' = Provider.Exn e p'') /\
                 (forall v p'', exists p3,
                     k2 (Provider.Resolves v) p'' = Provider._refresh p3 /\
                     Provider.settings p3 = Provider.settings p'' /\
                     Provider._view p3 = Provider._view p''))).
  { unfold h1, Provider.step. cbn [Provider.panel Provider.parked]. rewrite Hlis.
    destruct key; cbn [select_request dialog_title];
      unfold Provider.onDidReceiveMessage, Provider.selectUEPath, Provider.selectProjectPath,
        Provider.console_log, Provider.call, Provider.bind, Provider.modify, Provider.await;
      cbn [Provider.bindRes Provider.park Provider.nextHandle Provider.set_managers];
      (eexists; eexists; split; [reflexivity|]);
      cbn [Provider.settings Provider._view Provider.nextHandle Provider.set_nextHandle
             Provider.set_managers];
      (split; [reflexivity|]); (split; [exact Hview|]); (split; [reflexivity|]);
      (split; [intro p'; reflexivity|]);
      intro p'; cbn [Provider.bindRes]; (eexists; split; [reflexivity|]);
      (split; [intros e p''; reflexivity|]);
      intros v p''; cbn [Provider.bindRes]; (eexists; split; [reflexivity|]);
      split; reflexivity. }
  destruct E1 as (p1 & k1 & E1 & Hs1 & Hv1 & Hn1 & Knone & Ksome).
  assert (E1' : Provider.step h1 (Provider.Settle id (Provider.Resolves None)) =
                Provider.park (Provider._refresh p1) ps).
  { rewrite E1, settle_last by exact Hfresh. cbn [Provider.settled]. rewrite Knone. reflexivity. }
  destruct (Ksome p1) as (k2 & Ek2 & Krej & Kres).
  assert (E2 : h2 = {| Provider.panel := Provider.set_nextHandle (S (S id)) p1;
                       Provider.parked :=
                         (ps ++ [{| Provider.handle := S id;
                                    Provider.promise := Provider.UpdateSetting key path;
                                    Provider.resume := k2 |}])%list |}).
  { unfold h2. rewrite E1, settle_last by exact Hfresh. cbn [Provider.settled].
    rewrite Ek2, Hn1. reflexivity. }
  assert (Hfresh2 : Forall (fun x => Provider.handle x < S id) ps).
  { eapply Forall_impl; [|exact Hfresh]. cbv beta. intros. lia. }
  split; [|split].
  - split.
    + rewrite E1. unfold awaited. cbn [Provider.parked]. rewrite map_app. reflexivity.
    + rewrite E1'. rewrite E1. reflexivity.
  - split; [|split].
    + rewrite E2. unfold awaited. cbn [Provider.parked]. rewrite map_app. reflexivity.
    + rewrite E2. cbn [Provider.panel]. destruct p1; exact Hs1.
    + intro e. rewrite E2. rewrite settle_last by exact Hfresh2. cbn [Provider.settled].
      rewrite Krej. reflexivity.
  - unfold h3. rewrite E2, settle_last by exact Hfresh2. cbn [Provider.settled].
    destruct (Kres None (Provider.set_settings
                           (Provider.write key path
                              (Provider.settings (Provider.set_nextHandle (S (S id)) p1)))
                           (Provider.set_nextHandle (S (S id)) p1)))
      as (p3 & E3 & Hs3 & Hv3).
    rewrite E3.
    assert (Hs3' : Provider.settings p3 = saved).
    { rewrite Hs3. destruct p1. cbn in Hs1 |- *. rewrite Hs1. reflexivity. }
    assert (Hv3' : Provider._view p3 = true).
    { rewrite Hv3. destruct p1. exact Hv1. }
    destruct (refresh_configured p3 Hv3') as (p' & E' & F1 & F2 & F3 & F4 & F5 & F6 & F7 & F8).
    { rewrite Hs3'. exact Hpath. }
    rewrite E'. cbn [Provider.park Provider.panel Provider.parked].
    rewrite F4, F7, Hs3'. auto.
Qed.

(** The witness: in the sample installation, with the panel resolved,
    another project is chosen. *)
Lemma selected_path_is_saved_then_used_witness :
  let h := Provider.run
             (Provider.initialHost Sample.ex Sample.ue (Sample.settings "Development") None)
             [Provider.Resolve; Provider.Settle 1 (Provider.Resolves (Some "page"))] in
  let key := Provider.ProjectPathSetting in
  let path := "C:\Other\Other.uproject" in
  let id := Provider.nextHandle (Provider.panel h) in
  let saved := Provider.write key path (Provider.settings (Provider.panel h)) in
  let h1 := Provider.step h (Provider.Receive (select_request key)) in
  let h2 := Provider.step h1 (Provider.Settle id (Provider.Resolves (Some path))) in
  let h3 := Provider.step h2 (Provider.Settle (S id) (Provider.Resolves None)) in
  (awaited h1 = (awaited h ++ [(id, Provider.OpenDialog (dialog_title key))])%list /\
   Provider.step h1 (Provider.Settle id (Provider.Resolves None)) =
     Provider.park (Provider._refresh (Provider.panel h1)) (Provider.parked h)) /\
  (awaited h2 = (awaited h ++ [(S id, Provider.UpdateSetting key path)])%list /\
   Provider.settings (Provider.panel h2) = Provider.settings (Provider.panel h) /\
   forall e,
     Provider.step h2 (Provider.Settle (S id) (Provider.Rejects e)) =
       {| Provider.panel := Provider.panel h2; Provider.parked := Provider.parked h |}) /\
  (Provider.parked h3 = Provider.parked h /\
   Provider.settings (Provider.panel h3) = saved /\
   config (world (Provider.managers (Provider.panel h3))) = configured saved /\
   Provider._projectDetected (Provider.panel h3) = true).
Proof.
  apply (selected_path_is_saved_then_used
           (Provider.run
              (Provider.initialHost Sample.ex Sample.ue (Sample.settings "Development") None)
              [Provider.Resolve; Provider.Settle 1 (Provider.Resolves (Some "page"))])
           Provider.ProjectPathSetting "C:\Other\Other.uproject").
  - vm_compute. reflexivity.
  - vm_compute. reflexivity.
  - unfold FreshHandles. vm_compute. constructor.
  - vm_compute. reflexivity.
Defined.

(** ** Cancelling a debug run *)

(** What [cancelDebug] does with a child process at hand. *)
Lemma cancelDebug_result :
  forall (w : World) (pid : nat),
    debugProcess w = Some pid ->
    exists w',
      DebugManager.cancelDebug w = Val tt w' /\
      log w' =
        (log w ++
         [ConsoleLog "[DebugManager] Cancelling debug process...";
          Spawn (nextId w) "taskkill" ["/F"; "/T"; "/PID"; string_of_nat pid]
            EmptyString false;
          ConsoleLog "[DebugManager] Debug process cancelled"] ++
         (if debugView w then [PostMessage MDebugCancelled] else []) ++
         [ShowInformationMessage "操作已取消"])%list /\
      isDebugging w' = false /\ debugProcess w' = None /\
      procs w' = procs w /\
      isBuilding w' = isBuilding w /\ buildProcess w' = buildProcess w.
Proof.
  intros w pid Hp.
  unfold DebugManager.cancelDebug, DebugManager.postMessage, showInformationMessage,
    try_catch, emit, when, fresh, bind, gets, modify. simpl.
  rewrite Hp. simpl.
  destruct (debugView w); simpl; eexists; (split; [reflexivity|]); simpl;
    repeat rewrite <- app_assoc; simpl; auto 10.
Qed.

(** X24: with a child process at hand, a [cancelDebug] request starts
    [taskkill /F /T /PID <pid>] on it, clears the debug flag and the process
    handle, posts [debugCancelled] when there is a view and shows the
    notification; the build manager is left as it is.  It resumes nothing:
    the operation that awaits the process stays parked until the process
    closes; closed with a code other than 0, the operation then reports the
    text [进程退出，代码: <code>], a line break and the captured stderr
    ([null] stands for the code of a process ended by a signal). *)
Theorem cancelDebug_kills_process_tree :
  forall (ex : string -> bool) (ue : string -> option string) (es : list Event)
         (pid : nat) (c : ProcCtx) (code : option Z),
    let s := run (initialState ex ue) es in
    let w := world s in
    let s1 := step s (Receive CancelDebug) in
    let s2 := step s1 (Close pid code) in
    lookup_proc pid (procs w) = Some c ->
    existsb (waits_process pid) (pending s) = true ->
    debugProcess w = Some pid ->
    code <> Some 0%Z ->
    (log (world s1) =
       (log w ++
        [ConsoleLog "[DebugManager] Cancelling debug process...";
         Spawn (nextId w) "taskkill" ["/F"; "/T"; "/PID"; string_of_nat pid]
           EmptyString false;
         ConsoleLog "[DebugManager] Debug process cancelled"] ++
        (if debugView w then [PostMessage MDebugCancelled] else []) ++
        [ShowInformationMessage "操作已取消"])%list /\
     isDebugging (world s1) = false /\ debugProcess (world s1) = None /\
     isBuilding (world s1) = isBuilding w /\ buildProcess (world s1) = buildProcess w /\
     pending s1 = pending s) /\
    pending s2 = filter (fun q => negb (waits_process pid q)) (pending s) /\
    reports_failure (world s1) (world s2)
      ("进程退出，代码: " ++
       match code with Some z => string_of_Z z | None => "null" end ++
       newline ++ stderr c).
Proof.
  intros ex ue es pid c code s w s1 s2 Hc Hp Hd Hcode.
  destruct (find (waits_process pid) (pending s)) as [p|] eqn:Hfind.
  2: { destruct (proj1 (existsb_exists _ _) Hp) as (q & Hin & Hq).
       rewrite (find_none _ _ Hfind q Hin) in Hq. discriminate Hq. }
  destruct (cancelDebug_result w pid Hd) as (w' & E & Hlog & Hflag & Hnone & Hprocs & Hb1 & Hb2).
  assert (H1 : s1 = {| world := w'; pending := pending s |}).
  { unfold s1. simpl. fold w. rewrite E. reflexivity. }
  assert (HG : Forall Guarded (pending s1)).
  { rewrite H1. simpl. apply run_Guarded. constructor. }
  destruct (close_with_failure s1 pid c p code HG) as [Hpend Hrep]; auto.
  - rewrite H1. simpl. rewrite Hprocs. exact Hc.
  - rewrite H1. simpl. exact Hfind.
  - subst s2. split; [|split].
    + rewrite H1. simpl. auto 10.
    + rewrite Hpend, H1. reflexivity.
    + exact Hrep.
Qed.

(** The witness: the compile run of [startDebug], cancelled and then closed
    without exit code. *)
Lemma cancelDebug_kills_process_tree_witness :
  let s := run (initialState Sample.ex Sample.ue)
             [SetView; UpdateConfig (Sample.settings "Development");
              Receive StartDebug; StderrData 1 "terminated"] in
  let w := world s in
  let s1 := step s (Receive CancelDebug) in
  let s2 := step s1 (Close 1 None) in
  (log (world s1) =
     (log w ++
      [ConsoleLog "[DebugManager] Cancelling debug process...";
       Spawn (nextId w) "taskkill" ["/F"; "/T"; "/PID"; string_of_nat 1]
         EmptyString false;
       ConsoleLog "[DebugManager] Debug process cancelled"] ++
      (if debugView w then [PostMessage MDebugCancelled] else []) ++
      [ShowInformationMessage "操作已取消"])%list /\
   isDebugging (world s1) = false /\ debugProcess (world s1) = None /\
   isBuilding (world s1) = isBuilding w /\ buildProcess (world s1) = buildProcess w /\
   pending s1 = pending s) /\
  pending s2 = filter (fun q => negb (waits_process 1 q)) (pending s) /\
  reports_failure (world s1) (world s2)
    ("进程退出，代码: null" ++ newline ++ "terminated").
Proof.
  apply (cancelDebug_kills_process_tree Sample.ex Sample.ue
           [SetView; UpdateConfig (Sample.settings "Development");
            Receive StartDebug; StderrData 1 "terminated"] 1
           {| owner := OwnerDebug; stdout := EmptyString; stderr := "terminated";
              currentProgress := 0%Q |} None).
  - reflexivity.
  - reflexivity.
  - reflexivity.
  - discriminate.
Defined.
